(** * pNode dashboard: node-data aggregation and derived-metrics pipeline

    A shallow embedding of the TypeScript pipeline that merges the pod
    list, the credits ledger and the geolocation batch into [PNode]
    records, gates them behind the persistent cache and derives the
    network metrics, together with the properties checked against it.

    Embedded sources:
    - [Utils]          features/pnodes/services/utils.ts (the same
                       helpers are repeated verbatim in lib/pnode-api.ts)
    - [PnodeApi]       lib/pnode-api.ts, the credits-first merge
    - [DerivedMetrics] lib/pnode-api.ts, the metric functions (the same
                       bodies serve server/api/network.ts and
                       server/api/decentralization.ts over the pod-list
                       merge)
    - [ServerPnodes]   server/api/pnodes.ts
    - [Features]       features/pnodes/services, the ledger-driven merge
                       with [transformPodToFull]
    - [Route]          app/api/pnode-data/route.ts
    - [Ingest]         server/api/pnodes.ts in its ingesting version
                       (ranking after sorting, statistics row)
    - [GeoBatch]       the same file, [fetchBatchGeolocation] with its
                       cache and its requests of 100 addresses
    - [FeaturesMerged] features/pnodes/services, [getMergedNodeData]
    - [StakingRoute]   app/api/staking-stats/route.ts
    - [FurtherMetrics] lib/pnode-api.ts, the rankings, the diversity
                       score, the version distribution, the gossip
                       health, the commission history and the epochs
    - [Cache]          lib/pnode-api.ts, the in-memory cache in front of
                       the credits ledger
    - [FeaturesReader] features/pnodes/services, [mapSupabaseToPNode]

    Modelling conventions.  A JavaScript number that the code only ever
    uses as an integer (hashes, credits, indices, ports, timestamps) is
    a [Z]; the other numbers are exact rationals [Q], and where a
    division may leave the finite numbers the result is a [JsNum.num]
    with [NaN] and the two infinities.  Rounding of IEEE doubles is not
    modelled.  [undefined]/[null] is [None]; the operator [x || d] is
    written with the [or_*] helpers, which also replace the falsy values
    [0] and the empty string.  The [history] arrays of a node (built
    with [Math.sin] and [Math.cos]) are left out of [PNode].  Unless a
    definition says otherwise, [Date.now()] reads one instant during a
    call. *)

From Stdlib Require Import ZArith QArith QArith.Qround Bool Lia List.
From Stdlib Require Import Strings.String Strings.Ascii Numbers.DecimalString.
From Stdlib Require Numbers.DecimalZ.
From Stdlib Require Import Sorting.Permutation Sorting.Sorted.
From stdpp Require Import base gmap strings.

Import ListNotations.
Local Open Scope string_scope.
Local Open Scope list_scope.
Local Open Scope Z_scope.

(** ** JavaScript helpers *)

Module JS.

(** [`${n}`] for an integer-valued number. *)
Definition number_to_string (n : Z) : string :=
  NilEmpty.string_of_int (Z.to_int n).

(** [x || d] on an optional string: [undefined] and [''] are falsy. *)
Definition or_str (x : option string) (d : string) : string :=
  match x with
  | Some s => if String.eqb s "" then d else s
  | None => d
  end.

(** [x || d] on an optional integer: [undefined] and [0] are falsy. *)
Definition or_Z (x : option Z) (d : Z) : Z :=
  match x with
  | Some n => if n =? 0 then d else n
  | None => d
  end.

(** [x || d] on an optional rational number. *)
Definition or_Q (x : option Q) (d : Q) : Q :=
  match x with
  | Some q => if Qeq_bool q 0 then d else q
  | None => d
  end.

(** Comparisons of rationals as booleans. *)
Definition Qgeb (a b : Q) : bool := Qle_bool b a.
Definition Qgtb (a b : Q) : bool := negb (Qle_bool a b).
Definition Qltb (a b : Q) : bool := negb (Qle_bool b a).

(** [Math.min] on finite numbers. *)
Definition Qmin (a b : Q) : Q := if Qle_bool a b then a else b.

(** [s.split(sep)[0]]: the text before the first separator. *)
Fixpoint before (sep : ascii) (s : string) : string :=
  match s with
  | EmptyString => EmptyString
  | String c s' => if Ascii.eqb c sep then EmptyString
                   else String c (before sep s')
  end.

Definition before_colon : string -> string := before ":".

(** [s.split(':')[1]]: the text between the first and the second
    colon, [undefined] without a colon. *)
Fixpoint after_colon (s : string) : option string :=
  match s with
  | EmptyString => None
  | String c s' => if Ascii.eqb c ":" then Some (before_colon s')
                   else after_colon s'
  end.

Definition truthy_str (s : string) : bool := negb (String.eqb s "").

Definition digit_value (c : ascii) : option Z :=
  let n := Z.of_N (N_of_ascii c) in
  if (48 <=? n) && (n <=? 57) then Some (n - 48) else None.

(** The value of the longest prefix of decimal digits, [None] when
    there is no digit. *)
Fixpoint digits_prefix (acc : option Z) (s : string) : option Z :=
  match s with
  | EmptyString => acc
  | String c s' =>
      match digit_value c with
      | Some d => digits_prefix (Some (10 * default 0 acc + d)) s'
      | None => acc
      end
  end.

Definition is_space (c : ascii) : bool :=
  let n := Z.of_N (N_of_ascii c) in
  ((9 <=? n) && (n <=? 13)) || (n =? 32).

Fixpoint skip_spaces (s : string) : string :=
  match s with
  | String c s' => if is_space c then skip_spaces s' else s
  | EmptyString => s
  end.

(** [parseInt(s)] on decimal text ([NaN] is [None]); the hexadecimal
    prefix is not modelled. *)
Definition parseInt (s : option string) : option Z :=
  match s with
  | None => None
  | Some s =>
      match skip_spaces s with
      | String "-" s' => Z.opp <$> digits_prefix None s'
      | String "+" s' => digits_prefix None s'
      | s' => digits_prefix None s'
      end
  end.

(** A [Map<string, V>] or [Record<string, V>] filled by assignment:
    iteration lists the keys in the order of their first assignment
    (the keys here are names, not array indices), each with its last
    value. *)
Fixpoint record_get {V : Type} (k : string) (m : list (string * V)) : option V :=
  match m with
  | [] => None
  | (k', v) :: m' => if String.eqb k k' then Some v else record_get k m'
  end.

Fixpoint record_set {V : Type} (k : string) (v : V) (m : list (string * V))
    : list (string * V) :=
  match m with
  | [] => [(k, v)]
  | (k', v') :: m' => if String.eqb k k' then (k, v) :: m'
                      else (k', v') :: record_set k v m'
  end.

(** [Array.prototype.sort(cmp)]: the sort is stable, so for a
    comparator that is a total preorder its result is the one of the
    stable insertion sort. [cmp a b <= 0] keeps [a] before [b]. *)
Section Sort.
Context {A : Type} (cmp : A -> A -> Z).

Fixpoint insert_sorted (x : A) (l : list A) : list A :=
  match l with
  | [] => [x]
  | y :: l' => if cmp x y <=? 0 then x :: y :: l'
               else y :: insert_sorted x l'
  end.

Fixpoint sort (l : list A) : list A :=
  match l with
  | [] => []
  | x :: l' => insert_sorted x (sort l')
  end.
End Sort.

(** [arr.map((x, index) => f(x, index))]. *)
Section MapIndex.
Context {A B : Type} (f : A -> Z -> B).

Fixpoint mapi_from (i : Z) (l : list A) : list B :=
  match l with
  | [] => []
  | x :: l' => f x i :: mapi_from (i + 1) l'
  end.

Definition mapi (l : list A) : list B := mapi_from 0 l.
End MapIndex.

End JS.

(** ** features/pnodes/services/utils.ts *)

Module Utils.
Import JS.

(** The UTF-16 code units of an identity. The strings of the model are
    byte strings, so a code unit is below 256; [hashCodes] itself is
    stated over any list of code units. *)
Definition charCodes (s : string) : list Z :=
  map (fun c => Z.of_N (N_of_ascii c)) (list_ascii_of_string s).

(** [reduce((acc, char, i) => acc + char.charCodeAt(0) * (i + 1), 0)]
    from position [i]. *)
Fixpoint hashCodes_from (i : Z) (acc : Z) (codes : list Z) : Z :=
  match codes with
  | [] => acc
  | c :: rest => hashCodes_from (i + 1) (acc + c * (i + 1)) rest
  end.

Definition hashCodes (codes : list Z) : Z := hashCodes_from 0 0 codes.

Definition hashPubkey (pubkey : string) : Z := hashCodes (charCodes pubkey).

(** The four numbers that [generateDeterministicIP] prints. [%] is the
    JavaScript remainder, which takes the sign of the dividend. *)
Definition ipOctets (hash : Z) : Z * Z * Z * Z :=
  (Z.rem hash 200 + 50, Z.rem (hash * 7) 256,
   Z.rem (hash * 13) 256, Z.rem (hash * 19) 256).

Definition formatIP (o : Z * Z * Z * Z) : string :=
  let '(a, b, c, d) := o in
  number_to_string a +:+ "." +:+ number_to_string b +:+ "."
    +:+ number_to_string c +:+ "." +:+ number_to_string d.

Definition generateDeterministicIP (pubkey : string) : string :=
  let hash := hashPubkey pubkey in
  formatIP (ipOctets hash).

Inductive Tier := excellent | good | fair | poor.

Definition getTier (score : Q) : Tier :=
  if Qgeb score 80 then excellent
  else if Qgeb score 60 then good
  else if Qgeb score 30 then fair
  else poor.

Record BaseLocation := {
  bl_country : string;
  bl_countryCode : string;
  bl_city : string;
  bl_lat : Q;
  bl_lng : Q
}.

Definition mkLoc (country code city : string) (lat lng : Q) : BaseLocation :=
  {| bl_country := country; bl_countryCode := code; bl_city := city;
     bl_lat := lat; bl_lng := lng |}.

Definition NODE_LOCATIONS : list BaseLocation := [
  mkLoc "United States" "US" "New York" 40.7128 (-74.006);
  mkLoc "United States" "US" "Los Angeles" 34.0522 (-118.2437);
  mkLoc "United States" "US" "Chicago" 41.8781 (-87.6298);
  mkLoc "United States" "US" "Miami" 25.7617 (-80.1918);
  mkLoc "United States" "US" "Dallas" 32.7767 (-96.7970);
  mkLoc "United States" "US" "Seattle" 47.6062 (-122.3321);
  mkLoc "Germany" "DE" "Frankfurt" 50.1109 8.6821;
  mkLoc "Germany" "DE" "Berlin" 52.52 13.405;
  mkLoc "Germany" "DE" "Munich" 48.1351 11.5820;
  mkLoc "Netherlands" "NL" "Amsterdam" 52.3676 4.9041;
  mkLoc "United Kingdom" "GB" "London" 51.5074 (-0.1278);
  mkLoc "France" "FR" "Paris" 48.8566 2.3522;
  mkLoc "Japan" "JP" "Tokyo" 35.6762 139.6503;
  mkLoc "Singapore" "SG" "Singapore" 1.3521 103.8198;
  mkLoc "Australia" "AU" "Sydney" (-33.8688) 151.2093;
  mkLoc "Canada" "CA" "Toronto" 43.6532 (-79.3832);
  mkLoc "Brazil" "BR" "São Paulo" (-23.5505) (-46.6333);
  mkLoc "India" "IN" "Mumbai" 19.076 72.8777;
  mkLoc "India" "IN" "Bangalore" 12.9716 77.5946;
  mkLoc "South Korea" "KR" "Seoul" 37.5665 126.978;
  mkLoc "Switzerland" "CH" "Zurich" 47.3769 8.5417;
  mkLoc "Ireland" "IE" "Dublin" 53.3498 (-6.2603);
  mkLoc "Poland" "PL" "Warsaw" 52.2297 21.0122;
  mkLoc "Finland" "FI" "Helsinki" 60.1699 24.9384;
  mkLoc "Sweden" "SE" "Stockholm" 59.3293 18.0686;
  mkLoc "Spain" "ES" "Madrid" 40.4168 (-3.7038);
  mkLoc "Italy" "IT" "Milan" 45.4642 9.1900;
  mkLoc "Hong Kong" "HK" "Hong Kong" 22.3193 114.1694;
  mkLoc "UAE" "AE" "Dubai" 25.2048 55.2708;
  mkLoc "South Africa" "ZA" "Cape Town" (-33.9249) 18.4241
]%Q.

Definition DATACENTERS : list string := [
  "AWS US-East"; "AWS US-West"; "AWS EU-West"; "AWS AP-Tokyo";
  "GCP US-Central"; "GCP EU-West"; "GCP Asia-East";
  "Hetzner FSN"; "Hetzner HEL"; "OVH FR"; "OVH DE";
  "Contabo DE"; "Contabo US"; "DigitalOcean NYC"; "DigitalOcean AMS";
  "Vultr"; "Linode"; "Azure EU"; "Azure US"
].

Record AsnEntry := { asn : string; provider : string }.

Definition ASNS : list AsnEntry := [
  {| asn := "AS24940"; provider := "Hetzner" |};
  {| asn := "AS51167"; provider := "Contabo" |};
  {| asn := "AS16509"; provider := "Amazon" |};
  {| asn := "AS15169"; provider := "Google" |};
  {| asn := "AS8075"; provider := "Microsoft" |};
  {| asn := "AS16276"; provider := "OVH" |};
  {| asn := "AS14061"; provider := "DigitalOcean" |};
  {| asn := "AS20473"; provider := "Vultr" |}
].

(** [arr[i]]: [undefined] for an index that is negative or past the
    end. *)
Definition at_index {A : Type} (arr : list A) (i : Z) : option A :=
  if i <? 0 then None else nth_error arr (Z.to_nat i).

Definition array_length {A : Type} (arr : list A) : Z :=
  Z.of_nat (List.length arr).

Record NodeLocation := {
  country : string;
  countryCode : string;
  city : string;
  lat : Q;
  lng : Q;
  datacenter : string;
  loc_asn : string
}.

(** The three table reads of [getNodeLocation]. *)
Definition locationIndex (hash index : Z) : Z :=
  Z.rem (hash + index) (array_length NODE_LOCATIONS).
Definition datacenterIndex (hash index : Z) : Z :=
  Z.rem (hash * 7 + index) (array_length DATACENTERS).
Definition asnIndex (hash index : Z) : Z :=
  Z.rem (hash * 13 + index) (array_length ASNS).

(** [getNodeLocation]. [None] stands for a call that does not return a
    fully defined location: an [undefined] [asnData] makes
    [asnData.asn] throw, an [undefined] location or datacenter leaves
    fields undefined. *)
Definition getNodeLocation (pubkey : string) (index : Z) : option NodeLocation :=
  let hash := hashPubkey pubkey in
  match at_index NODE_LOCATIONS (locationIndex hash index),
        at_index DATACENTERS (datacenterIndex hash index),
        at_index ASNS (asnIndex hash index) with
  | Some location, Some dc, Some asnData =>
      Some {| country := bl_country location;
              countryCode := bl_countryCode location;
              city := bl_city location;
              lat := bl_lat location;
              lng := bl_lng location;
              datacenter := dc;
              loc_asn := asn asnData |}
  | _, _, _ => None
  end.

(** *** Reading an address back

    The syntax of a dotted-quad IPv4 address: four decimal octets
    separated by dots, each of one to three digits without a leading
    zero and of value at most 255. *)

(** [s.split(sep)]. *)
Fixpoint split_on (sep : ascii) (s : string) : list string :=
  match s with
  | EmptyString => [EmptyString]
  | String c s' =>
      if Ascii.eqb c sep then EmptyString :: split_on sep s'
      else match split_on sep s' with
           | h :: t => String c h :: t
           | [] => [String c EmptyString]
           end
  end.

Fixpoint all_digits (s : string) : bool :=
  match s with
  | EmptyString => true
  | String c s' => bool_decide (is_Some (digit_value c)) && all_digits s'
  end.

Definition parse_octet (s : string) : option Z :=
  let len := String.length s in
  let leading_zero :=
    match s with String "0" (String _ _) => true | _ => false end in
  if all_digits s && (1 <=? len)%nat && (len <=? 3)%nat && negb leading_zero then
    match digits_prefix None s with
    | Some v => if v <=? 255 then Some v else None
    | None => None
    end
  else None.

Definition parse_ipv4 (s : string) : option (Z * Z * Z * Z) :=
  match split_on "." s with
  | [a; b; c; d] =>
      match parse_octet a, parse_octet b, parse_octet c, parse_octet d with
      | Some a, Some b, Some c, Some d => Some (a, b, c, d)
      | _, _, _, _ => None
      end
  | _ => None
  end.

End Utils.

(** ** JavaScript numbers that may leave the finite range *)

Module JsNum.
Import JS.

(** A finite number is an exact rational; [-0] is not distinguished
    from [0]. *)
Inductive num := Fin (q : Q) | PInf | NInf | NaN.

Definition of_Z (n : Z) : num := Fin (inject_Z n).

Definition is_zero (q : Q) : bool := Qeq_bool q 0.
Definition is_neg (q : Q) : bool := Qltb q 0.

Definition add (a b : num) : num :=
  match a, b with
  | NaN, _ | _, NaN => NaN
  | PInf, NInf | NInf, PInf => NaN
  | PInf, _ | _, PInf => PInf
  | NInf, _ | _, NInf => NInf
  | Fin x, Fin y => Fin (Qred (x + y))
  end.

Definition neg (a : num) : num :=
  match a with
  | Fin x => Fin (Qred (- x))
  | PInf => NInf
  | NInf => PInf
  | NaN => NaN
  end.

Definition sub (a b : num) : num := add a (neg b).

(** An infinity of the sign of [q], [NaN] for [q = 0]. *)
Definition inf_signed (positive : bool) (q : Q) : num :=
  if is_zero q then NaN
  else if xorb positive (is_neg q) then PInf else NInf.

Definition mul (a b : num) : num :=
  match a, b with
  | NaN, _ | _, NaN => NaN
  | Fin x, Fin y => Fin (Qred (x * y))
  | PInf, Fin y | Fin y, PInf => inf_signed true y
  | NInf, Fin y | Fin y, NInf => inf_signed false y
  | PInf, PInf | NInf, NInf => PInf
  | PInf, NInf | NInf, PInf => NInf
  end.

Definition div (a b : num) : num :=
  match a, b with
  | NaN, _ | _, NaN => NaN
  | Fin x, Fin y =>
      if is_zero y then
        (if is_zero x then NaN else if is_neg x then NInf else PInf)
      else Fin (Qred (x / y))
  | Fin _, (PInf | NInf) => Fin 0
  | PInf, Fin y => if is_neg y then NInf else PInf
  | NInf, Fin y => if is_neg y then PInf else NInf
  | (PInf | NInf), (PInf | NInf) => NaN
  end.

(** [a <= b]; every comparison with [NaN] is false. *)
Definition leb (a b : num) : bool :=
  match a, b with
  | NaN, _ | _, NaN => false
  | NInf, _ | _, PInf => true
  | PInf, _ | _, NInf => false
  | Fin x, Fin y => Qle_bool x y
  end.

Definition geb (a b : num) : bool := leb b a.

(** [Math.min] and [Math.max]: [NaN] if an argument is [NaN]. *)
Definition min (a b : num) : num :=
  match a, b with
  | NaN, _ | _, NaN => NaN
  | _, _ => if leb a b then a else b
  end.

Definition max (a b : num) : num :=
  match a, b with
  | NaN, _ | _, NaN => NaN
  | _, _ => if leb a b then b else a
  end.

Definition is_nan (a : num) : bool :=
  match a with NaN => true | _ => false end.

End JsNum.

(** ** The node record (types/pnode.ts, as the code fills it) *)

Module Types.
Export Utils.

Inductive Status := online | offline | degraded.

Definition Status_eqb (a b : Status) : bool :=
  match a, b with
  | online, online | offline, offline | degraded, degraded => true
  | _, _ => false
  end.

Record Metrics := {
  cpuPercent : Q;
  memoryPercent : Q;
  storageUsedGB : Q;
  storageCapacityGB : Q;
  responseTimeMs : Q
}.

Record Performance := { score : Q; tier : Tier }.

Record Gossip := {
  peersConnected : Q;
  messagesReceived : Q;
  messagesSent : Q
}.

Record Staking := {
  commission : Q;
  delegatedStake : Q;
  activatedStake : Q;
  apy : Q;
  lastVote : Q;
  rootSlot : Q
}.

(** [lastSeen] is the instant that the ISO string renders, in
    milliseconds since the epoch. [credits], [creditsRank] and
    [location] are optional fields; a [port] of [None] is [NaN]. *)
Record PNode := {
  id : string;
  pubkey : string;
  ip : string;
  port : option Z;
  version : string;
  status : Status;
  uptime : Q;
  lastSeen : Z;
  location : option NodeLocation;
  credits : option Z;
  creditsRank : option Z;
  metrics : Metrics;
  performance : Performance;
  gossip : Gossip;
  staking : Staking
}.

(** An entry of the credits ledger. *)
Record PodCredit := { pc_credits : Z; pod_id : string }.

(** The ledger response; [pods_credits] may be missing in a malformed
    body. *)
Record PodCreditsResponse := { pods_credits : option (list PodCredit) }.

(** [n.credits || 0]. *)
Definition credits_or0 (n : PNode) : Z := JS.or_Z (credits n) 0.

(** A geolocation answer (ip-api.com), every member optional. *)
Record GeolocationData := {
  geo_status : option string;
  geo_country : option string;
  geo_countryCode : option string;
  geo_city : option string;
  geo_lat : option Q;
  geo_lon : option Q;
  geo_org : option string;
  geo_as : option string
}.

(** A row of the [pnodes] table. [updated_at] is the instant that the
    stored text parses to, [None] when it does not parse. *)
Record Row := {
  r_pubkey : string;
  r_ip : string;
  r_port : option Z;
  r_version : string;
  r_status : Status;
  r_uptime : Q;
  r_last_seen : Z;
  r_location : option NodeLocation;
  r_metrics : Metrics;
  r_performance : Performance;
  r_credits : option Z;
  r_credits_rank : option Z;
  r_gossip : Gossip;
  r_staking : Staking;
  updated_at : option Z
}.

(** What the [select] on the table gives back: a thrown exception, an
    [error] member, or the [data] member (which may be [null]). *)
Inductive SelectResult :=
| SelectThrows
| SelectError
| SelectData (data : option (list Row)).

End Types.

(** ** lib/pnode-api.ts: the credits-first merge *)

Module PnodeApi.
Import JS.
Export Types.

Definition MAX_CREDITS : Z := 60000.

(** [calculatePerformanceFromCredits(credits)]. The quotient is the
    exact rational; the double of the code can differ from it in the
    last place (4200 credits give 7.000000000000001), which moves
    neither the bound of 100, nor the order of the scores, nor the tier
    of a whole number of credits. *)
Definition calculatePerformanceFromCredits (credits : Z) : Performance :=
  let normalizedScore :=
    Qmin 100 (inject_Z credits / inject_Z MAX_CREDITS * 100)%Q in
  {| score := normalizedScore; tier := getTier normalizedScore |}.

(** [[1000, 2000, 4000, 8000][i]]; the index is a remainder modulo 4
    of a non-negative number, so the default is never read. *)
Definition capacityChoice (i : Z) : Q :=
  match at_index [1000; 2000; 4000; 8000] i with
  | Some c => inject_Z c
  | None => 0%Q
  end.

(** [transformPodToNode(pod, index, totalNodes)]; [now] is the value
    of [Date.now()] during the call. *)
Definition transformPodToNode (now : Z) (pod : PodCredit) (index : Z)
    (totalNodes : Z) : PNode :=
  let pubkey := pod_id pod in
  let credits := pc_credits pod in
  let hash := hashPubkey pubkey in
  let performance := calculatePerformanceFromCredits credits in
  let status :=
    if credits >? 5000 then online
    else if credits >? 0 then degraded else offline in
  let location := getNodeLocation pubkey index in
  let uptimeBase :=
    if credits >? 0 then (70 + score performance * 0.3)%Q else 0%Q in
  let cpuBase :=
    if Status_eqb status online then inject_Z (20 + Z.rem hash 30) else 0%Q in
  let memBase :=
    if Status_eqb status online then inject_Z (40 + Z.rem hash 25) else 0%Q in
  let latencyBase :=
    if Status_eqb status online
    then (30 + (100 - score performance) + inject_Z (Z.rem hash 20))%Q
    else 999%Q in
  {| id := "pnode_" +:+ number_to_string index;
     pubkey := pubkey;
     ip := generateDeterministicIP pubkey;
     port := Some 6000;
     version := "0.7.0";
     status := status;
     uptime := uptimeBase;
     lastSeen := now;
     location := location;
     credits := Some credits;
     creditsRank := Some (index + 1);
     metrics := {| cpuPercent := cpuBase;
                   memoryPercent := memBase;
                   storageUsedGB := inject_Z (100 + Z.rem hash 400);
                   storageCapacityGB := capacityChoice (Z.rem (hash + index) 4);
                   responseTimeMs := latencyBase |};
     performance := performance;
     gossip := {| peersConnected :=
                    if Status_eqb status online
                    then inject_Z (10 + Z.rem hash 40) else 0%Q;
                  messagesReceived := inject_Z (credits * 10);
                  messagesSent := inject_Z (credits * 8) |};
     staking := {| commission := inject_Z (Z.rem hash 10);
                   delegatedStake := inject_Z (credits * 100);
                   activatedStake := inject_Z (credits * 90);
                   apy := (5 + score performance / 50)%Q;
                   lastVote :=
                     (inject_Z now - (100 - score performance) * 1000)%Q;
                   rootSlot := inject_Z (85000000 + index) |} |}.

(** An entry of the [getClusterNodes] RPC result, as the code reads
    it. *)
Record ClusterNode := {
  cn_pubkey : option string;
  cn_nodePubkey : option string;
  cn_gossip : option string;
  cn_rpc : option string;
  cn_version : option string;
  cn_delinquent : bool
}.

(** [transformClusterNodeData(node, index)]. *)
Definition transformClusterNodeData (now : Z) (node : ClusterNode)
    (index : Z) : PNode :=
  let pubkey :=
    or_str (cn_pubkey node)
      (or_str (cn_nodePubkey node) ("devnet_node_" +:+ number_to_string index)) in
  let hash := hashPubkey pubkey in
  let location := getNodeLocation pubkey index in
  let ip :=
    or_str (before_colon <$> cn_gossip node)
      (or_str (before_colon <$> cn_rpc node) (generateDeterministicIP pubkey)) in
  let perf : Q :=
    if cn_delinquent node then 0%Q else inject_Z (60 + Z.rem hash 40) in
  {| id := "pnode_" +:+ number_to_string index;
     pubkey := pubkey;
     ip := ip;
     port := Some (or_Z (parseInt (cn_gossip node ≫= after_colon)) 8899);
     version := or_str (cn_version node) "0.7.0";
     status := if cn_delinquent node then offline else online;
     uptime := if cn_delinquent node then 0%Q else inject_Z (80 + Z.rem hash 20);
     lastSeen := now;
     location := location;
     credits := None;
     creditsRank := None;
     metrics := {| cpuPercent := inject_Z (20 + Z.rem hash 30);
                   memoryPercent := inject_Z (40 + Z.rem hash 25);
                   storageUsedGB := inject_Z (100 + Z.rem hash 400);
                   storageCapacityGB := 1000%Q;
                   responseTimeMs := inject_Z (50 + Z.rem hash 50) |};
     performance := {| score := perf; tier := getTier perf |};
     gossip := {| peersConnected := inject_Z (10 + Z.rem hash 40);
                  messagesReceived := inject_Z (10000 + Z.rem hash 50000);
                  messagesSent := inject_Z (8000 + Z.rem hash 40000) |};
     staking := {| commission := inject_Z (Z.rem hash 10);
                   delegatedStake := inject_Z (10000 + Z.rem hash 100000);
                   activatedStake := inject_Z (9000 + Z.rem hash 90000);
                   apy := (5 + inject_Z (Z.rem hash 30) / 10)%Q;
                   lastVote := inject_Z (now - Z.rem hash 10000);
                   rootSlot := inject_Z (85000000 + index) |} |}.

(** What [fetchRPC] hands back: [null] on any failure, otherwise the
    [result] member of the body, which the caller tests with
    [Array.isArray]. *)
Inductive RpcResult := RpcNull | RpcArray (l : list ClusterNode) | RpcOther.

(** The answers of the two adapters during one call, and the clock. *)
Record Sources := {
  src_podCredits : option PodCreditsResponse;
  src_clusterData : RpcResult;
  src_now : Z
}.

(** [getClusterNodes()]. Neither adapter throws, and no step of the
    body does, so the [catch] branch has no model. *)
Definition getClusterNodes (s : Sources) : list PNode :=
  let fallback :=
    match src_clusterData s with
    | RpcArray clusterData =>
        mapi (fun node index => transformClusterNodeData (src_now s) node index)
             clusterData
    | _ => []
    end in
  match src_podCredits s with
  | Some {| pods_credits := Some (p :: ps) |} =>
      let sortedPods :=
        sort (fun a b => pc_credits b - pc_credits a) (p :: ps) in
      mapi (fun pod index =>
              transformPodToNode (src_now s) pod index (array_length sortedPods))
           sortedPods
  | _ => fallback
  end.

End PnodeApi.

(** ** lib/pnode-api.ts: the derived metrics *)

Module DerivedMetrics.
Import JS.
Export PnodeApi.

Definition count_status (st : Status) (nodes : list PNode) : Z :=
  array_length (filter (fun n => Status_eqb (status n) st) nodes).

(** [nodes.reduce((acc, n) => acc + f(n), 0)]. *)
Definition sumQ (f : PNode -> Q) (nodes : list PNode) : Q :=
  fold_left (fun acc n => (acc + f n)%Q) nodes 0%Q.

Record NetworkStats := {
  totalNodes : Z;
  onlineNodes : Z;
  offlineNodes : Z;
  degradedNodes : Z;
  totalStorageCapacityTB : Q;
  totalStorageUsedTB : Q;
  averageUptime : JsNum.num;
  averageResponseTime : JsNum.num;
  networkHealth : JsNum.num;
  gossipMessages24h : Q;
  lastUpdated : Z
}.

(** The body of [getNetworkStats] after [await getClusterNodes()]. *)
Definition networkStatsOf (now : Z) (nodes : list PNode) : NetworkStats :=
  let onlineNodes := count_status online nodes in
  let offlineNodes := count_status offline nodes in
  let degradedNodes := count_status degraded nodes in
  let totalCapacity := (sumQ (fun n => storageCapacityGB (metrics n)) nodes / 1000)%Q in
  let totalUsed := (sumQ (fun n => storageUsedGB (metrics n)) nodes / 1000)%Q in
  let onlineNodesData := filter (fun n => Status_eqb (status n) online) nodes in
  let avgUptime :=
    if array_length onlineNodesData >? 0
    then JsNum.div (JsNum.Fin (sumQ uptime onlineNodesData))
                   (JsNum.of_Z (array_length onlineNodesData))
    else JsNum.Fin 0 in
  let avgResponseTime :=
    if array_length onlineNodesData >? 0
    then JsNum.div (JsNum.Fin (sumQ (fun n => responseTimeMs (metrics n)) onlineNodesData))
                   (JsNum.of_Z (array_length onlineNodesData))
    else JsNum.Fin 0 in
  let networkHealth :=
    if array_length nodes >? 0
    then JsNum.mul (JsNum.div (JsNum.of_Z onlineNodes)
                              (JsNum.of_Z (array_length nodes)))
                   (JsNum.Fin 100)
    else JsNum.Fin 0 in
  {| totalNodes := array_length nodes;
     onlineNodes := onlineNodes;
     offlineNodes := offlineNodes;
     degradedNodes := degradedNodes;
     totalStorageCapacityTB := totalCapacity;
     totalStorageUsedTB := totalUsed;
     averageUptime := avgUptime;
     averageResponseTime := avgResponseTime;
     networkHealth := networkHealth;
     gossipMessages24h :=
       fold_left (fun acc n =>
                    (acc + messagesReceived (gossip n) + messagesSent (gossip n))%Q)
                 nodes 0%Q;
     lastUpdated := now |}.

Definition getNetworkStats (s : Sources) : NetworkStats :=
  networkStatsOf (src_now s) (getClusterNodes s).

(** The health expression without its guard, for comparison. *)
Definition unguardedHealth (nodes : list PNode) : JsNum.num :=
  JsNum.mul (JsNum.div (JsNum.of_Z (count_status online nodes))
                       (JsNum.of_Z (array_length nodes)))
            (JsNum.Fin 100).

(** *** Decentralization *)

(** [m[k] = (m[k] || 0) + 1]. *)
Definition bump (k : string) (m : list (string * Z)) : list (string * Z) :=
  record_set k (or_Z (record_get k m) 0 + 1) m.

Record AsnCount := { ac_provider : string; ac_count : Z }.

(** [ASNS.find(a => a.asn === asn)?.provider || 'Unknown']. *)
Definition providerOf (a : string) : string :=
  or_str (provider <$> List.find (fun e => String.eqb (asn e) a) ASNS) "Unknown".

(** [if (!asnCount[asn]) asnCount[asn] = { provider, count: 0 };
    asnCount[asn].count++]. *)
Definition bumpAsn (a : string) (m : list (string * AsnCount))
    : list (string * AsnCount) :=
  let cur := default {| ac_provider := providerOf a; ac_count := 0 |}
                     (record_get a m) in
  record_set a {| ac_provider := ac_provider cur; ac_count := ac_count cur + 1 |} m.

Record Counts := {
  countryCount : list (string * Z);
  datacenterCount : list (string * Z);
  asnCount : list (string * AsnCount)
}.

(** One round of the [nodes.forEach] of [getDecentralizationMetrics]. *)
Definition countNode (c : Counts) (node : PNode) : Counts :=
  match location node with
  | None => c
  | Some loc =>
      {| countryCount := bump (country loc) (countryCount c);
         datacenterCount :=
           if truthy_str (datacenter loc)
           then bump (datacenter loc) (datacenterCount c)
           else datacenterCount c;
         asnCount :=
           if truthy_str (loc_asn loc)
           then bumpAsn (loc_asn loc) (asnCount c)
           else asnCount c |}
  end.

Record Share := { sh_key : string; sh_count : Z; sh_percentage : Q }.
Record AsnShare := {
  as_asn : string; as_provider : string; as_count : Z; as_percentage : Q
}.

(** The Nakamoto loop: add the counts in order and stop after the one
    that takes the sum over half of [total]. *)
Fixpoint nakamotoLoop (total : Z) (sortedCounts : list Z) (sum nakamoto : Z) : Z :=
  match sortedCounts with
  | [] => nakamoto
  | count :: rest =>
      let sum := sum + count in
      let nakamoto := nakamoto + 1 in
      if Qgtb (inject_Z sum) (inject_Z total / 2) then nakamoto
      else nakamotoLoop total rest sum nakamoto
  end.

Record DecentralizationMetrics := {
  nakamotoCoefficient : Z;
  giniCoefficient : Q;
  countryDistribution : list Share;
  datacenterDistribution : list Share;
  asnDistribution : list AsnShare
}.

Definition decentralizationOf (nodes : list PNode) : DecentralizationMetrics :=
  let c := fold_left countNode nodes
             {| countryCount := []; datacenterCount := []; asnCount := [] |} in
  let total := or_Z (Some (array_length nodes)) 1 in
  let share '(k, count) :=
    {| sh_key := k; sh_count := count;
       sh_percentage := (inject_Z count / inject_Z total * 100)%Q |} in
  let byCount (a b : Share) := sh_count b - sh_count a in
  let asnShare '(k, data) :=
    {| as_asn := k; as_provider := ac_provider data; as_count := ac_count data;
       as_percentage := (inject_Z (ac_count data) / inject_Z total * 100)%Q |} in
  let sortedCounts := sort (fun a b => b - a) (map snd (countryCount c)) in
  {| nakamotoCoefficient := nakamotoLoop total sortedCounts 0 0;
     giniCoefficient := 0.35%Q;
     countryDistribution := sort byCount (map share (countryCount c));
     datacenterDistribution := sort byCount (map share (datacenterCount c));
     asnDistribution :=
       sort (fun a b => as_count b - as_count a) (map asnShare (asnCount c)) |}.

Definition getDecentralizationMetrics (s : Sources) : DecentralizationMetrics :=
  decentralizationOf (getClusterNodes s).

(** *** X-Score *)

Inductive Grade := gS | gA | gB | gC | gD | gF.

Definition getXScoreGrade (score : JsNum.num) : Grade :=
  if JsNum.geb score (JsNum.Fin 95) then gS
  else if JsNum.geb score (JsNum.Fin 85) then gA
  else if JsNum.geb score (JsNum.Fin 70) then gB
  else if JsNum.geb score (JsNum.Fin 55) then gC
  else if JsNum.geb score (JsNum.Fin 40) then gD
  else gF.

Record XScore := {
  overall : JsNum.num;
  storageThroughput : JsNum.num;
  dataAvailabilityLatency : JsNum.num;
  xs_uptime : JsNum.num;
  gossipHealth : JsNum.num;
  peerConnectivity : JsNum.num;
  grade : Grade
}.

(** The weighted blend shared by [calculateXScore] and [getXScore]. *)
Definition blend (storageThroughput dataAvailabilityLatency uptime
                  gossipHealth peerConnectivity : JsNum.num) : JsNum.num :=
  JsNum.add
    (JsNum.add
       (JsNum.add
          (JsNum.add (JsNum.mul storageThroughput (JsNum.Fin 0.25))
                     (JsNum.mul dataAvailabilityLatency (JsNum.Fin 0.25)))
          (JsNum.mul uptime (JsNum.Fin 0.20)))
       (JsNum.mul gossipHealth (JsNum.Fin 0.15)))
    (JsNum.mul peerConnectivity (JsNum.Fin 0.15)).

(** [used / capacity * 100] of one node. *)
Definition usagePercent (n : PNode) : JsNum.num :=
  JsNum.mul (JsNum.div (JsNum.Fin (storageUsedGB (metrics n)))
                       (JsNum.Fin (storageCapacityGB (metrics n))))
            (JsNum.Fin 100).

Definition calculateXScore (node : PNode) : XScore :=
  let storageThroughput :=
    JsNum.min (JsNum.Fin 100) (JsNum.mul (usagePercent node) (JsNum.Fin 1.5)) in
  let dataAvailabilityLatency :=
    JsNum.max (JsNum.Fin 0)
      (JsNum.sub (JsNum.Fin 100)
         (JsNum.mul (JsNum.Fin (responseTimeMs (metrics node))) (JsNum.Fin 0.5))) in
  let uptime := JsNum.Fin (uptime node) in
  let gossipHealth :=
    JsNum.min (JsNum.Fin 100)
      (JsNum.mul (JsNum.Fin (peersConnected (gossip node))) (JsNum.Fin 2)) in
  let peerConnectivity :=
    JsNum.min (JsNum.Fin 100)
      (JsNum.mul (JsNum.Fin (peersConnected (gossip node))) (JsNum.Fin 3)) in
  let overall :=
    blend storageThroughput dataAvailabilityLatency uptime gossipHealth
          peerConnectivity in
  {| overall := overall;
     storageThroughput := storageThroughput;
     dataAvailabilityLatency := dataAvailabilityLatency;
     xs_uptime := uptime;
     gossipHealth := gossipHealth;
     peerConnectivity := peerConnectivity;
     grade := getXScoreGrade overall |}.

(** [nodes.reduce((acc, n) => acc + f(n), 0) / nodes.length]. *)
Definition average (f : PNode -> JsNum.num) (nodes : list PNode) : JsNum.num :=
  JsNum.div (fold_left (fun acc n => JsNum.add acc (f n)) nodes (JsNum.Fin 0))
            (JsNum.of_Z (array_length nodes)).

(** The network-wide score of [getXScore], over the online nodes. *)
Definition networkXScore (nodes : list PNode) : XScore :=
  let onlineNodes := filter (fun n => Status_eqb (status n) online) nodes in
  if array_length onlineNodes =? 0 then
    {| overall := JsNum.Fin 0; storageThroughput := JsNum.Fin 0;
       dataAvailabilityLatency := JsNum.Fin 0; xs_uptime := JsNum.Fin 0;
       gossipHealth := JsNum.Fin 0; peerConnectivity := JsNum.Fin 0;
       grade := gF |}
  else
    let avgThroughput := average usagePercent onlineNodes in
    let avgLatency :=
      average (fun n => JsNum.Fin (responseTimeMs (metrics n))) onlineNodes in
    let avgUptime := average (fun n => JsNum.Fin (uptime n)) onlineNodes in
    let avgGossip :=
      average (fun n => JsNum.Fin (peersConnected (gossip n))) onlineNodes in
    let storageThroughput :=
      JsNum.min (JsNum.Fin 100) (JsNum.mul avgThroughput (JsNum.Fin 1.5)) in
    let dataAvailabilityLatency :=
      JsNum.max (JsNum.Fin 0)
        (JsNum.sub (JsNum.Fin 100) (JsNum.mul avgLatency (JsNum.Fin 0.5))) in
    let uptime := avgUptime in
    let gossipHealth :=
      JsNum.min (JsNum.Fin 100) (JsNum.mul avgGossip (JsNum.Fin 2)) in
    let peerConnectivity :=
      JsNum.min (JsNum.Fin 100) (JsNum.mul avgGossip (JsNum.Fin 3)) in
    let overall :=
      blend storageThroughput dataAvailabilityLatency uptime gossipHealth
            peerConnectivity in
    {| overall := overall;
       storageThroughput := storageThroughput;
       dataAvailabilityLatency := dataAvailabilityLatency;
       xs_uptime := uptime;
       gossipHealth := gossipHealth;
       peerConnectivity := peerConnectivity;
       grade := getXScoreGrade overall |}.

(** The body of [getXScore(nodeId)] after [await getClusterNodes()]. *)
Definition xScoreOf (nodes : list PNode) (nodeId : option string) : XScore :=
  let network := networkXScore nodes in
  match nodeId with
  | Some i =>
      if truthy_str i then
        match List.find (fun n => String.eqb (id n) i) nodes with
        | Some node => calculateXScore node
        | None => network
        end
      else network
  | None => network
  end.

Definition getXScore (s : Sources) (nodeId : option string) : XScore :=
  xScoreOf (getClusterNodes s) nodeId.

(** *** Superminority *)

Inductive RiskLevel := high | medium | low.

Record SuperminorityNode := {
  sn_pubkey : string;
  sn_stake : Z;
  sn_percentage : Q
}.

Record SuperminorityInfo := {
  sm_count : Z;
  sm_threshold : Z;
  sm_nodes : list SuperminorityNode;
  sm_riskLevel : RiskLevel
}.

(** The object pushed for one node. *)
Definition superminorityEntry (totalCredits : Z) (node : PNode) : SuperminorityNode :=
  let credits := credits_or0 node in
  {| sn_pubkey := pubkey node;
     sn_stake := credits;
     sn_percentage :=
       if totalCredits >? 0
       then (inject_Z credits / inject_Z totalCredits * 100)%Q
       else 0%Q |}.

(** The [for (const node of sorted)] loop: [acc] is
    [superminorityNodes], [sum] the credits pushed so far. *)
Fixpoint superminorityLoop (threshold : Q) (totalCredits : Z)
    (sorted : list PNode) (sum : Z) (acc : list SuperminorityNode)
    : list SuperminorityNode :=
  match sorted with
  | [] => acc
  | node :: rest =>
      if Qgeb (inject_Z sum) threshold then acc
      else
        superminorityLoop threshold totalCredits rest (sum + credits_or0 node)
          (acc ++ [superminorityEntry totalCredits node])
  end.

Definition byCreditsDesc (a b : PNode) : Z := credits_or0 b - credits_or0 a.

(** The body of [getSuperminorityInfo] after [await getClusterNodes()].
    The threshold [totalCredits * 0.33] is taken exactly; the product in
    doubles decides [sum >= threshold] the same way for integer credits
    whose total stays below 10^13. *)
Definition superminorityOf (nodes : list PNode) : SuperminorityInfo :=
  let totalCredits := fold_left (fun acc n => acc + credits_or0 n) nodes 0 in
  let sorted := sort byCreditsDesc nodes in
  let threshold := (inject_Z totalCredits * 0.33)%Q in
  let superminorityNodes := superminorityLoop threshold totalCredits sorted 0 [] in
  let len := array_length superminorityNodes in
  {| sm_count := len;
     sm_threshold := 33;
     sm_nodes := superminorityNodes;
     sm_riskLevel :=
       if len <? 5 then high else if len <? 15 then medium else low |}.

Definition getSuperminorityInfo (s : Sources) : SuperminorityInfo :=
  superminorityOf (getClusterNodes s).

End DerivedMetrics.

(** ** server/api/pnodes.ts: the pod-list merge behind the cache *)

Module ServerPnodes.
Import JS.
Export Types.

(** A pod of the pRPC answer, as the code reads it. *)
Record RpcPod := {
  rp_pubkey : option string;
  rp_address : option string;
  rp_rpc_port : option Z;
  rp_version : option string;
  rp_last_seen_timestamp : option Z;
  rp_uptime : option Q;
  rp_storage_used : option Q;
  rp_storage_committed : option Q
}.

(** [new Date(ms).toISOString()] throws a [RangeError] outside the
    range of time values. *)
Definition valid_time (ms : Z) : bool := Z.abs ms <=? 8640000000000000.

(** [geoData ? { ... } : ...], the object built from a geolocation
    answer. *)
Definition locationOfGeo (geoData : GeolocationData) : NodeLocation :=
  {| country := or_str (geo_country geoData) "Unknown";
     countryCode := or_str (geo_countryCode geoData) "UN";
     city := or_str (geo_city geoData) "Unknown";
     lat := or_Q (geo_lat geoData) 0;
     lng := or_Q (geo_lon geoData) 0;
     datacenter := or_str (geo_org geoData) "Unknown";
     loc_asn := or_str (before " " <$> geo_as geoData) "Unknown" |}.

(** [mapRpcNodeToPNode(rpcNode, { credits }, index, geoData)]; [None]
    is the [RangeError] of [toISOString] on a pod without a usable
    [last_seen_timestamp]. *)
Definition mapRpcNodeToPNode (now : Z) (rpcNode : RpcPod) (creditData : option Z)
    (index : Z) (geoData : option GeolocationData) : option PNode :=
  let pubkey := or_str (rp_pubkey rpcNode) ("unknown-" +:+ number_to_string index) in
  let ip :=
    match rp_address rpcNode with
    | Some a => if truthy_str a then before_colon a
                else generateDeterministicIP pubkey
    | None => generateDeterministicIP pubkey
    end in
  let port := or_Z (rp_rpc_port rpcNode) 6000 in
  let version := or_str (rp_version rpcNode) "0.7.0" in
  let credits := or_Z creditData 0 in
  let MAX_CREDITS := 60000 in
  let normalizedScore :=
    Qmin 100 (inject_Z credits / inject_Z MAX_CREDITS * 100)%Q in
  let hash := hashPubkey pubkey in
  let isOnline :=
    match rp_last_seen_timestamp rpcNode with
    | Some ts => Qltb (inject_Z now / 1000 - inject_Z ts) 300
    | None => false
    end in
  let status := if isOnline then online else offline in
  let location :=
    match geoData with
    | Some g => Some (locationOfGeo g)
    | None => getNodeLocation pubkey index
    end in
  let performance :=
    {| score := normalizedScore; tier := getTier normalizedScore |} in
  match rp_last_seen_timestamp rpcNode with
  | None => None
  | Some ts =>
      if negb (valid_time (ts * 1000)) then None
      else Some
        {| id := "pnode_" +:+ number_to_string index;
           pubkey := pubkey;
           ip := ip;
           port := Some port;
           version := version;
           status := status;
           uptime := or_Q (rp_uptime rpcNode) 0;
           lastSeen := ts * 1000;
           location := location;
           credits := Some credits;
           creditsRank := Some (index + 1);
           metrics :=
             {| cpuPercent := inject_Z (20 + Z.rem hash 30);
                memoryPercent := inject_Z (40 + Z.rem hash 25);
                storageUsedGB :=
                  match rp_storage_used rpcNode with
                  | Some u => if Qeq_bool u 0 then 0%Q else (u / 1024 / 1024 / 1024)%Q
                  | None => 0%Q
                  end;
                storageCapacityGB :=
                  match rp_storage_committed rpcNode with
                  | Some c => if Qeq_bool c 0 then 1000%Q else (c / 1024 / 1024 / 1024)%Q
                  | None => 1000%Q
                  end;
                responseTimeMs := inject_Z (50 + Z.rem hash 50) |};
           performance := performance;
           gossip := {| peersConnected := inject_Z (10 + Z.rem hash 40);
                        messagesReceived := 0%Q;
                        messagesSent := 0%Q |};
           staking := {| commission := 0%Q; delegatedStake := 0%Q;
                         activatedStake := 0%Q; apy := 0%Q;
                         lastVote := 0%Q; rootSlot := 0%Q |} |}
  end.

(** [mapPNodeToRow(node)], stamped with the current instant. *)
Definition mapPNodeToRow (now : Z) (node : PNode) : Row :=
  {| r_pubkey := pubkey node;
     r_ip := ip node;
     r_port := port node;
     r_version := version node;
     r_status := status node;
     r_uptime := uptime node;
     r_last_seen := lastSeen node;
     r_location := location node;
     r_metrics := metrics node;
     r_performance := performance node;
     r_credits := credits node;
     r_credits_rank := creditsRank node;
     r_gossip := gossip node;
     r_staking := staking node;
     updated_at := Some now |}.

(** [`${x}`] for an optional integer. *)
Definition opt_to_string (x : option Z) : string :=
  match x with
  | Some n => number_to_string n
  | None => "undefined"
  end.

(** [mapRowToPNode(row)]. *)
Definition mapRowToPNode (row : Row) : PNode :=
  {| id := "pnode_" +:+ opt_to_string (r_credits_rank row);
     pubkey := r_pubkey row;
     ip := r_ip row;
     port := r_port row;
     version := r_version row;
     status := r_status row;
     uptime := r_uptime row;
     lastSeen := r_last_seen row;
     location := r_location row;
     credits := r_credits row;
     creditsRank := r_credits_rank row;
     metrics := r_metrics row;
     performance := r_performance row;
     gossip := r_gossip row;
     staking := r_staking row |}.

(** *** The calls to the collaborators *)

(** What the pRPC client gives back for the pod list: both
    [getPodsWithStats] and [getPods] fail, an object with a [pods]
    array, a bare array, [null], or anything else. *)
Inductive RpcResponse :=
| RpcThrows
| RpcPodsObject (pods : list RpcPod)
| RpcBareArray (pods : list RpcPod)
| RpcNothing
| RpcMalformed.

(** The answers of the collaborators during one request. An [error]
    member of the upsert answer only changes what is written to the
    console, so it has no field. *)
Record Env := {
  env_now : Z;
  env_select : SelectResult;
  env_podCredits : option PodCreditsResponse;
  env_rpc : RpcResponse;
  env_geo : gmap string GeolocationData
}.

(** The calls that leave the process, in the order they are made. *)
Inductive Event :=
| EvSelect
| EvFetchPodCredits
| EvGetPods
| EvGeoBatch (ips : list string)
| EvUpsert (rows : list Row).

(** Computations that log their outside calls. *)
Definition M (A : Type) : Type := list Event -> A * list Event.

Definition ret {A : Type} (a : A) : M A := fun log => (a, log).

Definition bind {A B : Type} (m : M A) (k : A -> M B) : M B :=
  fun log => let '(a, log') := m log in k a log'.

Definition emit (e : Event) : M unit := fun log => (tt, log ++ [e]).

Definition run {A : Type} (m : M A) : A * list Event := m [].

Notation "x <- m ;; k" := (bind m (fun x => k))
  (at level 100, m at next level, right associativity).
Notation "m ;;; k" := (bind m (fun _ => k))
  (at level 100, right associativity).

(** [arr.map(f)] where [f] may throw: the first exception aborts. *)
Fixpoint map_throwing {A B : Type} (f : A -> Z -> option B) (i : Z) (l : list A)
    : option (list B) :=
  match l with
  | [] => Some []
  | x :: l' =>
      match f x i with
      | None => None
      | Some y => cons y <$> map_throwing f (i + 1) l'
      end
  end.

(** [new Map(pairs)]. *)
Definition map_of_pairs {V : Type} (pairs : list (string * V)) : list (string * V) :=
  fold_left (fun m '(k, v) => record_set k v m) pairs [].

(** [pod.address?.split(':')[0]]. *)
Definition podIp (pod : RpcPod) : option string := before_colon <$> rp_address pod.

Definition fetchable (ip : option string) : bool :=
  match ip with
  | Some ip => truthy_str ip && negb (String.eqb ip "127.0.0.1")
               && negb (String.eqb ip "localhost")
  | None => false
  end.

(** [creditMap]: later entries of the ledger replace earlier ones. *)
Definition creditMapOf (podCredits : option PodCreditsResponse) : gmap string Z :=
  match podCredits with
  | Some {| pods_credits := Some pcs |} =>
      fold_left (fun m pc => <[pod_id pc := pc_credits pc]> m) pcs ∅
  | _ => ∅
  end.

(** [creditMap.get(rpcNode.pubkey) || 0]. *)
Definition creditsFor (creditMap : gmap string Z) (rpcNode : RpcPod) : Z :=
  or_Z (rp_pubkey rpcNode ≫= fun k => creditMap !! k) 0.

(** The pure part of [fetchFromRpcAndCache] between the geolocation
    call and the upsert: [None] when a pod makes the mapping throw. *)
Definition mergeRpcPods (e : Env) (rpcPods : list RpcPod) : option (list PNode) :=
  let creditMap := creditMapOf (env_podCredits e) in
  let mappedNodes :=
    map_throwing
      (fun rpcNode index =>
         let ip := podIp rpcNode in
         let credits := creditsFor creditMap rpcNode in
         let geo :=
           match ip with
           | Some ip => if truthy_str ip then env_geo e !! ip else None
           | None => None
           end in
         mapRpcNodeToPNode (env_now e) rpcNode (Some credits) index geo)
      0 rpcPods in
  sort (fun a b => credits_or0 b - credits_or0 a) <$> mappedNodes.

(** [Array.from(new Map(sorted.map(item => [item.pubkey, item])).values())]. *)
Definition uniqueNodesOf (sorted : list PNode) : list PNode :=
  map snd (map_of_pairs (map (fun item => (pubkey item, item)) sorted)).

(** [rpcPods = rpcResponse?.pods || rpcResponse || []] followed by the
    [Array.isArray] test; [None] when the function returns early. *)
Definition rpcPodsOf (r : RpcResponse) : option (list RpcPod) :=
  match r with
  | RpcPodsObject pods | RpcBareArray pods => Some pods
  | RpcNothing => Some []
  | RpcThrows | RpcMalformed => None
  end.

(** [fetchFromRpcAndCache()]. Every exception of the body ends in the
    [catch], which returns the empty array. *)
Definition fetchFromRpcAndCache (e : Env) : M (list PNode) :=
  emit EvFetchPodCredits ;;;
  emit EvGetPods ;;;
  match rpcPodsOf (env_rpc e) with
  | None => ret []
  | Some rpcPods =>
      let ipsToFetch :=
        omap (fun ip => ip) (filter fetchable (map podIp rpcPods)) in
      emit (EvGeoBatch ipsToFetch) ;;;
      match mergeRpcPods e rpcPods with
      | None => ret []
      | Some sorted =>
          let uniqueNodes := uniqueNodesOf sorted in
          let rows := map (mapPNodeToRow (env_now e)) uniqueNodes in
          (if array_length rows >? 0 then emit (EvUpsert rows) else ret tt) ;;;
          ret sorted
      end
  end.

(** [getClusterNodes()], the staleness gate. *)
Definition getClusterNodes (e : Env) : M (list PNode) :=
  emit EvSelect ;;;
  match env_select e with
  | SelectData (Some (first :: rest)) =>
      let cachedNodes := first :: rest in
      let isStale :=
        match updated_at first with
        | Some oldestUpdate => env_now e - oldestUpdate >? 5 * 60 * 1000
        | None => false
        end in
      if isStale then fetchFromRpcAndCache e
      else ret (map mapRowToPNode cachedNodes)
  | _ => fetchFromRpcAndCache e
  end.

End ServerPnodes.

(** ** features/pnodes/services: the ledger-driven merge *)

Module Features.
Import JS.
Export Types.

(** The [Partial<PNode>] kept per identity by [getMergedNodeData]. A
    [pn_port] of [None] is [undefined] or [NaN], both falsy. *)
Record PartialNode := {
  pn_pubkey : string;
  pn_ip : option string;
  pn_port : option Z;
  pn_version : option string;
  pn_staking : option Staking;
  pn_location : option NodeLocation
}.

Definition MAX_CREDITS : Z := 60000.

(** [transformPodToFull(pc, index, realData)]. *)
Definition transformPodToFull (now : Z) (pc : PodCredit) (index : Z)
    (realData : option PartialNode) : PNode :=
  let credits := pc_credits pc in
  let pubkey := pod_id pc in
  let hash := hashPubkey pubkey in
  let normalizedScore :=
    Qmin 100 (inject_Z credits / inject_Z MAX_CREDITS * 100)%Q in
  let performance :=
    {| score := normalizedScore; tier := getTier normalizedScore |} in
  let status := if credits >? 0 then online else offline in
  let location :=
    match realData ≫= pn_location with
    | Some l => Some l
    | None => getNodeLocation pubkey index
    end in
  let ip := or_str (realData ≫= pn_ip) (generateDeterministicIP pubkey) in
  let port := or_Z (realData ≫= pn_port) 6000 in
  let version := or_str (realData ≫= pn_version) "0.7.0" in
  let uptimeBase :=
    if credits >? 0 then (70 + score performance * 0.3)%Q else 0%Q in
  let cpuBase :=
    if Status_eqb status online then inject_Z (20 + Z.rem hash 30) else 0%Q in
  let memBase :=
    if Status_eqb status online then inject_Z (40 + Z.rem hash 25) else 0%Q in
  let latencyBase :=
    if Status_eqb status online
    then (30 + (100 - score performance) + inject_Z (Z.rem hash 20))%Q
    else 999%Q in
  let staking :=
    default
      {| commission := inject_Z (Z.rem hash 10);
         delegatedStake := inject_Z (credits * 100);
         activatedStake := inject_Z (credits * 90);
         apy := (5 + score performance / 50)%Q;
         lastVote := (inject_Z now - (100 - score performance) * 1000)%Q;
         rootSlot := inject_Z (85000000 + index) |}
      (realData ≫= pn_staking) in
  {| id := "pnode_" +:+ number_to_string index;
     pubkey := pubkey;
     ip := ip;
     port := Some port;
     version := version;
     status := status;
     uptime := uptimeBase;
     lastSeen := now;
     location := location;
     credits := Some credits;
     creditsRank := Some (index + 1);
     metrics := {| cpuPercent := cpuBase;
                   memoryPercent := memBase;
                   storageUsedGB := inject_Z (100 + Z.rem hash 400);
                   storageCapacityGB :=
                     PnodeApi.capacityChoice (Z.rem (hash + index) 4);
                   responseTimeMs := latencyBase |};
     performance := performance;
     gossip := {| peersConnected :=
                    if Status_eqb status online
                    then inject_Z (10 + Z.rem hash 40) else 0%Q;
                  messagesReceived := inject_Z (credits * 10);
                  messagesSent := inject_Z (credits * 8) |};
     staking := staking |}.

(** The [ClusterNode] of the RPC types. *)
Record ClusterNode := {
  cn_pubkey : string;
  cn_gossip : option string;
  cn_rpc : option string;
  cn_version : option string
}.

(** [transformClusterNodeToFull(node, index, realData)]. *)
Definition transformClusterNodeToFull (now : Z) (node : ClusterNode) (index : Z)
    (realData : option PartialNode) : PNode :=
  let pubkey := cn_pubkey node in
  let hash := hashPubkey pubkey in
  let location :=
    match realData ≫= pn_location with
    | Some l => Some l
    | None => getNodeLocation pubkey index
    end in
  let ip :=
    or_str (before_colon <$> cn_gossip node)
      (or_str (before_colon <$> cn_rpc node) (generateDeterministicIP pubkey)) in
  let perf : Q := inject_Z (60 + Z.rem hash 40) in
  {| id := "pnode_" +:+ number_to_string index;
     pubkey := pubkey;
     ip := ip;
     port := parseInt (Some (or_str (cn_gossip node ≫= after_colon) "8899"));
     version := or_str (cn_version node) "0.7.0";
     status := online;
     uptime := inject_Z (80 + Z.rem hash 20);
     lastSeen := now;
     location := location;
     credits := None;
     creditsRank := None;
     metrics := {| cpuPercent := inject_Z (20 + Z.rem hash 30);
                   memoryPercent := inject_Z (40 + Z.rem hash 25);
                   storageUsedGB := inject_Z (100 + Z.rem hash 400);
                   storageCapacityGB := 1000%Q;
                   responseTimeMs := inject_Z (50 + Z.rem hash 50) |};
     performance := {| score := perf; tier := getTier perf |};
     gossip := {| peersConnected := inject_Z (10 + Z.rem hash 40);
                  messagesReceived := inject_Z (10000 + Z.rem hash 50000);
                  messagesSent := inject_Z (8000 + Z.rem hash 40000) |};
     staking :=
       default
         {| commission := inject_Z (Z.rem hash 10);
            delegatedStake := inject_Z (10000 + Z.rem hash 100000);
            activatedStake := inject_Z (9000 + Z.rem hash 90000);
            apy := (5 + inject_Z (Z.rem hash 30) / 10)%Q;
            lastVote := inject_Z (now - Z.rem hash 10000);
            rootSlot := inject_Z (85000000 + index) |}
         (realData ≫= pn_staking) |}.

(** The location written into [realData] for a successful
    geolocation answer. *)
Definition locationOfGeo (geo : GeolocationData) : NodeLocation :=
  {| country := or_str (geo_country geo) "Unknown";
     countryCode := or_str (geo_countryCode geo) "UN";
     city := or_str (geo_city geo) "Unknown";
     lat := or_Q (geo_lat geo) 0;
     lng := or_Q (geo_lon geo) 0;
     datacenter := or_str (geo_org geo) "Unknown";
     loc_asn := or_str (before " " <$> geo_as geo) "Unknown" |}.

Definition geo_success (geo : GeolocationData) : bool :=
  match geo_status geo with
  | Some st => String.eqb st "success"
  | None => false
  end.

(** The answers gathered before the merge: the ledger, the map of
    [getMergedNodeData] in insertion order, and the geolocation
    batch. *)
Record MergeInput := {
  in_now : Z;
  in_podCredits : option PodCreditsResponse;
  in_mergedData : list (string * PartialNode);
  in_geoBatch : gmap string GeolocationData
}.

(** One round of [podCredits.pods_credits.map((pc, index) => ...)];
    [None] is the [TypeError] of [realData!.location = ...] when the
    identity has no entry. The assignment updates the entry that
    [transformPodToFull] then reads; a repeated identity meets the same
    entry and the same geolocation answer, so within one call the update
    need not be carried from one round to the next. *)
Definition mergePod (i : MergeInput) (pc : PodCredit) (index : Z) : option PNode :=
  let realData := record_get (pod_id pc) (in_mergedData i) in
  let ip := or_str (realData ≫= pn_ip) (generateDeterministicIP (pod_id pc)) in
  let geo := in_geoBatch i !! ip in
  match geo with
  | Some geo =>
      if geo_success geo then
        match realData with
        | None => None
        | Some r =>
            let r' := {| pn_pubkey := pn_pubkey r; pn_ip := pn_ip r;
                         pn_port := pn_port r; pn_version := pn_version r;
                         pn_staking := pn_staking r;
                         pn_location := Some (locationOfGeo geo) |} in
            Some (transformPodToFull (in_now i) pc index (Some r'))
        end
      else Some (transformPodToFull (in_now i) pc index realData)
  | None => Some (transformPodToFull (in_now i) pc index realData)
  end.

(** The client-side fallback of [getClusterNodes()], after the cache
    gave nothing: lines "if (!podCredits ..." to the end. [None] is an
    exception that leaves the function. *)
Definition mergeFallback (i : MergeInput) : option (list PNode) :=
  match in_podCredits i with
  | Some {| pods_credits := Some pcs |} =>
      ServerPnodes.map_throwing (mergePod i) 0 pcs
  | _ =>
      Some (mapi (fun '(_, node) index =>
                    transformClusterNodeToFull (in_now i)
                      {| cn_pubkey := pn_pubkey node; cn_gossip := None;
                         cn_rpc := None; cn_version := None |}
                      index (Some node))
                 (in_mergedData i))
  end.

End Features.

(** ** app/api/pnode-data/route.ts: the metric query surface *)

Module Route.
Import JS.

(** The call that a [case] of the [switch] makes, with its arguments.
    [customNodeCount] is [None] for [undefined] and [Some None] for the
    [NaN] of a failed [parseInt]. *)
Inductive Call :=
| getNetworkStats
| calculateNetworkTPS
| getNetworkEvents
| getPerformanceHistory (period : string)
| getGossipHealth
| getStorageDistribution
| getEpochInfo
| getEpochHistory
| getStakingStats
| getCommissionHistory (nodeId : string)
| getSlashingEvents
| getExabyteProjection (timeframe : string) (customNodeCount : option (option Z))
| getDecentralizationMetrics
| getVersionDistribution
| getHealthScoreBreakdown
| getTrendData (metric period : string)
| getXScore (nodeId : option string)
| getPeerRankings
| getSuperminorityInfo
| getCensorshipResistanceScore.

(** How an awaited call ends: with data, or with a thrown value whose
    [message] member may be missing. *)
Inductive Outcome (Data : Type) :=
| Returns (data : Data)
| Throws (message : option string).
Arguments Returns {Data} data.
Arguments Throws {Data} message.

Inductive Body (Data : Type) :=
| DataBody (data : Data)
| ErrorBody (error : string).
Arguments DataBody {Data} data.
Arguments ErrorBody {Data} error.

Record Response (Data : Type) := {
  resp_status : Z;
  resp_body : Body Data
}.
Arguments resp_status {Data} r.
Arguments resp_body {Data} r.

(** The query string, as the pairs of [URLSearchParams];
    [searchParams.get(k)] reads the first pair of name [k]. *)
Definition SearchParams := list (string * string).

Definition get (k : string) (searchParams : SearchParams) : option string :=
  record_get k searchParams.

(** What the [switch] does before it awaits a call. *)
Inductive Dispatch :=
| DoCall (c : Call)
| ThrowError (message : string)
| InvalidType.

Definition truthy (x : option string) : bool :=
  match x with Some s => truthy_str s | None => false end.

(** The [switch (type)]: the cases are compared in order with [===],
    and [null] falls to the [default]. *)
Definition dispatch (searchParams : SearchParams) : Dispatch :=
  match get "type" searchParams with
  | None => InvalidType
  | Some type =>
      if String.eqb type "network-stats" then DoCall getNetworkStats
      else if String.eqb type "network-tps" then DoCall calculateNetworkTPS
      else if String.eqb type "network-events" then DoCall getNetworkEvents
      else if String.eqb type "performance-history" then
        DoCall (getPerformanceHistory (or_str (get "period" searchParams) "24h"))
      else if String.eqb type "gossip-health" then DoCall getGossipHealth
      else if String.eqb type "storage-distribution" then DoCall getStorageDistribution
      else if String.eqb type "epoch-info" then DoCall getEpochInfo
      else if String.eqb type "epoch-history" then DoCall getEpochHistory
      else if String.eqb type "staking-stats" then DoCall getStakingStats
      else if String.eqb type "commission-history" then
        let nodeIdComm := get "nodeId" searchParams in
        if negb (truthy nodeIdComm) then ThrowError "nodeId required"
        else (* [nodeIdComm] is a non-empty string here *)
          DoCall (getCommissionHistory (default "" nodeIdComm))
      else if String.eqb type "slashing-events" then DoCall getSlashingEvents
      else if String.eqb type "exabyte-projection" then
        let timeframe := or_str (get "timeframe" searchParams) "1y" in
        let customNodeCount :=
          if truthy (get "customNodeCount" searchParams)
          then Some (parseInt (get "customNodeCount" searchParams))
          else None in
        DoCall (getExabyteProjection timeframe customNodeCount)
      else if String.eqb type "decentralization-metrics" then
        DoCall getDecentralizationMetrics
      else if String.eqb type "version-distribution" then DoCall getVersionDistribution
      else if String.eqb type "health-score-breakdown" then
        DoCall getHealthScoreBreakdown
      else if String.eqb type "trend-data" then
        let metric := or_str (get "metric" searchParams) "nodes" in
        let periodTrend := or_str (get "period" searchParams) "24h" in
        DoCall (getTrendData metric periodTrend)
      else if String.eqb type "x-score" then
        let nodeIdX := get "nodeId" searchParams in
        DoCall (getXScore (if truthy nodeIdX then nodeIdX else None))
      else if String.eqb type "peer-rankings" then DoCall getPeerRankings
      else if String.eqb type "superminority-info" then DoCall getSuperminorityInfo
      else if String.eqb type "censorship-resistance" then
        DoCall getCensorshipResistanceScore
      else InvalidType
  end.

(** [error.message || 'Internal Server Error']. *)
Definition errorMessage (message : option string) : string :=
  or_str message "Internal Server Error".

Section Handler.
Context {Data : Type}.
(** The metric functions of server/api, as they end in this
    request. *)
Variable answer : Call -> Outcome Data.

(** The answer to a request whose [switch] makes a call: the data with
    the default status, or the [catch] of an exception. *)
Definition answerOf (c : Call) : Response Data :=
  match answer c with
  | Returns data => {| resp_status := 200; resp_body := DataBody data |}
  | Throws message =>
      {| resp_status := 500; resp_body := ErrorBody (errorMessage message) |}
  end.

(** [GET(request)]. *)
Definition GET (searchParams : SearchParams) : Response Data :=
  match dispatch searchParams with
  | InvalidType =>
      {| resp_status := 400; resp_body := ErrorBody "Invalid type param" |}
  | ThrowError message =>
      {| resp_status := 500; resp_body := ErrorBody (errorMessage (Some message)) |}
  | DoCall c => answerOf c
  end.
End Handler.

(** The selectors that the [switch] knows. *)
Definition knownTypes : list string := [
  "network-stats"; "network-tps"; "network-events"; "performance-history";
  "gossip-health"; "storage-distribution"; "epoch-info"; "epoch-history";
  "staking-stats"; "commission-history"; "slashing-events";
  "exabyte-projection"; "decentralization-metrics"; "version-distribution";
  "health-score-breakdown"; "trend-data"; "x-score"; "peer-rankings";
  "superminority-info"; "censorship-resistance"
].

Definition knownType (type : option string) : bool :=
  match type with
  | Some t => existsb (String.eqb t) knownTypes
  | None => false
  end.

End Route.

(** ** Vocabulary of the statements below *)

Module Vocabulary.
Import JS Types.

(** The identity under which a pod of the pRPC list enters the merge. *)
Definition podIdentity (rpcNode : ServerPnodes.RpcPod) (index : Z) : string :=
  or_str (ServerPnodes.rp_pubkey rpcNode) ("unknown-" +:+ number_to_string index).

Definition podIdentities (rpcPods : list ServerPnodes.RpcPod) : list string :=
  mapi podIdentity rpcPods.

(** The identities of the credits ledger. *)
Definition ledgerIdentities (podCredits : option PodCreditsResponse) : list string :=
  match podCredits with
  | Some {| pods_credits := Some pcs |} => map pod_id pcs
  | _ => []
  end.

(** A pod whose [last_seen_timestamp] renders as a date. *)
Definition usableTimestamp (rpcNode : ServerPnodes.RpcPod) : bool :=
  match ServerPnodes.rp_last_seen_timestamp rpcNode with
  | Some ts => ServerPnodes.valid_time (ts * 1000)
  | None => false
  end.

(** The credits of a list of nodes, added up. *)
Fixpoint sumCredits (nodes : list PNode) : Z :=
  match nodes with
  | [] => 0
  | n :: rest => credits_or0 n + sumCredits rest
  end.



(** A sub-score inside the interval from 0 to 100. *)
Definition inUnitRange (x : JsNum.num) : bool :=
  JsNum.leb (JsNum.Fin 0) x && JsNum.leb x (JsNum.Fin 100).


(** No ledger entry: the ledger call gave [null], a body without the
    list, or an empty list. *)
Definition noCredits (podCredits : option PodCreditsResponse) : bool :=
  match podCredits with
  | None | Some {| pods_credits := None |} | Some {| pods_credits := Some [] |} => true
  | _ => false
  end.

(** Both adapters of lib/pnode-api.ts came back empty or [null]. *)
Definition nothingAvailable (s : PnodeApi.Sources) : bool :=
  noCredits (PnodeApi.src_podCredits s)
  && match PnodeApi.src_clusterData s with
     | PnodeApi.RpcNull | PnodeApi.RpcArray [] => true
     | _ => false
     end.

(** The store and the three adapters of server/api/pnodes.ts came back
    empty or [null]. *)
Definition everythingEmpty (e : ServerPnodes.Env) : bool :=
  match ServerPnodes.env_select e with
  | SelectData None | SelectData (Some []) => true
  | _ => false
  end
  && noCredits (ServerPnodes.env_podCredits e)
  && match ServerPnodes.env_rpc e with
     | ServerPnodes.RpcNothing | ServerPnodes.RpcPodsObject []
     | ServerPnodes.RpcBareArray [] => true
     | _ => false
     end
  && bool_decide (ServerPnodes.env_geo e = ∅).

(** An octet prints as text that reads back as the same octet and holds
    no dot. *)
Definition octet_prints_well (o : Z) : bool :=
  bool_decide (parse_octet (number_to_string o) = Some o)
  && bool_decide (split_on "." (number_to_string o) = [number_to_string o]).

(** Failure reporting as the specification words it: whatever a metric
    function throws, the answer is the server error with the generic
    message. *)
Definition failuresAreGeneric : Prop :=
  forall (answer : Route.Call -> Route.Outcome unit)
         (searchParams : Route.SearchParams) (c : Route.Call)
         (message : option string),
    Route.dispatch searchParams = Route.DoCall c ->
    answer c = Route.Throws message ->
    Route.GET answer searchParams
    = {| Route.resp_status := 500;
         Route.resp_body := Route.ErrorBody "Internal Server Error" |}.

(** A commission-history request without a node id. *)
Definition lacksNodeId (searchParams : Route.SearchParams) : Prop :=
  Route.get "type" searchParams = Some "commission-history" /\
  Route.truthy (Route.get "nodeId" searchParams) = false.

Definition occurrences (k : string) (nodes : list PNode) : nat :=
  count_occ string_dec (map pubkey nodes) k.

(** Merge completeness as the specification words it: every identity of
    the pod list or of the ledger occurs exactly once in the answer. *)
Definition mergeComplete (e : ServerPnodes.Env) : Prop :=
  forall k : string,
    In k (podIdentities (default [] (ServerPnodes.rpcPodsOf (ServerPnodes.env_rpc e))))
    \/ In k (ledgerIdentities (ServerPnodes.env_podCredits e)) ->
    occurrences k (fst (ServerPnodes.run (ServerPnodes.fetchFromRpcAndCache e))) = 1%nat.

(** A ledger entry under an identity that the cluster map does not hold,
    while the geolocation batch has a successful answer under the
    address synthesized for that identity. *)
Definition locatedStranger (i : Features.MergeInput) (pc : PodCredit) : bool :=
  match record_get (pod_id pc) (Features.in_mergedData i) with
  | Some _ => false
  | None =>
      match Features.in_geoBatch i !! generateDeterministicIP (pod_id pc) with
      | Some geo => Features.geo_success geo
      | None => false
      end
  end.

(** A stored row and a node that agree on every column of the table. *)
Definition sameColumns (row : Row) (node : PNode) : Prop :=
  pubkey node = r_pubkey row /\ ip node = r_ip row /\ port node = r_port row /\
  version node = r_version row /\ status node = r_status row /\
  uptime node = r_uptime row /\ lastSeen node = r_last_seen row /\
  location node = r_location row /\ metrics node = r_metrics row /\
  performance node = r_performance row /\ credits node = r_credits row /\
  creditsRank node = r_credits_rank row /\ gossip node = r_gossip row /\
  staking node = r_staking row.

(** The node served for a stored row: the columns of the row, under the
    id rebuilt from its rank. *)
Definition servedAs (row : Row) (node : PNode) : Prop :=
  sameColumns row node /\
  id node = "pnode_" +:+ match r_credits_rank row with
                         | Some rank => number_to_string rank
                         | None => "undefined"
                         end.

End Vocabulary.

(** ** Scenarios used in the statements below *)

Module Scenarios.
Import Types.

(** A pod that only reports its identity and when it was last seen. *)
Definition barePod (pk : string) (last_seen : Z) : ServerPnodes.RpcPod :=
  {| ServerPnodes.rp_pubkey := Some pk;
     ServerPnodes.rp_address := None;
     ServerPnodes.rp_rpc_port := None;
     ServerPnodes.rp_version := None;
     ServerPnodes.rp_last_seen_timestamp := Some last_seen;
     ServerPnodes.rp_uptime := None;
     ServerPnodes.rp_storage_used := None;
     ServerPnodes.rp_storage_committed := None |}.

Definition ledger (entries : list (string * Z)) : option PodCreditsResponse :=
  Some {| pods_credits :=
            Some (map (fun '(k, c) => {| pc_credits := c; pod_id := k |}) entries) |}.

(** The pod list names X before Y; the ledger credits Y only. *)
Definition rankEnv : ServerPnodes.Env :=
  {| ServerPnodes.env_now := 1700000000000;
     ServerPnodes.env_select := SelectData None;
     ServerPnodes.env_podCredits := ledger [("Y", 100)];
     ServerPnodes.env_rpc :=
       ServerPnodes.RpcPodsObject [barePod "X" 1700000000; barePod "Y" 1700000000];
     ServerPnodes.env_geo := ∅ |}.

(** The pod list names X only; the ledger credits X and Z. *)
Definition ledgerOnlyEnv : ServerPnodes.Env :=
  {| ServerPnodes.env_now := 1700000000000;
     ServerPnodes.env_select := SelectData None;
     ServerPnodes.env_podCredits := ledger [("X", 10); ("Z", 50)];
     ServerPnodes.env_rpc := ServerPnodes.RpcPodsObject [barePod "X" 1700000000];
     ServerPnodes.env_geo := ∅ |}.

(** The ledger-driven merge with the cluster map naming X and W, the
    ledger X and Z. *)
Definition partialOf (pk ip : string) : Features.PartialNode :=
  {| Features.pn_pubkey := pk; Features.pn_ip := Some ip;
     Features.pn_port := Some 8000; Features.pn_version := Some "0.7.0";
     Features.pn_staking := None; Features.pn_location := None |}.

Definition ledgerDriven : Features.MergeInput :=
  {| Features.in_now := 1700000000000;
     Features.in_podCredits := ledger [("X", 10); ("Z", 50)];
     Features.in_mergedData :=
       [("X", partialOf "X" "10.0.0.1"); ("W", partialOf "W" "10.0.0.2")];
     Features.in_geoBatch := ∅ |}.

(** A stored snapshot of one row, stamped at [1700000000000]. *)
Definition cachedRow : Row :=
  ServerPnodes.mapPNodeToRow 1700000000000
    (PnodeApi.transformPodToNode 1700000000000
       {| pc_credits := 9000; pod_id := "A" |} 0 1).

(** A request at instant [now] that finds the stored snapshot, with the
    adapters of [rankEnv] behind it. *)
Definition gateEnv (now : Z) : ServerPnodes.Env :=
  {| ServerPnodes.env_now := now;
     ServerPnodes.env_select := SelectData (Some [cachedRow]);
     ServerPnodes.env_podCredits := ledger [("Y", 100)];
     ServerPnodes.env_rpc :=
       ServerPnodes.RpcPodsObject [barePod "X" 1700000000; barePod "Y" 1700000000];
     ServerPnodes.env_geo := ∅ |}.

(** Ten ledger entries with the credits 500, 400, 300, 200, 100, 50, 50,
    50, 25, 25 and no cluster data. *)
Definition tenNodes : PnodeApi.Sources :=
  {| PnodeApi.src_podCredits :=
       ledger [("node1", 500); ("node2", 400); ("node3", 300); ("node4", 200);
               ("node5", 100); ("node6", 50); ("node7", 50); ("node8", 50);
               ("node9", 25); ("node10", 25)];
     PnodeApi.src_clusterData := PnodeApi.RpcNull;
     PnodeApi.src_now := 1700000000000 |}.

(** The ledger A: 9000, B: 100, C: 0. *)
Definition threeNodes : PnodeApi.Sources :=
  {| PnodeApi.src_podCredits := ledger [("A", 9000); ("B", 100); ("C", 0)];
     PnodeApi.src_clusterData := PnodeApi.RpcNull;
     PnodeApi.src_now := 1700000000000 |}.



(** Nothing behind either merge. *)
Definition emptySources : PnodeApi.Sources :=
  {| PnodeApi.src_podCredits := None;
     PnodeApi.src_clusterData := PnodeApi.RpcNull;
     PnodeApi.src_now := 1700000000000 |}.

Definition emptyEnv : ServerPnodes.Env :=
  {| ServerPnodes.env_now := 1700000000000;
     ServerPnodes.env_select := SelectData (Some []);
     ServerPnodes.env_podCredits := None;
     ServerPnodes.env_rpc := ServerPnodes.RpcPodsObject [];
     ServerPnodes.env_geo := ∅ |}.

(** Metric functions that all fail on a refused connection. *)
Definition refused : Route.Call -> Route.Outcome unit :=
  fun _ => Route.Throws (Some "connect ECONNREFUSED 10.0.0.5:5432").

(** Metric functions that all succeed. *)
Definition served : Route.Call -> Route.Outcome unit :=
  fun _ => Route.Returns tt.

(** What a request sees of a node. *)
Definition summary (n : PNode) : string * option Z * option Z :=
  (pubkey n, credits n, creditsRank n).

End Scenarios.

(** ** Further vocabulary and scenarios *)

(** ** server/api/pnodes.ts, the ingesting version

    The later version of the file: the merge ranks after sorting, the
    upsert error is thrown on, and a network-statistics row is written.
    The nodes are JavaScript objects shared between the array that is
    returned and the array that is deduplicated, sorted and ranked, so
    the model keeps a store of objects addressed by their place of
    creation. *)

Module Ingest.
Import JS.
Export Types.

Definition unknownLocation : NodeLocation :=
  {| country := "Unknown"; countryCode := "UN"; city := "Unknown";
     lat := 0; lng := 0; datacenter := "Unknown"; loc_asn := "Unknown" |}.

(** [mapRpcNodeToPNode(rpcNode, { credits }, index, geoData)] of this
    version; [None] is the [RangeError] of [toISOString] on a
    [last_seen_timestamp] outside the range of time values. *)
Definition mapRpcNodeToPNode (now : Z) (rpcNode : ServerPnodes.RpcPod)
    (creditData : option Z) (index : Z) (geoData : option GeolocationData)
    : option PNode :=
  let pubkey :=
    or_str (ServerPnodes.rp_pubkey rpcNode) ("unknown-" +:+ number_to_string index) in
  let ip : option string :=
    match ServerPnodes.rp_address rpcNode with
    | Some a => if truthy_str a then Some (before_colon a) else None
    | None => None
    end in
  let port := or_Z (ServerPnodes.rp_rpc_port rpcNode) 0 in
  let version := or_str (ServerPnodes.rp_version rpcNode) "Unknown" in
  let credits := or_Z creditData 0 in
  let nowSec := now / 1000 in
  let lastSeenTimestamp := or_Z (ServerPnodes.rp_last_seen_timestamp rpcNode) 0 in
  let isOnline := nowSec - lastSeenTimestamp <? 300 in
  let status := if isOnline then online else offline in
  let location :=
    match geoData with
    | Some g => ServerPnodes.locationOfGeo g
    | None => unknownLocation
    end in
  let storageUsed :=
    match ServerPnodes.rp_storage_used rpcNode with
    | Some u => if Qeq_bool u 0 then 0%Q else (u / 1024 / 1024 / 1024)%Q
    | None => 0%Q
    end in
  let storageCapacity :=
    match ServerPnodes.rp_storage_committed rpcNode with
    | Some c => if Qeq_bool c 0 then 0%Q else (c / 1024 / 1024 / 1024)%Q
    | None => 0%Q
    end in
  if negb (ServerPnodes.valid_time (lastSeenTimestamp * 1000)) then None
  else Some
    {| id := "pnode_" +:+ pubkey;
       pubkey := pubkey;
       ip := or_str ip "Unknown";
       port := Some port;
       version := version;
       status := status;
       uptime := or_Q (ServerPnodes.rp_uptime rpcNode) 0;
       lastSeen := lastSeenTimestamp * 1000;
       location := Some location;
       credits := Some credits;
       creditsRank := Some 0;
       metrics := {| cpuPercent := 0; memoryPercent := 0;
                     storageUsedGB := storageUsed;
                     storageCapacityGB := storageCapacity;
                     responseTimeMs := 0 |};
       performance := {| score := 0; tier := fair |};
       gossip := {| peersConnected := 0; messagesReceived := 0;
                    messagesSent := 0 |};
       staking := {| commission := 0; delegatedStake := 0; activatedStake := 0;
                     apy := 0; lastVote := 0; rootSlot := 0 |} |}.

(** *** The shared node objects *)

(** An object is addressed by the place at which [rpcPods.map] created
    it; the store lists the objects in that order. *)
Definition Ref : Type := nat.

(** [node.creditsRank = rank]. *)
Definition withRank (rank : Z) (n : PNode) : PNode :=
  {| id := id n; pubkey := pubkey n; ip := ip n; port := port n;
     version := version n; status := status n; uptime := uptime n;
     lastSeen := lastSeen n; location := location n; credits := credits n;
     creditsRank := Some rank; metrics := metrics n;
     performance := performance n; gossip := gossip n; staking := staking n |}.

(** [new Map(pnodes.map(item => [item.pubkey, item])).values()], as
    the references it keeps. *)
Definition uniqueRefs (store : list PNode) : list Ref :=
  map snd (ServerPnodes.map_of_pairs (imap (fun r item => (pubkey item, r)) store)).

(** [credits] of the object at [r]. *)
Definition creditsAt (store : list PNode) (r : Ref) : Z :=
  default 0 (credits_or0 <$> store !! r).

(** [uniqueNodes.forEach((node, index) => { node.creditsRank = index + 1 })],
    from round [index] on. *)
Fixpoint assignRanks (index : Z) (sorted : list Ref) (store : list PNode)
    : list PNode :=
  match sorted with
  | [] => store
  | r :: rest => assignRanks (index + 1) rest (alter (withRank (index + 1)) r store)
  end.

(** A row of the upsert: the columns of [mapPNodeToRow] and the [id]. *)
Record IngestRow := { ir_id : string; ir_columns : Row }.

Definition rowOf (now : Z) (node : PNode) : IngestRow :=
  {| ir_id := id node; ir_columns := ServerPnodes.mapPNodeToRow now node |}.

(** Steps 3.5 to 5 of [ingestNodeData] on the freshly mapped objects:
    the rows of the payload and the store after the ranking. *)
Definition rankAndRows (now : Z) (store : list PNode)
    : list IngestRow * list PNode :=
  let uniqueNodes := uniqueRefs store in
  let sorted :=
    sort (fun a b => creditsAt store b - creditsAt store a) uniqueNodes in
  let ranked := assignRanks 0 sorted store in
  (omap (fun r => rowOf now <$> ranked !! r) sorted, ranked).

(** *** The network-statistics row *)

Record StatsRow := {
  total_nodes : Z;
  online_nodes : Z;
  offline_nodes : Z;
  total_storage_tb : Q;
  total_storage_used_tb : Q;
  avg_uptime : Q;
  avg_response_time : Z;
  network_health : Q;
  gossip_messages_24h_count : Z;
  stats_updated_at : Z
}.

Definition rowsWithStatus (st : Status) (rows : list IngestRow) : Z :=
  array_length (filter (fun r => Status_eqb (r_status (ir_columns r)) st) rows).

Definition sumRows (f : IngestRow -> Q) (rows : list IngestRow) : Q :=
  fold_left (fun acc r => (acc + f r)%Q) rows 0%Q.

(** Step 7 of [ingestNodeData] after the three counting queries;
    [x ?? d] keeps a count of 0. The ratios are guarded by
    [totalNodes > 0] and [rows] is not empty here. *)
Definition statsRowOf (now : Z) (rows : list IngestRow)
    (dbTotalNodes dbOnlineNodes dbOfflineNodes : option Z) : StatsRow :=
  let totalNodes := default (array_length rows) dbTotalNodes in
  let onlineNodes := default (rowsWithStatus online rows) dbOnlineNodes in
  let offlineNodes := default (rowsWithStatus offline rows) dbOfflineNodes in
  let totalStorage :=
    (sumRows (fun r => or_Q (Some (storageCapacityGB (r_metrics (ir_columns r)))) 0)
             rows / 1000)%Q in
  let totalUsed :=
    (sumRows (fun r => or_Q (Some (storageUsedGB (r_metrics (ir_columns r)))) 0)
             rows / 1000)%Q in
  let avgUptime :=
    if totalNodes >? 0
    then (sumRows (fun r => or_Q (Some (r_uptime (ir_columns r))) 0) rows
          / inject_Z (array_length rows))%Q
    else 0%Q in
  {| total_nodes := totalNodes;
     online_nodes := onlineNodes;
     offline_nodes := offlineNodes;
     total_storage_tb := totalStorage;
     total_storage_used_tb := totalUsed;
     avg_uptime := avgUptime;
     avg_response_time := 0;
     network_health :=
       if totalNodes >? 0
       then (inject_Z onlineNodes / inject_Z totalNodes * 100)%Q else 0%Q;
     gossip_messages_24h_count := 0;
     stats_updated_at := now |}.

(** *** The calls to the collaborators *)

(** What the [select] on the table gives back. *)
Inductive Selected :=
| SelectRejects
| SelectedError
| SelectedData (rows : option (list IngestRow)).

Record Env := {
  env_now : Z;
  env_select : Selected;
  env_podCredits : option PodCreditsResponse;
  env_rpc : ServerPnodes.RpcResponse;
  env_geo : gmap string GeolocationData;
  env_upsertError : bool;
  env_dbTotalNodes : option Z;
  env_dbOnlineNodes : option Z;
  env_dbOfflineNodes : option Z
}.

Inductive Event :=
| EvSelect
| EvFetchPodCredits
| EvGetPods
| EvGeoBatch (ips : list string)
| EvUpsert (rows : list IngestRow)
| EvCount (status : option Status)
| EvInsertStats (row : StatsRow).

(** An answer or a thrown exception. *)
Inductive Outcome (A : Type) :=
| Returns (a : A)
| Throws.
Arguments Returns {A}.
Arguments Throws {A}.

Definition M (A : Type) : Type := list Event -> A * list Event.
Definition ret {A : Type} (a : A) : M A := fun log => (a, log).
Definition bind {A B : Type} (m : M A) (k : A -> M B) : M B :=
  fun log => let '(a, log') := m log in k a log'.
Definition emit (e : Event) : M unit := fun log => (tt, log ++ [e]).
Definition run {A : Type} (m : M A) : A * list Event := m [].

Local Notation "m ;;; k" := (bind m (fun _ => k))
  (at level 100, right associativity).

Definition fetchable (ip : option string) : bool :=
  match ip with
  | Some ip => truthy_str ip && negb (String.eqb ip "127.0.0.1")
               && negb (String.eqb ip "localhost")
               && negb (String.eqb ip "0.0.0.0")
  | None => false
  end.

(** [rpcPods.map(...)] of step 3: the store of the new objects, [None]
    when a pod makes the mapping throw. *)
Definition mapPods (e : Env) (rpcPods : list ServerPnodes.RpcPod)
    : option (list PNode) :=
  let creditMap := ServerPnodes.creditMapOf (env_podCredits e) in
  ServerPnodes.map_throwing
    (fun rpcNode index =>
       let ip := ServerPnodes.podIp rpcNode in
       let credits := ServerPnodes.creditsFor creditMap rpcNode in
       let geo :=
         match ip with
         | Some ip => if truthy_str ip then env_geo e !! ip else None
         | None => None
         end in
       mapRpcNodeToPNode (env_now e) rpcNode (Some credits) index geo)
    0 rpcPods.

(** [ingestNodeData()]: the returned array ([None] for the bare
    [return] on an invalid answer), or the exception thrown on. *)
Definition ingestNodeData (e : Env) : M (Outcome (option (list PNode))) :=
  emit EvFetchPodCredits ;;;
  emit EvGetPods ;;;
  match env_rpc e with
  | ServerPnodes.RpcThrows => ret Throws
  | ServerPnodes.RpcMalformed => ret (Returns None)
  | r =>
      let rpcPods := default [] (ServerPnodes.rpcPodsOf r) in
      let ipsToFetch :=
        omap (fun ip => ip) (filter fetchable (map ServerPnodes.podIp rpcPods)) in
      emit (EvGeoBatch ipsToFetch) ;;;
      match mapPods e rpcPods with
      | None => ret Throws
      | Some store =>
          let '(rows, pnodes) := rankAndRows (env_now e) store in
          if array_length rows >? 0 then
            emit (EvUpsert rows) ;;;
            if env_upsertError e then ret Throws
            else
              emit (EvCount None) ;;;
              emit (EvCount (Some online)) ;;;
              emit (EvCount (Some offline)) ;;;
              emit (EvInsertStats
                      (statsRowOf (env_now e) rows (env_dbTotalNodes e)
                         (env_dbOnlineNodes e) (env_dbOfflineNodes e))) ;;;
              ret (Returns (Some pnodes))
          else ret (Returns (Some pnodes))
      end
  end.

(** The row mapped back to a node. *)
Definition nodeOfRow (row : IngestRow) : PNode :=
  {| id := ir_id row;
     pubkey := r_pubkey (ir_columns row);
     ip := r_ip (ir_columns row);
     port := r_port (ir_columns row);
     version := r_version (ir_columns row);
     status := r_status (ir_columns row);
     uptime := r_uptime (ir_columns row);
     lastSeen := r_last_seen (ir_columns row);
     location := r_location (ir_columns row);
     credits := r_credits (ir_columns row);
     creditsRank := r_credits_rank (ir_columns row);
     metrics := r_metrics (ir_columns row);
     performance := r_performance (ir_columns row);
     gossip := r_gossip (ir_columns row);
     staking := r_staking (ir_columns row) |}.

(** [getClusterNodes()] of this version: no [try] around the calls. *)
Definition getClusterNodes (e : Env) : M (Outcome (list PNode)) :=
  emit EvSelect ;;;
  match env_select e with
  | SelectRejects => ret Throws
  | SelectedData (Some (first :: rest)) =>
      let cachedNodes := first :: rest in
      let needsUpdate :=
        match updated_at (ir_columns first) with
        | Some lastUpdate => env_now e - lastUpdate >? 5 * 60 * 1000
        | None => false
        end in
      if needsUpdate then
        bind (ingestNodeData e) (fun freshNodes =>
          ret match freshNodes with
              | Returns (Some nodes) => Returns nodes
              | Returns None => Returns []
              | Throws => Throws
              end)
      else ret (Returns (map nodeOfRow cachedNodes))
  | _ =>
      bind (ingestNodeData e) (fun freshNodes =>
        ret match freshNodes with
            | Returns (Some nodes) => Returns nodes
            | Returns None => Returns []
            | Throws => Throws
            end)
  end.

End Ingest.

(** ** server/api/pnodes.ts, the ingesting version: geolocation in batches *)

Module GeoBatch.
Import JS.
Export Types.

(** An element of the array that ip-api.com answers with. *)
Record GeoItem := { gi_query : option string; gi_data : GeolocationData }.

(** What one POST to the batch endpoint gives: an exception, a
    response that is not ok, a body that is not an array, or the
    array. *)
Inductive BatchAnswer :=
| BatchThrows
| BatchNotOk
| BatchNotArray
| BatchItems (items : list GeoItem).

(** The module-level [geoCache] and the [results] record; [requests]
    lists the bodies posted so far. *)
Record State := {
  geoCache : gmap string GeolocationData;
  results : gmap string GeolocationData;
  requests : list (list string)
}.

(** The [for (let i = 0; i < n; i += 100)] loop that slices the list,
    with the rounds left as fuel. *)
Fixpoint chunksFrom (rounds : nat) (l : list string) : list (list string) :=
  match rounds with
  | O => []
  | S rounds' =>
      match l with
      | [] => []
      | _ => firstn 100 l :: chunksFrom rounds' (skipn 100 l)
      end
  end.

Definition chunksOf (l : list string) : list (list string) :=
  chunksFrom (List.length l) l.

(** [item.query && item.status === 'success']. *)
Definition usable (item : GeoItem) : option string :=
  match gi_query item with
  | Some q =>
      if truthy_str q
         && match geo_status (gi_data item) with
            | Some st => String.eqb st "success"
            | None => false
            end
      then Some q else None
  | None => None
  end.

(** One round of [data.forEach]. *)
Definition keep (s : State) (item : GeoItem) : State :=
  match usable item with
  | Some q =>
      {| geoCache := <[q := gi_data item]> (geoCache s);
         results := <[q := gi_data item]> (results s);
         requests := requests s |}
  | None => s
  end.

(** One round of [for (const chunk of chunks)]; the service answers
    the [call]-th request with [service call chunk]. *)
Definition postChunk (service : nat -> list string -> BatchAnswer)
    (s : State) (chunk : list string) : State :=
  let call := List.length (requests s) in
  let posted :=
    {| geoCache := geoCache s; results := results s;
       requests := requests s ++ [chunk] |} in
  match service call chunk with
  | BatchItems items => fold_left keep items posted
  | _ => posted
  end.

(** One round of the closing [ips.forEach]. *)
Definition fromCache (s : State) (ip : string) : State :=
  match geoCache s !! ip with
  | Some g =>
      {| geoCache := geoCache s; results := <[ip := g]> (results s);
         requests := requests s |}
  | None => s
  end.

(** [fetchBatchGeolocation(ips)] on the cache [cache]: the state at
    the [return], whose [results] member is returned. *)
Definition fetchBatchGeolocation (service : nat -> list string -> BatchAnswer)
    (cache : gmap string GeolocationData) (ips : list string) : State :=
  let uncachedIps :=
    List.filter (fun ip => negb (bool_decide (is_Some (cache !! ip)))) ips in
  let chunks := chunksOf uncachedIps in
  let start := {| geoCache := cache; results := ∅; requests := [] |} in
  fold_left fromCache ips (fold_left (postChunk service) chunks start).

End GeoBatch.

(** ** features/pnodes/services: the map of cluster nodes and vote accounts *)

Module FeaturesMerged.
Import JS.
Export Features.

(** An entry of the [getVoteAccounts] answer; an element of
    [epochCredits] is the array [[epoch, credits, previousCredits]]. *)
Record VoteAccount := {
  va_nodePubkey : string;
  va_activatedStake : Q;
  va_commission : Q;
  va_lastVote : Q;
  va_rootSlot : Q;
  va_epochCredits : list (Q * Q * Q)
}.

Record VoteAccountsResponse := {
  va_current : list VoteAccount;
  va_delinquent : list VoteAccount
}.

(** One round of [for (const node of clusterNodes)]. *)
Definition addClusterNode (nodeMap : list (string * PartialNode)) (node : ClusterNode)
    : list (string * PartialNode) :=
  let ip :=
    or_str (before_colon <$> cn_gossip node)
      (or_str (before_colon <$> cn_rpc node) "") in
  let port := parseInt (Some (or_str (cn_gossip node ≫= after_colon) "8000")) in
  record_set (cn_pubkey node)
    {| pn_pubkey := cn_pubkey node;
       pn_ip := Some ip;
       pn_port := port;
       pn_version := Some (or_str (cn_version node) "0.7.0");
       pn_staking := None;
       pn_location := None |}
    nodeMap.

(** One round of [for (const va of allVotes)]. *)
Definition addVoteAccount (nodeMap : list (string * PartialNode)) (va : VoteAccount)
    : list (string * PartialNode) :=
  let existing :=
    default {| pn_pubkey := va_nodePubkey va; pn_ip := None; pn_port := None;
               pn_version := None; pn_staking := None; pn_location := None |}
            (record_get (va_nodePubkey va) nodeMap) in
  let lastCredits := List.last (va_epochCredits va) (0%Q, 0%Q, 0%Q) in
  let epochCreditsDelta := (snd (fst lastCredits) - snd lastCredits)%Q in
  let apy :=
    if Qgtb (va_activatedStake va) 0
    then (epochCreditsDelta / va_activatedStake va * 100 * 365)%Q else 5%Q in
  record_set (va_nodePubkey va)
    {| pn_pubkey := pn_pubkey existing;
       pn_ip := pn_ip existing;
       pn_port := pn_port existing;
       pn_version := pn_version existing;
       pn_staking :=
         Some {| commission := va_commission va;
                 delegatedStake := va_activatedStake va;
                 activatedStake := va_activatedStake va;
                 apy := apy;
                 lastVote := va_lastVote va;
                 rootSlot := va_rootSlot va |};
       pn_location := pn_location existing |}
    nodeMap.

(** [getMergedNodeData()] when the 30-second cache does not answer:
    [clusterNodes] is what [fetchClusterNodes] gave ([[]] for [null])
    and [voteAccounts] what [fetchVoteAccounts] gave. *)
Definition getMergedNodeData (clusterNodes : list ClusterNode)
    (voteAccounts : option VoteAccountsResponse) : list (string * PartialNode) :=
  let nodeMap := fold_left addClusterNode clusterNodes [] in
  match voteAccounts with
  | Some votes =>
      let allVotes := va_current votes ++ va_delinquent votes in
      fold_left addVoteAccount allVotes nodeMap
  | None => nodeMap
  end.

End FeaturesMerged.

(** ** app/api/staking-stats/route.ts *)

Module StakingRoute.
Import JS.
Export Types.

Record Totals := { totalStake : Q; activeStake : Q; delegatorCount : Q }.

(** One round of [nodes.forEach]. *)
Definition addNode (t : Totals) (node : PNode) : Totals :=
  let stake := or_Q (Some (activatedStake (staking node))) 0 in
  {| totalStake := (totalStake t + stake)%Q;
     activeStake :=
       if Status_eqb (status node) online then (activeStake t + stake)%Q
       else activeStake t;
     delegatorCount :=
       (delegatorCount t + or_Q (Some (delegatedStake (staking node))) 0)%Q |}.

Record StakingSummary := {
  ss_totalStake : Q;
  ss_activeStake : Q;
  ss_delegatorCount : Q;
  ss_validatorCount : Z;
  ss_activeValidators : Z;
  ss_avgStakePerNode : Q;
  ss_stakeUtilization : Q
}.

(** The body of the [try] block after [await getClusterNodes()]. *)
Definition summaryOf (nodes : list PNode) : StakingSummary :=
  let t := fold_left addNode nodes
             {| totalStake := 0; activeStake := 0; delegatorCount := 0 |} in
  let onlineNodes :=
    array_length (filter (fun n => Status_eqb (status n) online) nodes) in
  {| ss_totalStake := totalStake t;
     ss_activeStake := activeStake t;
     ss_delegatorCount := delegatorCount t;
     ss_validatorCount := array_length nodes;
     ss_activeValidators := onlineNodes;
     ss_avgStakePerNode :=
       if array_length nodes >? 0
       then (totalStake t / inject_Z (array_length nodes))%Q else 0%Q;
     ss_stakeUtilization :=
       if Qgtb (totalStake t) 0
       then (activeStake t / totalStake t * 100)%Q else 0%Q |}.

(** The answer of the route: the summary, or the status 500 with the
    text of the exception. *)
Inductive Answer :=
| Summary (s : StakingSummary)
| ServerError.

(** [GET()]; [nodes] is what [getClusterNodes()] gave. *)
Definition GET (nodes : Ingest.Outcome (list PNode)) : Z * Answer :=
  match nodes with
  | Ingest.Returns nodes => (200, Summary (summaryOf nodes))
  | Ingest.Throws => (500, ServerError)
  end.

End StakingRoute.

(** ** lib/pnode-api.ts: rankings, diversity, versions, gossip, epochs *)

Module FurtherMetrics.
Import JS.
Export DerivedMetrics.

(** *** Peer rankings *)

Record PeerRanking := {
  pr_nodeId : string;
  pr_nodePubkey : string;
  pr_rank : Z;
  pr_totalNodes : Z;
  pr_percentile : Q;
  pr_xScore : Q;
  pr_trendChange : Z
}.

(** The body of [getPeerRankings] after [await getClusterNodes()]. The
    division by [nodes.length] runs for a ranked node only, so the
    length is not 0 there. *)
Definition peerRankingsOf (nodes : list PNode) : list PeerRanking :=
  mapi (fun node index =>
          {| pr_nodeId := id node;
             pr_nodePubkey := pubkey node;
             pr_rank := index + 1;
             pr_totalNodes := array_length nodes;
             pr_percentile :=
               (inject_Z (array_length nodes - index)
                / inject_Z (array_length nodes) * 100)%Q;
             pr_xScore := score (performance node);
             pr_trendChange := 0 |})
       (firstn 20
          (sort byCreditsDesc
             (filter (fun n => Status_eqb (status n) online) nodes))).

Definition getPeerRankings (s : Sources) : list PeerRanking :=
  peerRankingsOf (getClusterNodes s).

(** *** Censorship resistance *)

Inductive DiversityGrade := dgA | dgB | dgC | dgD | dgF.

Record CensorshipResistanceScore := {
  cr_overall : Q;
  geographicDiversity : Z;
  asnDiversity : Z;
  jurisdictionDiversity : Z;
  clientDiversity : Z;
  cr_grade : DiversityGrade
}.

(** The body of [getCensorshipResistanceScore] after
    [await getDecentralizationMetrics()]. *)
Definition censorshipResistanceOf (metrics : DecentralizationMetrics)
    : CensorshipResistanceScore :=
  let countries := array_length (countryDistribution metrics) in
  let asns := array_length (asnDistribution metrics) in
  let geographicDiversity := Z.min 100 (countries * 5) in
  let asnDiversity := Z.min 100 (asns * 12) in
  let jurisdictionDiversity := Z.min 100 (countries * 4) in
  let clientDiversity := 80 in
  let overall :=
    (inject_Z (geographicDiversity + asnDiversity + jurisdictionDiversity
               + clientDiversity) / 4)%Q in
  let grade :=
    if Qgeb overall 80 then dgA
    else if Qgeb overall 65 then dgB
    else if Qgeb overall 50 then dgC
    else if Qgeb overall 35 then dgD
    else dgF in
  {| cr_overall := overall;
     geographicDiversity := geographicDiversity;
     asnDiversity := asnDiversity;
     jurisdictionDiversity := jurisdictionDiversity;
     clientDiversity := clientDiversity;
     cr_grade := grade |}.

Definition getCensorshipResistanceScore (s : Sources) : CensorshipResistanceScore :=
  censorshipResistanceOf (getDecentralizationMetrics s).

(** *** Version distribution *)

Record VersionInfo := {
  vi_version : string;
  vi_count : Z;
  vi_percentage : Q;
  vi_isLatest : bool
}.

(** The body of [getVersionDistribution] after
    [await getClusterNodes()]. [Object.entries] lists a key that reads
    as an array index before the others; version strings are taken not
    to read so, and the entries are sorted by count afterwards. The
    percentages are exact rationals; the doubles of the code keep their
    range and their order, while their sum can miss 100 in the last
    place (counts 2 and 1 give 99.99999999999999). *)
Definition versionDistributionOf (nodes : list PNode) : list VersionInfo :=
  let versionCount := fold_left (fun m node => bump (version node) m) nodes [] in
  let total := or_Z (Some (array_length nodes)) 1 in
  let latestVersion := "0.7.0" in
  sort (fun a b => vi_count b - vi_count a)
       (map (fun '(version, count) =>
               {| vi_version := version;
                  vi_count := count;
                  vi_percentage := (inject_Z count / inject_Z total * 100)%Q;
                  vi_isLatest := String.eqb version latestVersion |})
            versionCount).

Definition getVersionDistribution (s : Sources) : list VersionInfo :=
  versionDistributionOf (getClusterNodes s).

(** *** Gossip health *)

Record GossipHealth := {
  gh_totalPeers : Q;
  gh_avgPeersPerNode : Q;
  gh_messageRate : Z;
  gh_networkLatency : Q;
  gh_partitions : Z;
  gh_healthScore : Q
}.

(** The body of [getGossipHealth] after [await getClusterNodes()]; both
    divisions are guarded by [onlineNodes.length > 0]. *)
Definition gossipHealthOf (nodes : list PNode) : GossipHealth :=
  let onlineNodes := filter (fun n => Status_eqb (status n) online) nodes in
  let totalPeers := sumQ (fun n => peersConnected (gossip n)) onlineNodes in
  let avgPeers :=
    if array_length onlineNodes >? 0
    then (totalPeers / inject_Z (array_length onlineNodes))%Q else 0%Q in
  let avgLatency :=
    if array_length onlineNodes >? 0
    then (sumQ (fun n => responseTimeMs (metrics n)) onlineNodes
          / inject_Z (array_length onlineNodes))%Q
    else 0%Q in
  {| gh_totalPeers := totalPeers;
     gh_avgPeersPerNode := avgPeers;
     gh_messageRate :=
       Qfloor (sumQ (fun n => messagesReceived (gossip n)) onlineNodes / 24);
     gh_networkLatency := avgLatency;
     gh_partitions := 0;
     gh_healthScore := Qmin 100 (70 + avgPeers) |}.

Definition getGossipHealth (s : Sources) : GossipHealth :=
  gossipHealthOf (getClusterNodes s).

(** *** Commission history *)

Record CommissionPoint := {
  cp_timestamp : Z;
  cp_commission : Q;
  cp_change : Z
}.

Record CommissionHistory := {
  ch_nodeId : string;
  ch_history : list CommissionPoint
}.

(** The body of [getCommissionHistory(nodeId)] after
    [await getClusterNodes()]; the clock reads [now] throughout. *)
Definition commissionHistoryOf (now : Z) (nodes : list PNode) (nodeId : string)
    : CommissionHistory :=
  let node := List.find (fun n => String.eqb (id n) nodeId) nodes in
  let commission := or_Q (commission <$> (staking <$> node)) 5 in
  {| ch_nodeId := nodeId;
     ch_history :=
       map (fun i => {| cp_timestamp := now - i * 24 * 60 * 60 * 1000;
                        cp_commission := commission;
                        cp_change := 0 |})
           (map Z.of_nat (seq 0 30)) |}.

Definition getCommissionHistory (s : Sources) (nodeId : string) : CommissionHistory :=
  commissionHistoryOf (src_now s) (getClusterNodes s) nodeId.

(** *** Epochs *)

(** The [result] of the [getEpochInfo] RPC, as the code reads it; a
    missing member is [None]. *)
Record EpochData := {
  ed_epoch : option Z;
  ed_slotIndex : option Z;
  ed_slotsInEpoch : option Z;
  ed_absoluteSlot : option Z
}.

Record EpochInfo := {
  currentEpoch : Z;
  epochProgress : Q;
  epochStartTime : Z;
  epochEndTime : Z;
  slotsCompleted : Z;
  totalSlots : Z;
  blocksProduced : Z;
  skipRate : Q
}.

Definition epochDuration : Z := 2 * 24 * 60 * 60 * 1000.

(** The number read from a member: [undefined] gives [NaN] in
    arithmetic. *)
Definition num_of (x : option Z) : JsNum.num :=
  match x with
  | Some n => JsNum.of_Z n
  | None => JsNum.NaN
  end.

(** [new Date(t).toISOString()], as the time value it prints: the
    number is clipped to the range of time values and truncated;
    [None] is the [RangeError] on an invalid date. *)
Definition date_of (t : JsNum.num) : option Z :=
  match t with
  | JsNum.Fin q =>
      if Qle_bool q 8640000000000000 && Qle_bool (-8640000000000000) q
      then Some (Z.quot (Qnum q) (Z.pos (Qden q)))
      else None
  | _ => None
  end.

(** The fallback of [getEpochInfo]; [now] is a clock reading, for
    which both dates print. The remainder and the dates are whole
    numbers of milliseconds, exact in the code as well. The product for
    [slotsCompleted] is exact here; in doubles it can stay just below a
    whole number when [now] is on a slot boundary, and the floor is
    then one less. *)
Definition epochFallback (now : Z) : EpochInfo :=
  let currentEpoch := 209 in
  let epochStart := now - Z.rem now epochDuration in
  {| currentEpoch := currentEpoch;
     epochProgress :=
       (inject_Z (now - epochStart) / inject_Z epochDuration * 100)%Q;
     epochStartTime := epochStart;
     epochEndTime := epochStart + epochDuration;
     slotsCompleted :=
       Qfloor (inject_Z (now - epochStart) / inject_Z epochDuration * 432000);
     totalSlots := 432000;
     blocksProduced := 85000000;
     skipRate := 2.5%Q |}.

(** The [try] block of [getEpochInfo] on an RPC result that is an
    object; [None] when a date does not print and the block throws. *)
Definition epochFromRpc (now : Z) (data : EpochData) : option EpochInfo :=
  let ratio := JsNum.div (num_of (ed_slotIndex data)) (num_of (ed_slotsInEpoch data)) in
  let epochStart :=
    JsNum.sub (JsNum.of_Z now) (JsNum.mul ratio (JsNum.of_Z epochDuration)) in
  match date_of epochStart,
        date_of (JsNum.add epochStart (JsNum.of_Z epochDuration)) with
  | Some startTime, Some endTime =>
      Some
        {| currentEpoch := or_Z (ed_epoch data) 209;
           epochProgress :=
             match ed_slotIndex data, ed_slotsInEpoch data with
             | Some slotIndex, Some slotsInEpoch =>
                 if negb (slotIndex =? 0) && negb (slotsInEpoch =? 0)
                 then (inject_Z slotIndex / inject_Z slotsInEpoch * 100)%Q
                 else 50%Q
             | _, _ => 50%Q
             end;
           epochStartTime := startTime;
           epochEndTime := endTime;
           slotsCompleted := or_Z (ed_slotIndex data) 200000;
           totalSlots := or_Z (ed_slotsInEpoch data) 432000;
           blocksProduced := or_Z (ed_absoluteSlot data) 85000000;
           skipRate := 2.5%Q |}
  | _, _ => None
  end.

(** [getEpochInfo()]: [epochData] is what [fetchRPC] handed back, an
    object or [null]; an exception in the [try] block is logged and the
    fallback answers. *)
Definition getEpochInfo (now : Z) (epochData : option EpochData) : EpochInfo :=
  match epochData with
  | Some data => default (epochFallback now) (epochFromRpc now data)
  | None => epochFallback now
  end.

Record EpochHistory := {
  eh_epoch : Z;
  eh_startTime : Z;
  eh_endTime : Z;
  eh_blocksProduced : Z;
  eh_skipRate : Q;
  eh_activeNodes : Z;
  eh_totalRewards : Z
}.

(** The loop of [getEpochHistory]; [clock i] is the reading of
    [Date.now()] in round [i]. *)
Definition epochHistoryOf (clock : Z -> Z) (currentInfo : EpochInfo)
    : list EpochHistory :=
  map (fun i =>
         let epoch := currentEpoch currentInfo - i - 1 in
         let start := clock i - (i + 1) * epochDuration in
         {| eh_epoch := epoch;
            eh_startTime := start;
            eh_endTime := start + epochDuration;
            eh_blocksProduced := 400000 + Z.rem epoch 20000;
            eh_skipRate := (1.5 + inject_Z (Z.rem epoch 30) / 10)%Q;
            eh_activeNodes := 200 + Z.rem epoch 20;
            eh_totalRewards := 50000 + Z.rem epoch 10000 |})
      (map Z.of_nat (seq 0 10)).

Definition getEpochHistory (now : Z) (clock : Z -> Z) (epochData : option EpochData)
    : list EpochHistory :=
  epochHistoryOf clock (getEpochInfo now epochData).

End FurtherMetrics.

(** ** lib/pnode-api.ts: the in-memory cache in front of the adapters *)

Module Cache.
Export Types.

Definition CACHE_DURATION : Z := 60000.

Record CacheEntry (T : Type) := { ce_data : T; ce_timestamp : Z }.
Arguments ce_data {T}.
Arguments ce_timestamp {T}.

(** The module-level [cache] map, for the values of one type. The
    values stored are parsed JSON objects, which are truthy. *)
Abbreviation cache T := (gmap string (CacheEntry T)).

(** [getCached(key)] when [Date.now()] reads [now]. *)
Definition getCached {T : Type} (now : Z) (key : string) (c : cache T) : option T :=
  match c !! key with
  | Some entry =>
      if now - ce_timestamp entry <? CACHE_DURATION then Some (ce_data entry)
      else None
  | None => None
  end.

(** [setCache(key, data)] when [Date.now()] reads [now]. *)
Definition setCache {T : Type} (now : Z) (key : string) (data : T) (c : cache T)
    : cache T :=
  <[key := {| ce_data := data; ce_timestamp := now |}]> c.

(** What the HTTP request gives: a body with [response.ok], a response
    that is not ok, or an exception of [fetch] or [json]. *)
Inductive HttpResult (T : Type) :=
| HttpOk (data : T)
| HttpNotOk
| HttpThrows.
Arguments HttpOk {T}.
Arguments HttpNotOk {T}.
Arguments HttpThrows {T}.

Record Fetched (T : Type) := {
  f_result : option T;
  f_cache : cache T;
  f_requested : bool
}.
Arguments f_result {T}.
Arguments f_cache {T}.
Arguments f_requested {T}.

(** [fetchPodCredits()]: the clock reads [readAt] in [getCached] and
    [storeAt] in [setCache]; [http] is what the request would give. *)
Definition fetchPodCredits (readAt storeAt : Z)
    (http : HttpResult PodCreditsResponse) (c : cache PodCreditsResponse)
    : Fetched PodCreditsResponse :=
  let cacheKey := "pod_credits" in
  match getCached readAt cacheKey c with
  | Some cached => {| f_result := Some cached; f_cache := c; f_requested := false |}
  | None =>
      match http with
      | HttpOk data =>
          {| f_result := Some data;
             f_cache := setCache storeAt cacheKey data c;
             f_requested := true |}
      | HttpNotOk | HttpThrows =>
          {| f_result := None; f_cache := c; f_requested := true |}
      end
  end.

End Cache.

(** ** features/pnodes/services: reading the persistent cache *)

Module FeaturesReader.
Import JS.
Export Types.

(** [`pnode_${row.credits_rank - 1}`]; a missing rank makes the
    difference [NaN]. *)
Definition rank_minus_one (r : option Z) : string :=
  match r with
  | Some k => number_to_string (k - 1)
  | None => "NaN"
  end.

(** [mapSupabaseToPNode(row)]. *)
Definition mapSupabaseToPNode (row : Row) : PNode :=
  {| id := "pnode_" +:+ rank_minus_one (r_credits_rank row);
     pubkey := r_pubkey row;
     ip := r_ip row;
     port := r_port row;
     version := r_version row;
     status := r_status row;
     uptime := r_uptime row;
     lastSeen := r_last_seen row;
     location := r_location row;
     credits := r_credits row;
     creditsRank := r_credits_rank row;
     metrics := r_metrics row;
     performance := r_performance row;
     gossip := r_gossip row;
     staking := r_staking row |}.

End FeaturesReader.

Module Terms.
Import JS Types.

(** A node under another [id], every other field kept. *)
Definition withId (i : string) (n : PNode) : PNode :=
  {| id := i; pubkey := pubkey n; ip := ip n; port := port n;
     version := version n; status := status n; uptime := uptime n;
     lastSeen := lastSeen n; location := location n; credits := credits n;
     creditsRank := creditsRank n; metrics := metrics n;
     performance := performance n; gossip := gossip n; staking := staking n |}.

(** The numbers of a list, added up. *)
Fixpoint sumZ (l : list Z) : Z :=
  match l with
  | [] => 0
  | x :: rest => x + sumZ rest
  end.

(** What every round of the geolocation batches keeps true: the
    results are cache entries, and the cache does not lose a key. *)
Definition settled (cache : gmap string GeolocationData) (s : GeoBatch.State) : Prop :=
  (forall k g, GeoBatch.results s !! k = Some g -> GeoBatch.geoCache s !! k = Some g) /\
  (forall k, is_Some (cache !! k) -> is_Some (GeoBatch.geoCache s !! k)).

(** The credits that the ledger holds for a pubkey as the pod list
    reports it: those of the last entry under it, 0 without one or
    without a pubkey. *)
Definition ledgerCredit (podCredits : option PodCreditsResponse)
    (pubkey : option string) : Z :=
  match podCredits, pubkey with
  | Some {| pods_credits := Some pcs |}, Some k =>
      JS.or_Z (JS.record_get k (rev (map (fun pc => (pod_id pc, pc_credits pc)) pcs))) 0
  | _, _ => 0
  end.

(** The nodes that carry a location. *)
Definition located (nodes : list PNode) : list PNode :=
  List.filter (fun n => match location n with Some _ => true | None => false end)
              nodes.

End Terms.

Module Cases.
Import Types.

(** A pod that reports its identity but no [last_seen_timestamp]. *)
Definition undatedPod (pk : string) : ServerPnodes.RpcPod :=
  {| ServerPnodes.rp_pubkey := Some pk;
     ServerPnodes.rp_address := None;
     ServerPnodes.rp_rpc_port := None;
     ServerPnodes.rp_version := None;
     ServerPnodes.rp_last_seen_timestamp := None;
     ServerPnodes.rp_uptime := None;
     ServerPnodes.rp_storage_used := None;
     ServerPnodes.rp_storage_committed := None |}.

(** The pod list names X, dated, and Y, undated. *)
Definition undatedEnv : ServerPnodes.Env :=
  {| ServerPnodes.env_now := 1700000000000;
     ServerPnodes.env_select := SelectData None;
     ServerPnodes.env_podCredits := Scenarios.ledger [("X", 10)];
     ServerPnodes.env_rpc :=
       ServerPnodes.RpcPodsObject [Scenarios.barePod "X" 1700000000; undatedPod "Y"];
     ServerPnodes.env_geo := ∅ |}.

(** The pod list names X twice, with the ledger crediting X. *)
Definition repeatedEnv : ServerPnodes.Env :=
  {| ServerPnodes.env_now := 1700000000000;
     ServerPnodes.env_select := SelectData None;
     ServerPnodes.env_podCredits := Scenarios.ledger [("X", 10)];
     ServerPnodes.env_rpc :=
       ServerPnodes.RpcPodsObject
         [Scenarios.barePod "X" 1700000000; Scenarios.barePod "Y" 1700000000;
          Scenarios.barePod "X" 1700000100];
     ServerPnodes.env_geo := ∅ |}.

(** The pod list of an ingestion names X, Y and X again; the ledger
    credits X with 10 and Y with 100. *)
Definition ingestEnv (upsertError : bool) : Ingest.Env :=
  {| Ingest.env_now := 1700000000000;
     Ingest.env_select := Ingest.SelectedData None;
     Ingest.env_podCredits := Scenarios.ledger [("X", 10); ("Y", 100)];
     Ingest.env_rpc :=
       ServerPnodes.RpcPodsObject
         [Scenarios.barePod "X" 1700000000; Scenarios.barePod "Y" 1700000000;
          Scenarios.barePod "X" 1700000100];
     Ingest.env_geo := ∅;
     Ingest.env_upsertError := upsertError;
     Ingest.env_dbTotalNodes := None;
     Ingest.env_dbOnlineNodes := None;
     Ingest.env_dbOfflineNodes := None |}.

(** What one row shows of a node: identity, credits, rank. *)
Definition rowSummary (row : Ingest.IngestRow) : string * option Z * option Z :=
  (r_pubkey (Ingest.ir_columns row), r_credits (Ingest.ir_columns row),
   r_credits_rank (Ingest.ir_columns row)).


(** The ledger names Z, which the cluster map does not hold, and the
    geolocation batch answers for the address synthesized for Z. *)
Definition strangerInput : Features.MergeInput :=
  {| Features.in_now := 1700000000000;
     Features.in_podCredits := Scenarios.ledger [("X", 10); ("Z", 50)];
     Features.in_mergedData := [("X", Scenarios.partialOf "X" "10.0.0.1")];
     Features.in_geoBatch :=
       {[ Utils.generateDeterministicIP "Z" :=
            {| geo_status := Some "success"; geo_country := Some "Finland";
               geo_countryCode := Some "FI"; geo_city := Some "Helsinki";
               geo_lat := None; geo_lon := None; geo_org := None;
               geo_as := None |} ]} |}.


(** The ledger call gave [null]; the cluster holds V, delinquent, and
    W. *)
Definition clusterOnly : PnodeApi.Sources :=
  {| PnodeApi.src_podCredits := None;
     PnodeApi.src_clusterData :=
       PnodeApi.RpcArray
         [ {| PnodeApi.cn_pubkey := Some "V"; PnodeApi.cn_nodePubkey := None;
              PnodeApi.cn_gossip := Some "10.0.0.5:8001"; PnodeApi.cn_rpc := None;
              PnodeApi.cn_version := None; PnodeApi.cn_delinquent := true |};
           {| PnodeApi.cn_pubkey := Some "W"; PnodeApi.cn_nodePubkey := None;
              PnodeApi.cn_gossip := None; PnodeApi.cn_rpc := None;
              PnodeApi.cn_version := Some "0.8.0"; PnodeApi.cn_delinquent := false |} ];
     PnodeApi.src_now := 1700000000000 |}.


End Cases.

(** * Properties *)

(** ** Sorting and indexed maps *)

Section SortFacts.
Context {A : Type}.
Variable cmp : A -> A -> Z.

Lemma insert_sorted_perm (x : A) (l : list A) :
  Permutation (JS.insert_sorted cmp x l) (x :: l).
Proof.
  induction l as [|y l IH]; simpl; [reflexivity|].
  destruct (cmp x y <=? 0); [reflexivity|].
  rewrite IH. apply perm_swap.
Qed.

Lemma sort_perm (l : list A) : Permutation (JS.sort cmp l) l.
Proof.
  induction l as [|x l IH]; simpl; [reflexivity|].
  rewrite insert_sorted_perm. now constructor.
Qed.

Lemma sort_length (l : list A) : List.length (JS.sort cmp l) = List.length l.
Proof. apply Permutation_length, sort_perm. Qed.

Lemma sort_nil_inv (l : list A) : JS.sort cmp l = [] -> l = [].
Proof.
  intros H. apply Permutation_nil. rewrite <- H. apply sort_perm.
Qed.
End SortFacts.

(** Sorting with a comparator [key b - key a] leaves the keys in
    non-increasing order. *)
Section SortByKey.
Context {A : Type}.
Variable key : A -> Z.

Let cmp (a b : A) : Z := key b - key a.
Let desc (a b : A) : Prop := key b <= key a.

Lemma insert_sorted_desc (x : A) (l : list A) :
  StronglySorted desc l -> StronglySorted desc (JS.insert_sorted cmp x l).
Proof.
  induction l as [|y l IH]; simpl; intros Hs.
  - constructor; [constructor | constructor].
  - inversion Hs as [|? ? Hl Hy]; subst.
    destruct (cmp x y <=? 0) eqn:E.
    + apply Z.leb_le in E. unfold cmp in E.
      constructor; [assumption|].
      constructor; [unfold desc; lia|].
      eapply List.Forall_impl; [|exact Hy].
      intros z Hz. unfold desc in *. lia.
    + apply Z.leb_gt in E. unfold cmp in E.
      constructor; [now apply IH|].
      eapply Permutation_Forall; [symmetry; apply insert_sorted_perm|].
      constructor; [unfold desc; lia | assumption].
Qed.

Lemma sort_desc (l : list A) : StronglySorted desc (JS.sort cmp l).
Proof.
  induction l as [|x l IH]; simpl; [constructor|].
  now apply insert_sorted_desc.
Qed.
End SortByKey.

Section MapiFacts.
Context {A B : Type}.
Variable f : A -> Z -> B.

Lemma mapi_from_length (i : Z) (l : list A) :
  List.length (JS.mapi_from f i l) = List.length l.
Proof. revert i; induction l; simpl; intros; [reflexivity | now rewrite IHl]. Qed.

Lemma mapi_from_nth_error (l : list A) (i : Z) (k : nat) :
  nth_error (JS.mapi_from f i l) k =
  option_map (fun x => f x (i + Z.of_nat k)) (nth_error l k).
Proof.
  revert i k; induction l as [|x l IH]; intros i [|k]; simpl; try reflexivity.
  - now rewrite Z.add_0_r.
  - rewrite IH. destruct (nth_error l k); simpl; [|reflexivity].
    do 2 f_equal. lia.
Qed.

Lemma mapi_from_map {C : Type} (g : B -> C) (i : Z) (l : list A) :
  map g (JS.mapi_from f i l) = JS.mapi_from (fun x k => g (f x k)) i l.
Proof. revert i; induction l; simpl; intros; [reflexivity | now rewrite IHl]. Qed.
End MapiFacts.

Lemma mapi_from_ext {A B : Type} (f g : A -> Z -> B) (i : Z) (l : list A) :
  (forall x k, f x k = g x k) -> JS.mapi_from f i l = JS.mapi_from g i l.
Proof.
  intros H. revert i; induction l; simpl; intros; [reflexivity|].
  now rewrite H, IHl.
Qed.

Lemma mapi_from_const_index {A B : Type} (g : A -> B) (i : Z) (l : list A) :
  JS.mapi_from (fun x _ => g x) i l = map g l.
Proof. revert i; induction l; simpl; intros; [reflexivity | now rewrite IHl]. Qed.

(** ** The deterministic fallback generator *)

Section FallbackFacts.
Import JS Utils.

Lemma hashCodes_from_nonneg (codes : list Z) (i acc : Z) :
  0 <= i -> 0 <= acc -> Forall (fun c => 0 <= c) codes ->
  0 <= hashCodes_from i acc codes.
Proof.
  revert i acc; induction codes as [|c codes IH]; simpl; intros i acc Hi Hacc Hc.
  - assumption.
  - inversion Hc; subst. apply IH; [lia | nia | assumption].
Qed.

Lemma charCodes_nonneg (s : string) : Forall (fun c => 0 <= c) (charCodes s).
Proof.
  unfold charCodes. apply List.Forall_forall. intros c Hc.
  apply in_map_iff in Hc as (a & <- & _). apply N2Z.is_nonneg.
Qed.

Lemma hashPubkey_nonneg (pubkey : string) : 0 <= hashPubkey pubkey.
Proof.
  unfold hashPubkey, hashCodes.
  apply hashCodes_from_nonneg; [lia | lia | apply charCodes_nonneg].
Qed.

Lemma at_index_defined {A : Type} (arr : list A) (i : Z) :
  0 <= i < array_length arr -> exists x, at_index arr i = Some x.
Proof.
  unfold at_index, array_length. intros [Hlo Hhi].
  destruct (i <? 0) eqn:E; [apply Z.ltb_lt in E; lia|].
  destruct (nth_error arr (Z.to_nat i)) eqn:En; [eauto|].
  apply nth_error_None in En. lia.
Qed.

(** A property of every octet value, checked value by value. *)
Lemma octet_enum (P : Z -> bool) :
  forallb (fun n => P (Z.of_nat n)) (seq 0 256) = true ->
  forall o, 0 <= o <= 255 -> P o = true.
Proof.
  intros H o Ho. rewrite forallb_forall in H.
  specialize (H (Z.to_nat o)). rewrite Z2Nat.id in H by lia.
  apply H, in_seq. lia.
Qed.

Lemma octets_print_well (o : Z) :
  0 <= o <= 255 ->
  parse_octet (number_to_string o) = Some o /\
  split_on "." (number_to_string o) = [number_to_string o].
Proof.
  intros Ho.
  assert (H : Vocabulary.octet_prints_well o = true).
  { apply octet_enum; [vm_compute; reflexivity | assumption]. }
  unfold Vocabulary.octet_prints_well in H. apply andb_true_iff in H as [H1 H2].
  split; [exact (bool_decide_eq_true_1 _ H1) | exact (bool_decide_eq_true_1 _ H2)].
Qed.

Lemma split_on_append (sep : ascii) (a rest : string) :
  split_on sep a = [a] ->
  split_on sep (a +:+ String sep rest) = a :: split_on sep rest.
Proof.
  induction a as [|c a IH]; simpl; intros Ha.
  - now rewrite Ascii.eqb_refl.
  - destruct (Ascii.eqb c sep) eqn:E; [discriminate|].
    destruct (split_on sep a) as [|h t] eqn:Es.
    + destruct a; simpl in Es; [discriminate|].
      destruct (Ascii.eqb a sep); [discriminate|].
      destruct (split_on sep a0); discriminate.
    + injection Ha as -> ->. now rewrite IH.
Qed.

Lemma parse_ipv4_formatIP (a b c d : Z) :
  0 <= a <= 255 -> 0 <= b <= 255 -> 0 <= c <= 255 -> 0 <= d <= 255 ->
  parse_ipv4 (formatIP (a, b, c, d)) = Some (a, b, c, d).
Proof.
  intros Ha Hb Hc Hd.
  destruct (octets_print_well a Ha) as [Pa Sa].
  destruct (octets_print_well b Hb) as [Pb Sb].
  destruct (octets_print_well c Hc) as [Pc Sc].
  destruct (octets_print_well d Hd) as [Pd Sd].
  unfold parse_ipv4, formatIP.
  assert (Hdot : forall x, "." +:+ x = String "." x) by reflexivity.
  rewrite !Hdot.
  rewrite (split_on_append "." _ _ Sa), (split_on_append "." _ _ Sb),
    (split_on_append "." _ _ Sc), Sd.
  now rewrite Pa, Pb, Pc, Pd.
Qed.

Lemma ipOctets_range (hash : Z) :
  0 <= hash ->
  let '(a, b, c, d) := ipOctets hash in
  50 <= a <= 249 /\ 0 <= b <= 255 /\ 0 <= c <= 255 /\ 0 <= d <= 255.
Proof.
  intros Hh. unfold ipOctets.
  pose proof (Z.rem_bound_pos hash 200 Hh ltac:(lia)).
  pose proof (Z.rem_bound_pos (hash * 7) 256 ltac:(lia) ltac:(lia)).
  pose proof (Z.rem_bound_pos (hash * 13) 256 ltac:(lia) ltac:(lia)).
  pose proof (Z.rem_bound_pos (hash * 19) 256 ltac:(lia) ltac:(lia)).
  lia.
Qed.

Lemma getNodeLocation_defined (pubkey : string) (index : Z) :
  0 <= index ->
  exists location dc asnData,
    at_index NODE_LOCATIONS (locationIndex (hashPubkey pubkey) index) = Some location /\
    at_index DATACENTERS (datacenterIndex (hashPubkey pubkey) index) = Some dc /\
    at_index ASNS (asnIndex (hashPubkey pubkey) index) = Some asnData /\
    getNodeLocation pubkey index =
      Some {| country := bl_country location;
              countryCode := bl_countryCode location;
              city := bl_city location;
              lat := bl_lat location;
              lng := bl_lng location;
              datacenter := dc;
              loc_asn := asn asnData |}.
Proof.
  intros Hi. pose proof (hashPubkey_nonneg pubkey) as Hh.
  destruct (at_index_defined NODE_LOCATIONS (locationIndex (hashPubkey pubkey) index))
    as [location Hl].
  { unfold locationIndex. change (array_length NODE_LOCATIONS) with 30.
    apply Z.rem_bound_pos; lia. }
  destruct (at_index_defined DATACENTERS (datacenterIndex (hashPubkey pubkey) index))
    as [dc Hd].
  { unfold datacenterIndex. change (array_length DATACENTERS) with 19.
    apply Z.rem_bound_pos; lia. }
  destruct (at_index_defined ASNS (asnIndex (hashPubkey pubkey) index))
    as [asnData Ha].
  { unfold asnIndex. change (array_length ASNS) with 8.
    apply Z.rem_bound_pos; lia. }
  exists location, dc, asnData. unfold getNodeLocation.
  cbv zeta. rewrite Hl, Hd, Ha. auto.
Qed.
End FallbackFacts.

(** C10. For every identity and every non-negative index the hash is a
    non-negative integer, the three table reads of [getNodeLocation] fall
    inside their tables and give a defined location, and
    [generateDeterministicIP] prints a well-formed dotted quad whose
    first octet lies in 50..249 and whose other octets lie in 0..255. *)
Theorem fallback_generator_total_and_in_range (pubkey : string) (index : Z) :
  0 <= index ->
  0 <= Utils.hashPubkey pubkey /\
  (0 <= Utils.locationIndex (Utils.hashPubkey pubkey) index
        < Utils.array_length Utils.NODE_LOCATIONS /\
   0 <= Utils.datacenterIndex (Utils.hashPubkey pubkey) index
        < Utils.array_length Utils.DATACENTERS /\
   0 <= Utils.asnIndex (Utils.hashPubkey pubkey) index
        < Utils.array_length Utils.ASNS) /\
  (exists location, Utils.getNodeLocation pubkey index = Some location) /\
  (exists a b c d,
      Utils.parse_ipv4 (Utils.generateDeterministicIP pubkey) = Some (a, b, c, d) /\
      50 <= a <= 249 /\ 0 <= b <= 255 /\ 0 <= c <= 255 /\ 0 <= d <= 255).
Proof.
  intros Hi. pose proof (hashPubkey_nonneg pubkey) as Hh.
  split; [assumption|]. split.
  - unfold Utils.locationIndex, Utils.datacenterIndex, Utils.asnIndex.
    change (Utils.array_length Utils.NODE_LOCATIONS) with 30.
    change (Utils.array_length Utils.DATACENTERS) with 19.
    change (Utils.array_length Utils.ASNS) with 8.
    repeat split; apply Z.rem_bound_pos; lia.
  - split.
    + destruct (getNodeLocation_defined pubkey index Hi) as (l & dc & a & _ & _ & _ & H).
      eauto.
    + pose proof (ipOctets_range (Utils.hashPubkey pubkey) Hh) as Hr.
      unfold Utils.generateDeterministicIP. cbv zeta.
      destruct (Utils.ipOctets (Utils.hashPubkey pubkey)) as [[[a b] c] d].
      exists a, b, c, d. split; [|exact Hr].
      apply parse_ipv4_formatIP; lia.
Qed.

Lemma fallback_generator_total_and_in_range_witness :
  0 <= 3 /\
  0 <= Utils.hashPubkey "ab" /\
  (0 <= Utils.locationIndex (Utils.hashPubkey "ab") 3
        < Utils.array_length Utils.NODE_LOCATIONS /\
   0 <= Utils.datacenterIndex (Utils.hashPubkey "ab") 3
        < Utils.array_length Utils.DATACENTERS /\
   0 <= Utils.asnIndex (Utils.hashPubkey "ab") 3
        < Utils.array_length Utils.ASNS) /\
  (exists location, Utils.getNodeLocation "ab" 3 = Some location) /\
  (exists a b c d,
      Utils.parse_ipv4 (Utils.generateDeterministicIP "ab") = Some (a, b, c, d) /\
      50 <= a <= 249 /\ 0 <= b <= 255 /\ 0 <= c <= 255 /\ 0 <= d <= 255).
Proof.
  assert (H : 0 <= 3) by lia.
  split; [exact H | exact (fallback_generator_total_and_in_range "ab" 3 H)].
Defined.

(** C7. The synthesized address and location of a node depend on the
    identity and the index alone: two runs of [transformPodToNode] on
    the same identity and index, at different instants, with different
    credit balances and node totals, carry the same hash, the same
    address and the same location, which are the values of
    [generateDeterministicIP] and [getNodeLocation] on that identity and
    index. *)
Theorem fallback_generator_deterministic
    (pod1 pod2 : Types.PodCredit) (index now1 now2 total1 total2 : Z) :
  Types.pod_id pod1 = Types.pod_id pod2 ->
  let n1 := PnodeApi.transformPodToNode now1 pod1 index total1 in
  let n2 := PnodeApi.transformPodToNode now2 pod2 index total2 in
  Utils.hashPubkey (Types.pubkey n1) = Utils.hashPubkey (Types.pubkey n2) /\
  Types.ip n1 = Types.ip n2 /\
  Types.location n1 = Types.location n2 /\
  Types.ip n1 = Utils.generateDeterministicIP (Types.pod_id pod1) /\
  Types.location n1 = Utils.getNodeLocation (Types.pod_id pod1) index.
Proof.
  intros Hid n1 n2. subst n1 n2. unfold PnodeApi.transformPodToNode. simpl.
  rewrite Hid. repeat split; reflexivity.
Qed.

Lemma fallback_generator_deterministic_witness :
  Types.pod_id {| Types.pc_credits := 10; Types.pod_id := "ab" |} =
  Types.pod_id {| Types.pc_credits := 9000; Types.pod_id := "ab" |} /\
  let n1 := PnodeApi.transformPodToNode 0
              {| Types.pc_credits := 10; Types.pod_id := "ab" |} 4 7 in
  let n2 := PnodeApi.transformPodToNode 1700000000000
              {| Types.pc_credits := 9000; Types.pod_id := "ab" |} 4 216 in
  Utils.hashPubkey (Types.pubkey n1) = Utils.hashPubkey (Types.pubkey n2) /\
  Types.ip n1 = Types.ip n2 /\
  Types.location n1 = Types.location n2 /\
  Types.ip n1 = Utils.generateDeterministicIP "ab" /\
  Types.location n1 = Utils.getNodeLocation "ab" 4.
Proof.
  split; [reflexivity |].
  exact (fallback_generator_deterministic
           {| Types.pc_credits := 10; Types.pod_id := "ab" |}
           {| Types.pc_credits := 9000; Types.pod_id := "ab" |}
           4 0 1700000000000 7 216 eq_refl).
Defined.

(** The clock does reach the node: the instants of two runs differ. *)
Example transformPodToNode_reads_clock :
  let pod := {| Types.pc_credits := 10; Types.pod_id := "ab" |} in
  Types.lastSeen (PnodeApi.transformPodToNode 0 pod 4 7) <>
  Types.lastSeen (PnodeApi.transformPodToNode 1700000000000 pod 4 7).
Proof. simpl. discriminate. Qed.

(** ** Ranks *)

Section RankFacts.
Import JS Types.

Lemma or_Z_Some_0 (n : Z) : or_Z (Some n) 0 = n.
Proof. unfold or_Z. destruct (n =? 0) eqn:E; [apply Z.eqb_eq in E; lia | reflexivity]. Qed.

Lemma mapi_from_index_only {A B : Type} (g : Z -> B) (i : Z) (l : list A) :
  mapi_from (fun _ k => g k) i l =
  map (fun k => g (i + Z.of_nat k)) (seq 0 (List.length l)).
Proof.
  revert i; induction l as [|x l IH]; intros i; simpl; [reflexivity|].
  rewrite Z.add_0_r. f_equal. rewrite IH, <- seq_shift, map_map.
  apply map_ext. intros k. f_equal. lia.
Qed.

Lemma StronglySorted_map {A B : Type} (f : A -> B) (R : B -> B -> Prop) (l : list A) :
  StronglySorted (fun a b => R (f a) (f b)) l -> StronglySorted R (map f l).
Proof.
  induction 1 as [|x l Hs IH Hx]; simpl; constructor; [assumption|].
  apply List.Forall_forall. intros y Hy. apply in_map_iff in Hy as (z & <- & Hz).
  rewrite List.Forall_forall in Hx. now apply Hx.
Qed.

(** The credits-first merge of lib/pnode-api.ts ranks after sorting:
    the ranks read 1..N along the array and the credits do not increase
    along it. *)
Lemma PnodeApi_ranks_dense_and_ordered (s : PnodeApi.Sources) (p : PodCredit)
    (ps : list PodCredit) :
  PnodeApi.src_podCredits s = Some {| pods_credits := Some (p :: ps) |} ->
  let nodes := PnodeApi.getClusterNodes s in
  List.length nodes = List.length (p :: ps) /\
  map creditsRank nodes =
    map (fun k => Some (Z.of_nat k)) (seq 1 (List.length nodes)) /\
  StronglySorted (fun a b => b <= a) (map credits_or0 nodes) /\
  Permutation (map credits_or0 nodes) (map pc_credits (p :: ps)).
Proof.
  intros Hs nodes. subst nodes. unfold PnodeApi.getClusterNodes. rewrite Hs.
  cbv zeta. set (cmp := fun a b : PodCredit => pc_credits b - pc_credits a).
  set (sorted := sort cmp (p :: ps)). unfold mapi.
  assert (Hc : forall i, map credits_or0
             (mapi_from (fun pod index =>
                PnodeApi.transformPodToNode (PnodeApi.src_now s) pod index
                  (array_length sorted)) i sorted) = map pc_credits sorted).
  { intros i. rewrite mapi_from_map.
    rewrite (mapi_from_ext _ (fun x _ => pc_credits x)).
    - apply mapi_from_const_index.
    - intros x k. unfold credits_or0. simpl. apply or_Z_Some_0. }
  repeat split.
  - rewrite mapi_from_length. apply sort_length.
  - rewrite mapi_from_map. simpl.
    rewrite (mapi_from_index_only (fun k => Some (k + 1))), mapi_from_length.
    rewrite <- seq_shift, map_map. apply map_ext. intros k. f_equal. lia.
  - rewrite Hc. apply StronglySorted_map. apply (sort_desc pc_credits).
  - rewrite Hc. apply Permutation_map. apply sort_perm.
Qed.
End RankFacts.

(** C1. In [fetchFromRpcAndCache] a node takes its rank from its place
    in the pod list, and the array is sorted by credits afterwards: with
    the pods X, Y and a ledger that credits Y with 100, the answer lists
    Y first with rank 2 and X second with rank 1, so the rank sequence
    along the array is 2, 1 and the credits grow from rank 1 to rank 2. *)
Theorem fetchFromRpcAndCache_rank_follows_pod_order :
  map Scenarios.summary
      (fst (ServerPnodes.run (ServerPnodes.fetchFromRpcAndCache Scenarios.rankEnv)))
  = [("Y", Some 100, Some 2); ("X", Some 0, Some 1)].
Proof. vm_compute. reflexivity. Qed.

(** ** Which identities the merge keeps *)

Section MergeFacts.
Import JS Types ServerPnodes Vocabulary.

Lemma fetch_result (e : Env) (rpcPods : list RpcPod) :
  rpcPodsOf (env_rpc e) = Some rpcPods ->
  fst (run (fetchFromRpcAndCache e)) = default [] (mergeRpcPods e rpcPods).
Proof.
  intros H. unfold run, fetchFromRpcAndCache, bind, emit, ret. simpl.
  rewrite H. destruct (mergeRpcPods e rpcPods) as [sorted|]; simpl; [|reflexivity].
  destruct (array_length _ >? 0); reflexivity.
Qed.

Lemma mapRpcNodeToPNode_pubkey now rpcNode creditData index geoData node :
  mapRpcNodeToPNode now rpcNode creditData index geoData = Some node ->
  pubkey node = podIdentity rpcNode index.
Proof.
  unfold mapRpcNodeToPNode. cbv zeta.
  destruct (rp_last_seen_timestamp rpcNode); [|discriminate].
  destruct (negb _); [discriminate|]. intros [= <-]. reflexivity.
Qed.

Lemma mapRpcNodeToPNode_defined now rpcNode creditData index geoData :
  usableTimestamp rpcNode = true ->
  exists node, mapRpcNodeToPNode now rpcNode creditData index geoData = Some node.
Proof.
  unfold usableTimestamp, mapRpcNodeToPNode. cbv zeta.
  destruct (rp_last_seen_timestamp rpcNode); [|discriminate].
  intros ->. simpl. eauto.
Qed.

Lemma map_throwing_pubkeys (f : RpcPod -> Z -> option PNode) :
  (forall x i n, f x i = Some n -> pubkey n = podIdentity x i) ->
  forall l i nodes,
    map_throwing f i l = Some nodes ->
    map pubkey nodes = mapi_from podIdentity i l.
Proof.
  intros Hf. induction l as [|x l IH]; simpl; intros i nodes H.
  - now injection H as <-.
  - destruct (f x i) as [n|] eqn:E; [|discriminate].
    destruct (map_throwing f (i + 1) l) as [ns|] eqn:E'; [|discriminate].
    simpl in H. injection H as <-. simpl.
    now rewrite (Hf _ _ _ E), (IH _ _ E').
Qed.

Lemma map_throwing_defined (f : RpcPod -> Z -> option PNode) :
  (forall x i, usableTimestamp x = true -> exists n, f x i = Some n) ->
  forall l i, Forall (fun x => usableTimestamp x = true) l ->
    exists nodes, map_throwing f i l = Some nodes.
Proof.
  intros Hf. induction l as [|x l IH]; simpl; intros i Hl; [eauto|].
  inversion Hl; subst.
  destruct (Hf x i) as [n ->]; [assumption|].
  destruct (IH (i + 1)) as [ns ->]; [assumption|]. simpl. eauto.
Qed.

(** The nodes of a successful merge carry the identities of the pod
    list, one node per pod. *)
Lemma mergeRpcPods_identities (e : Env) (rpcPods : list RpcPod) (sorted : list PNode) :
  mergeRpcPods e rpcPods = Some sorted ->
  Permutation (map pubkey sorted) (podIdentities rpcPods).
Proof.
  unfold mergeRpcPods. cbv zeta.
  destruct (map_throwing _ 0 rpcPods) as [mapped|] eqn:E; [|discriminate].
  simpl. intros [= <-].
  rewrite (Permutation_map pubkey (sort_perm _ mapped)).
  unfold podIdentities, mapi.
  erewrite map_throwing_pubkeys; [reflexivity | | exact E].
  intros x i n. apply mapRpcNodeToPNode_pubkey.
Qed.

Lemma mergeRpcPods_defined (e : Env) (rpcPods : list RpcPod) :
  Forall (fun x => usableTimestamp x = true) rpcPods ->
  exists sorted, mergeRpcPods e rpcPods = Some sorted.
Proof.
  intros H. unfold mergeRpcPods. cbv zeta.
  edestruct map_throwing_defined as [nodes ->]; [|exact H|simpl; eauto].
  intros x i Hx. now apply mapRpcNodeToPNode_defined.
Qed.

Lemma map_throwing_aborts (f : RpcPod -> Z -> option PNode) :
  (forall x i, usableTimestamp x = false -> f x i = None) ->
  forall l i, Exists (fun x => usableTimestamp x = false) l ->
    map_throwing f i l = None.
Proof.
  intros Hf l i H. revert i.
  induction H as [x l Hx | x l _ IH]; intros i; simpl.
  - now rewrite Hf.
  - destruct (f x i); [|reflexivity]. now rewrite IH.
Qed.

(** A pod that cannot be dated empties the whole answer. *)
Lemma mergeRpcPods_undated (e : Env) (rpcPods : list RpcPod) :
  Exists (fun x => usableTimestamp x = false) rpcPods ->
  mergeRpcPods e rpcPods = None.
Proof.
  intros H. unfold mergeRpcPods. cbv zeta.
  rewrite map_throwing_aborts; [reflexivity | | assumption].
  intros x i Hx. unfold mapRpcNodeToPNode. cbv zeta.
  unfold usableTimestamp in Hx.
  destruct (rp_last_seen_timestamp x); [|reflexivity]. now rewrite Hx.
Qed.

Lemma transformPodToFull_pubkey now pc index realData :
  pubkey (Features.transformPodToFull now pc index realData) = pod_id pc.
Proof. reflexivity. Qed.

Lemma mergePod_pubkey i pc index node :
  Features.mergePod i pc index = Some node -> pubkey node = pod_id pc.
Proof.
  unfold Features.mergePod. cbv zeta.
  destruct (Features.in_geoBatch i !! _) as [geo|].
  - destruct (Features.geo_success geo).
    + destruct (record_get _ _); [|discriminate]. now intros [= <-].
    + now intros [= <-].
  - now intros [= <-].
Qed.

Lemma map_throwing_pod_ids (f : PodCredit -> Z -> option PNode) :
  (forall x i n, f x i = Some n -> pubkey n = pod_id x) ->
  forall l i nodes,
    map_throwing f i l = Some nodes -> map pubkey nodes = map pod_id l.
Proof.
  intros Hf. induction l as [|x l IH]; simpl; intros i nodes H.
  - now injection H as <-.
  - destruct (f x i) as [n|] eqn:E; [|discriminate].
    destruct (map_throwing f (i + 1) l) as [ns|] eqn:E'; [|discriminate].
    simpl in H. injection H as <-. simpl.
    now rewrite (Hf _ _ _ E), (IH _ _ E').
Qed.

Lemma map_throwing_all {A B : Type} (f : A -> Z -> option B) (P : A -> Prop) :
  (forall x i, P x -> exists y, f x i = Some y) ->
  forall l i, Forall P l -> exists ys, map_throwing f i l = Some ys.
Proof.
  intros Hf. induction l as [|x l IH]; simpl; intros i Hl; [eauto|].
  inversion Hl; subst.
  destruct (Hf x i) as [y ->]; [assumption|].
  destruct (IH (i + 1)) as [ys ->]; [assumption|]. simpl. eauto.
Qed.

(** A round of the ledger-driven merge returns unless its entry is a
    located stranger. *)
Lemma mergePod_defined i pc index :
  Vocabulary.locatedStranger i pc = false ->
  exists node, Features.mergePod i pc index = Some node.
Proof.
  unfold Vocabulary.locatedStranger, Features.mergePod. cbv zeta.
  destruct (record_get (pod_id pc) (Features.in_mergedData i)) as [r|]; simpl.
  - intros _. destruct (Features.in_geoBatch i !! _) as [geo|]; [|eauto].
    destruct (Features.geo_success geo); eauto.
  - destruct (Features.in_geoBatch i !! _) as [geo|]; [|eauto].
    intros ->. eauto.
Qed.

End MergeFacts.

(** C2, as worded, fails: the pod list names X, the ledger credits X and
    Z, and the answer of [fetchFromRpcAndCache] has no node for Z. *)
Lemma merge_drops_ledger_only_identity :
  ~ Vocabulary.mergeComplete Scenarios.ledgerOnlyEnv.
Proof.
  intros H. specialize (H "Z").
  assert (Hz : Vocabulary.occurrences "Z"
                 (fst (ServerPnodes.run
                         (ServerPnodes.fetchFromRpcAndCache Scenarios.ledgerOnlyEnv)))
               = 0%nat) by (vm_compute; reflexivity).
  rewrite Hz in H. discriminate H. right. simpl. auto.
Qed.

(** C2, amended. Each merge follows one source list. When every pod can
    be dated and the pod list names each identity once, every identity
    of the pod list occurs exactly once in the answer of
    [fetchFromRpcAndCache] and no other identity occurs, whatever the
    ledger holds. When the ledger names each identity once and none of
    its entries is a located stranger (an identity that the cluster map
    lacks, with a successful geolocation answer under its synthesized
    address), the ledger-driven merge returns, every identity of the
    ledger occurs exactly once in its answer and no other identity
    occurs, whatever the cluster map holds. *)
Theorem merge_keeps_the_identities_of_its_source_list
    (e : ServerPnodes.Env) (rpcPods : list ServerPnodes.RpcPod)
    (i : Features.MergeInput) (pcs : list Types.PodCredit) :
  ServerPnodes.rpcPodsOf (ServerPnodes.env_rpc e) = Some rpcPods ->
  Forall (fun x => Vocabulary.usableTimestamp x = true) rpcPods ->
  List.NoDup (Vocabulary.podIdentities rpcPods) ->
  Features.in_podCredits i = Some {| Types.pods_credits := Some pcs |} ->
  List.NoDup (map Types.pod_id pcs) ->
  Forall (fun pc => Vocabulary.locatedStranger i pc = false) pcs ->
  let nodes := fst (ServerPnodes.run (ServerPnodes.fetchFromRpcAndCache e)) in
  (forall k, In k (Vocabulary.podIdentities rpcPods) -> Vocabulary.occurrences k nodes = 1%nat) /\
  (forall k, ~ In k (Vocabulary.podIdentities rpcPods) -> Vocabulary.occurrences k nodes = 0%nat) /\
  exists merged,
    Features.mergeFallback i = Some merged /\
    (forall k, In k (map Types.pod_id pcs) -> Vocabulary.occurrences k merged = 1%nat) /\
    (forall k, ~ In k (map Types.pod_id pcs) -> Vocabulary.occurrences k merged = 0%nat).
Proof.
  intros Hrpc Hts Hnd Hled Hndl Hloc nodes.
  assert (Hperm : Permutation (map Types.pubkey nodes) (Vocabulary.podIdentities rpcPods)).
  { subst nodes. rewrite (fetch_result e rpcPods Hrpc).
    destruct (mergeRpcPods_defined e rpcPods Hts) as [sorted Hs].
    rewrite Hs. simpl. now apply mergeRpcPods_identities with (e := e). }
  assert (Hdef : exists merged, Features.mergeFallback i = Some merged).
  { unfold Features.mergeFallback. rewrite Hled.
    eapply map_throwing_all; [|exact Hloc].
    intros x k Hx. now apply mergePod_defined. }
  destruct Hdef as [merged Hm].
  assert (Hmerged : map Types.pubkey merged = map Types.pod_id pcs).
  { unfold Features.mergeFallback in Hm. rewrite Hled in Hm.
    eapply map_throwing_pod_ids; [|exact Hm].
    intros x k n. apply mergePod_pubkey. }
  split; [|split].
  - intros k Hk. unfold Vocabulary.occurrences.
    rewrite (proj1 (Permutation_count_occ string_dec _ _) Hperm).
    now apply (proj1 (NoDup_count_occ' string_dec _) Hnd).
  - intros k Hk. unfold Vocabulary.occurrences.
    rewrite (proj1 (Permutation_count_occ string_dec _ _) Hperm).
    now apply (proj1 (count_occ_not_In string_dec _ _)).
  - exists merged. split; [exact Hm|].
    unfold Vocabulary.occurrences. rewrite Hmerged. split; intros k Hk.
    + now apply (proj1 (NoDup_count_occ' string_dec _) Hndl).
    + now apply (proj1 (count_occ_not_In string_dec _ _)).
Qed.

Lemma merge_keeps_the_identities_of_its_source_list_witness :
  Vocabulary.occurrences "X"
    (fst (ServerPnodes.run (ServerPnodes.fetchFromRpcAndCache Scenarios.ledgerOnlyEnv)))
    = 1%nat /\
  Vocabulary.occurrences "Z"
    (fst (ServerPnodes.run (ServerPnodes.fetchFromRpcAndCache Scenarios.ledgerOnlyEnv)))
    = 0%nat /\
  exists merged,
    Features.mergeFallback Scenarios.ledgerDriven = Some merged /\
    Vocabulary.occurrences "X" merged = 1%nat /\
    Vocabulary.occurrences "Z" merged = 1%nat /\
    Vocabulary.occurrences "W" merged = 0%nat.
Proof.
  assert (H1 : ServerPnodes.rpcPodsOf (ServerPnodes.env_rpc Scenarios.ledgerOnlyEnv)
               = Some [Scenarios.barePod "X" 1700000000]) by reflexivity.
  assert (H2 : Forall (fun x => Vocabulary.usableTimestamp x = true)
                 [Scenarios.barePod "X" 1700000000])
    by (repeat constructor).
  assert (H3 : List.NoDup (Vocabulary.podIdentities [Scenarios.barePod "X" 1700000000]))
    by (repeat constructor; simpl; tauto).
  assert (H4 : Features.in_podCredits Scenarios.ledgerDriven
               = Some {| Types.pods_credits :=
                           Some [ {| Types.pc_credits := 10; Types.pod_id := "X" |};
                                  {| Types.pc_credits := 50; Types.pod_id := "Z" |} ] |})
    by reflexivity.
  assert (H5 : List.NoDup (map Types.pod_id
                        [ {| Types.pc_credits := 10; Types.pod_id := "X" |};
                          {| Types.pc_credits := 50; Types.pod_id := "Z" |} ])).
  { repeat constructor; simpl; [intros [E|[]]; discriminate E | tauto]. }
  assert (H6 : Forall (fun pc => Vocabulary.locatedStranger Scenarios.ledgerDriven pc
                                 = false)
                 [ {| Types.pc_credits := 10; Types.pod_id := "X" |};
                   {| Types.pc_credits := 50; Types.pod_id := "Z" |} ]).
  { repeat constructor. }
  destruct (merge_keeps_the_identities_of_its_source_list
              Scenarios.ledgerOnlyEnv _ Scenarios.ledgerDriven _ H1 H2 H3 H4 H5 H6)
    as (A & B & merged & Hm & C & D).
  refine (conj _ (conj _ (ex_intro _ merged (conj Hm (conj _ (conj _ _)))))).
  - apply A. simpl. auto.
  - apply B. simpl. intros [E|[]]; discriminate E.
  - apply C. simpl. auto.
  - apply C. simpl. auto.
  - apply D. simpl. intros [E|[E|[]]]; discriminate E.
Defined.

(** ** The staleness gate *)

Section GateFacts.
Import JS Types ServerPnodes.

(** A refresh appends its calls to the log and does not read it. *)
Lemma fetchFromRpcAndCache_log (e : Env) (log : list Event) :
  fetchFromRpcAndCache e log =
  (fst (run (fetchFromRpcAndCache e)), log ++ snd (run (fetchFromRpcAndCache e))).
Proof.
  unfold run, fetchFromRpcAndCache, bind, emit, ret. simpl.
  destruct (rpcPodsOf (env_rpc e)) as [rpcPods|]; simpl.
  - destruct (mergeRpcPods e rpcPods) as [sorted|]; simpl.
    + destruct (array_length _ >? 0); simpl;
        now rewrite <- ?app_assoc.
    + now rewrite <- ?app_assoc.
  - now rewrite <- ?app_assoc.
Qed.

(** Every refresh starts with the two adapter calls. *)
Lemma fetchFromRpcAndCache_starts (e : Env) :
  exists calls,
    snd (run (fetchFromRpcAndCache e)) = EvFetchPodCredits :: EvGetPods :: calls.
Proof.
  unfold run, fetchFromRpcAndCache, bind, emit, ret. simpl.
  destruct (rpcPodsOf (env_rpc e)) as [rpcPods|]; simpl; [|eauto].
  destruct (mergeRpcPods e rpcPods) as [sorted|]; simpl; [|eauto].
  destruct (array_length _ >? 0); simpl; eauto.
Qed.

Lemma record_set_not_nil {V : Type} (k : string) (v : V) (m : list (string * V)) :
  record_set k v m <> [].
Proof. destruct m as [|[k' v'] m]; simpl; [|destruct (String.eqb k k')]; discriminate. Qed.

Lemma uniqueNodesOf_not_nil (n : PNode) (ns : list PNode) :
  uniqueNodesOf (n :: ns) <> [].
Proof.
  unfold uniqueNodesOf, map_of_pairs. simpl.
  assert (H : forall (pairs : list (string * PNode)) m,
             m <> [] -> fold_left (fun m '(k, v) => record_set k v m) pairs m <> []).
  { induction pairs as [|[k v] pairs IH]; simpl; intros m Hm; [assumption|].
    apply IH, record_set_not_nil. }
  intros E. apply map_eq_nil in E. revert E. apply H. discriminate.
Qed.

(** A refresh that merges at least one node ends with the upsert of the
    rows of the deduplicated nodes and returns the sorted array. *)
Lemma fetchFromRpcAndCache_persists (e : Env) (rpcPods : list RpcPod)
    (n : PNode) (ns : list PNode) :
  rpcPodsOf (env_rpc e) = Some rpcPods ->
  mergeRpcPods e rpcPods = Some (n :: ns) ->
  exists ips,
    run (fetchFromRpcAndCache e) =
    (n :: ns,
     [EvFetchPodCredits; EvGetPods; EvGeoBatch ips;
      EvUpsert (map (mapPNodeToRow (env_now e)) (uniqueNodesOf (n :: ns)))]).
Proof.
  intros Hr Hm. unfold run, fetchFromRpcAndCache, bind, emit, ret. simpl.
  rewrite Hr. simpl. rewrite Hm. simpl.
  destruct (array_length _ >? 0) eqn:E; simpl; [eauto|].
  exfalso. rewrite Z.gtb_ltb in E. apply Z.ltb_ge in E.
  unfold array_length in E. rewrite length_map in E.
  pose proof (uniqueNodesOf_not_nil n ns) as Hn.
  destruct (uniqueNodesOf (n :: ns)); [congruence | simpl in E; lia].
Qed.
End GateFacts.

(** Records filled key by key, and the deduplication of a refresh. *)

Section RecordFacts.
Import JS.
Context {V : Type}.

Lemma record_set_keys (k : string) (v : V) (m : list (string * V)) (k' : string) :
  In k' (map fst (record_set k v m)) <-> k' = k \/ In k' (map fst m).
Proof.
  induction m as [|[k0 v0] m IH]; simpl.
  - intuition.
  - destruct (String.eqb k k0) eqn:E; simpl.
    + apply String.eqb_eq in E. subst k0. intuition.
    + rewrite IH. intuition.
Qed.

Lemma record_set_NoDup (k : string) (v : V) (m : list (string * V)) :
  List.NoDup (map fst m) -> List.NoDup (map fst (record_set k v m)).
Proof.
  induction m as [|[k0 v0] m IH]; simpl; intros H.
  - constructor; [intros []|constructor].
  - inversion H as [|? ? Hn Hd]; subst.
    destruct (String.eqb k k0) eqn:E; simpl.
    + apply String.eqb_eq in E. subst k0. now constructor.
    + constructor; [|now apply IH].
      rewrite record_set_keys. intros [->|Hin]; [|contradiction].
      now rewrite String.eqb_refl in E.
Qed.

Lemma record_get_set (k : string) (v : V) (m : list (string * V)) (k' : string) :
  record_get k' (record_set k v m)
  = if String.eqb k' k then Some v else record_get k' m.
Proof.
  induction m as [|[k0 v0] m IH]; simpl.
  - reflexivity.
  - destruct (String.eqb k k0) eqn:E; simpl.
    + apply String.eqb_eq in E. subst k0.
      destruct (String.eqb k' k); reflexivity.
    + rewrite IH. destruct (String.eqb k' k0) eqn:E0; [|reflexivity].
      apply String.eqb_eq in E0. subst k0.
      destruct (String.eqb k' k) eqn:E1; [|reflexivity].
      apply String.eqb_eq in E1. subst k'. now rewrite String.eqb_refl in E.
Qed.

Lemma record_get_entry (m : list (string * V)) (k : string) (v : V) :
  List.NoDup (map fst m) -> In (k, v) m -> record_get k m = Some v.
Proof.
  induction m as [|[k0 v0] m IH]; simpl; intros Hd Hin; [contradiction|].
  inversion Hd as [|? ? Hn Hd']; subst.
  destruct Hin as [[= -> ->]|Hin].
  - now rewrite String.eqb_refl.
  - destruct (String.eqb k k0) eqn:E; [|now apply IH].
    apply String.eqb_eq in E. subst k0. exfalso. apply Hn.
    change k with (fst (k, v)). now apply in_map.
Qed.

(** Filling a map from pairs, started from [m]. *)
Lemma fill_keys (pairs m : list (string * V)) (k : string) :
  In k (map fst (fold_left (fun m '(k, v) => record_set k v m) pairs m))
  <-> In k (map fst m) \/ In k (map fst pairs).
Proof.
  revert m. induction pairs as [|[k0 v0] pairs IH]; simpl; intros m.
  - intuition.
  - rewrite IH, record_set_keys. intuition.
Qed.

Lemma fill_NoDup (pairs m : list (string * V)) :
  List.NoDup (map fst m) ->
  List.NoDup (map fst (fold_left (fun m '(k, v) => record_set k v m) pairs m)).
Proof.
  revert m. induction pairs as [|[k0 v0] pairs IH]; simpl; intros m H.
  - exact H.
  - apply IH, record_set_NoDup, H.
Qed.

Lemma fill_get (pairs m : list (string * V)) (k : string) :
  record_get k (fold_left (fun m '(k, v) => record_set k v m) pairs m)
  = match record_get k (rev pairs) with
    | Some v => Some v
    | None => record_get k m
    end.
Proof.
  revert m. induction pairs as [|[k0 v0] pairs IH]; simpl; intros m.
  - reflexivity.
  - rewrite IH, record_get_set.
    assert (Happ : forall (l : list (string * V)),
               record_get k (l ++ [(k0, v0)])
               = match record_get k l with
                 | Some v => Some v
                 | None => if String.eqb k k0 then Some v0 else None
                 end).
    { induction l as [|[k1 v1] l IHl]; simpl; [reflexivity|].
      destruct (String.eqb k k1); [reflexivity|apply IHl]. }
    rewrite Happ. destruct (record_get k (rev pairs)); [reflexivity|].
    destruct (String.eqb k k0); reflexivity.
Qed.

(** The last pair of a key in a list of pairs. *)
Lemma record_get_rev_last (pairs : list (string * V)) (k : string) (v : V) :
  record_get k (rev pairs) = Some v ->
  exists front back,
    pairs = front ++ (k, v) :: back /\ ~ In k (map fst back).
Proof.
  induction pairs as [|[k0 v0] pairs IH] using rev_ind; [discriminate|].
  rewrite rev_unit. simpl.
  destruct (String.eqb k k0) eqn:E.
  - apply String.eqb_eq in E. subst k0. intros [= ->].
    exists pairs, []. split; [reflexivity|intros []].
  - intros H. destruct (IH H) as (front & back & -> & Hn).
    exists front, (back ++ [(k0, v0)]). split.
    + now rewrite <- app_assoc.
    + rewrite map_app, in_app_iff. simpl. intros [?|[->|[]]]; [contradiction|].
      now rewrite String.eqb_refl in E.
Qed.
End RecordFacts.

Section UniqueFacts.
Import JS Types ServerPnodes.

Lemma uniqueNodesOf_pubkeys (sorted : list PNode) :
  map pubkey (uniqueNodesOf sorted)
  = map fst (map_of_pairs (map (fun item => (pubkey item, item)) sorted)).
Proof.
  unfold uniqueNodesOf, map_of_pairs.
  assert (H : forall pairs (m : list (string * PNode)),
             List.Forall (fun kv => pubkey (snd kv) = fst kv) m ->
             List.Forall (fun kv => pubkey (snd kv) = fst kv) pairs ->
             List.Forall (fun kv => pubkey (snd kv) = fst kv)
               (fold_left (fun m '(k, v) => record_set k v m) pairs m)).
  { induction pairs as [|[k v] pairs IH]; simpl; intros m Hm Hp; [exact Hm|].
    inversion Hp; subst. apply IH; [|assumption].
    clear -Hm H1. induction m as [|[k0 v0] m IHm]; simpl.
    - constructor; [assumption|constructor].
    - inversion Hm; subst. destruct (String.eqb k k0).
      + constructor; assumption.
      + constructor; [assumption|now apply IHm]. }
  specialize (H (map (fun item => (pubkey item, item)) sorted) []).
  rewrite !map_map. apply map_ext_Forall.
  eapply List.Forall_impl; [|apply H].
  - intros [k v]. simpl. auto.
  - constructor.
  - apply List.Forall_forall. intros kv Hin. apply in_map_iff in Hin.
    destruct Hin as (n & <- & _). reflexivity.
Qed.

(** The deduplicated nodes: one per identity, each the last node of
    the array under its identity. *)
Lemma uniqueNodesOf_spec (sorted : list PNode) :
  List.NoDup (map pubkey (uniqueNodesOf sorted)) /\
  (forall k, In k (map pubkey (uniqueNodesOf sorted)) <-> In k (map pubkey sorted)) /\
  (forall node, In node (uniqueNodesOf sorted) ->
     exists front back,
       sorted = front ++ node :: back /\ ~ In (pubkey node) (map pubkey back)).
Proof.
  set (pairs := map (fun item => (pubkey item, item)) sorted).
  assert (Hd : List.NoDup (map fst (map_of_pairs pairs))).
  { apply fill_NoDup. constructor. }
  split; [|split].
  - rewrite uniqueNodesOf_pubkeys. exact Hd.
  - intros k. rewrite uniqueNodesOf_pubkeys. unfold map_of_pairs.
    rewrite fill_keys. subst pairs. rewrite map_map. simpl.
    intuition.
  - intros node Hin. unfold uniqueNodesOf in Hin. fold pairs in Hin.
    apply in_map_iff in Hin. destruct Hin as ([k v] & Hv & Hin).
    simpl in Hv. subst v.
    pose proof (record_get_entry _ _ _ Hd Hin) as Hg.
    unfold map_of_pairs in Hg. rewrite fill_get in Hg. simpl in Hg.
    destruct (record_get k (rev pairs)) as [v|] eqn:E; [|discriminate].
    injection Hg as ->.
    destruct (record_get_rev_last _ _ _ E) as (front & back & Hp & Hn).
    subst pairs.
    apply map_eq_app in Hp. destruct Hp as (f' & rest & -> & <- & Hrest).
    destruct rest as [|x b']; [discriminate|]. simpl in Hrest.
    injection Hrest as Hk -> <-. exists f', b'. split; [reflexivity|].
    rewrite map_map in Hn. simpl in Hn. rewrite <- Hk in Hn. exact Hn.
Qed.
End UniqueFacts.

(** The credits that a refresh looks up in the ledger. *)

Section LedgerCreditFacts.
Import JS Types ServerPnodes.

Lemma creditMap_lookup (pcs : list PodCredit) (m : gmap string Z) (k : string) :
  fold_left (fun m pc => <[pod_id pc := pc_credits pc]> m) pcs m !! k
  = match record_get k (rev (map (fun pc => (pod_id pc, pc_credits pc)) pcs)) with
    | Some c => Some c
    | None => m !! k
    end.
Proof.
  revert m. induction pcs as [|pc pcs IH]; intros m; simpl; [reflexivity|].
  rewrite IH.
  assert (Happ : forall (l : list (string * Z)),
             record_get k (l ++ [(pod_id pc, pc_credits pc)])
             = match record_get k l with
               | Some v => Some v
               | None => if String.eqb k (pod_id pc) then Some (pc_credits pc) else None
               end).
  { induction l as [|[k1 v1] l IHl]; simpl; [reflexivity|].
    destruct (String.eqb k k1); [reflexivity|apply IHl]. }
  rewrite Happ. destruct (record_get k (rev _)); [reflexivity|].
  destruct (String.eqb k (pod_id pc)) eqn:E.
  - apply String.eqb_eq in E. subst k. now rewrite lookup_insert_eq.
  - apply String.eqb_neq in E. rewrite lookup_insert_ne by congruence. reflexivity.
Qed.

Lemma creditsFor_ledger (podCredits : option PodCreditsResponse) (rpcNode : RpcPod) :
  creditsFor (creditMapOf podCredits) rpcNode
  = Terms.ledgerCredit podCredits (rp_pubkey rpcNode).
Proof.
  unfold creditsFor, creditMapOf, Terms.ledgerCredit.
  destruct (rp_pubkey rpcNode) as [k|]; simpl.
  - destruct podCredits as [[[pcs|]]|]; simpl; try (now rewrite lookup_empty).
    rewrite creditMap_lookup, lookup_empty.
    destruct (record_get k (rev _)); reflexivity.
  - destruct podCredits as [[[pcs|]]|]; reflexivity.
Qed.

Lemma map_throwing_Forall2 {A B : Type} (f : A -> Z -> option B) (R : A -> B -> Prop) :
  (forall x i y, f x i = Some y -> R x y) ->
  forall l i ys, map_throwing f i l = Some ys -> Forall2 R l ys.
Proof.
  intros Hf. induction l as [|x l IH]; simpl; intros i ys H.
  - injection H as <-. constructor.
  - destruct (f x i) as [y|] eqn:E; [|discriminate].
    destruct (map_throwing f (i + 1) l) as [ys'|] eqn:E'; [|discriminate].
    simpl in H. injection H as <-. constructor; [eapply Hf, E|eapply IH, E'].
Qed.
End LedgerCreditFacts.

Section GateRefreshFacts.
Import JS Types ServerPnodes.

(** The addresses sent to the geolocation batch: the address parts of
    the pods, but for the empty one and the two names of the local
    host. *)
Lemma ipsToFetch_spec (rpcPods : list RpcPod) (ip : string) :
  In ip (omap (fun ip => ip) (filter fetchable (map podIp rpcPods)))
  <-> exists pod, In pod rpcPods /\ podIp pod = Some ip /\
                  ip <> "" /\ ip <> "127.0.0.1" /\ ip <> "localhost".
Proof.
  rewrite <- list_elem_of_In, list_elem_of_omap. split.
  - intros (x & Hx & E). subst x.
    apply list_elem_of_filter in Hx. destruct Hx as [Hf Hx].
    apply list_elem_of_In, in_map_iff in Hx. destruct Hx as (pod & Hp & Hin).
    exists pod. split; [exact Hin|]. split; [exact Hp|].
    unfold fetchable, truthy_str in Hf.
    apply Is_true_true in Hf. apply andb_prop in Hf. destruct Hf as [Hf H3].
    apply andb_prop in Hf. destruct Hf as [H1 H2].
    apply negb_true_iff, String.eqb_neq in H1, H2, H3. auto.
  - intros (pod & Hin & Hp & H1 & H2 & H3). exists (Some ip). split; [|reflexivity].
    apply list_elem_of_filter. split.
    + unfold fetchable, truthy_str. apply Is_true_true.
      apply String.eqb_neq in H1, H2, H3. now rewrite H1, H2, H3.
    + apply list_elem_of_In, in_map_iff. eauto.
Qed.

(** A row written by [mapPNodeToRow] holds the columns of its node. *)
Lemma mapPNodeToRow_columns (now : Z) (node : PNode) :
  Vocabulary.sameColumns (mapPNodeToRow now node) node /\
  updated_at (mapPNodeToRow now node) = Some now.
Proof. unfold Vocabulary.sameColumns. simpl. repeat split. Qed.

(** A node read by [mapRowToPNode] holds the columns of its row. *)
Lemma mapRowToPNode_served (rows : list Row) :
  Forall2 Vocabulary.servedAs rows (map mapRowToPNode rows).
Proof.
  induction rows as [|row rows IH]; simpl; constructor; [|exact IH].
  unfold Vocabulary.servedAs, Vocabulary.sameColumns. simpl.
  repeat split.
Qed.

(** A refresh over a non-empty pod list whose pods can all be dated, in
    full: the calls, the merged and sorted nodes, and the rows
    persisted. *)
Lemma refresh_in_full (e : Env) (rpcPods : list RpcPod) :
  rpcPodsOf (env_rpc e) = Some rpcPods ->
  rpcPods <> [] ->
  Forall (fun x => Vocabulary.usableTimestamp x = true) rpcPods ->
  exists returned mapped ips rows,
    run (fetchFromRpcAndCache e)
    = (returned, [EvFetchPodCredits; EvGetPods; EvGeoBatch ips; EvUpsert rows]) /\
    (forall ip, In ip ips
                <-> exists pod, In pod rpcPods /\ podIp pod = Some ip /\
                                ip <> "" /\ ip <> "127.0.0.1" /\ ip <> "localhost") /\
    Permutation returned mapped /\
    map pubkey mapped = Vocabulary.podIdentities rpcPods /\
    Forall2 (fun pod node =>
               credits node
               = Some (Terms.ledgerCredit (env_podCredits e) (rp_pubkey pod)))
            rpcPods mapped /\
    StronglySorted (fun a b => b <= a) (map credits_or0 returned) /\
    List.NoDup (map r_pubkey rows) /\
    (forall k, In k (map r_pubkey rows) <-> In k (Vocabulary.podIdentities rpcPods)) /\
    (forall r, In r rows ->
       updated_at r = Some (env_now e) /\
       exists front node back,
         returned = front ++ node :: back /\
         Vocabulary.sameColumns r node /\
         ~ In (pubkey node) (map pubkey back)).
Proof.
  intros Hr Hne Hall.
  destruct (mergeRpcPods_defined e _ Hall) as [sorted Hm].
  pose proof (mergeRpcPods_identities e _ _ Hm) as Hid.
  assert (Hrun : run (fetchFromRpcAndCache e)
                 = (sorted,
                    [EvFetchPodCredits; EvGetPods;
                     EvGeoBatch (omap (fun ip => ip)
                                   (filter fetchable (map podIp rpcPods)));
                     EvUpsert (map (mapPNodeToRow (env_now e)) (uniqueNodesOf sorted))])).
  { destruct sorted as [|n ns].
    - apply Permutation_length in Hid.
      unfold Vocabulary.podIdentities, mapi in Hid. rewrite mapi_from_length in Hid.
      destruct rpcPods; [congruence|discriminate Hid].
    - unfold run, fetchFromRpcAndCache, bind, emit, ret. simpl.
      rewrite Hr. simpl. rewrite Hm. simpl.
      destruct (array_length _ >? 0) eqn:E; simpl; [reflexivity|].
      exfalso. rewrite Z.gtb_ltb in E. apply Z.ltb_ge in E.
      unfold array_length in E. rewrite length_map in E.
      pose proof (uniqueNodesOf_not_nil n ns) as Hn.
      destruct (uniqueNodesOf (n :: ns)); [congruence | simpl in E; lia]. }
  destruct (uniqueNodesOf_spec sorted) as (Hd & Hk & Hlast).
  unfold mergeRpcPods in Hm. cbv zeta in Hm.
  destruct (map_throwing _ 0 rpcPods) as [mapped|] eqn:E; [|discriminate].
  simpl in Hm. injection Hm as <-.
  exists (sort (fun a b => credits_or0 b - credits_or0 a) mapped), mapped,
         (omap (fun ip => ip) (filter fetchable (map podIp rpcPods))),
         (map (mapPNodeToRow (env_now e))
              (uniqueNodesOf (sort (fun a b => credits_or0 b - credits_or0 a) mapped))).
  split; [exact Hrun|]. split; [apply ipsToFetch_spec|].
  split; [apply sort_perm|]. split.
  { unfold Vocabulary.podIdentities, mapi.
    erewrite map_throwing_pubkeys; [reflexivity| |exact E].
    intros x i n. apply mapRpcNodeToPNode_pubkey. }
  split.
  { eapply map_throwing_Forall2; [|exact E].
    intros x i y. cbv beta zeta. unfold mapRpcNodeToPNode. cbv zeta.
    destruct (rp_last_seen_timestamp x); [|discriminate].
    destruct (negb _); [discriminate|]. intros [= <-]. cbn [credits].
    change (Some (or_Z (Some (creditsFor (creditMapOf (env_podCredits e)) x)) 0)
            = Some (Terms.ledgerCredit (env_podCredits e) (rp_pubkey x))).
    now rewrite or_Z_Some_0, creditsFor_ledger. }
  split; [apply StronglySorted_map; apply (sort_desc credits_or0)|].
  assert (Hpk : forall l, map r_pubkey (map (mapPNodeToRow (env_now e)) l)
                          = map pubkey l).
  { intros l. rewrite map_map. reflexivity. }
  rewrite Hpk. split; [exact Hd|]. split.
  - intros k. rewrite Hk. split; intros H.
    + eapply Permutation_in; [exact Hid|exact H].
    + eapply Permutation_in; [symmetry; exact Hid|exact H].
  - intros r Hin. apply in_map_iff in Hin. destruct Hin as (node & <- & Hin).
    destruct (mapPNodeToRow_columns (env_now e) node) as [Hc Hu].
    split; [exact Hu|].
    destruct (Hlast node Hin) as (front & back & Hs & Hn).
    exists front, node, back. auto.
Qed.
End GateRefreshFacts.

(** C3. With a stored snapshot whose first row was stamped at
    [stamped]. A request at most five minutes later makes the one
    [select] call and serves the stored rows, column by column, under
    the ids rebuilt from their ranks. A request more than five minutes
    later answers with what [fetchFromRpcAndCache] returns, and its
    calls are the [select] followed by the calls of that refresh, which
    start with the two adapter fetches; over a non-empty pod list whose
    pods can all be dated the refresh is complete: the calls go on with
    the geolocation batch for the addresses of the pods and end with
    one upsert; the answer is the sorted merge, one node per pod under
    the identity of the pod, with the credits that the ledger holds for
    it, ordered by non-increasing credits; the upserted rows carry
    pairwise distinct pubkeys, exactly the identities of the pod list,
    are stamped with the instant of the request, and each holds the
    columns of the last returned node of its identity. *)
Theorem staleness_gate (e : ServerPnodes.Env) (first : Types.Row)
    (rest : list Types.Row) (stamped : Z) :
  ServerPnodes.env_select e = Types.SelectData (Some (first :: rest)) ->
  Types.updated_at first = Some stamped ->
  (ServerPnodes.env_now e - stamped <= 5 * 60 * 1000 ->
   exists served,
     ServerPnodes.run (ServerPnodes.getClusterNodes e)
     = (served, [ServerPnodes.EvSelect]) /\
     Forall2 Vocabulary.servedAs (first :: rest) served) /\
  (ServerPnodes.env_now e - stamped > 5 * 60 * 1000 ->
   ServerPnodes.run (ServerPnodes.getClusterNodes e)
   = (fst (ServerPnodes.run (ServerPnodes.fetchFromRpcAndCache e)),
      ServerPnodes.EvSelect
        :: snd (ServerPnodes.run (ServerPnodes.fetchFromRpcAndCache e))) /\
   (exists calls,
      snd (ServerPnodes.run (ServerPnodes.getClusterNodes e))
      = ServerPnodes.EvSelect :: ServerPnodes.EvFetchPodCredits
          :: ServerPnodes.EvGetPods :: calls) /\
   (forall rpcPods,
      ServerPnodes.rpcPodsOf (ServerPnodes.env_rpc e) = Some rpcPods ->
      rpcPods <> [] ->
      Forall (fun x => Vocabulary.usableTimestamp x = true) rpcPods ->
      exists returned mapped ips rows,
        ServerPnodes.run (ServerPnodes.getClusterNodes e)
        = (returned,
           [ServerPnodes.EvSelect; ServerPnodes.EvFetchPodCredits;
            ServerPnodes.EvGetPods; ServerPnodes.EvGeoBatch ips;
            ServerPnodes.EvUpsert rows]) /\
        (forall ip, In ip ips
                    <-> exists pod, In pod rpcPods /\
                                    ServerPnodes.podIp pod = Some ip /\
                                    ip <> "" /\ ip <> "127.0.0.1" /\
                                    ip <> "localhost") /\
        Permutation returned mapped /\
        map Types.pubkey mapped = Vocabulary.podIdentities rpcPods /\
        Forall2 (fun pod node =>
                   Types.credits node
                   = Some (Terms.ledgerCredit (ServerPnodes.env_podCredits e)
                             (ServerPnodes.rp_pubkey pod)))
                rpcPods mapped /\
        StronglySorted (fun a b => b <= a) (map Types.credits_or0 returned) /\
        List.NoDup (map Types.r_pubkey rows) /\
        (forall k, In k (map Types.r_pubkey rows)
                   <-> In k (Vocabulary.podIdentities rpcPods)) /\
        (forall r, In r rows ->
           Types.updated_at r = Some (ServerPnodes.env_now e) /\
           exists front node back,
             returned = front ++ node :: back /\
             Vocabulary.sameColumns r node /\
             ~ In (Types.pubkey node) (map Types.pubkey back)))).
Proof.
  intros Hsel Hup. split; intros Hage.
  - exists (map ServerPnodes.mapRowToPNode (first :: rest)).
    split; [|apply mapRowToPNode_served].
    unfold ServerPnodes.run, ServerPnodes.getClusterNodes, ServerPnodes.bind,
      ServerPnodes.emit, ServerPnodes.ret. simpl.
    rewrite Hsel, Hup.
    destruct (_ >? _) eqn:E; [|reflexivity].
    rewrite Z.gtb_ltb in E. apply Z.ltb_lt in E. lia.
  - assert (Hrun : ServerPnodes.run (ServerPnodes.getClusterNodes e)
                   = (fst (ServerPnodes.run (ServerPnodes.fetchFromRpcAndCache e)),
                      ServerPnodes.EvSelect
                        :: snd (ServerPnodes.run
                                  (ServerPnodes.fetchFromRpcAndCache e)))).
    { unfold ServerPnodes.run at 1. unfold ServerPnodes.getClusterNodes,
        ServerPnodes.bind, ServerPnodes.emit. simpl.
      rewrite Hsel, Hup.
      destruct (_ >? _) eqn:E.
      + now rewrite fetchFromRpcAndCache_log.
      + rewrite Z.gtb_ltb in E. apply Z.ltb_ge in E. lia. }
    split; [exact Hrun|]. split.
    + rewrite Hrun. cbn [snd].
      destruct (fetchFromRpcAndCache_starts e) as [calls ->]. eauto.
    + intros rpcPods Hr Hne Hall.
      destruct (refresh_in_full e rpcPods Hr Hne Hall)
        as (returned & mapped & ips & rows & Hfull & Hrest).
      exists returned, mapped, ips, rows. split; [|exact Hrest].
      rewrite Hrun, Hfull. reflexivity.
Qed.

Lemma staleness_gate_witness :
  (exists served,
     ServerPnodes.run (ServerPnodes.getClusterNodes (Scenarios.gateEnv 1700000299999))
     = (served, [ServerPnodes.EvSelect]) /\
     Forall2 Vocabulary.servedAs [Scenarios.cachedRow] served) /\
  (exists served,
     ServerPnodes.run (ServerPnodes.getClusterNodes (Scenarios.gateEnv 1700000300000))
     = (served, [ServerPnodes.EvSelect]) /\
     Forall2 Vocabulary.servedAs [Scenarios.cachedRow] served) /\
  (exists returned rows,
     ServerPnodes.run (ServerPnodes.getClusterNodes (Scenarios.gateEnv 1700000300001))
     = (returned,
        [ServerPnodes.EvSelect; ServerPnodes.EvFetchPodCredits;
         ServerPnodes.EvGetPods; ServerPnodes.EvGeoBatch [];
         ServerPnodes.EvUpsert rows]) /\
     StronglySorted (fun a b => b <= a) (map Types.credits_or0 returned) /\
     (forall k, In k (map Types.r_pubkey rows) <-> In k ["X"; "Y"])).
Proof.
  assert (Hsel : forall now,
             ServerPnodes.env_select (Scenarios.gateEnv now)
             = Types.SelectData (Some [Scenarios.cachedRow])) by reflexivity.
  assert (Hup : Types.updated_at Scenarios.cachedRow = Some 1700000000000)
    by reflexivity.
  assert (Hfresh : ServerPnodes.env_now (Scenarios.gateEnv 1700000299999)
                   - 1700000000000 <= 5 * 60 * 1000) by (simpl; lia).
  assert (Hedge : ServerPnodes.env_now (Scenarios.gateEnv 1700000300000)
                  - 1700000000000 <= 5 * 60 * 1000) by (simpl; lia).
  assert (Hstale : ServerPnodes.env_now (Scenarios.gateEnv 1700000300001)
                   - 1700000000000 > 5 * 60 * 1000) by (simpl; lia).
  assert (Hr : ServerPnodes.rpcPodsOf
                 (ServerPnodes.env_rpc (Scenarios.gateEnv 1700000300001))
               = Some [Scenarios.barePod "X" 1700000000;
                       Scenarios.barePod "Y" 1700000000]) by reflexivity.
  assert (Hne : [Scenarios.barePod "X" 1700000000; Scenarios.barePod "Y" 1700000000]
                <> []) by discriminate.
  assert (Hall : Forall (fun x => Vocabulary.usableTimestamp x = true)
                   [Scenarios.barePod "X" 1700000000;
                    Scenarios.barePod "Y" 1700000000]) by (repeat constructor).
  split; [|split].
  - exact (proj1 (staleness_gate (Scenarios.gateEnv 1700000299999)
                    Scenarios.cachedRow [] 1700000000000 (Hsel _) Hup) Hfresh).
  - exact (proj1 (staleness_gate (Scenarios.gateEnv 1700000300000)
                    Scenarios.cachedRow [] 1700000000000 (Hsel _) Hup) Hedge).
  - destruct (proj2 (proj2 (proj2 (staleness_gate (Scenarios.gateEnv 1700000300001)
                                     Scenarios.cachedRow [] 1700000000000 (Hsel _) Hup)
                              Hstale)) _ Hr Hne Hall)
      as (returned & mapped & ips & rows & Hrun & Hips & _ & _ & _ & Hs & _ & Hk & _).
    exists returned, rows. split; [|split; [exact Hs|exact Hk]].
    rewrite Hrun. repeat f_equal.
    destruct ips as [|ip ips]; [reflexivity|]. exfalso.
    destruct (proj1 (Hips ip) (or_introl eq_refl)) as (pod & Hin & Hp & _).
    destruct Hin as [<-|[<-|[]]]; discriminate Hp.
Defined.

(** At exactly five minutes the snapshot is still served. *)
Example staleness_gate_at_the_threshold :
  ServerPnodes.run (ServerPnodes.getClusterNodes (Scenarios.gateEnv 1700000300000))
  = (map ServerPnodes.mapRowToPNode [Scenarios.cachedRow], [ServerPnodes.EvSelect]).
Proof. reflexivity. Qed.

(** One unit later the refresh runs and persists what it merged. *)
Example staleness_gate_past_the_threshold :
  let '(nodes, calls) :=
    ServerPnodes.run (ServerPnodes.getClusterNodes (Scenarios.gateEnv 1700000300001)) in
  map Scenarios.summary nodes = [("Y", Some 100, Some 2); ("X", Some 0, Some 1)] /\
  exists rows,
    calls = [ServerPnodes.EvSelect; ServerPnodes.EvFetchPodCredits;
             ServerPnodes.EvGetPods; ServerPnodes.EvGeoBatch [];
             ServerPnodes.EvUpsert rows] /\
    map Types.r_pubkey rows = ["Y"; "X"].
Proof. vm_compute. split; [reflexivity | eexists; split; reflexivity]. Qed.

(** ** Superminority *)

Section SuperminorityFacts.
Import JS Types DerivedMetrics Vocabulary.

Lemma fold_left_credits (nodes : list PNode) (a : Z) :
  fold_left (fun acc n => acc + credits_or0 n) nodes a = a + sumCredits nodes.
Proof.
  revert a; induction nodes as [|n nodes IH]; simpl; intros a; [lia|].
  rewrite IH. lia.
Qed.

Lemma Qgeb_true (a b : Q) : Qgeb a b = true <-> (b <= a)%Q.
Proof. unfold Qgeb. apply Qle_bool_iff. Qed.

Lemma Qgeb_false (a b : Q) : Qgeb a b = false <-> (a < b)%Q.
Proof.
  unfold Qgeb. split; intros H.
  - apply Qnot_le_lt. intros Hle. apply Qle_bool_iff in Hle. congruence.
  - destruct (Qle_bool b a) eqn:E; [|reflexivity].
    apply Qle_bool_iff in E. exfalso. eapply Qlt_not_le; eassumption.
Qed.

(** The loop pushes a prefix of the sorted nodes: the shortest one whose
    credits, added to [sum], reach the threshold, or all of them. *)
Lemma superminorityLoop_prefix (threshold : Q) (totalCredits : Z)
    (sorted : list PNode) (sum : Z) (acc : list SuperminorityNode) :
  exists k : nat,
    superminorityLoop threshold totalCredits sorted sum acc
      = acc ++ map (superminorityEntry totalCredits) (firstn k sorted) /\
    (forall j, (j < k)%nat ->
       (inject_Z (sum + sumCredits (firstn j sorted)) < threshold)%Q) /\
    (k = List.length sorted \/
     (threshold <= inject_Z (sum + sumCredits (firstn k sorted)))%Q).
Proof.
  revert sum acc; induction sorted as [|node rest IH]; intros sum acc; simpl.
  - exists 0%nat. simpl. rewrite app_nil_r. repeat split; [lia | now left].
  - destruct (Qgeb (inject_Z sum) threshold) eqn:E.
    + exists 0%nat. simpl. rewrite app_nil_r, Z.add_0_r.
      repeat split; [lia | right; now apply Qgeb_true].
    + destruct (IH (sum + credits_or0 node)
                   (acc ++ [superminorityEntry totalCredits node]))
        as (k & Hk & Hlt & Hstop).
      exists (S k). simpl. rewrite Hk, <- app_assoc. simpl.
      repeat split.
      * intros [|j] Hj; simpl.
        -- rewrite Z.add_0_r. now apply Qgeb_false.
        -- rewrite Z.add_assoc. apply Hlt. lia.
      * destruct Hstop as [-> | Hstop]; [now left | right].
        now rewrite Z.add_assoc.
Qed.
End SuperminorityFacts.

(** C4. [getSuperminorityInfo] sorts the nodes by credits, highest
    first, and pushes them until the credits pushed reach 33% of the
    total: the pushed nodes are the first [count] sorted nodes, every
    shorter prefix is below the threshold, and the prefix itself reaches
    it unless it is the whole list. The risk level is high below 5
    nodes, medium below 15, low otherwise. With the ten credits 500,
    400, 300, 200, 100, 50, 50, 50, 25, 25 the total is 1700, the
    threshold 561, and the superminority is the first two nodes, of
    risk level high. *)
Theorem superminority_is_the_least_prefix_reaching_a_third (nodes : list Types.PNode) :
  let info := DerivedMetrics.superminorityOf nodes in
  let sorted := JS.sort DerivedMetrics.byCreditsDesc nodes in
  let total := Vocabulary.sumCredits nodes in
  let threshold := (inject_Z total * 0.33)%Q in
  (Permutation sorted nodes /\
   StronglySorted (fun a b => Types.credits_or0 b <= Types.credits_or0 a) sorted) /\
  (exists k : nat,
     DerivedMetrics.sm_count info = Z.of_nat k /\
     DerivedMetrics.sm_nodes info
       = map (DerivedMetrics.superminorityEntry total) (firstn k sorted) /\
     (forall j, (j < k)%nat ->
        (inject_Z (Vocabulary.sumCredits (firstn j sorted)) < threshold)%Q) /\
     (k = List.length sorted \/
      (threshold <= inject_Z (Vocabulary.sumCredits (firstn k sorted)))%Q)) /\
  DerivedMetrics.sm_riskLevel info
    = (if DerivedMetrics.sm_count info <? 5 then DerivedMetrics.high
       else if DerivedMetrics.sm_count info <? 15 then DerivedMetrics.medium
       else DerivedMetrics.low) /\
  (let scenario := DerivedMetrics.getSuperminorityInfo Scenarios.tenNodes in
   Vocabulary.sumCredits (PnodeApi.getClusterNodes Scenarios.tenNodes) = 1700 /\
   (inject_Z 1700 * 0.33 == 561)%Q /\
   DerivedMetrics.sm_count scenario = 2 /\
   map DerivedMetrics.sn_pubkey (DerivedMetrics.sm_nodes scenario) = ["node1"; "node2"] /\
   map DerivedMetrics.sn_stake (DerivedMetrics.sm_nodes scenario) = [500; 400] /\
   DerivedMetrics.sm_riskLevel scenario = DerivedMetrics.high).
Proof.
  intros info sorted total threshold. split; [|split; [|split]].
  - split; [apply sort_perm | apply (sort_desc Types.credits_or0)].
  - subst info. unfold DerivedMetrics.superminorityOf. cbv zeta. simpl.
    rewrite fold_left_credits, Z.add_0_l. fold total threshold sorted.
    destruct (superminorityLoop_prefix threshold total sorted 0 [])
      as (k & Hk & Hlt & Hstop).
    exists k. rewrite Hk. simpl.
    unfold Utils.array_length. rewrite length_map.
    repeat split.
    + rewrite length_firstn.
      destruct Hstop as [-> | Hstop]; [now rewrite Nat.min_id|].
      destruct (Nat.le_gt_cases k (List.length sorted)) as [Hle | Hgt];
        [now rewrite Nat.min_l|].
      rewrite Nat.min_r by lia.
      exfalso. specialize (Hlt (List.length sorted) Hgt).
      rewrite firstn_all in Hlt. rewrite firstn_all2 in Hstop by lia.
      eapply Qlt_not_le; eassumption.
    + exact Hlt.
    + exact Hstop.
  - reflexivity.
  - vm_compute. repeat split; reflexivity.
Qed.

(** ** Status from credits *)

(** C5, as worded, fails on [transformPodToFull]: a ledger entry with
    100 credits, which is nonzero and below the threshold, gives an
    online node, not a degraded one. *)
Lemma transformPodToFull_never_degraded :
  Types.status
    (Features.transformPodToFull 1700000000000
       {| Types.pc_credits := 100; Types.pod_id := "B" |} 1 None)
  = Types.online /\
  Types.status
    (Features.transformPodToFull 1700000000000
       {| Types.pc_credits := 100; Types.pod_id := "B" |} 1 None)
  <> Types.degraded.
Proof. split; [reflexivity | discriminate]. Qed.

(** C5, amended. [transformPodToNode] gives a ledger entry the status
    online above 5000 credits, degraded from 1 to 5000 credits and
    offline at zero credits or below; [transformPodToFull] gives online
    for positive credits and offline otherwise, and never degraded. With
    the ledger A: 9000, B: 100, C: 0 the credits-first merge ranks A, B,
    C as 1, 2, 3 with the statuses online, degraded, offline. *)
Theorem status_follows_the_credit_heuristic
    (now index totalNodes : Z) (pod : Types.PodCredit)
    (realData : option Features.PartialNode) :
  let credits := Types.pc_credits pod in
  let node := PnodeApi.transformPodToNode now pod index totalNodes in
  let full := Features.transformPodToFull now pod index realData in
  (5000 < credits -> Types.status node = Types.online) /\
  (0 < credits <= 5000 -> Types.status node = Types.degraded) /\
  (credits <= 0 -> Types.status node = Types.offline) /\
  (0 < credits -> Types.status full = Types.online) /\
  (credits <= 0 -> Types.status full = Types.offline) /\
  Types.status full <> Types.degraded /\
  map (fun n => (Types.pubkey n, Types.creditsRank n, Types.status n))
      (PnodeApi.getClusterNodes Scenarios.threeNodes)
  = [("A", Some 1, Types.online); ("B", Some 2, Types.degraded);
     ("C", Some 3, Types.offline)].
Proof.
  intros credits node full. subst node full.
  unfold PnodeApi.transformPodToNode, Features.transformPodToFull. simpl.
  fold credits.
  repeat split.
  - intros H. destruct (credits >? 5000) eqn:E; [reflexivity|].
    rewrite Z.gtb_ltb in E. apply Z.ltb_ge in E. lia.
  - intros [H1 H2]. destruct (credits >? 5000) eqn:E.
    + rewrite Z.gtb_ltb in E. apply Z.ltb_lt in E. lia.
    + destruct (credits >? 0) eqn:E'; [reflexivity|].
      rewrite Z.gtb_ltb in E'. apply Z.ltb_ge in E'. lia.
  - intros H. destruct (credits >? 5000) eqn:E.
    + rewrite Z.gtb_ltb in E. apply Z.ltb_lt in E. lia.
    + destruct (credits >? 0) eqn:E'; [|reflexivity].
      rewrite Z.gtb_ltb in E'. apply Z.ltb_lt in E'. lia.
  - intros H. destruct (credits >? 0) eqn:E; [reflexivity|].
    rewrite Z.gtb_ltb in E. apply Z.ltb_ge in E. lia.
  - intros H. destruct (credits >? 0) eqn:E; [|reflexivity].
    rewrite Z.gtb_ltb in E. apply Z.ltb_lt in E. lia.
  - destruct (credits >? 0); discriminate.
Qed.

(** ** X-Score *)

Section XScoreFacts.
Import JS Types DerivedMetrics Vocabulary.


Lemma leb_refl_fin (q : Q) : JsNum.leb (JsNum.Fin q) (JsNum.Fin q) = true.
Proof. simpl. apply Qle_bool_iff. apply Qle_refl. Qed.






Lemma blend_finite (a b c d e : Q) :
  exists q,
    blend (JsNum.Fin a) (JsNum.Fin b) (JsNum.Fin c) (JsNum.Fin d) (JsNum.Fin e)
      = JsNum.Fin q /\
    (q == a * 0.25 + b * 0.25 + c * 0.20 + d * 0.15 + e * 0.15)%Q.
Proof.
  eexists. split; [reflexivity|].
  now rewrite !Qred_correct.
Qed.


End XScoreFacts.



(** ** Nothing to merge *)

Section EmptyFacts.
Import JS Types DerivedMetrics Vocabulary.

Lemma getClusterNodes_nothing (s : Sources) :
  nothingAvailable s = true -> PnodeApi.getClusterNodes s = [].
Proof.
  unfold nothingAvailable, noCredits, PnodeApi.getClusterNodes.
  destruct (src_podCredits s) as [[[[|p ps]|]]|];
    destruct (src_clusterData s) as [|[|c cs]|]; simpl; intros H;
    try discriminate; reflexivity.
Qed.

Lemma server_getClusterNodes_nothing (e : ServerPnodes.Env) :
  everythingEmpty e = true ->
  fst (ServerPnodes.run (ServerPnodes.getClusterNodes e)) = [].
Proof.
  unfold everythingEmpty. intros H.
  apply andb_true_iff in H as [H _]. apply andb_true_iff in H as [H Hrpc].
  apply andb_true_iff in H as [Hsel _].
  assert (Hfetch : forall log,
            fst (ServerPnodes.fetchFromRpcAndCache e log) = []).
  { intros log. rewrite fetchFromRpcAndCache_log. simpl.
    destruct (ServerPnodes.env_rpc e) as [|[|x xs]|[|x xs]| |] eqn:E;
      try discriminate;
      now rewrite (fetch_result e []) by (now rewrite E). }
  unfold ServerPnodes.run, ServerPnodes.getClusterNodes, ServerPnodes.bind,
    ServerPnodes.emit. simpl.
  destruct (ServerPnodes.env_select e) as [| |[[|r rs]|]]; try discriminate;
    apply Hfetch.
Qed.

(** Without its guard the health of an empty network is not a
    number. *)
Lemma unguardedHealth_nil : unguardedHealth [] = JsNum.NaN.
Proof. reflexivity. Qed.
End EmptyFacts.

(** C8. When the ledger and the cluster call come back empty or [null],
    [getClusterNodes] returns the empty array, over which
    [getNetworkStats] gives the health 0, a number, and
    [getDecentralizationMetrics] gives three empty distributions and the
    Nakamoto coefficient 0. The pod-list merge behind the cache does the
    same when the store and its three adapters are empty. *)
Theorem empty_sources_give_empty_but_defined_metrics
    (s : PnodeApi.Sources) (e : ServerPnodes.Env) :
  Vocabulary.nothingAvailable s = true ->
  Vocabulary.everythingEmpty e = true ->
  PnodeApi.getClusterNodes s = [] /\
  fst (ServerPnodes.run (ServerPnodes.getClusterNodes e)) = [] /\
  DerivedMetrics.totalNodes (DerivedMetrics.getNetworkStats s) = 0 /\
  DerivedMetrics.networkHealth (DerivedMetrics.getNetworkStats s) = JsNum.Fin 0 /\
  JsNum.is_nan (DerivedMetrics.networkHealth (DerivedMetrics.getNetworkStats s)) = false /\
  DerivedMetrics.averageUptime (DerivedMetrics.getNetworkStats s) = JsNum.Fin 0 /\
  DerivedMetrics.averageResponseTime (DerivedMetrics.getNetworkStats s) = JsNum.Fin 0 /\
  DerivedMetrics.countryDistribution (DerivedMetrics.getDecentralizationMetrics s) = [] /\
  DerivedMetrics.datacenterDistribution (DerivedMetrics.getDecentralizationMetrics s) = [] /\
  DerivedMetrics.asnDistribution (DerivedMetrics.getDecentralizationMetrics s) = [] /\
  DerivedMetrics.nakamotoCoefficient (DerivedMetrics.getDecentralizationMetrics s) = 0.
Proof.
  intros Hs He.
  pose proof (getClusterNodes_nothing s Hs) as Hnodes.
  split; [exact Hnodes|].
  split; [now apply server_getClusterNodes_nothing|].
  unfold DerivedMetrics.getNetworkStats, DerivedMetrics.getDecentralizationMetrics.
  rewrite Hnodes. repeat split; reflexivity.
Qed.

Lemma empty_sources_give_empty_but_defined_metrics_witness :
  Vocabulary.nothingAvailable Scenarios.emptySources = true /\
  Vocabulary.everythingEmpty Scenarios.emptyEnv = true /\
  PnodeApi.getClusterNodes Scenarios.emptySources = [] /\
  fst (ServerPnodes.run (ServerPnodes.getClusterNodes Scenarios.emptyEnv)) = [] /\
  DerivedMetrics.networkHealth (DerivedMetrics.getNetworkStats Scenarios.emptySources)
    = JsNum.Fin 0 /\
  DerivedMetrics.nakamotoCoefficient
    (DerivedMetrics.getDecentralizationMetrics Scenarios.emptySources) = 0.
Proof.
  assert (Hs : Vocabulary.nothingAvailable Scenarios.emptySources = true) by reflexivity.
  assert (He : Vocabulary.everythingEmpty Scenarios.emptyEnv = true)
    by (vm_compute; reflexivity).
  destruct (empty_sources_give_empty_but_defined_metrics
              Scenarios.emptySources Scenarios.emptyEnv Hs He)
    as (A & B & _ & C & _ & _ & _ & _ & _ & _ & D).
  exact (conj Hs (conj He (conj A (conj B (conj C D))))).
Defined.

(** ** The metric query surface *)

Section RouteFacts.
Import JS Route Vocabulary.
Context {Data : Type}.
Variable answer : Call -> Outcome Data.

Lemma answerOf_status (c : Call) : resp_status (answerOf answer c) <> 400.
Proof. unfold answerOf. destruct (answer c); simpl; discriminate. Qed.

Lemma GET_call (searchParams : SearchParams) (c : Call) :
  dispatch searchParams = DoCall c -> GET answer searchParams = answerOf answer c.
Proof. unfold GET. now intros ->. Qed.

(** The switch, read case by case: an unknown selector is invalid, a
    known one makes a call unless it is a commission-history request
    without a node id. *)
Lemma dispatch_cases (searchParams : SearchParams) :
  (knownType (get "type" searchParams) = false /\
   dispatch searchParams = InvalidType) \/
  (knownType (get "type" searchParams) = true /\
   ((exists c, dispatch searchParams = DoCall c) \/
    (lacksNodeId searchParams /\
     dispatch searchParams = ThrowError "nodeId required"))).
Proof.
  unfold dispatch, knownType, lacksNodeId.
  destruct (get "type" searchParams) as [type|]; [|now left].
  unfold knownTypes. cbn [existsb].
  repeat match goal with
  | |- context [String.eqb type ?k] =>
      destruct (String.eqb type k) eqn:?;
      [ right; split; [now rewrite ?orb_true_r | try (left; eexists; reflexivity)] | ]
  end.
  - match goal with
    | H : String.eqb type "commission-history" = true |- _ =>
        apply String.eqb_eq in H; subst type
    end.
    destruct (truthy (get "nodeId" searchParams)) eqn:E; simpl.
    + left. eexists. reflexivity.
    + right. auto.
  - left. auto.
Qed.
End RouteFacts.

(** C9, as worded, fails: a failure inside a metric function is
    answered with that failure's own message, not with a generic one. *)
Lemma internal_failure_message_is_not_generic :
  Route.GET Scenarios.refused [("type", "network-stats")]
  = {| Route.resp_status := 500;
       Route.resp_body := Route.ErrorBody "connect ECONNREFUSED 10.0.0.5:5432" |} /\
  ~ Vocabulary.failuresAreGeneric.
Proof.
  split; [reflexivity|].
  intros H.
  specialize (H Scenarios.refused [("type", "network-stats")] Route.getNetworkStats
                (Some "connect ECONNREFUSED 10.0.0.5:5432") eq_refl eq_refl).
  discriminate H.
Qed.

(** C9, amended. Leaving aside a commission-history request without a
    node id: an unknown or missing type selector is answered with status
    400 and the message "Invalid type param", and no other request gets
    status 400; a known selector is answered with status 200 and the
    data when its metric function returns, and with status 500 when it
    throws, carrying the thrown message, or "Internal Server Error" when
    that message is missing or empty. *)
Theorem query_surface_answers {Data : Type}
    (answer : Route.Call -> Route.Outcome Data) (searchParams : Route.SearchParams) :
  ~ Vocabulary.lacksNodeId searchParams ->
  let r := Route.GET answer searchParams in
  (Route.knownType (Route.get "type" searchParams) = false ->
   r = {| Route.resp_status := 400;
          Route.resp_body := Route.ErrorBody "Invalid type param" |}) /\
  (Route.knownType (Route.get "type" searchParams) = true ->
   exists c,
     Route.dispatch searchParams = Route.DoCall c /\
     r = match answer c with
         | Route.Returns data =>
             {| Route.resp_status := 200; Route.resp_body := Route.DataBody data |}
         | Route.Throws message =>
             {| Route.resp_status := 500;
                Route.resp_body := Route.ErrorBody (Route.errorMessage message) |}
         end) /\
  (Route.resp_status r = 400 <->
   Route.knownType (Route.get "type" searchParams) = false) /\
  Route.errorMessage None = "Internal Server Error" /\
  Route.errorMessage (Some "") = "Internal Server Error" /\
  (forall m, m <> "" -> Route.errorMessage (Some m) = m).
Proof.
  intros Hslip r. subst r.
  destruct (dispatch_cases searchParams)
    as [[Hk Hd] | [Hk [[c Hd] | [Hl _]]]]; [| | contradiction].
  - repeat split.
    + intros _. unfold Route.GET. now rewrite Hd.
    + intros H. congruence.
    + auto.
    + intros _. unfold Route.GET. now rewrite Hd.
    + intros m Hm. unfold Route.errorMessage, JS.or_str.
      destruct (String.eqb m "") eqn:E; [apply String.eqb_eq in E; contradiction | reflexivity].
  - repeat split.
    + intros H. congruence.
    + intros _. exists c. split; [assumption|].
      rewrite (GET_call answer searchParams c Hd). reflexivity.
    + intros H. rewrite (GET_call answer searchParams c Hd) in H.
      now apply (answerOf_status answer) in H.
    + intros H. congruence.
    + intros m Hm. unfold Route.errorMessage, JS.or_str.
      destruct (String.eqb m "") eqn:E; [apply String.eqb_eq in E; contradiction | reflexivity].
Qed.

Lemma query_surface_answers_witness :
  ~ Vocabulary.lacksNodeId [("type", "x-score")] /\
  ~ Vocabulary.lacksNodeId [("type", "bogus")] /\
  Route.GET Scenarios.served [("type", "bogus")]
  = {| Route.resp_status := 400;
       Route.resp_body := Route.ErrorBody "Invalid type param" |} /\
  (exists c,
     Route.dispatch [("type", "x-score")] = Route.DoCall c /\
     Route.GET Scenarios.served [("type", "x-score")]
     = match Scenarios.served c with
       | Route.Returns data =>
           {| Route.resp_status := 200; Route.resp_body := Route.DataBody data |}
       | Route.Throws message =>
           {| Route.resp_status := 500;
              Route.resp_body := Route.ErrorBody (Route.errorMessage message) |}
       end).
Proof.
  assert (H1 : ~ Vocabulary.lacksNodeId [("type", "x-score")])
    by (intros [H _]; discriminate H).
  assert (H2 : ~ Vocabulary.lacksNodeId [("type", "bogus")])
    by (intros [H _]; discriminate H).
  refine (conj H1 (conj H2 (conj _ _))).
  - exact (proj1 (query_surface_answers Scenarios.served [("type", "bogus")] H2)
             eq_refl).
  - exact (proj1 (proj2 (query_surface_answers Scenarios.served
                           [("type", "x-score")] H1)) eq_refl).
Defined.

(** The request that the amendment leaves aside, as the code answers
    it. *)
Example commission_history_without_node_id :
  Route.GET Scenarios.served [("type", "commission-history")]
  = {| Route.resp_status := 500; Route.resp_body := Route.ErrorBody "nodeId required" |}.
Proof. reflexivity. Qed.

(** ** The model on small inputs *)

Example sort_is_stable :
  JS.sort (fun a b : string * Z => snd b - snd a)
          [("a", 1); ("b", 2); ("c", 1); ("d", 2)]
  = [("b", 2); ("d", 2); ("a", 1); ("c", 1)].
Proof. reflexivity. Qed.

Example hashPubkey_ab : Utils.hashPubkey "ab" = 97 * 1 + 98 * 2.
Proof. reflexivity. Qed.

Example generateDeterministicIP_ab :
  Utils.generateDeterministicIP "ab" = "143.3.225.191".
Proof. vm_compute. reflexivity. Qed.

Example getNodeLocation_ab :
  (fun l => (Utils.city l, Utils.datacenter l, Utils.loc_asn l))
    <$> Utils.getNodeLocation "ab" 0
  = Some ("Helsinki", "Azure US", "AS51167").
Proof. vm_compute. reflexivity. Qed.

Example parseInt_port : JS.parseInt (JS.after_colon "10.0.0.1:8001") = Some 8001.
Proof. reflexivity. Qed.

Example parseInt_nan : JS.parseInt (Some "abc") = None.
Proof. reflexivity. Qed.

Example threeNodes_network_health :
  JsNum.leb (JsNum.Fin (100 # 3))
    (DerivedMetrics.networkHealth (DerivedMetrics.getNetworkStats Scenarios.threeNodes))
  && JsNum.leb
       (DerivedMetrics.networkHealth (DerivedMetrics.getNetworkStats Scenarios.threeNodes))
       (JsNum.Fin (100 # 3))
  = true.
Proof. vm_compute. reflexivity. Qed.

Example tenNodes_nakamoto :
  0 < DerivedMetrics.nakamotoCoefficient
        (DerivedMetrics.getDecentralizationMetrics Scenarios.tenNodes)
    <= Utils.array_length
         (DerivedMetrics.countryDistribution
            (DerivedMetrics.getDecentralizationMetrics Scenarios.tenNodes)).
Proof. vm_compute. split; [reflexivity | discriminate]. Qed.

Example missing_type_is_invalid :
  Route.GET Scenarios.served [("nodeId", "pnode_3")]
  = {| Route.resp_status := 400; Route.resp_body := Route.ErrorBody "Invalid type param" |}.
Proof. reflexivity. Qed.

Example thrown_value_without_message :
  Route.GET (fun _ => Route.Throws (Data := unit) None) [("type", "epoch-info")]
  = {| Route.resp_status := 500;
       Route.resp_body := Route.ErrorBody "Internal Server Error" |}.
Proof. reflexivity. Qed.

(** The pod-list merge synthesizes the same address and location for a
    pod without address and geolocation answer, whatever the instant and
    the credits. *)
Lemma mapRpcNodeToPNode_synthesized_fields
    (now1 now2 : Z) (credits1 credits2 : option Z) (rpcNode : ServerPnodes.RpcPod)
    (index : Z) (n1 n2 : Types.PNode) :
  ServerPnodes.rp_address rpcNode = None ->
  ServerPnodes.mapRpcNodeToPNode now1 rpcNode credits1 index None = Some n1 ->
  ServerPnodes.mapRpcNodeToPNode now2 rpcNode credits2 index None = Some n2 ->
  Types.ip n1 = Types.ip n2 /\
  Types.location n1 = Types.location n2 /\
  Types.ip n1 = Utils.generateDeterministicIP (Vocabulary.podIdentity rpcNode index) /\
  Types.location n1 = Utils.getNodeLocation (Vocabulary.podIdentity rpcNode index) index.
Proof.
  unfold ServerPnodes.mapRpcNodeToPNode. cbv zeta. intros ->.
  destruct (ServerPnodes.rp_last_seen_timestamp rpcNode); [|discriminate].
  destruct (negb _); [discriminate|].
  intros [= <-] [= <-]. simpl. repeat split; reflexivity.
Qed.

(** * Further properties *)

(** ** The credits-first merge ranks after sorting *)

(** X1. With a non-empty ledger, [getClusterNodes] of lib/pnode-api.ts
    returns one node per ledger entry, ranked after sorting: the ranks
    read 1, 2, ..., N along the array, the credits never increase along
    it, and the identities and credits are those of the ledger. *)
Theorem credits_first_merge_ranks_by_credits (s : PnodeApi.Sources)
    (p : Types.PodCredit) (ps : list Types.PodCredit) :
  PnodeApi.src_podCredits s = Some {| Types.pods_credits := Some (p :: ps) |} ->
  let nodes := PnodeApi.getClusterNodes s in
  List.length nodes = List.length (p :: ps) /\
  map Types.creditsRank nodes
    = map (fun k => Some (Z.of_nat k)) (seq 1 (List.length nodes)) /\
  StronglySorted (fun a b => b <= a) (map Types.credits_or0 nodes) /\
  Permutation (map (fun n => (Types.pubkey n, Types.credits_or0 n)) nodes)
              (map (fun pc => (Types.pod_id pc, Types.pc_credits pc)) (p :: ps)).
Proof.
  intros Hs nodes.
  destruct (PnodeApi_ranks_dense_and_ordered s p ps Hs) as (Hlen & Hrk & Hsorted & _).
  fold nodes in Hlen, Hrk, Hsorted.
  split; [exact Hlen|]. split; [exact Hrk|]. split; [exact Hsorted|].
  subst nodes. unfold PnodeApi.getClusterNodes. rewrite Hs. cbv zeta.
  unfold JS.mapi. rewrite mapi_from_map.
  rewrite (mapi_from_ext _ (fun x _ => (Types.pod_id x, Types.pc_credits x))).
  - rewrite mapi_from_const_index. apply Permutation_map, sort_perm.
  - intros x k. unfold Types.credits_or0.
    cbn [Types.pubkey Types.credits PnodeApi.transformPodToNode].
    f_equal. apply or_Z_Some_0.
Qed.

Lemma credits_first_merge_ranks_by_credits_witness :
  PnodeApi.src_podCredits Scenarios.threeNodes
    = Some {| Types.pods_credits :=
                Some ({| Types.pc_credits := 9000; Types.pod_id := "A" |}
                        :: [ {| Types.pc_credits := 100; Types.pod_id := "B" |};
                             {| Types.pc_credits := 0; Types.pod_id := "C" |} ]) |} /\
  map Types.creditsRank (PnodeApi.getClusterNodes Scenarios.threeNodes)
    = map (fun k => Some (Z.of_nat k))
          (seq 1 (List.length (PnodeApi.getClusterNodes Scenarios.threeNodes))) /\
  StronglySorted (fun a b => b <= a)
    (map Types.credits_or0 (PnodeApi.getClusterNodes Scenarios.threeNodes)).
Proof.
  split; [reflexivity|].
  destruct (credits_first_merge_ranks_by_credits Scenarios.threeNodes _ _ eq_refl)
    as (_ & H2 & H3 & _).
  exact (conj H2 H3).
Defined.

(** ** A pod that cannot be dated *)

(** X2. When one pod of the list has no usable [last_seen_timestamp],
    the mapping throws, the [catch] of [fetchFromRpcAndCache] returns the
    empty array and nothing is written to the store: the calls stop
    after the geolocation batch, whatever the other pods hold. *)
Theorem undated_pod_empties_the_refresh
    (e : ServerPnodes.Env) (rpcPods : list ServerPnodes.RpcPod) :
  ServerPnodes.rpcPodsOf (ServerPnodes.env_rpc e) = Some rpcPods ->
  Exists (fun x => Vocabulary.usableTimestamp x = false) rpcPods ->
  exists ips,
    ServerPnodes.run (ServerPnodes.fetchFromRpcAndCache e)
    = ([], [ServerPnodes.EvFetchPodCredits; ServerPnodes.EvGetPods;
            ServerPnodes.EvGeoBatch ips]).
Proof.
  intros Hr Hx.
  unfold ServerPnodes.run, ServerPnodes.fetchFromRpcAndCache, ServerPnodes.bind,
    ServerPnodes.emit, ServerPnodes.ret. simpl.
  rewrite Hr. simpl. rewrite (mergeRpcPods_undated e rpcPods Hx). simpl. eauto.
Qed.

Lemma undated_pod_empties_the_refresh_witness :
  ServerPnodes.rpcPodsOf (ServerPnodes.env_rpc Cases.undatedEnv)
    = Some [Scenarios.barePod "X" 1700000000; Cases.undatedPod "Y"] /\
  Exists (fun x => Vocabulary.usableTimestamp x = false)
    [Scenarios.barePod "X" 1700000000; Cases.undatedPod "Y"] /\
  exists ips,
    ServerPnodes.run (ServerPnodes.fetchFromRpcAndCache Cases.undatedEnv)
    = ([], [ServerPnodes.EvFetchPodCredits; ServerPnodes.EvGetPods;
            ServerPnodes.EvGeoBatch ips]).
Proof.
  assert (H1 : ServerPnodes.rpcPodsOf (ServerPnodes.env_rpc Cases.undatedEnv)
               = Some [Scenarios.barePod "X" 1700000000; Cases.undatedPod "Y"])
    by reflexivity.
  assert (H2 : Exists (fun x => Vocabulary.usableTimestamp x = false)
                 [Scenarios.barePod "X" 1700000000; Cases.undatedPod "Y"])
    by (apply Exists_cons_tl, Exists_cons_hd; reflexivity).
  exact (conj H1 (conj H2 (undated_pod_empties_the_refresh Cases.undatedEnv _ H1 H2))).
Defined.

(** ** What the refresh persists *)

(** X3. A refresh over a non-empty pod list whose pods can all be dated
    ends with one upsert; its rows carry pairwise distinct pubkeys, the
    pubkeys are exactly the identities of the pod list, and the row of
    an identity is the row of the last node of the returned array that
    carries it. *)
Theorem upsert_holds_one_row_per_identity
    (e : ServerPnodes.Env) (p : ServerPnodes.RpcPod)
    (ps : list ServerPnodes.RpcPod) :
  ServerPnodes.rpcPodsOf (ServerPnodes.env_rpc e) = Some (p :: ps) ->
  Forall (fun x => Vocabulary.usableTimestamp x = true) (p :: ps) ->
  exists ips rows returned,
    ServerPnodes.run (ServerPnodes.fetchFromRpcAndCache e)
    = (returned,
       [ServerPnodes.EvFetchPodCredits; ServerPnodes.EvGetPods;
        ServerPnodes.EvGeoBatch ips; ServerPnodes.EvUpsert rows]) /\
    List.NoDup (map Types.r_pubkey rows) /\
    (forall k, In k (map Types.r_pubkey rows)
               <-> In k (Vocabulary.podIdentities (p :: ps))) /\
    (forall r, In r rows ->
       exists front node back,
         returned = front ++ node :: back /\
         r = ServerPnodes.mapPNodeToRow (ServerPnodes.env_now e) node /\
         ~ In (Types.pubkey node) (map Types.pubkey back)).
Proof.
  intros Hr Hall.
  destruct (mergeRpcPods_defined e _ Hall) as [sorted Hm].
  pose proof (mergeRpcPods_identities e _ _ Hm) as Hid.
  destruct sorted as [|n ns].
  { apply Permutation_length in Hid. unfold Vocabulary.podIdentities, JS.mapi in Hid.
    rewrite mapi_from_length in Hid. discriminate. }
  destruct (fetchFromRpcAndCache_persists e _ n ns Hr Hm) as [ips Hrun].
  destruct (uniqueNodesOf_spec (n :: ns)) as (Hd & Hk & Hlast).
  exists ips, (map (ServerPnodes.mapPNodeToRow (ServerPnodes.env_now e))
                   (ServerPnodes.uniqueNodesOf (n :: ns))), (n :: ns).
  split; [exact Hrun|].
  assert (Hpk : map Types.r_pubkey
                  (map (ServerPnodes.mapPNodeToRow (ServerPnodes.env_now e))
                       (ServerPnodes.uniqueNodesOf (n :: ns)))
                = map Types.pubkey (ServerPnodes.uniqueNodesOf (n :: ns))).
  { rewrite map_map. reflexivity. }
  rewrite Hpk. split; [exact Hd|]. split.
  - intros k. rewrite Hk. split; intros H.
    + eapply Permutation_in; [exact Hid|exact H].
    + eapply Permutation_in; [symmetry; exact Hid|exact H].
  - intros r Hin. apply in_map_iff in Hin. destruct Hin as (node & <- & Hin).
    destruct (Hlast node Hin) as (front & back & Hs & Hn).
    exists front, node, back. auto.
Qed.

Lemma upsert_holds_one_row_per_identity_witness :
  exists ips rows returned,
    ServerPnodes.run (ServerPnodes.fetchFromRpcAndCache Cases.repeatedEnv)
    = (returned,
       [ServerPnodes.EvFetchPodCredits; ServerPnodes.EvGetPods;
        ServerPnodes.EvGeoBatch ips; ServerPnodes.EvUpsert rows]) /\
    List.NoDup (map Types.r_pubkey rows).
Proof.
  assert (H1 : ServerPnodes.rpcPodsOf (ServerPnodes.env_rpc Cases.repeatedEnv)
               = Some [Scenarios.barePod "X" 1700000000;
                       Scenarios.barePod "Y" 1700000000;
                       Scenarios.barePod "X" 1700000100]) by reflexivity.
  assert (H2 : Forall (fun x => Vocabulary.usableTimestamp x = true)
                 [Scenarios.barePod "X" 1700000000;
                  Scenarios.barePod "Y" 1700000000;
                  Scenarios.barePod "X" 1700000100]).
  { repeat constructor. }
  destruct (upsert_holds_one_row_per_identity Cases.repeatedEnv _ _ H1 H2)
    as (ips & rows & returned & Hrun & Hd & _).
  exists ips, rows, returned. exact (conj Hrun Hd).
Defined.

(** ** A node stored and read back *)

Lemma number_to_string_inj (a b : Z) :
  JS.number_to_string a = JS.number_to_string b -> a = b.
Proof.
  unfold JS.number_to_string. intros H.
  apply (f_equal NilEmpty.int_of_string) in H. rewrite !NilEmpty.isi in H.
  injection H as H. apply (f_equal Z.of_int) in H.
  now rewrite !DecimalZ.of_to in H.
Qed.

Lemma mapRpcNodeToPNode_id_and_rank now rpcNode creditData index geoData node :
  ServerPnodes.mapRpcNodeToPNode now rpcNode creditData index geoData = Some node ->
  Types.id node = "pnode_" +:+ JS.number_to_string index /\
  Types.creditsRank node = Some (index + 1).
Proof.
  unfold ServerPnodes.mapRpcNodeToPNode. cbv zeta.
  destruct (ServerPnodes.rp_last_seen_timestamp rpcNode); [|discriminate].
  destruct (negb _); [discriminate|]. intros [= <-]. split; reflexivity.
Qed.

(** X4. A node built by [mapRpcNodeToPNode] at place [index], stored
    with [mapPNodeToRow] and read back with [mapRowToPNode] of the same
    file, comes back under the id of the next place, [pnode_(index+1)],
    which is never its own id; every other field is unchanged. *)
Theorem stored_node_returns_under_the_next_id
    (now stamp : Z) (rpcNode : ServerPnodes.RpcPod) (creditData : option Z)
    (index : Z) (geoData : option Types.GeolocationData) (node : Types.PNode) :
  ServerPnodes.mapRpcNodeToPNode now rpcNode creditData index geoData = Some node ->
  let back := ServerPnodes.mapRowToPNode (ServerPnodes.mapPNodeToRow stamp node) in
  back = Terms.withId ("pnode_" +:+ JS.number_to_string (index + 1)) node /\
  Types.id back <> Types.id node.
Proof.
  intros H back. destruct (mapRpcNodeToPNode_id_and_rank _ _ _ _ _ _ H) as [Hid Hrk].
  assert (Hb : back = Terms.withId ("pnode_" +:+ JS.number_to_string (index + 1)) node).
  { subst back. unfold ServerPnodes.mapRowToPNode, ServerPnodes.mapPNodeToRow,
      Terms.withId. simpl. rewrite Hrk. reflexivity. }
  split; [exact Hb|].
  rewrite Hb, Hid. simpl. intros [= E]. apply number_to_string_inj in E. lia.
Qed.

Lemma stored_node_returns_under_the_next_id_witness :
  exists node,
    ServerPnodes.mapRpcNodeToPNode 1700000000000 (Scenarios.barePod "X" 1700000000)
      (Some 10) 4 None = Some node /\
    Types.id (ServerPnodes.mapRowToPNode (ServerPnodes.mapPNodeToRow 1700000000500 node))
    <> Types.id node.
Proof.
  destruct (ServerPnodes.mapRpcNodeToPNode 1700000000000
              (Scenarios.barePod "X" 1700000000) (Some 10) 4 None) as [node|] eqn:E;
    [|discriminate E].
  exists node. split; [reflexivity|].
  exact (proj2 (stored_node_returns_under_the_next_id
                  1700000000000 1700000000500 _ (Some 10) 4 None node E)).
Defined.

(** X5. The reader of features/pnodes/services, [mapSupabaseToPNode],
    rebuilds the id from the rank minus one: a node built by
    [mapRpcNodeToPNode] and stored with [mapPNodeToRow] is read back by
    it exactly as it was built. *)
Theorem features_reader_restores_the_stored_node
    (now stamp : Z) (rpcNode : ServerPnodes.RpcPod) (creditData : option Z)
    (index : Z) (geoData : option Types.GeolocationData) (node : Types.PNode) :
  ServerPnodes.mapRpcNodeToPNode now rpcNode creditData index geoData = Some node ->
  FeaturesReader.mapSupabaseToPNode (ServerPnodes.mapPNodeToRow stamp node) = node.
Proof.
  intros H. destruct (mapRpcNodeToPNode_id_and_rank _ _ _ _ _ _ H) as [Hid Hrk].
  destruct node. simpl in Hid, Hrk. subst.
  unfold FeaturesReader.mapSupabaseToPNode, ServerPnodes.mapPNodeToRow. simpl.
  replace (index + 1 - 1) with index by lia. reflexivity.
Qed.

Lemma features_reader_restores_the_stored_node_witness :
  exists node,
    ServerPnodes.mapRpcNodeToPNode 1700000000000 (Scenarios.barePod "X" 1700000000)
      (Some 10) 4 None = Some node /\
    FeaturesReader.mapSupabaseToPNode (ServerPnodes.mapPNodeToRow 1700000000500 node)
    = node.
Proof.
  destruct (ServerPnodes.mapRpcNodeToPNode 1700000000000
              (Scenarios.barePod "X" 1700000000) (Some 10) 4 None) as [node|] eqn:E;
    [|discriminate E].
  exists node. split; [reflexivity|].
  exact (features_reader_restores_the_stored_node
           1700000000000 1700000000500 _ (Some 10) 4 None node E).
Defined.

(** ** Performance from credits *)

Section PerformanceFacts.
Import JS Types PnodeApi.

Lemma credit_share_ge (credits k : Z) :
  Qgeb (inject_Z credits / inject_Z MAX_CREDITS * 100)%Q (inject_Z k) = true
  <-> 600 * k <= credits.
Proof.
  rewrite Qgeb_true. unfold Qle, Qdiv, Qmult, Qinv, inject_Z, MAX_CREDITS. simpl.
  lia.
Qed.

Lemma Qmin_100_ge (x : Q) (k : Z) :
  k <= 100 ->
  Qgeb (Qmin 100 x) (inject_Z k) = Qgeb x (inject_Z k).
Proof.
  intros Hk. unfold Qmin. destruct (Qle_bool 100 x) eqn:E; [|reflexivity].
  apply Qle_bool_iff in E.
  assert (H100 : (inject_Z k <= 100)%Q).
  { unfold Qle, inject_Z. simpl. lia. }
  transitivity true.
  - apply Qgeb_true. exact H100.
  - symmetry. apply Qgeb_true. eapply Qle_trans; eassumption.
Qed.
End PerformanceFacts.

(** X6. [calculatePerformanceFromCredits] in terms of the credits: the
    score is never above 100 and is 100 exactly from 60000 credits on;
    it is not negative for credits that are not negative, and it never
    decreases when the credits grow; the tier is excellent from 48000
    credits, good from 36000, fair from 18000 and poor below. *)
Theorem performance_tiers_in_credits (credits : Z) :
  let p := PnodeApi.calculatePerformanceFromCredits credits in
  (Types.score p <= 100)%Q /\
  ((Types.score p == 100)%Q <-> 60000 <= credits) /\
  (0 <= credits -> (0 <= Types.score p)%Q) /\
  (forall more, credits <= more ->
     (Types.score p
      <= Types.score (PnodeApi.calculatePerformanceFromCredits more))%Q) /\
  Types.tier p
  = (if 48000 <=? credits then Utils.excellent
     else if 36000 <=? credits then Utils.good
     else if 18000 <=? credits then Utils.fair
     else Utils.poor).
Proof.
  cbv zeta. unfold PnodeApi.calculatePerformanceFromCredits. cbv zeta.
  cbn [Types.score Types.tier].
  assert (Hle : forall c k, (inject_Z k <= inject_Z c / inject_Z PnodeApi.MAX_CREDITS * 100)%Q
                            <-> 600 * k <= c).
  { intros c k. unfold PnodeApi.MAX_CREDITS, Qle, Qdiv, Qmult, Qinv, inject_Z. simpl.
    lia. }
  assert (Hmono : forall c c', c <= c' ->
             (inject_Z c / inject_Z PnodeApi.MAX_CREDITS * 100
              <= inject_Z c' / inject_Z PnodeApi.MAX_CREDITS * 100)%Q).
  { intros c c' H. unfold PnodeApi.MAX_CREDITS, Qle, Qdiv, Qmult, Qinv, inject_Z. simpl.
    lia. }
  assert (Hmin : forall c,
             (JS.Qmin 100 (inject_Z c / inject_Z PnodeApi.MAX_CREDITS * 100)
              == if 60000 <=? c then 100
                 else inject_Z c / inject_Z PnodeApi.MAX_CREDITS * 100)%Q).
  { intros c. unfold JS.Qmin.
    destruct (Qle_bool 100 _) eqn:E; destruct (60000 <=? c) eqn:E'; try reflexivity.
    - apply Qle_bool_iff in E. apply (Hle c 100) in E. apply Z.leb_gt in E'. lia.
    - apply Z.leb_le in E'. assert (H : 600 * 100 <= c) by lia.
      apply (Hle c 100), Qle_bool_iff in H.
      change (inject_Z 100) with 100%Q in H. congruence. }
  assert (Hlt : forall c, c < 60000 ->
             (inject_Z c / inject_Z PnodeApi.MAX_CREDITS * 100 < 100)%Q).
  { intros c H. unfold PnodeApi.MAX_CREDITS, Qlt, Qdiv, Qmult, Qinv, inject_Z. simpl.
    lia. }
  split; [|split; [|split; [|split]]].
  - rewrite Hmin. destruct (60000 <=? credits) eqn:E; [apply Qle_refl|].
    apply Z.leb_gt in E. apply Qlt_le_weak, Hlt, E.
  - rewrite Hmin. destruct (60000 <=? credits) eqn:E.
    + apply Z.leb_le in E. split; [intros _; exact E|reflexivity].
    + apply Z.leb_gt in E. split; [|lia].
      intros H. exfalso. apply (Qlt_irrefl 100). rewrite <- H at 1. apply Hlt, E.
  - intros H0. rewrite Hmin. destruct (60000 <=? credits); [discriminate|].
    apply (Hle credits 0). lia.
  - intros more Hm. rewrite !Hmin.
    destruct (60000 <=? credits) eqn:E; destruct (60000 <=? more) eqn:E'.
    + apply Qle_refl.
    + apply Z.leb_le in E. apply Z.leb_gt in E'. lia.
    + apply Z.leb_gt in E. apply Qlt_le_weak, Hlt, E.
    + apply Hmono, Hm.
  - unfold Utils.getTier.
    change 80%Q with (inject_Z 80). change 60%Q with (inject_Z 60).
    change 30%Q with (inject_Z 30).
    rewrite !Qmin_100_ge by lia.
    destruct (48000 <=? credits) eqn:E1.
    + apply Z.leb_le in E1.
      rewrite (proj2 (credit_share_ge credits 80)) by lia. reflexivity.
    + apply Z.leb_gt in E1.
      destruct (JS.Qgeb _ (inject_Z 80)) eqn:G1;
        [apply credit_share_ge in G1; lia|].
      destruct (36000 <=? credits) eqn:E2.
      * apply Z.leb_le in E2.
        rewrite (proj2 (credit_share_ge credits 60)) by lia. reflexivity.
      * apply Z.leb_gt in E2.
        destruct (JS.Qgeb _ (inject_Z 60)) eqn:G2;
          [apply credit_share_ge in G2; lia|].
        destruct (18000 <=? credits) eqn:E3.
        -- apply Z.leb_le in E3.
           rewrite (proj2 (credit_share_ge credits 30)) by lia. reflexivity.
        -- apply Z.leb_gt in E3.
           destruct (JS.Qgeb _ (inject_Z 30)) eqn:G3;
             [apply credit_share_ge in G3; lia|reflexivity].
Qed.

(** ** Network statistics *)

Section StatsFacts.
Import JS Types DerivedMetrics.

Lemma count_status_split (nodes : list PNode) :
  count_status online nodes + count_status offline nodes
  + count_status degraded nodes = array_length nodes.
Proof.
  unfold count_status, array_length.
  induction nodes as [|n nodes IH]; [reflexivity|].
  rewrite !filter_cons.
  destruct (status n); simpl in *; lia.
Qed.

Lemma count_status_range (st : Status) (nodes : list PNode) :
  0 <= count_status st nodes <= array_length nodes.
Proof.
  unfold count_status, array_length. split; [lia|].
  apply inj_le. induction nodes as [|n nodes IH]; [reflexivity|].
  rewrite filter_cons. destruct (decide _); simpl; lia.
Qed.

Lemma percent_of_part (part whole : Z) :
  0 < whole ->
  exists q,
    JsNum.mul (JsNum.div (JsNum.of_Z part) (JsNum.of_Z whole)) (JsNum.Fin 100)
    = JsNum.Fin q /\
    (q == inject_Z part / inject_Z whole * 100)%Q.
Proof.
  intros Hw. unfold JsNum.of_Z, JsNum.div, JsNum.is_zero.
  assert (E : Qeq_bool (inject_Z whole) 0 = false).
  { destruct (Qeq_bool (inject_Z whole) 0) eqn:E; [|reflexivity].
    apply Qeq_bool_iff in E. unfold Qeq, inject_Z in E. simpl in E. lia. }
  rewrite E. simpl. eexists. split; [reflexivity|].
  now rewrite !Qred_correct.
Qed.
End StatsFacts.

(** X7. In [getNetworkStats] the three status counts add up to
    [totalNodes], and [networkHealth] is a finite number between 0 and
    100 for every node list, the empty one included; it is 100 exactly
    when there is a node and every node is online. *)
Theorem network_stats_partition_and_health (now : Z) (nodes : list Types.PNode) :
  let s := DerivedMetrics.networkStatsOf now nodes in
  DerivedMetrics.onlineNodes s + DerivedMetrics.offlineNodes s
  + DerivedMetrics.degradedNodes s = DerivedMetrics.totalNodes s /\
  exists q,
    DerivedMetrics.networkHealth s = JsNum.Fin q /\
    (0 <= q <= 100)%Q /\
    ((q == 100)%Q <->
     nodes <> [] /\ DerivedMetrics.onlineNodes s = DerivedMetrics.totalNodes s).
Proof.
  cbv zeta. unfold DerivedMetrics.networkStatsOf. cbv zeta.
  cbn [DerivedMetrics.onlineNodes DerivedMetrics.offlineNodes
       DerivedMetrics.degradedNodes DerivedMetrics.totalNodes
       DerivedMetrics.networkHealth].
  split; [apply count_status_split|].
  pose proof (count_status_range Types.online nodes) as Hr.
  destruct (Utils.array_length nodes >? 0) eqn:E.
  - rewrite Z.gtb_ltb in E. apply Z.ltb_lt in E.
    destruct (percent_of_part (DerivedMetrics.count_status Types.online nodes)
                (Utils.array_length nodes) E) as (q & -> & Hq).
    exists q. split; [reflexivity|].
    assert (Hpos : (0 < inject_Z (Utils.array_length nodes))%Q).
    { unfold Qlt, inject_Z. simpl. lia. }
    split; [|split].
    + rewrite Hq. split.
      * apply Qmult_le_0_compat; [|discriminate].
        apply Qle_shift_div_l; [exact Hpos|].
        rewrite Qmult_0_l. unfold Qle, inject_Z. cbn [Qnum Qden]. lia.
      * apply Qle_trans with (1 * 100)%Q; [|discriminate].
        apply Qmult_le_compat_r; [|discriminate].
        apply Qle_shift_div_r; [exact Hpos|].
        rewrite Qmult_1_l. unfold Qle, inject_Z. cbn [Qnum Qden].
        rewrite !Z.mul_1_r. apply Hr.
    + rewrite Hq. intros H. split.
      * intros ->. unfold Utils.array_length in E. simpl in E. lia.
      * revert H. unfold Qeq, Qdiv, Qmult, Qinv, inject_Z.
        destruct (Utils.array_length nodes) eqn:El; cbn [Qnum Qden]; lia.
    + intros [_ Ht]. rewrite Hq, Ht. field.
      intros H. rewrite H in Hpos. revert Hpos. apply Qlt_irrefl.
  - exists 0%Q. split; [reflexivity|]. split; [split; discriminate|].
    split; [discriminate|]. intros [Hn _]. exfalso.
    destruct nodes; [now apply Hn|].
    unfold Utils.array_length in E. simpl in E.
    rewrite Z.gtb_ltb in E. apply Z.ltb_ge in E. lia.
Qed.

(** ** Country distribution and Nakamoto coefficient *)

Section DistributionFacts.
Import JS Types DerivedMetrics.

Lemma sumZ_app (a b : list Z) : Terms.sumZ (a ++ b) = Terms.sumZ a + Terms.sumZ b.
Proof. induction a as [|x a IH]; simpl; lia. Qed.

Lemma sumZ_perm (a b : list Z) : Permutation a b -> Terms.sumZ a = Terms.sumZ b.
Proof. induction 1; simpl; lia. Qed.

Lemma record_set_sum (k : string) (v : Z) (m : list (string * Z)) :
  Terms.sumZ (map snd (record_set k v m))
  = Terms.sumZ (map snd m) + v - default 0 (record_get k m).
Proof.
  induction m as [|[k0 v0] m IH]; simpl; [lia|].
  destruct (String.eqb k k0); simpl; [lia|]. rewrite IH. lia.
Qed.

Lemma record_set_Forall {V : Type} (P : string * V -> Prop) (k : string) (v : V)
    (m : list (string * V)) :
  List.Forall P m -> P (k, v) -> List.Forall P (record_set k v m).
Proof.
  intros Hm Hv. induction Hm as [|[k0 v0] m H0 Hm IH]; simpl.
  - constructor; [assumption|constructor].
  - destruct (String.eqb k k0); constructor; assumption.
Qed.

Lemma record_get_In {V : Type} (k : string) (v : V) (m : list (string * V)) :
  record_get k m = Some v -> In (k, v) m.
Proof.
  induction m as [|[k0 v0] m IH]; simpl; [discriminate|].
  destruct (String.eqb k k0) eqn:E.
  - apply String.eqb_eq in E. subst k0. intros [= ->]. now left.
  - intros H. right. now apply IH.
Qed.

Lemma bump_sum (k : string) (m : list (string * Z)) :
  Terms.sumZ (map snd (bump k m)) = Terms.sumZ (map snd m) + 1.
Proof.
  unfold bump. rewrite record_set_sum.
  destruct (record_get k m) as [v|]; [rewrite or_Z_Some_0|]; simpl; lia.
Qed.

Lemma bump_positive (k : string) (m : list (string * Z)) :
  List.Forall (fun kv => 1 <= snd kv) m ->
  List.Forall (fun kv => 1 <= snd kv) (bump k m).
Proof.
  intros H. unfold bump. apply record_set_Forall; [exact H|].
  destruct (record_get k m) as [v|] eqn:E; [|simpl; lia].
  apply record_get_In in E. rewrite List.Forall_forall in H.
  specialize (H _ E). rewrite or_Z_Some_0. simpl in *. lia.
Qed.

(** The country counters after the [forEach], started from [c]. *)
Lemma countryCount_fold (nodes : list PNode) (c : Counts) :
  let cc := countryCount (fold_left countNode nodes c) in
  (List.NoDup (map fst (countryCount c)) -> List.NoDup (map fst cc)) /\
  (List.Forall (fun kv => 1 <= snd kv) (countryCount c) ->
   List.Forall (fun kv => 1 <= snd kv) cc) /\
  Terms.sumZ (map snd cc)
  = Terms.sumZ (map snd (countryCount c)) + array_length (Terms.located nodes) /\
  (forall k, In k (map fst cc) <->
     In k (map fst (countryCount c)) \/
     exists n loc, In n nodes /\ location n = Some loc /\ country loc = k).
Proof.
  revert c. induction nodes as [|n nodes IH]; intros c; cbn [fold_left].
  - cbv zeta. split; [auto|]. split; [auto|]. split.
    + unfold array_length. simpl. lia.
    + intros k. split; [auto|]. intros [H|(n & loc & [] & _)]. exact H.
  - destruct (IH (countNode c n)) as (Hd & Hp & Hs & Hk). cbv zeta.
    assert (Hc : countryCount (countNode c n)
                 = match location n with
                   | Some loc => bump (country loc) (countryCount c)
                   | None => countryCount c
                   end).
    { unfold countNode. destruct (location n); reflexivity. }
    rewrite Hc in Hd, Hp, Hs, Hk. clear Hc.
    unfold Terms.located, array_length in *. cbn [List.filter].
    destruct (location n) as [loc|] eqn:El.
    + split; [|split; [|split]].
      * intros H. apply Hd, record_set_NoDup, H.
      * intros H. apply Hp, bump_positive, H.
      * rewrite Hs, bump_sum. cbn [List.length]. lia.
      * intros k. rewrite Hk. unfold bump. rewrite record_set_keys. split.
        -- intros [[->|H]|(n' & loc' & Hin & Hl & Hc)]; [right|left|right].
           ++ exists n, loc. split; [now left|auto].
           ++ exact H.
           ++ exists n', loc'. split; [now right|auto].
        -- intros [H|(n' & loc' & [<-|Hin] & Hl & Hc)].
           ++ left. now right.
           ++ left. left. congruence.
           ++ right. exists n', loc'. auto.
    + split; [exact Hd|]. split; [exact Hp|]. split; [rewrite Hs; lia|].
      intros k. rewrite Hk. split.
      * intros [H|(n' & loc' & Hin & Hl & Hc)]; [now left|right].
        exists n', loc'. split; [now right|auto].
      * intros [H|(n' & loc' & [<-|Hin] & Hl & Hc)]; [now left|congruence|right].
        exists n', loc'. auto.
Qed.

Lemma insert_sorted_map {A B : Type} (f : A -> B) (cmp : B -> B -> Z)
    (x : A) (l : list A) :
  map f (insert_sorted (fun a b => cmp (f a) (f b)) x l)
  = insert_sorted cmp (f x) (map f l).
Proof.
  induction l as [|y l IH]; simpl; [reflexivity|].
  destruct (cmp (f x) (f y) <=? 0); simpl; [reflexivity|]. now rewrite IH.
Qed.

Lemma sort_map {A B : Type} (f : A -> B) (cmp : B -> B -> Z) (l : list A) :
  map f (sort (fun a b => cmp (f a) (f b)) l) = sort cmp (map f l).
Proof.
  induction l as [|x l IH]; simpl; [reflexivity|].
  now rewrite insert_sorted_map, IH.
Qed.

(** The counts of the country distribution are the counts the Nakamoto
    loop runs over. *)
Lemma countryDistribution_counts (nodes : list PNode) :
  map sh_count (countryDistribution (decentralizationOf nodes))
  = sort (fun a b => b - a)
      (map snd (countryCount
                  (fold_left countNode nodes
                     {| countryCount := []; datacenterCount := []; asnCount := [] |}))).
Proof.
  unfold decentralizationOf. cbv zeta. cbn [countryDistribution].
  rewrite (sort_map sh_count (fun a b => b - a)), map_map.
  f_equal. apply map_ext. intros [k count]. reflexivity.
Qed.

Lemma countryDistribution_keys (nodes : list PNode) :
  Permutation
    (map sh_key (countryDistribution (decentralizationOf nodes)))
    (map fst (countryCount
                (fold_left countNode nodes
                   {| countryCount := []; datacenterCount := []; asnCount := [] |}))).
Proof.
  unfold decentralizationOf. cbv zeta. cbn [countryDistribution].
  rewrite (Permutation_map sh_key (sort_perm _ _)), map_map.
  erewrite map_ext; [reflexivity|]. intros [k count]. reflexivity.
Qed.

Lemma majority_test (sum total : Z) :
  Qgtb (inject_Z sum) (inject_Z total / 2) = true <-> total < 2 * sum.
Proof.
  unfold Qgtb. rewrite negb_true_iff. split.
  - intros H. destruct (Z_lt_le_dec total (2 * sum)) as [Hlt|Hle]; [exact Hlt|].
    exfalso. assert (Hq : Qle_bool (inject_Z sum) (inject_Z total / 2) = true).
    { apply Qle_bool_iff. unfold Qle, Qdiv, Qmult, Qinv, inject_Z. simpl. lia. }
    congruence.
  - intros H. destruct (Qle_bool _ _) eqn:E; [|reflexivity].
    apply Qle_bool_iff in E. revert E.
    unfold Qle, Qdiv, Qmult, Qinv, inject_Z. simpl. lia.
Qed.

Lemma nakamotoLoop_prefix (total : Z) (counts : list Z) (sum nakamoto : Z) :
  exists k : nat,
    nakamotoLoop total counts sum nakamoto = nakamoto + Z.of_nat k /\
    (k <= List.length counts)%nat /\
    (counts <> [] -> (1 <= k)%nat) /\
    (forall i, (1 <= i < k)%nat ->
       2 * (sum + Terms.sumZ (firstn i counts)) <= total) /\
    (total < 2 * (sum + Terms.sumZ (firstn k counts)) \/ k = List.length counts).
Proof.
  revert sum nakamoto. induction counts as [|c rest IH]; intros sum nakamoto.
  - exists 0%nat. simpl. split; [lia|]. split; [lia|]. split; [congruence|].
    split; [lia|now right].
  - cbn [nakamotoLoop]. cbv zeta.
    destruct (Qgtb (inject_Z (sum + c)) (inject_Z total / 2)) eqn:E.
    + apply majority_test in E. exists 1%nat. simpl.
      split; [lia|]. split; [lia|]. split; [lia|]. split; [lia|].
      left. lia.
    + assert (Hle : 2 * (sum + c) <= total).
      { destruct (Z_lt_le_dec total (2 * (sum + c))) as [Hlt|Hle]; [|exact Hle].
        apply majority_test in Hlt. congruence. }
      destruct (IH (sum + c) (nakamoto + 1)) as (k & Hk & Hlen & Hne & Hlow & Hstop).
      exists (S k). rewrite Hk. cbn [List.length firstn Terms.sumZ].
      split; [lia|]. split; [lia|]. split; [lia|]. split.
      * intros [|[|i]] Hi; [lia| |].
        -- simpl. lia.
        -- specialize (Hlow (S i)). cbn [firstn Terms.sumZ] in *.
           rewrite Z.add_assoc. apply Hlow. lia.
      * destruct Hstop as [Hstop| ->]; [left|now right].
        rewrite Z.add_assoc. exact Hstop.
Qed.
End DistributionFacts.

(** X8. The country distribution of [getDecentralizationMetrics] lists
    each country of a located node once, with a count of at least 1;
    the counts add up to the number of nodes that carry a location and
    never increase along the list. *)
Theorem country_distribution_counts_the_located_nodes (nodes : list Types.PNode) :
  let d := DerivedMetrics.countryDistribution (DerivedMetrics.decentralizationOf nodes) in
  List.NoDup (map DerivedMetrics.sh_key d) /\
  (forall k, In k (map DerivedMetrics.sh_key d) <->
     exists n loc, In n nodes /\ Types.location n = Some loc /\ Utils.country loc = k) /\
  List.Forall (fun c => 1 <= c) (map DerivedMetrics.sh_count d) /\
  Terms.sumZ (map DerivedMetrics.sh_count d)
  = Utils.array_length (Terms.located nodes) /\
  StronglySorted (fun a b => b <= a) (map DerivedMetrics.sh_count d).
Proof.
  cbv zeta.
  destruct (countryCount_fold nodes
              {| DerivedMetrics.countryCount := []; DerivedMetrics.datacenterCount := [];
                 DerivedMetrics.asnCount := [] |}) as (Hd & Hp & Hs & Hk).
  cbn [DerivedMetrics.countryCount] in Hd, Hp, Hs, Hk.
  pose proof (countryDistribution_keys nodes) as Hkeys.
  pose proof (countryDistribution_counts nodes) as Hcounts.
  split; [|split; [|split; [|split]]].
  - eapply Permutation_NoDup; [symmetry; exact Hkeys|]. apply Hd. constructor.
  - intros k. split.
    + intros H. eapply Permutation_in in H; [|exact Hkeys].
      apply Hk in H. destruct H as [[]|H]. exact H.
    + intros H. eapply Permutation_in; [symmetry; exact Hkeys|].
      apply Hk. now right.
  - rewrite Hcounts. eapply Permutation_Forall; [symmetry; apply sort_perm|].
    apply List.Forall_forall. intros c Hc. apply in_map_iff in Hc.
    destruct Hc as (kv & <- & Hin).
    specialize (Hp (List.Forall_nil _)). rewrite List.Forall_forall in Hp.
    now apply Hp.
  - rewrite Hcounts, (sumZ_perm _ _ (sort_perm _ _)), Hs. simpl. lia.
  - rewrite Hcounts. apply (sort_desc (fun c : Z => c)).
Qed.

(** X9. The Nakamoto coefficient of [getDecentralizationMetrics] is the
    least number of leading countries of the distribution whose counts
    together exceed half of the node count; when no number of countries
    does (nodes without location count in the total), it is the number
    of countries. It is at least 1 as soon as a country is listed. *)
Theorem nakamoto_is_the_least_majority_prefix (nodes : list Types.PNode) :
  let m := DerivedMetrics.decentralizationOf nodes in
  let counts := map DerivedMetrics.sh_count (DerivedMetrics.countryDistribution m) in
  let total := Z.max (Utils.array_length nodes) 1 in
  exists k : nat,
    DerivedMetrics.nakamotoCoefficient m = Z.of_nat k /\
    (k <= List.length counts)%nat /\
    (counts <> [] -> (1 <= k)%nat) /\
    (forall i, (1 <= i < k)%nat -> 2 * Terms.sumZ (firstn i counts) <= total) /\
    (total < 2 * Terms.sumZ (firstn k counts) \/ k = List.length counts).
Proof.
  cbv zeta. rewrite countryDistribution_counts.
  unfold DerivedMetrics.decentralizationOf. cbv zeta.
  cbn [DerivedMetrics.nakamotoCoefficient].
  assert (Ht : JS.or_Z (Some (Utils.array_length nodes)) 1
               = Z.max (Utils.array_length nodes) 1).
  { unfold JS.or_Z, Utils.array_length.
    destruct (Z.of_nat (List.length nodes) =? 0) eqn:E.
    - apply Z.eqb_eq in E. lia.
    - apply Z.eqb_neq in E. lia. }
  rewrite Ht.
  destruct (nakamotoLoop_prefix (Z.max (Utils.array_length nodes) 1)
              (JS.sort (fun a b => b - a)
                 (map snd (DerivedMetrics.countryCount
                    (fold_left DerivedMetrics.countNode nodes
                       {| DerivedMetrics.countryCount := [];
                          DerivedMetrics.datacenterCount := [];
                          DerivedMetrics.asnCount := [] |})))) 0 0)
    as (k & Hk & Hlen & Hne & Hlow & Hstop).
  exists k. rewrite Hk. split; [lia|]. split; [exact Hlen|]. split; [exact Hne|].
  split.
  - intros i Hi. specialize (Hlow i Hi). lia.
  - destruct Hstop as [Hstop|Hstop]; [left; lia|now right].
Qed.

(** ** X-Score of the nodes of the credits-first merge *)

Section XScoreRange.
Import JS Types DerivedMetrics Vocabulary.

Lemma inUnitRange_Fin (q : Q) :
  inUnitRange (JsNum.Fin q) = true <-> (0 <= q /\ q <= 100)%Q.
Proof.
  unfold inUnitRange. simpl. rewrite andb_true_iff, !Qle_bool_iff. reflexivity.
Qed.

Lemma inUnitRange_inv (x : JsNum.num) :
  inUnitRange x = true -> exists q, x = JsNum.Fin q /\ (0 <= q /\ q <= 100)%Q.
Proof.
  destruct x as [q| | |]; try discriminate.
  intros H. exists q. split; [reflexivity|]. now apply inUnitRange_Fin.
Qed.

Lemma min100_range (y : Q) :
  (0 <= y)%Q -> inUnitRange (JsNum.min (JsNum.Fin 100) (JsNum.Fin y)) = true.
Proof.
  intros Hy. unfold JsNum.min. simpl.
  destruct (Qle_bool 100 y) eqn:E; apply inUnitRange_Fin.
  - split; [discriminate|apply Qle_refl].
  - split; [exact Hy|]. apply Qlt_le_weak, Qnot_le_lt.
    intros H. apply Qle_bool_iff in H. congruence.
Qed.

Lemma max0_range (y : Q) :
  (y <= 100)%Q -> inUnitRange (JsNum.max (JsNum.Fin 0) (JsNum.Fin y)) = true.
Proof.
  intros Hy. unfold JsNum.max. simpl.
  destruct (Qle_bool 0 y) eqn:E; apply inUnitRange_Fin.
  - apply Qle_bool_iff in E. split; assumption.
  - split; [apply Qle_refl|discriminate].
Qed.

Lemma Q_sum_nonneg (a b : Q) : (0 <= a)%Q -> (0 <= b)%Q -> (0 <= a + b)%Q.
Proof.
  intros Ha Hb. apply Qle_trans with (0 + 0)%Q; [discriminate|].
  now apply Qplus_le_compat.
Qed.

Lemma blend_range (a b c d e : JsNum.num) :
  inUnitRange a = true -> inUnitRange b = true -> inUnitRange c = true ->
  inUnitRange d = true -> inUnitRange e = true ->
  inUnitRange (blend a b c d e) = true.
Proof.
  intros Ha Hb Hc Hd He.
  apply inUnitRange_inv in Ha as (qa & -> & Ha0 & Ha1).
  apply inUnitRange_inv in Hb as (qb & -> & Hb0 & Hb1).
  apply inUnitRange_inv in Hc as (qc & -> & Hc0 & Hc1).
  apply inUnitRange_inv in Hd as (qd & -> & Hd0 & Hd1).
  apply inUnitRange_inv in He as (qe & -> & He0 & He1).
  destruct (blend_finite qa qb qc qd qe) as (q & -> & Hq).
  apply inUnitRange_Fin. rewrite Hq.
  assert (W : forall x w : Q, (0 <= x)%Q -> (x <= 100)%Q -> (0 <= w)%Q ->
                (0 <= x * w /\ x * w <= 100 * w)%Q).
  { intros x w Hx0 Hx1 Hw. split.
    - now apply Qmult_le_0_compat.
    - now apply Qmult_le_compat_r. }
  destruct (W qa 0.25%Q Ha0 Ha1 ltac:(discriminate)) as [A0 A1].
  destruct (W qb 0.25%Q Hb0 Hb1 ltac:(discriminate)) as [B0 B1].
  destruct (W qc 0.20%Q Hc0 Hc1 ltac:(discriminate)) as [C0 C1].
  destruct (W qd 0.15%Q Hd0 Hd1 ltac:(discriminate)) as [D0 D1].
  destruct (W qe 0.15%Q He0 He1 ltac:(discriminate)) as [E0 E1].
  split.
  - apply Q_sum_nonneg; [apply Q_sum_nonneg; [apply Q_sum_nonneg;
      [apply Q_sum_nonneg|]|]|]; assumption.
  - apply Qle_trans with (100 * 0.25 + 100 * 0.25 + 100 * 0.20 + 100 * 0.15
                          + 100 * 0.15)%Q; [|discriminate].
    apply Qplus_le_compat; [apply Qplus_le_compat; [apply Qplus_le_compat;
      [apply Qplus_le_compat|]|]|]; assumption.
Qed.

(** The X-Score of a node whose metrics are in their natural ranges. *)
Lemma calculateXScore_range (node : PNode) :
  (0 <= storageUsedGB (metrics node))%Q ->
  (0 < storageCapacityGB (metrics node))%Q ->
  (0 <= responseTimeMs (metrics node))%Q ->
  (0 <= uptime node)%Q -> (uptime node <= 100)%Q ->
  (0 <= peersConnected (gossip node))%Q ->
  let x := calculateXScore node in
  inUnitRange (storageThroughput x) = true /\
  inUnitRange (dataAvailabilityLatency x) = true /\
  inUnitRange (xs_uptime x) = true /\
  inUnitRange (gossipHealth x) = true /\
  inUnitRange (peerConnectivity x) = true /\
  inUnitRange (overall x) = true.
Proof.
  intros Hused Hcap Hresp Hup0 Hup1 Hpeers. cbv zeta.
  unfold calculateXScore. cbv zeta.
  cbn [overall storageThroughput dataAvailabilityLatency xs_uptime gossipHealth
       peerConnectivity grade].
  assert (H1 : inUnitRange
                 (JsNum.min (JsNum.Fin 100)
                    (JsNum.mul (usagePercent node) (JsNum.Fin 1.5%Q))) = true).
  { unfold usagePercent, JsNum.div, JsNum.is_zero.
    assert (E : Qeq_bool (storageCapacityGB (metrics node)) 0 = false).
    { destruct (Qeq_bool _ 0) eqn:E; [|reflexivity].
      apply Qeq_bool_iff in E. rewrite E in Hcap. now apply Qlt_irrefl in Hcap. }
    rewrite E. cbn [JsNum.mul]. apply min100_range.
    rewrite !Qred_correct.
    repeat (apply Qmult_le_0_compat; [|discriminate]).
    apply Qle_shift_div_l; [exact Hcap|]. now rewrite Qmult_0_l. }
  assert (H2 : inUnitRange
                 (JsNum.max (JsNum.Fin 0)
                    (JsNum.sub (JsNum.Fin 100)
                       (JsNum.mul (JsNum.Fin (responseTimeMs (metrics node)))
                                  (JsNum.Fin 0.5%Q)))) = true).
  { cbn [JsNum.mul JsNum.sub JsNum.neg JsNum.add]. apply max0_range.
    rewrite !Qred_correct.
    assert (H : (0 <= responseTimeMs (metrics node) * 0.5)%Q)
      by (apply Qmult_le_0_compat; [assumption|discriminate]).
    apply Qle_trans with (100 + - 0)%Q; [|discriminate].
    apply Qplus_le_compat; [apply Qle_refl|]. now apply Qopp_le_compat. }
  assert (H3 : inUnitRange (JsNum.Fin (uptime node)) = true)
    by (apply inUnitRange_Fin; split; assumption).
  assert (H4 : forall w : Q, (0 <= w)%Q ->
                 inUnitRange
                   (JsNum.min (JsNum.Fin 100)
                      (JsNum.mul (JsNum.Fin (peersConnected (gossip node)))
                                 (JsNum.Fin w))) = true).
  { intros w Hw. cbn [JsNum.mul]. apply min100_range. rewrite Qred_correct.
    now apply Qmult_le_0_compat. }
  pose proof (H4 2%Q ltac:(discriminate)) as H5.
  pose proof (H4 3%Q ltac:(discriminate)) as H6.
  repeat (split; [assumption|]).
  now apply blend_range.
Qed.

Lemma mapi_from_In {A B : Type} (f : A -> Z -> B) (l : list A) (i : Z) (y : B) :
  In y (mapi_from f i l) -> exists x k, In x l /\ i <= k /\ y = f x k.
Proof.
  revert i. induction l as [|x l IH]; simpl; intros i; [intros []|].
  intros [<-|H].
  - exists x, i. split; [now left|]. split; [lia|reflexivity].
  - destruct (IH _ H) as (x' & k & Hin & Hk & ->).
    exists x', k. split; [now right|]. split; [lia|reflexivity].
Qed.

Lemma capacityChoice_positive (h : Z) :
  0 <= h -> (0 < capacityChoice (Z.rem h 4))%Q.
Proof.
  intros Hh. pose proof (Z.rem_bound_pos h 4 Hh ltac:(lia)) as Hr.
  assert (Hc : Z.rem h 4 = 0 \/ Z.rem h 4 = 1 \/ Z.rem h 4 = 2 \/ Z.rem h 4 = 3)
    by lia.
  destruct Hc as [-> | [-> | [-> | ->]]]; reflexivity.
Qed.

Lemma score_range (credits : Z) :
  0 <= credits ->
  (0 <= score (calculatePerformanceFromCredits credits))%Q /\
  (score (calculatePerformanceFromCredits credits) <= 100)%Q.
Proof.
  intros Hc. unfold calculatePerformanceFromCredits. cbv zeta. cbn [score].
  unfold Qmin.
  destruct (Qle_bool 100 _) eqn:E.
  - split; [discriminate|apply Qle_refl].
  - split.
    + unfold MAX_CREDITS, Qle, Qdiv, Qmult, Qinv, inject_Z. simpl. lia.
    + apply Qlt_le_weak, Qnot_le_lt. intros H. apply Qle_bool_iff in H. congruence.
Qed.

(** The metrics that [transformPodToNode] synthesizes are in their
    natural ranges. *)
Lemma transformPodToNode_ranges (now : Z) (pod : PodCredit) (index totalNodes : Z) :
  0 <= index ->
  let node := transformPodToNode now pod index totalNodes in
  (0 <= storageUsedGB (metrics node))%Q /\
  (0 < storageCapacityGB (metrics node))%Q /\
  (0 <= responseTimeMs (metrics node))%Q /\
  (0 <= uptime node)%Q /\ (uptime node <= 100)%Q /\
  (0 <= peersConnected (gossip node))%Q.
Proof.
  intros Hi. cbv zeta. unfold transformPodToNode. cbv zeta.
  cbn [metrics gossip uptime storageUsedGB storageCapacityGB responseTimeMs
       peersConnected].
  pose proof (hashPubkey_nonneg (pod_id pod)) as Hh.
  set (h := hashPubkey (pod_id pod)) in *.
  pose proof (Z.rem_bound_pos h 400 Hh ltac:(lia)) as H400.
  pose proof (Z.rem_bound_pos h 20 Hh ltac:(lia)) as H20.
  pose proof (Z.rem_bound_pos h 40 Hh ltac:(lia)) as H40.
  set (p := calculatePerformanceFromCredits (pc_credits pod)).
  split; [|split; [|split; [|split; [|split]]]].
  - unfold Qle, inject_Z. simpl. lia.
  - apply capacityChoice_positive. lia.
  - destruct (Status_eqb _ online); [|discriminate].
    assert (Hs : (score p <= 100)%Q).
    { subst p. unfold calculatePerformanceFromCredits. cbv zeta. cbn [score].
      unfold Qmin. destruct (Qle_bool 100 _) eqn:E; [apply Qle_refl|].
      apply Qlt_le_weak, Qnot_le_lt. intros H. apply Qle_bool_iff in H. congruence. }
    apply Qle_trans with (30 + 0 + 0)%Q; [discriminate|].
    repeat apply Qplus_le_compat; [apply Qle_refl| |].
    + apply (Qplus_le_l _ _ (score p)). ring_simplify. exact Hs.
    + unfold Qle, inject_Z. simpl. lia.
  - destruct (pc_credits pod >? 0) eqn:E; [|discriminate].
    rewrite Z.gtb_ltb in E. apply Z.ltb_lt in E.
    destruct (score_range (pc_credits pod) ltac:(lia)) as [S0 S1]. fold p in S0, S1.
    apply Qle_trans with (70 + 0)%Q; [discriminate|].
    apply Qplus_le_compat; [apply Qle_refl|].
    apply Qmult_le_0_compat; [assumption|discriminate].
  - destruct (pc_credits pod >? 0) eqn:E; [|discriminate].
    rewrite Z.gtb_ltb in E. apply Z.ltb_lt in E.
    destruct (score_range (pc_credits pod) ltac:(lia)) as [S0 S1]. fold p in S0, S1.
    apply Qle_trans with (70 + 100 * 0.3)%Q; [|discriminate].
    apply Qplus_le_compat; [apply Qle_refl|].
    apply Qmult_le_compat_r; [assumption|discriminate].
  - destruct (Status_eqb _ online); [|discriminate].
    unfold Qle, inject_Z. simpl. lia.
Qed.
End XScoreRange.

(** X10. For every node that [getClusterNodes] of lib/pnode-api.ts
    builds from a non-empty credits ledger, [calculateXScore] yields
    five sub-scores and an overall score that are finite and lie
    between 0 and 100: the uptime that [transformPodToNode] synthesizes
    never leaves that interval, so the missing clamp on the uptime
    sub-score is not reached by these nodes. *)
Theorem xscore_of_ledger_nodes_in_range (s : PnodeApi.Sources)
    (p : Types.PodCredit) (ps : list Types.PodCredit) (node : Types.PNode) :
  PnodeApi.src_podCredits s = Some {| Types.pods_credits := Some (p :: ps) |} ->
  In node (PnodeApi.getClusterNodes s) ->
  let x := DerivedMetrics.calculateXScore node in
  Vocabulary.inUnitRange (DerivedMetrics.storageThroughput x) = true /\
  Vocabulary.inUnitRange (DerivedMetrics.dataAvailabilityLatency x) = true /\
  Vocabulary.inUnitRange (DerivedMetrics.xs_uptime x) = true /\
  Vocabulary.inUnitRange (DerivedMetrics.gossipHealth x) = true /\
  Vocabulary.inUnitRange (DerivedMetrics.peerConnectivity x) = true /\
  Vocabulary.inUnitRange (DerivedMetrics.overall x) = true.
Proof.
  intros Hs Hin. unfold PnodeApi.getClusterNodes in Hin. rewrite Hs in Hin.
  cbv zeta in Hin. unfold JS.mapi in Hin.
  apply mapi_from_In in Hin. destruct Hin as (pod & k & _ & Hk & ->).
  destruct (transformPodToNode_ranges (PnodeApi.src_now s) pod k
              (Utils.array_length
                 (JS.sort (fun a b => Types.pc_credits b - Types.pc_credits a)
                          (p :: ps))) Hk)
    as (H1 & H2 & H3 & H4 & H5 & H6).
  now apply calculateXScore_range.
Qed.

Lemma xscore_of_ledger_nodes_in_range_witness :
  Vocabulary.inUnitRange
    (DerivedMetrics.overall
       (DerivedMetrics.calculateXScore
          (PnodeApi.transformPodToNode (PnodeApi.src_now Scenarios.threeNodes)
             {| Types.pc_credits := 9000; Types.pod_id := "A" |} 0 3))) = true.
Proof.
  assert (H1 : PnodeApi.src_podCredits Scenarios.threeNodes
               = Some {| Types.pods_credits :=
                           Some ({| Types.pc_credits := 9000; Types.pod_id := "A" |}
                                   :: [ {| Types.pc_credits := 100; Types.pod_id := "B" |};
                                        {| Types.pc_credits := 0; Types.pod_id := "C" |} ]) |})
    by reflexivity.
  assert (H2 : In (PnodeApi.transformPodToNode (PnodeApi.src_now Scenarios.threeNodes)
                     {| Types.pc_credits := 9000; Types.pod_id := "A" |} 0 3)
                  (PnodeApi.getClusterNodes Scenarios.threeNodes)).
  { left. reflexivity. }
  exact (proj2 (proj2 (proj2 (proj2 (proj2
           (xscore_of_ledger_nodes_in_range Scenarios.threeNodes _ _ _ H1 H2)))))).
Defined.

(** ** The in-memory cache of the credits ledger *)

Section CacheFacts.
Import Cache.
Context {T : Type}.

Lemma getCached_setCache (stored now : Z) (key key' : string) (data : T)
    (c : cache T) :
  getCached now key (setCache stored key' data c)
  = if String.eqb key key'
    then (if now - stored <? CACHE_DURATION then Some data else None)
    else getCached now key c.
Proof.
  unfold getCached, setCache. destruct (String.eqb key key') eqn:E.
  - apply String.eqb_eq in E. subst key'. now rewrite lookup_insert_eq.
  - apply String.eqb_neq in E. rewrite lookup_insert_ne by congruence. reflexivity.
Qed.
End CacheFacts.

(** X11. [fetchPodCredits] of lib/pnode-api.ts after a request that
    succeeded and was stored at [stored]: whatever is stored under other
    keys in between, a call that reads the clock less than 60000 ms
    after [stored] answers with the stored body, makes no request and
    leaves the cache as it is; from 60000 ms on the call makes the
    request again. A request that fails is not stored: the call answers
    [null] and the cache is unchanged. *)
Theorem ledger_cache_serves_for_a_minute
    (c0 : Cache.cache Types.PodCreditsResponse) (read0 stored : Z)
    (data other : Types.PodCreditsResponse) (key : string) (storedOther : Z)
    (now storeAt : Z) (http : Cache.HttpResult Types.PodCreditsResponse) :
  Cache.getCached read0 "pod_credits" c0 = None ->
  key <> "pod_credits" ->
  let first := Cache.fetchPodCredits read0 stored (Cache.HttpOk data) c0 in
  let c1 := Cache.setCache storedOther key other (Cache.f_cache first) in
  let second := Cache.fetchPodCredits now storeAt http c1 in
  Cache.f_result first = Some data /\ Cache.f_requested first = true /\
  (now - stored < 60000 ->
     second = {| Cache.f_result := Some data; Cache.f_cache := c1;
                 Cache.f_requested := false |}) /\
  (60000 <= now - stored ->
     Cache.f_requested second = true /\
     match http with
     | Cache.HttpOk fresh =>
         Cache.f_result second = Some fresh /\
         Cache.getCached storeAt "pod_credits" (Cache.f_cache second) = Some fresh
     | _ => Cache.f_result second = None /\ Cache.f_cache second = c1
     end).
Proof.
  intros Hmiss Hkey first c1 second.
  assert (Hfirst : first = {| Cache.f_result := Some data;
                             Cache.f_cache := Cache.setCache stored "pod_credits" data c0;
                             Cache.f_requested := true |}).
  { subst first. unfold Cache.fetchPodCredits. cbv zeta. now rewrite Hmiss. }
  assert (Hget : Cache.getCached now "pod_credits" c1
                 = if now - stored <? Cache.CACHE_DURATION then Some data else None).
  { subst c1. rewrite Hfirst. cbn [Cache.f_cache].
    rewrite getCached_setCache.
    destruct (String.eqb "pod_credits" key) eqn:E.
    - apply String.eqb_eq in E. congruence.
    - rewrite getCached_setCache. reflexivity. }
  split; [now rewrite Hfirst|]. split; [now rewrite Hfirst|]. split.
  - intros Hlt. subst second. unfold Cache.fetchPodCredits. cbv zeta.
    rewrite Hget. unfold Cache.CACHE_DURATION.
    destruct (now - stored <? 60000) eqn:E; [reflexivity|].
    apply Z.ltb_ge in E. lia.
  - intros Hge. subst second. unfold Cache.fetchPodCredits. cbv zeta.
    rewrite Hget. unfold Cache.CACHE_DURATION.
    destruct (now - stored <? 60000) eqn:E; [apply Z.ltb_lt in E; lia|].
    destruct http as [fresh| |]; cbn [Cache.f_result Cache.f_cache Cache.f_requested];
      (split; [reflexivity|]); [|split; reflexivity|split; reflexivity].
    split; [reflexivity|]. rewrite getCached_setCache. simpl.
    rewrite Z.sub_diag. reflexivity.
Qed.

Lemma ledger_cache_serves_for_a_minute_witness :
  Cache.f_requested
    (Cache.fetchPodCredits 1700000059999 1700000060000 Cache.HttpThrows
       (Cache.setCache 1700000030000 "rpc:getClusterNodes:[]"
          {| Types.pods_credits := None |}
          (Cache.f_cache
             (Cache.fetchPodCredits 1700000000000 1700000000000
                (Cache.HttpOk {| Types.pods_credits := Some [] |}) ∅))))
  = false.
Proof.
  assert (H1 : Cache.getCached 1700000000000 "pod_credits"
                 (∅ : Cache.cache Types.PodCreditsResponse) = None) by reflexivity.
  assert (H2 : "rpc:getClusterNodes:[]" <> "pod_credits") by discriminate.
  destruct (ledger_cache_serves_for_a_minute ∅ 1700000000000 1700000000000
              {| Types.pods_credits := Some [] |} {| Types.pods_credits := None |}
              "rpc:getClusterNodes:[]" 1700000030000 1700000059999 1700000060000
              Cache.HttpThrows H1 H2) as (_ & _ & Hserve & _).
  rewrite Hserve by lia. reflexivity.
Defined.

(** ** Peer rankings *)

Section RankingFacts.
Import JS Types DerivedMetrics FurtherMetrics.

Lemma mapi_from_In_range {A B : Type} (f : A -> Z -> B) (l : list A) (i : Z) (y : B) :
  In y (mapi_from f i l) ->
  exists x k, In x l /\ i <= k < i + Z.of_nat (List.length l) /\ y = f x k.
Proof.
  revert i. induction l as [|x l IH]; simpl; intros i; [intros []|].
  intros [<-|H].
  - exists x, i. split; [now left|]. split; [lia|reflexivity].
  - destruct (IH _ H) as (x' & k & Hin & Hk & ->).
    exists x', k. split; [now right|]. split; [lia|reflexivity].
Qed.

Lemma StronglySorted_app_inv {A : Type} (R : A -> A -> Prop) (l1 l2 : list A) :
  StronglySorted R (l1 ++ l2) ->
  StronglySorted R l1 /\ (forall a b, In a l1 -> In b l2 -> R a b).
Proof.
  induction l1 as [|x l1 IH]; simpl; intros H.
  - split; [constructor|intros a b []].
  - inversion H as [|? ? Hs Hx]; subst. destruct (IH Hs) as [Hs1 Hc].
    rewrite List.Forall_forall in Hx. split.
    + constructor; [exact Hs1|]. apply List.Forall_forall. intros y Hy.
      apply Hx, in_or_app. now left.
    + intros a b [<-|Ha] Hb; [|now apply Hc].
      apply Hx, in_or_app. now right.
Qed.
End RankingFacts.

(** X12. [getPeerRankings] ranks the online nodes with the most
    credits: the ranking lists at most 20 nodes, all online, in the
    order of non-increasing credits, with ranks 1, 2, ... in that order;
    no online node left out has more credits than a ranked one; and
    every percentile is above 0 and at most 100. *)
Theorem peer_rankings_are_the_top_online_nodes (nodes : list Types.PNode) :
  let ranking := FurtherMetrics.peerRankingsOf nodes in
  let onlineNodes := filter (fun n => Types.Status_eqb (Types.status n) Types.online) nodes in
  exists top rest,
    Permutation (top ++ rest) onlineNodes /\
    List.length top = Nat.min 20 (List.length onlineNodes) /\
    map FurtherMetrics.pr_nodePubkey ranking = map Types.pubkey top /\
    map FurtherMetrics.pr_rank ranking = map Z.of_nat (seq 1 (List.length top)) /\
    StronglySorted (fun a b => Types.credits_or0 b <= Types.credits_or0 a) top /\
    (forall a b, In a top -> In b rest -> Types.credits_or0 b <= Types.credits_or0 a) /\
    List.Forall (fun p => (0 < FurtherMetrics.pr_percentile p)%Q /\
                          (FurtherMetrics.pr_percentile p <= 100)%Q) ranking.
Proof.
  intros ranking onlineNodes.
  set (sorted := JS.sort DerivedMetrics.byCreditsDesc onlineNodes).
  exists (firstn 20 sorted), (skipn 20 sorted).
  assert (Hlen : List.length (firstn 20 sorted) = Nat.min 20 (List.length onlineNodes)).
  { rewrite length_firstn. subst sorted. now rewrite sort_length. }
  assert (Hsorted : StronglySorted (fun a b => Types.credits_or0 b <= Types.credits_or0 a)
                      (firstn 20 sorted ++ skipn 20 sorted)).
  { rewrite firstn_skipn. apply (sort_desc Types.credits_or0). }
  apply StronglySorted_app_inv in Hsorted. destruct Hsorted as [Htop Hcut].
  split; [rewrite firstn_skipn; apply sort_perm|].
  split; [exact Hlen|].
  subst ranking. unfold FurtherMetrics.peerRankingsOf, JS.mapi.
  fold onlineNodes. fold sorted.
  split; [|split; [|split; [exact Htop|split; [exact Hcut|]]]].
  - rewrite mapi_from_map. cbn [FurtherMetrics.pr_nodePubkey].
    apply mapi_from_const_index.
  - rewrite mapi_from_map. cbn [FurtherMetrics.pr_rank].
    rewrite (mapi_from_index_only (fun k => k + 1)).
    rewrite <- seq_shift, !map_map. apply map_ext. intros k. lia.
  - apply List.Forall_forall. intros p Hp.
    apply mapi_from_In_range in Hp. destruct Hp as (x & k & _ & Hk & ->).
    cbn [FurtherMetrics.pr_percentile].
    pose proof (count_status_range Types.online nodes) as Hr.
    unfold DerivedMetrics.count_status in Hr. fold onlineNodes in Hr.
    unfold Utils.array_length in *. rewrite Hlen in Hk.
    set (N := Z.of_nat (List.length nodes)) in *.
    assert (HkN : 0 <= k < N) by lia.
    assert (Hpos : (0 < inject_Z N)%Q) by (unfold Qlt, inject_Z; simpl; lia).
    split.
    + apply Qmult_lt_0_compat; [|reflexivity].
      apply Qlt_shift_div_l; [exact Hpos|]. rewrite Qmult_0_l.
      unfold Qlt, inject_Z. simpl. lia.
    + apply Qle_trans with (1 * 100)%Q; [|discriminate].
      apply Qmult_le_compat_r; [|discriminate].
      apply Qle_shift_div_r; [exact Hpos|]. rewrite Qmult_1_l.
      unfold Qle, inject_Z. simpl. lia.
Qed.

(** ** Censorship resistance *)

Section DiversityFacts.
Import JS Types DerivedMetrics FurtherMetrics.

Lemma countNode_unlocated (nodes : list PNode) (c : Counts) :
  Terms.located nodes = [] -> fold_left countNode nodes c = c.
Proof.
  induction nodes as [|n nodes IH]; simpl; intros H; [reflexivity|].
  unfold countNode at 2. destruct (location n); [discriminate|]. now apply IH.
Qed.

Lemma countries_listed (nodes : list PNode) :
  countryDistribution (decentralizationOf nodes) = [] <-> Terms.located nodes = [].
Proof.
  destruct (countryCount_fold nodes
              {| countryCount := []; datacenterCount := []; asnCount := [] |})
    as (_ & Hp & Hs & _).
  cbn [countryCount] in Hp, Hs. specialize (Hp (List.Forall_nil _)).
  pose proof (countryDistribution_counts nodes) as Hc.
  split; intros H.
  - rewrite H in Hc. simpl in Hc. symmetry in Hc. apply sort_nil_inv in Hc.
    rewrite Hc in Hs. simpl in Hs. unfold array_length in Hs.
    destruct (Terms.located nodes); [reflexivity|simpl in Hs; lia].
  - rewrite H in Hs. unfold array_length in Hs. simpl in Hs.
    destruct (countryCount (fold_left countNode nodes _)) as [|[k v] cc] eqn:E.
    + simpl in Hc. apply map_eq_nil in Hc. exact Hc.
    + exfalso. inversion Hp as [|? ? Hv Hrest]; subst. simpl in Hv, Hs.
      assert (Hnn : forall m : list (string * Z),
                 List.Forall (fun kv => 1 <= snd kv) m -> 0 <= Terms.sumZ (map snd m)).
      { induction 1; simpl; lia. }
      specialize (Hnn _ Hrest). lia.
Qed.
End DiversityFacts.

(** X13. The overall score of [getCensorshipResistanceScore] lies
    between 20 and 95 for every node list; it is 20, with grade F,
    exactly when no node carries a location, and the grade is A exactly
    when the three diversity factors add up to at least 240. *)
Theorem censorship_resistance_bounds (nodes : list Types.PNode) :
  let c := FurtherMetrics.censorshipResistanceOf (DerivedMetrics.decentralizationOf nodes) in
  (20 <= FurtherMetrics.cr_overall c)%Q /\ (FurtherMetrics.cr_overall c <= 95)%Q /\
  ((FurtherMetrics.cr_overall c == 20)%Q <-> Terms.located nodes = []) /\
  (Terms.located nodes = [] -> FurtherMetrics.cr_grade c = FurtherMetrics.dgF) /\
  (FurtherMetrics.cr_grade c = FurtherMetrics.dgA <->
   240 <= FurtherMetrics.geographicDiversity c + FurtherMetrics.asnDiversity c
          + FurtherMetrics.jurisdictionDiversity c).
Proof.
  cbv zeta. unfold FurtherMetrics.censorshipResistanceOf. cbv zeta.
  cbn [FurtherMetrics.cr_overall FurtherMetrics.cr_grade
       FurtherMetrics.geographicDiversity FurtherMetrics.asnDiversity
       FurtherMetrics.jurisdictionDiversity].
  pose proof (countries_listed nodes) as Hlisted.
  set (m := DerivedMetrics.decentralizationOf nodes) in *.
  unfold Utils.array_length.
  set (countries := Z.of_nat (List.length (DerivedMetrics.countryDistribution m))).
  set (asns := Z.of_nat (List.length (DerivedMetrics.asnDistribution m))).
  assert (Hc0 : 0 <= countries) by (subst countries; lia).
  assert (Ha0 : 0 <= asns) by (subst asns; lia).
  set (g := Z.min 100 (countries * 5)).
  set (a := Z.min 100 (asns * 12)).
  set (j := Z.min 100 (countries * 4)).
  assert (Hg : 0 <= g <= 100) by (subst g; lia).
  assert (Ha : 0 <= a <= 100) by (subst a; lia).
  assert (Hj : 0 <= j <= 100) by (subst j; lia).
  assert (Hov : forall k : Z,
             JS.Qgeb (inject_Z (g + a + j + 80) / 4) (inject_Z k) = true
             <-> 4 * k <= g + a + j + 80).
  { intros k. rewrite Qgeb_true. unfold Qle, Qdiv, Qmult, Qinv, inject_Z. simpl. lia. }
  assert (Hzero : countries = 0 <-> Terms.located nodes = []).
  { rewrite <- Hlisted. subst countries. split.
    - intros H. destruct (DerivedMetrics.countryDistribution m); [reflexivity|].
      simpl in H. lia.
    - intros ->. reflexivity. }
  assert (Hasn : Terms.located nodes = [] -> asns = 0).
  { intros H. subst asns m. unfold DerivedMetrics.decentralizationOf. cbv zeta.
    cbn [DerivedMetrics.asnDistribution]. rewrite countNode_unlocated by exact H.
    reflexivity. }
  split; [|split; [|split; [|split]]].
  - unfold Qle, Qdiv, Qmult, Qinv, inject_Z. simpl. lia.
  - unfold Qle, Qdiv, Qmult, Qinv, inject_Z. simpl. lia.
  - split.
    + intros H. apply Hzero.
      assert (g + a + j = 0).
      { revert H. unfold Qeq, Qdiv, Qmult, Qinv, inject_Z. simpl. lia. }
      subst g. lia.
    + intros H. pose proof (Hasn H) as Ha'. apply Hzero in H.
      subst g a j. rewrite H, Ha'. reflexivity.
  - intros H. pose proof (Hasn H) as Ha'. apply Hzero in H.
    subst g a j. rewrite H, Ha'. reflexivity.
  - change 80%Q with (inject_Z 80).
    destruct (JS.Qgeb _ (inject_Z 80)) eqn:E.
    + apply Hov in E. split; [lia|reflexivity].
    + split.
      * destruct (JS.Qgeb _ 65); [discriminate|].
        destruct (JS.Qgeb _ 50); [discriminate|].
        destruct (JS.Qgeb _ 35); discriminate.
      * intros H. assert (E' : JS.Qgeb (inject_Z (g + a + j + 80) / 4) (inject_Z 80)
                               = true) by (apply Hov; lia).
        congruence.
Qed.

(** ** Version distribution *)

Section VersionFacts.
Import JS Types DerivedMetrics FurtherMetrics.

(** Counting keys into a record, started from [m]. *)
Lemma bump_fold {A : Type} (key : A -> string) (l : list A) (m : list (string * Z)) :
  let m' := fold_left (fun m x => bump (key x) m) l m in
  (List.NoDup (map fst m) -> List.NoDup (map fst m')) /\
  (List.Forall (fun kv => 1 <= snd kv) m -> List.Forall (fun kv => 1 <= snd kv) m') /\
  Terms.sumZ (map snd m') = Terms.sumZ (map snd m) + array_length l /\
  (forall k, In k (map fst m') <-> In k (map fst m) \/ In k (map key l)).
Proof.
  revert m. induction l as [|x l IH]; intros m; cbn [fold_left]; cbv zeta.
  - split; [auto|]. split; [auto|]. split; [unfold array_length; simpl; lia|].
    intros k. simpl. intuition.
  - destruct (IH (bump (key x) m)) as (Hd & Hp & Hs & Hk).
    split; [|split; [|split]].
    + intros H. apply Hd, record_set_NoDup, H.
    + intros H. apply Hp, bump_positive, H.
    + rewrite Hs, bump_sum. unfold array_length. cbn [List.length]. lia.
    + intros k. rewrite Hk. unfold bump. rewrite record_set_keys. simpl.
      intuition.
Qed.

Lemma NoDup_map_In_inj {A B : Type} (f : A -> B) (l : list A) (a b : A) :
  List.NoDup (map f l) -> In a l -> In b l -> f a = f b -> a = b.
Proof.
  induction l as [|x l IH]; simpl; intros Hd Ha Hb E; [contradiction|].
  inversion Hd as [|? ? Hn Hd']; subst.
  destruct Ha as [->|Ha], Hb as [->|Hb].
  - reflexivity.
  - exfalso. apply Hn. rewrite E. now apply in_map.
  - exfalso. apply Hn. rewrite <- E. now apply in_map.
  - now apply IH.
Qed.
Lemma sumZ_bounds_member (l : list Z) (x : Z) :
  List.Forall (fun y => 1 <= y) l -> In x l -> 1 <= x <= Terms.sumZ l.
Proof.
  induction l as [|y l IH]; simpl; intros Hl Hin; [contradiction|].
  inversion Hl; subst.
  assert (H0 : 0 <= Terms.sumZ l).
  { clear -H2. induction l as [|z l IHl]; simpl; [lia|].
    inversion H2; subst. specialize (IHl H3). lia. }
  destruct Hin as [->|Hin]; [lia|]. specialize (IH H2 Hin). lia.
Qed.

(** The share of a count in a total, as a percentage. *)
Lemma share_range (count total : Z) :
  1 <= count <= total ->
  (0 < inject_Z count / inject_Z total * 100)%Q /\
  (inject_Z count / inject_Z total * 100 <= 100)%Q.
Proof.
  intros H. assert (Ht : (0 < inject_Z total)%Q).
  { unfold Qlt, inject_Z. simpl. lia. }
  split.
  - apply Qmult_lt_0_compat; [|reflexivity].
    apply Qlt_shift_div_l; [exact Ht|]. rewrite Qmult_0_l.
    unfold Qlt, inject_Z. simpl. lia.
  - apply Qle_trans with (1 * 100)%Q; [|rewrite Qmult_1_l; apply Qle_refl].
    apply Qmult_le_compat_r; [|discriminate].
    apply Qle_shift_div_r; [exact Ht|]. rewrite Qmult_1_l.
    unfold Qle, inject_Z. simpl. lia.
Qed.

Lemma share_mono (a b total : Z) :
  0 < total -> a <= b ->
  (inject_Z a / inject_Z total * 100 <= inject_Z b / inject_Z total * 100)%Q.
Proof.
  intros Ht H. apply Qmult_le_compat_r; [|discriminate].
  unfold Qdiv. apply Qmult_le_compat_r.
  - unfold Qle, inject_Z. simpl. lia.
  - apply Qlt_le_weak, Qinv_lt_0_compat. unfold Qlt, inject_Z. simpl. lia.
Qed.
End VersionFacts.

(** X14. [getVersionDistribution] partitions the nodes by version: the
    entries carry pairwise distinct versions, exactly the versions of
    the nodes; their counts are at least 1, add up to the number of
    nodes and never increase along the list; every percentage lies
    above 0 and at most at 100, and the percentages never increase
    along the list either; and at most one entry is marked as the
    latest. *)
Theorem version_distribution_partitions_the_nodes (nodes : list Types.PNode) :
  let d := FurtherMetrics.versionDistributionOf nodes in
  List.NoDup (map FurtherMetrics.vi_version d) /\
  (forall v, In v (map FurtherMetrics.vi_version d) <-> In v (map Types.version nodes)) /\
  List.Forall (fun c => 1 <= c) (map FurtherMetrics.vi_count d) /\
  Terms.sumZ (map FurtherMetrics.vi_count d) = Utils.array_length nodes /\
  StronglySorted (fun a b => b <= a) (map FurtherMetrics.vi_count d) /\
  List.Forall (fun q => (0 < q)%Q /\ (q <= 100)%Q) (map FurtherMetrics.vi_percentage d) /\
  StronglySorted (fun a b => (b <= a)%Q) (map FurtherMetrics.vi_percentage d) /\
  (forall a b, In a d -> In b d ->
     FurtherMetrics.vi_isLatest a = true -> FurtherMetrics.vi_isLatest b = true ->
     a = b).
Proof.
  cbv zeta. unfold FurtherMetrics.versionDistributionOf. cbv zeta.
  destruct (bump_fold Types.version nodes []) as (Hd & Hp & Hs & Hk).
  cbv zeta in Hd, Hp, Hs, Hk.
  set (versionCount := fold_left (fun m node => DerivedMetrics.bump (Types.version node) m)
                         nodes []) in *.
  set (total := JS.or_Z (Some (Utils.array_length nodes)) 1).
  set (entry := fun '(version, count) =>
                  {| FurtherMetrics.vi_version := version;
                     FurtherMetrics.vi_count := count;
                     FurtherMetrics.vi_percentage :=
                       (inject_Z count / inject_Z total * 100)%Q;
                     FurtherMetrics.vi_isLatest := String.eqb version "0.7.0" |}).
  set (cmp := fun a b => FurtherMetrics.vi_count b - FurtherMetrics.vi_count a).
  assert (Hperm : Permutation (JS.sort cmp (map entry versionCount))
                              (map entry versionCount)) by apply sort_perm.
  assert (Hv : map FurtherMetrics.vi_version (map entry versionCount)
               = map fst versionCount).
  { rewrite map_map. apply map_ext. intros [k v]. reflexivity. }
  assert (Hc : map FurtherMetrics.vi_count (map entry versionCount)
               = map snd versionCount).
  { rewrite map_map. apply map_ext. intros [k v]. reflexivity. }
  assert (Hnd : List.NoDup (map FurtherMetrics.vi_version
                              (JS.sort cmp (map entry versionCount)))).
  { eapply Permutation_NoDup;
      [symmetry; apply (Permutation_map FurtherMetrics.vi_version Hperm)|].
    rewrite Hv. apply Hd. constructor. }
  assert (Hpos : List.Forall (fun c => 1 <= c) (map snd versionCount)).
  { apply List.Forall_forall. intros c Hin. apply in_map_iff in Hin.
    destruct Hin as (kv & <- & Hin).
    specialize (Hp (List.Forall_nil _)). rewrite List.Forall_forall in Hp.
    now apply Hp. }
  assert (Hsum : Terms.sumZ (map snd versionCount) = Utils.array_length nodes).
  { rewrite Hs. simpl. lia. }
  assert (Hentry : forall x, In x (JS.sort cmp (map entry versionCount)) ->
             1 <= FurtherMetrics.vi_count x <= total /\
             FurtherMetrics.vi_percentage x
             = (inject_Z (FurtherMetrics.vi_count x) / inject_Z total * 100)%Q).
  { intros x Hx. eapply Permutation_in in Hx; [|exact Hperm].
    apply in_map_iff in Hx. destruct Hx as ([k v] & <- & Hin). simpl.
    split; [|reflexivity].
    assert (Hb : 1 <= v <= Terms.sumZ (map snd versionCount)).
    { apply sumZ_bounds_member; [exact Hpos|].
      apply in_map_iff. exists (k, v). auto. }
    rewrite Hsum in Hb. subst total. unfold JS.or_Z.
    destruct (Utils.array_length nodes =? 0) eqn:E; [apply Z.eqb_eq in E; lia|lia]. }
  split; [exact Hnd|]. split; [|split; [|split; [|split; [|split; [|split]]]]].
  - intros v. split; intros H.
    + eapply Permutation_in in H;
        [|apply (Permutation_map FurtherMetrics.vi_version Hperm)].
      rewrite Hv in H. apply Hk in H. destruct H as [[]|H]. exact H.
    + eapply Permutation_in;
        [symmetry; apply (Permutation_map FurtherMetrics.vi_version Hperm)|].
      rewrite Hv. apply Hk. now right.
  - apply List.Forall_forall. intros c Hin. apply in_map_iff in Hin.
    destruct Hin as (x & <- & Hx). apply (Hentry x Hx).
  - rewrite (sumZ_perm _ _ (Permutation_map FurtherMetrics.vi_count Hperm)), Hc.
    exact Hsum.
  - apply StronglySorted_map. apply (sort_desc FurtherMetrics.vi_count).
  - apply List.Forall_forall. intros q Hin. apply in_map_iff in Hin.
    destruct Hin as (x & <- & Hx). destruct (Hentry x Hx) as [Hb ->].
    now apply share_range.
  - apply StronglySorted_map.
    pose proof (sort_desc FurtherMetrics.vi_count (map entry versionCount)) as Hsorted.
    fold cmp in Hsorted.
    assert (Hin : List.Forall (fun x => In x (JS.sort cmp (map entry versionCount)))
                              (JS.sort cmp (map entry versionCount))).
    { apply List.Forall_forall. auto. }
    revert Hin Hsorted. generalize (JS.sort cmp (map entry versionCount)) at 2 3 4.
    intros l Hin Hsorted. induction Hsorted as [|a l Hsl IH Hf]; constructor.
    + inversion Hin; subst. now apply IH.
    + inversion Hin as [|? ? Ha Hl]; subst.
      rewrite List.Forall_forall in Hf, Hl. apply List.Forall_forall. intros b Hb.
      destruct (Hentry a Ha) as [Hba ->]. destruct (Hentry b (Hl b Hb)) as [Hbb ->].
      apply share_mono; [lia|]. now apply Hf.
  - intros a b Ha Hb La Lb.
    apply (NoDup_map_In_inj FurtherMetrics.vi_version _ a b Hnd Ha Hb).
    assert (Hl : forall x, In x (JS.sort cmp (map entry versionCount)) ->
                   FurtherMetrics.vi_isLatest x = true ->
                   FurtherMetrics.vi_version x = "0.7.0").
    { intros x Hx Lx. eapply Permutation_in in Hx; [|exact Hperm].
      apply in_map_iff in Hx. destruct Hx as ([k v] & <- & _).
      simpl in *. now apply String.eqb_eq. }
    rewrite (Hl a Ha La), (Hl b Hb Lb). reflexivity.
Qed.

(** ** Gossip health and commission history *)

Section SynthesizedFacts.
Import JS Types DerivedMetrics FurtherMetrics.

(** Both transformers of lib/pnode-api.ts derive the peers of an
    online node and the commission from the hash of the public key. *)
Lemma cluster_node_hash_fields (s : Sources) (n : PNode) :
  In n (getClusterNodes s) ->
  exists h, 0 <= h /\
    commission (staking n) = inject_Z (Z.rem h 10) /\
    (status n = online -> peersConnected (gossip n) = inject_Z (10 + Z.rem h 40)).
Proof.
  unfold getClusterNodes. cbv zeta. intros Hin.
  assert (Hfb : In n match src_clusterData s with
                     | RpcArray clusterData =>
                         mapi (fun node index =>
                                 transformClusterNodeData (src_now s) node index)
                              clusterData
                     | _ => []
                     end ->
                exists h, 0 <= h /\
                  commission (staking n) = inject_Z (Z.rem h 10) /\
                  (status n = online ->
                   peersConnected (gossip n) = inject_Z (10 + Z.rem h 40))).
  { destruct (src_clusterData s) as [|clusterData|]; try (intros []).
    unfold mapi. intros H. apply mapi_from_In in H.
    destruct H as (x & k & _ & _ & ->).
    eexists. split; [apply hashPubkey_nonneg|]. split; [reflexivity|].
    intros _. reflexivity. }
  destruct (src_podCredits s) as [[[[|p ps]|]]|]; try (now apply Hfb).
  unfold mapi in Hin. apply mapi_from_In in Hin.
  destruct Hin as (x & k & _ & _ & ->).
  exists (hashPubkey (pod_id x)). split; [apply hashPubkey_nonneg|].
  split; [reflexivity|].
  unfold transformPodToNode. cbv zeta. cbn [status gossip peersConnected].
  intros ->. reflexivity.
Qed.

Lemma sumQ_bounds (f : PNode -> Q) (lo hi : Q) (l : list PNode) :
  (forall n, In n l -> (lo <= f n)%Q /\ (f n <= hi)%Q) ->
  (lo * inject_Z (array_length l) <= sumQ f l)%Q /\
  (sumQ f l <= hi * inject_Z (array_length l))%Q.
Proof.
  unfold sumQ, array_length.
  assert (H : forall l acc,
             (forall n, In n l -> (lo <= f n)%Q /\ (f n <= hi)%Q) ->
             (acc + lo * inject_Z (Z.of_nat (List.length l))
              <= fold_left (fun acc n => acc + f n) l acc)%Q /\
             (fold_left (fun acc n => acc + f n) l acc
              <= acc + hi * inject_Z (Z.of_nat (List.length l)))%Q).
  { clear l. induction l as [|x l IH]; intros acc Hb.
    - simpl. split; ring_simplify; apply Qle_refl.
    - cbn [fold_left List.length].
      destruct (IH (acc + f x)%Q (fun n Hn => Hb n (or_intror Hn))) as [IH1 IH2].
      destruct (Hb x (or_introl eq_refl)) as [Hx1 Hx2].
      rewrite Nat2Z.inj_succ. unfold Z.succ. rewrite inject_Z_plus. split.
      + eapply Qle_trans; [|exact IH1].
        setoid_replace (acc + lo * (inject_Z (Z.of_nat (List.length l)) + inject_Z 1))%Q
          with ((acc + lo) + lo * inject_Z (Z.of_nat (List.length l)))%Q
          using relation Qeq by ring.
        apply Qplus_le_compat; [|apply Qle_refl].
        apply Qplus_le_compat; [apply Qle_refl|exact Hx1].
      + eapply Qle_trans; [exact IH2|].
        setoid_replace (acc + hi * (inject_Z (Z.of_nat (List.length l)) + inject_Z 1))%Q
          with ((acc + hi) + hi * inject_Z (Z.of_nat (List.length l)))%Q
          using relation Qeq by ring.
        apply Qplus_le_compat; [|apply Qle_refl].
        apply Qplus_le_compat; [apply Qle_refl|exact Hx2]. }
  intros Hb. destruct (H l 0%Q Hb) as [H1 H2]. split.
  - eapply Qle_trans; [|exact H1]. rewrite Qplus_0_l. apply Qle_refl.
  - eapply Qle_trans; [exact H2|]. rewrite Qplus_0_l. apply Qle_refl.
Qed.
End SynthesizedFacts.

(** X15. The health score of [getGossipHealth] over the nodes of
    [getClusterNodes] of lib/pnode-api.ts is 70 when no node is online;
    otherwise the online nodes average between 10 and 49 peers and the
    score lies between 80 and 100. *)
Theorem gossip_health_score_range (s : PnodeApi.Sources) :
  let g := FurtherMetrics.getGossipHealth s in
  let onlineNodes :=
    filter (fun n => Types.Status_eqb (Types.status n) Types.online)
           (PnodeApi.getClusterNodes s) in
  (onlineNodes = [] ->
     FurtherMetrics.gh_avgPeersPerNode g = 0%Q /\
     (FurtherMetrics.gh_healthScore g == 70)%Q) /\
  (onlineNodes <> [] ->
     (10 <= FurtherMetrics.gh_avgPeersPerNode g)%Q /\
     (FurtherMetrics.gh_avgPeersPerNode g <= 49)%Q /\
     (80 <= FurtherMetrics.gh_healthScore g)%Q /\
     (FurtherMetrics.gh_healthScore g <= 100)%Q).
Proof.
  cbv zeta. unfold FurtherMetrics.getGossipHealth, FurtherMetrics.gossipHealthOf.
  cbv zeta. cbn [FurtherMetrics.gh_avgPeersPerNode FurtherMetrics.gh_healthScore].
  set (onlineNodes := filter (fun n => Types.Status_eqb (Types.status n) Types.online)
                             (PnodeApi.getClusterNodes s)).
  split.
  - intros ->. simpl. split; reflexivity.
  - intros Hne.
    assert (Hlen : 0 < Utils.array_length onlineNodes).
    { unfold Utils.array_length. destruct onlineNodes; [congruence|]. simpl. lia. }
    assert (E : (Utils.array_length onlineNodes >? 0) = true).
    { rewrite Z.gtb_ltb. now apply Z.ltb_lt. }
    rewrite E.
    assert (Hb : forall n, In n onlineNodes ->
                   (10 <= Types.peersConnected (Types.gossip n))%Q /\
                   (Types.peersConnected (Types.gossip n) <= 49)%Q).
    { intros n Hn. subst onlineNodes. apply list_elem_of_In in Hn.
      apply list_elem_of_filter in Hn. destruct Hn as [Hon Hn].
      apply list_elem_of_In in Hn.
      destruct (cluster_node_hash_fields s n Hn) as (h & Hh & _ & Hp).
      assert (Hst : Types.status n = Types.online).
      { destruct (Types.status n); simpl in Hon; try contradiction. reflexivity. }
      rewrite (Hp Hst).
      pose proof (Z.rem_bound_pos h 40 Hh ltac:(lia)) as Hr.
      unfold Qle, inject_Z. simpl. lia. }
    destruct (sumQ_bounds (fun n => Types.peersConnected (Types.gossip n)) 10 49
                onlineNodes Hb) as [Hlo Hhi].
    set (total := DerivedMetrics.sumQ
                    (fun n => Types.peersConnected (Types.gossip n)) onlineNodes) in *.
    assert (Hpos : (0 < inject_Z (Utils.array_length onlineNodes))%Q).
    { unfold Qlt, inject_Z. simpl. lia. }
    assert (Ha1 : (10 <= total / inject_Z (Utils.array_length onlineNodes))%Q).
    { apply Qle_shift_div_l; assumption. }
    assert (Ha2 : (total / inject_Z (Utils.array_length onlineNodes) <= 49)%Q).
    { apply Qle_shift_div_r; assumption. }
    split; [exact Ha1|]. split; [exact Ha2|].
    set (avg := (total / inject_Z (Utils.array_length onlineNodes))%Q) in *.
    unfold JS.Qmin. destruct (Qle_bool 100 (70 + avg)) eqn:E1.
    + split; [discriminate|apply Qle_refl].
    + split.
      * apply Qle_trans with (70 + 10)%Q; [discriminate|].
        apply Qplus_le_compat; [apply Qle_refl|exact Ha1].
      * apply Qlt_le_weak, Qnot_le_lt. intros H. apply Qle_bool_iff in H. congruence.
Qed.

(** X16. [getCommissionHistory] over the nodes of [getClusterNodes] of
    lib/pnode-api.ts never reports a commission of 0: the thirty
    entries carry one value between 1 and 9, which is 5 when no node has
    the requested id or when the node's own commission is 0, and their
    timestamps step back from the clock reading one day at a time. *)
Theorem reported_commission_is_never_zero (s : PnodeApi.Sources) (nodeId : string) :
  let h := FurtherMetrics.getCommissionHistory s nodeId in
  let node := List.find (fun n => String.eqb (Types.id n) nodeId)
                        (PnodeApi.getClusterNodes s) in
  exists c : Q,
    map FurtherMetrics.cp_commission (FurtherMetrics.ch_history h) = repeat c 30 /\
    (1 <= c)%Q /\ (c <= 9)%Q /\
    (node = None -> c = 5%Q) /\
    (forall n, node = Some n ->
       c = if Qeq_bool (Types.commission (Types.staking n)) 0 then 5%Q
           else Types.commission (Types.staking n)) /\
    map FurtherMetrics.cp_timestamp (FurtherMetrics.ch_history h)
    = map (fun i => PnodeApi.src_now s - Z.of_nat i * 86400000) (seq 0 30).
Proof.
  cbv zeta. unfold FurtherMetrics.getCommissionHistory, FurtherMetrics.commissionHistoryOf.
  cbv zeta. cbn [FurtherMetrics.ch_history].
  set (node := List.find _ _).
  exists (JS.or_Q (Types.commission <$> (Types.staking <$> node)) 5).
  split; [reflexivity|].
  assert (Hrange : (1 <= JS.or_Q (Types.commission <$> (Types.staking <$> node)) 5)%Q /\
                   (JS.or_Q (Types.commission <$> (Types.staking <$> node)) 5 <= 9)%Q).
  { destruct node as [n|] eqn:E; [|split; discriminate].
    subst node. apply find_some in E. destruct E as [Hin _].
    destruct (cluster_node_hash_fields s n Hin) as (h & Hh & Hc & _).
    simpl. unfold JS.or_Q. rewrite Hc.
    pose proof (Z.rem_bound_pos h 10 Hh ltac:(lia)) as Hr.
    destruct (Qeq_bool (inject_Z (Z.rem h 10)) 0) eqn:E0; [split; discriminate|].
    assert (Z.rem h 10 <> 0).
    { intros H0. rewrite H0 in E0. discriminate. }
    unfold Qle, inject_Z. simpl. lia. }
  split; [apply Hrange|]. split; [apply Hrange|].
  split; [intros ->; reflexivity|]. split.
  - intros n ->. reflexivity.
  - rewrite !map_map. apply map_ext. intros i. cbn [FurtherMetrics.cp_timestamp]. lia.
Qed.

(** ** Epochs *)

Section EpochFacts.
Import JS FurtherMetrics.

Lemma date_of_integer (q : Q) (z : Z) :
  (q == inject_Z z)%Q -> Z.abs z <= 8640000000000000 ->
  date_of (JsNum.Fin q) = Some z.
Proof.
  intros Hq Hz. unfold date_of.
  assert (H1 : Qle_bool q 8640000000000000 = true).
  { apply Qle_bool_iff. rewrite Hq. unfold Qle, inject_Z. simpl. lia. }
  assert (H2 : Qle_bool (-8640000000000000) q = true).
  { apply Qle_bool_iff. rewrite Hq. unfold Qle, inject_Z. simpl. lia. }
  rewrite H1, H2. simpl. f_equal.
  unfold Qeq, inject_Z in Hq. simpl in Hq. rewrite Z.mul_1_r in Hq.
  rewrite Hq. apply Z.quot_mul. discriminate.
Qed.

Lemma unusable_ratio_has_no_date (now : Z) (slotIndex slotsInEpoch : option Z) :
  or_Z slotsInEpoch 0 = 0 \/ slotIndex = None ->
  date_of (JsNum.sub (JsNum.of_Z now)
             (JsNum.mul (JsNum.div (num_of slotIndex) (num_of slotsInEpoch))
                        (JsNum.of_Z epochDuration))) = None.
Proof.
  intros [H|H].
  - destruct slotsInEpoch as [se|]; [|destruct slotIndex; reflexivity].
    unfold or_Z in H. destruct (se =? 0) eqn:E; [|apply Z.eqb_neq in E; lia].
    apply Z.eqb_eq in E. subst se.
    destruct slotIndex as [si|]; [|reflexivity].
    unfold num_of, JsNum.of_Z, JsNum.div. simpl JsNum.is_zero.
    destruct (JsNum.is_zero (inject_Z si)); [reflexivity|].
    destruct (JsNum.is_neg (inject_Z si)); reflexivity.
  - subst slotIndex. destruct slotsInEpoch; reflexivity.
Qed.
End EpochFacts.

(** X17. The fallback of [getEpochInfo] at a clock reading [now] that
    is not negative: the epoch starts at a multiple of the epoch
    duration of 172800000 ms, contains [now] and lasts exactly that
    long; the slots completed stay below the 432000 slots of an epoch;
    they are the milliseconds into the epoch divided by 400 and rounded
    down whenever [now] is not on a slot boundary, and that number or
    one less on a boundary, where the product of the epoch fraction and
    432000 need not reach the whole number; the progress is below
    100. *)
Theorem epoch_fallback_places_the_clock (now : Z) :
  0 <= now ->
  let i := FurtherMetrics.epochFallback now in
  let elapsed := now - FurtherMetrics.epochStartTime i in
  FurtherMetrics.epochStartTime i = 172800000 * (now / 172800000) /\
  FurtherMetrics.epochStartTime i <= now < FurtherMetrics.epochEndTime i /\
  FurtherMetrics.epochEndTime i - FurtherMetrics.epochStartTime i = 172800000 /\
  0 <= FurtherMetrics.slotsCompleted i < FurtherMetrics.totalSlots i /\
  FurtherMetrics.totalSlots i = 432000 /\
  elapsed / 400 - 1 <= FurtherMetrics.slotsCompleted i <= elapsed / 400 /\
  (elapsed mod 400 <> 0 -> FurtherMetrics.slotsCompleted i = elapsed / 400) /\
  (0 <= FurtherMetrics.epochProgress i)%Q /\ (FurtherMetrics.epochProgress i < 100)%Q.
Proof.
  intros Hnow. cbv zeta. unfold FurtherMetrics.epochFallback. cbv zeta.
  cbn [FurtherMetrics.epochStartTime FurtherMetrics.epochEndTime
       FurtherMetrics.slotsCompleted FurtherMetrics.totalSlots
       FurtherMetrics.epochProgress].
  change FurtherMetrics.epochDuration with 172800000.
  rewrite Z.rem_mod_nonneg by lia.
  pose proof (Z.mod_pos_bound now 172800000 ltac:(lia)) as Hm.
  pose proof (Z.div_mod now 172800000 ltac:(lia)) as Hdm.
  set (r := now mod 172800000) in *.
  replace (now - (now - r)) with r by lia.
  assert (Hslots : Qfloor (inject_Z r / inject_Z 172800000 * 432000) = r / 400).
  { rewrite (Zdiv_Qdiv r 400). apply Qfloor_comp.
    unfold Qeq, Qdiv, Qmult, Qinv, inject_Z. simpl. lia. }
  rewrite Hslots.
  assert (Hq : 0 <= r / 400 < 432000).
  { split; [apply Z.div_pos; lia | apply Z.div_lt_upper_bound; lia]. }
  split; [lia|]. split; [lia|]. split; [lia|]. split; [exact Hq|].
  split; [reflexivity|]. split; [lia|]. split; [reflexivity|].
  split.
  - unfold Qle, Qdiv, Qmult, Qinv, inject_Z. simpl. lia.
  - unfold Qlt, Qdiv, Qmult, Qinv, inject_Z. simpl. lia.
Qed.

Lemma epoch_fallback_places_the_clock_witness :
  FurtherMetrics.epochStartTime (FurtherMetrics.epochFallback 1700000000100)
  = 1699833600000 /\
  FurtherMetrics.slotsCompleted (FurtherMetrics.epochFallback 1700000000100) = 416000.
Proof.
  destruct (epoch_fallback_places_the_clock 1700000000100 ltac:(lia))
    as (Hstart & _ & _ & _ & _ & _ & Hslots & _).
  split.
  - rewrite Hstart. reflexivity.
  - rewrite Hslots.
    + rewrite Hstart. reflexivity.
    + rewrite Hstart. discriminate.
Defined.

(** X18. When the RPC answer of [getEpochInfo] has no [slotIndex], or
    no [slotsInEpoch] or a [slotsInEpoch] of 0, the start date of the
    epoch does not print, the [try] block throws, and the answer is the
    fallback: the default of 432000 for [totalSlots] inside the block is
    never used. *)
Theorem epoch_rpc_without_slot_count_falls_back
    (now : Z) (data : FurtherMetrics.EpochData) :
  JS.or_Z (FurtherMetrics.ed_slotsInEpoch data) 0 = 0
  \/ FurtherMetrics.ed_slotIndex data = None ->
  FurtherMetrics.epochFromRpc now data = None /\
  FurtherMetrics.getEpochInfo now (Some data) = FurtherMetrics.epochFallback now.
Proof.
  intros H.
  assert (E : FurtherMetrics.epochFromRpc now data = None).
  { unfold FurtherMetrics.epochFromRpc. cbv zeta.
    now rewrite (unusable_ratio_has_no_date now _ _ H). }
  split; [exact E|]. unfold FurtherMetrics.getEpochInfo. now rewrite E.
Qed.

Lemma epoch_rpc_without_slot_count_falls_back_witness :
  FurtherMetrics.getEpochInfo 1700000000000
    (Some {| FurtherMetrics.ed_epoch := Some 300;
             FurtherMetrics.ed_slotIndex := Some 1000;
             FurtherMetrics.ed_slotsInEpoch := Some 0;
             FurtherMetrics.ed_absoluteSlot := Some 90000000 |})
  = FurtherMetrics.epochFallback 1700000000000.
Proof.
  exact (proj2 (epoch_rpc_without_slot_count_falls_back 1700000000000
                  {| FurtherMetrics.ed_epoch := Some 300;
                     FurtherMetrics.ed_slotIndex := Some 1000;
                     FurtherMetrics.ed_slotsInEpoch := Some 0;
                     FurtherMetrics.ed_absoluteSlot := Some 90000000 |}
                  (or_introl eq_refl))).
Defined.

(** X19. When the RPC answer of [getEpochInfo] reports slot 0 of an
    epoch with a non-zero slot count, the epoch starts at the clock
    reading and ends one epoch duration later, yet the answer reports a
    progress of 50 and 200000 completed slots, the defaults that the
    falsy slot index selects; the total is the reported slot count. *)
Theorem epoch_rpc_at_slot_zero_reports_half
    (now : Z) (data : FurtherMetrics.EpochData) (slotsInEpoch : Z) :
  FurtherMetrics.ed_slotIndex data = Some 0 ->
  FurtherMetrics.ed_slotsInEpoch data = Some slotsInEpoch ->
  slotsInEpoch <> 0 ->
  -8640000000000000 <= now ->
  now + FurtherMetrics.epochDuration <= 8640000000000000 ->
  let i := FurtherMetrics.getEpochInfo now (Some data) in
  FurtherMetrics.epochStartTime i = now /\
  FurtherMetrics.epochEndTime i = now + FurtherMetrics.epochDuration /\
  FurtherMetrics.epochProgress i = 50%Q /\
  FurtherMetrics.slotsCompleted i = 200000 /\
  FurtherMetrics.totalSlots i = slotsInEpoch.
Proof.
  intros Hsi Hse Hnz Hlo Hhi. cbv zeta.
  unfold FurtherMetrics.getEpochInfo, FurtherMetrics.epochFromRpc. cbv zeta.
  rewrite Hsi, Hse. unfold FurtherMetrics.num_of, JsNum.of_Z, JsNum.div, JsNum.is_zero.
  assert (E : Qeq_bool (inject_Z slotsInEpoch) 0 = false).
  { destruct (Qeq_bool (inject_Z slotsInEpoch) 0) eqn:E; [|reflexivity].
    apply Qeq_bool_iff in E. unfold Qeq, inject_Z in E. simpl in E. lia. }
  rewrite E. cbn [JsNum.mul JsNum.sub JsNum.neg JsNum.add].
  change FurtherMetrics.epochDuration with 172800000 in *.
  rewrite (date_of_integer _ now).
  - rewrite (date_of_integer _ (now + 172800000)).
    + cbn [default FurtherMetrics.epochStartTime FurtherMetrics.epochEndTime
           FurtherMetrics.epochProgress FurtherMetrics.slotsCompleted
           FurtherMetrics.totalSlots].
      split; [reflexivity|]. split; [reflexivity|]. split; [reflexivity|].
      split; [reflexivity|].
      unfold JS.or_Z. destruct (slotsInEpoch =? 0) eqn:E0; [|reflexivity].
      apply Z.eqb_eq in E0. contradiction.
    + rewrite !Qred_correct, inject_Z_plus. unfold Qdiv. ring.
    + lia.
  - rewrite !Qred_correct. unfold Qdiv. ring.
  - lia.
Qed.

Lemma epoch_rpc_at_slot_zero_reports_half_witness :
  FurtherMetrics.epochProgress
    (FurtherMetrics.getEpochInfo 1700000000000
       (Some {| FurtherMetrics.ed_epoch := Some 300;
                FurtherMetrics.ed_slotIndex := Some 0;
                FurtherMetrics.ed_slotsInEpoch := Some 432000;
                FurtherMetrics.ed_absoluteSlot := Some 90000000 |}))
  = 50%Q.
Proof.
  assert (H : 432000 <> 0) by discriminate.
  assert (Hlo : -8640000000000000 <= 1700000000000) by discriminate.
  assert (Hhi : 1700000000000 + FurtherMetrics.epochDuration <= 8640000000000000)
    by discriminate.
  destruct (epoch_rpc_at_slot_zero_reports_half 1700000000000
              {| FurtherMetrics.ed_epoch := Some 300;
                 FurtherMetrics.ed_slotIndex := Some 0;
                 FurtherMetrics.ed_slotsInEpoch := Some 432000;
                 FurtherMetrics.ed_absoluteSlot := Some 90000000 |}
              432000 eq_refl eq_refl H Hlo Hhi) as (_ & _ & Hp & _).
  exact Hp.
Defined.

(** X20. [getEpochHistory] always lists ten epochs, numbered downwards
    from the one before the current epoch, each lasting exactly one
    epoch duration whatever the clock reads from round to round; when
    the current epoch is at least 10 the synthesized figures stay in
    their bands, and after the fallback of [getEpochInfo] the epochs are
    208 down to 199. *)
Theorem epoch_history_lists_the_ten_previous_epochs
    (clock : Z -> Z) (info : FurtherMetrics.EpochInfo) (now : Z) :
  let h := FurtherMetrics.epochHistoryOf clock info in
  map FurtherMetrics.eh_epoch h
  = map (fun i => FurtherMetrics.currentEpoch info - 1 - Z.of_nat i) (seq 0 10) /\
  List.Forall (fun e => FurtherMetrics.eh_endTime e - FurtherMetrics.eh_startTime e
                        = 172800000) h /\
  (10 <= FurtherMetrics.currentEpoch info ->
   List.Forall (fun e =>
                  400000 <= FurtherMetrics.eh_blocksProduced e < 420000 /\
                  200 <= FurtherMetrics.eh_activeNodes e < 220 /\
                  50000 <= FurtherMetrics.eh_totalRewards e < 60000 /\
                  (1.5 <= FurtherMetrics.eh_skipRate e)%Q /\
                  (FurtherMetrics.eh_skipRate e <= 4.4)%Q) h) /\
  map FurtherMetrics.eh_epoch (FurtherMetrics.getEpochHistory now clock None)
  = [208; 207; 206; 205; 204; 203; 202; 201; 200; 199].
Proof.
  cbv zeta. unfold FurtherMetrics.epochHistoryOf.
  split; [|split; [|split]].
  - rewrite !map_map. apply map_ext. intros i. cbn [FurtherMetrics.eh_epoch]. lia.
  - apply List.Forall_forall. intros e He. apply in_map_iff in He.
    destruct He as (i & <- & _). cbn [FurtherMetrics.eh_endTime FurtherMetrics.eh_startTime].
    change FurtherMetrics.epochDuration with 172800000. lia.
  - intros Hc. apply List.Forall_forall. intros e He. apply in_map_iff in He.
    destruct He as (i & <- & Hi). apply in_map_iff in Hi.
    destruct Hi as (k & <- & Hk). apply in_seq in Hk.
    cbn [FurtherMetrics.eh_blocksProduced FurtherMetrics.eh_activeNodes
         FurtherMetrics.eh_totalRewards FurtherMetrics.eh_skipRate].
    set (epoch := FurtherMetrics.currentEpoch info - Z.of_nat k - 1).
    assert (He : 0 <= epoch) by (subst epoch; lia).
    pose proof (Z.rem_bound_pos epoch 20000 He ltac:(lia)).
    pose proof (Z.rem_bound_pos epoch 20 He ltac:(lia)).
    pose proof (Z.rem_bound_pos epoch 10000 He ltac:(lia)).
    pose proof (Z.rem_bound_pos epoch 30 He ltac:(lia)).
    split; [lia|]. split; [lia|]. split; [lia|]. split.
    + unfold Qle, Qdiv, Qmult, Qinv, Qplus, inject_Z. simpl. lia.
    + unfold Qle, Qdiv, Qmult, Qinv, Qplus, inject_Z. simpl. lia.
  - reflexivity.
Qed.

(** ** The ingesting version: ranking shared objects *)

Section StoreFacts.
Import JS Types Ingest.

Lemma assignRanks_length (sorted : list Ref) (index : Z) (store : list PNode) :
  List.length (assignRanks index sorted store) = List.length store.
Proof.
  revert index store. induction sorted as [|r rest IH]; intros index store; simpl.
  - reflexivity.
  - rewrite IH. apply length_alter.
Qed.

Lemma assignRanks_untouched (sorted : list Ref) (index : Z) (store : list PNode)
    (r : Ref) :
  ~ In r sorted -> assignRanks index sorted store !! r = store !! r.
Proof.
  revert index store. induction sorted as [|r0 rest IH]; intros index store Hn; simpl.
  - reflexivity.
  - rewrite IH by (intros H; apply Hn; now right).
    apply list_lookup_alter_ne. intros ->. apply Hn. now left.
Qed.

Lemma assignRanks_ranked (sorted : list Ref) (index : Z) (store : list PNode)
    (k : nat) (r : Ref) :
  List.NoDup sorted -> sorted !! k = Some r ->
  assignRanks index sorted store !! r
  = withRank (index + Z.of_nat k + 1) <$> store !! r.
Proof.
  revert index store k. induction sorted as [|r0 rest IH]; intros index store k Hd Hk.
  - discriminate.
  - inversion Hd as [|? ? Hn Hd']; subst. simpl. destruct k as [|k]; simpl in Hk.
    + injection Hk as ->. rewrite assignRanks_untouched by exact Hn.
      rewrite list_lookup_alter_eq.
      replace (index + Z.of_nat 0 + 1) with (index + 1) by lia. reflexivity.
    + rewrite (IH _ _ k Hd' Hk).
      assert (r <> r0).
      { intros ->. apply Hn. apply list_elem_of_In. eapply list_elem_of_lookup_2.
        exact Hk. }
      rewrite list_lookup_alter_ne by congruence.
      replace (index + 1 + Z.of_nat k + 1) with (index + Z.of_nat (S k) + 1) by lia.
      reflexivity.
Qed.

Lemma assignRanks_pubkeys (sorted : list Ref) (index : Z) (store : list PNode) :
  map pubkey (assignRanks index sorted store) = map pubkey store.
Proof.
  revert index store. induction sorted as [|r rest IH]; intros index store; simpl.
  - reflexivity.
  - rewrite IH. clear IH. revert r.
    induction store as [|n store IHs]; intros [|r]; simpl; try reflexivity.
    f_equal. apply IHs.
Qed.

(** Filling two maps with the same keys keeps their entries related. *)
Lemma fill_related {V W : Type} (T : V -> W -> Prop)
    (p1 m1 : list (string * V)) (p2 m2 : list (string * W)) :
  Forall2 (fun a b => fst a = fst b /\ T (snd a) (snd b)) p1 p2 ->
  Forall2 (fun a b => fst a = fst b /\ T (snd a) (snd b)) m1 m2 ->
  Forall2 (fun a b => fst a = fst b /\ T (snd a) (snd b))
          (fold_left (fun m '(k, v) => record_set k v m) p1 m1)
          (fold_left (fun m '(k, v) => record_set k v m) p2 m2).
Proof.
  intros Hp. revert m1 m2.
  induction Hp as [|[k1 v1] [k2 v2] p1 p2 [Hk Hv] Hp IH]; intros m1 m2 Hm; simpl.
  - exact Hm.
  - simpl in Hk, Hv. subst k2. apply IH. clear IH Hp.
    induction Hm as [|[a1 b1] [a2 b2] m1 m2 [Ha Hb] Hm IHm]; simpl.
    + constructor; [split; [reflexivity|exact Hv]|constructor].
    + simpl in Ha, Hb. subst a2. destruct (String.eqb k1 a1).
      * constructor; [split; [reflexivity|exact Hv]|exact Hm].
      * constructor; [split; [reflexivity|exact Hb]|exact IHm].
Qed.

(** The references kept by the deduplication point to the nodes that
    the deduplication of the values keeps, in the same order. *)
Lemma uniqueRefs_deref (store : list PNode) :
  map (fun r => store !! r) (uniqueRefs store)
  = map Some (ServerPnodes.uniqueNodesOf store).
Proof.
  unfold uniqueRefs, ServerPnodes.uniqueNodesOf, ServerPnodes.map_of_pairs.
  set (T := fun (r : Ref) (n : PNode) => store !! r = Some n).
  assert (Hp : forall pre l, store = pre ++ l ->
             Forall2 (fun a b => fst a = fst b /\ T (snd a) (snd b))
               (imap (fun r item => (pubkey item, (List.length pre + r)%nat)) l)
               (map (fun item => (pubkey item, item)) l)).
  { intros pre l. revert pre. induction l as [|x l IH]; intros pre Hs.
    - constructor.
    - rewrite imap_cons. simpl. constructor.
      + split; [reflexivity|]. simpl. unfold T. subst store.
        rewrite Nat.add_0_r. rewrite lookup_app_r by lia.
        now rewrite Nat.sub_diag.
      + specialize (IH (pre ++ [x])). rewrite <- app_assoc in IH.
        specialize (IH Hs).
        erewrite imap_ext; [exact IH|].
        intros i y _. simpl. rewrite length_app. simpl. f_equal. lia. }
  specialize (Hp [] store eq_refl). simpl in Hp.
  pose proof (fill_related T _ [] _ [] Hp (List.Forall2_nil _)) as Hf.
  assert (Hd : forall (m1 : list (string * Ref)) (m2 : list (string * PNode)),
             Forall2 (fun a b => fst a = fst b /\ T (snd a) (snd b)) m1 m2 ->
             map (fun r => store !! r) (map snd m1) = map Some (map snd m2)).
  { intros m1 m2 H. induction H as [|[k1 r] [k2 n] m1 m2 [_ Ht] H IH]; simpl.
    - reflexivity.
    - simpl in Ht. unfold T in Ht. rewrite Ht, IH. reflexivity. }
  exact (Hd _ _ Hf).
Qed.

(** Rows read through references, place by place. *)
Lemma omap_by_place {A B C : Type} (g : A -> option C) (h : nat -> B -> C)
    (refs : list A) (vals : list B) :
  List.length refs = List.length vals ->
  (forall k r v, refs !! k = Some r -> vals !! k = Some v -> g r = Some (h k v)) ->
  omap g refs = imap h vals.
Proof.
  revert vals h. induction refs as [|r refs IH]; intros [|v vals] h Hl Hg;
    try discriminate; [reflexivity|].
  rewrite imap_cons. simpl. rewrite (Hg 0%nat r v eq_refl eq_refl). f_equal.
  apply IH; [simpl in Hl; lia|].
  intros k r' v' Hr Hv. apply (Hg (S k) r' v' Hr Hv).
Qed.

Lemma imap_mapi_from {A B : Type} (f : A -> Z -> B) (i : Z) (l : list A) :
  imap (fun k x => f x (i + Z.of_nat k)) l = mapi_from f i l.
Proof.
  revert i. induction l as [|x l IH]; intros i; [reflexivity|].
  rewrite imap_cons. simpl. rewrite Z.add_0_r. f_equal.
  rewrite <- IH. apply imap_ext. intros k y _. simpl. f_equal. lia.
Qed.
End StoreFacts.

Section RankingStoreFacts.
Import JS Types Ingest.

Lemma map_lookup {A B : Type} (f : A -> B) (l : list A) (k : nat) :
  map f l !! k = f <$> l !! k.
Proof.
  revert k. induction l as [|x l IH]; intros [|k]; simpl; try reflexivity.
  apply IH.
Qed.

(** The references after sorting point to the sorted values. *)
Lemma sorted_refs_deref (store : list PNode) :
  map (fun r => store !! r)
      (sort (fun a b => creditsAt store b - creditsAt store a) (uniqueRefs store))
  = map Some (sort DerivedMetrics.byCreditsDesc (ServerPnodes.uniqueNodesOf store)).
Proof.
  set (cmpO := fun a b : option PNode =>
                 default 0 (credits_or0 <$> b) - default 0 (credits_or0 <$> a)).
  change (fun a b => creditsAt store b - creditsAt store a)
    with (fun a b => cmpO (store !! a) (store !! b)).
  rewrite (sort_map (fun r => store !! r) cmpO), uniqueRefs_deref.
  symmetry. apply (sort_map Some cmpO).
Qed.

Lemma uniqueRefs_NoDup (store : list PNode) : List.NoDup (uniqueRefs store).
Proof.
  apply (NoDup_map_inv (fun r => default "" (pubkey <$> store !! r))).
  destruct (uniqueNodesOf_spec store) as (Hd & _).
  assert (E : map (fun r => default "" (pubkey <$> store !! r)) (uniqueRefs store)
              = map pubkey (ServerPnodes.uniqueNodesOf store)).
  { transitivity (map (fun o : option PNode => default "" (pubkey <$> o))
                      (map (fun r => store !! r) (uniqueRefs store))).
    - now rewrite map_map.
    - rewrite uniqueRefs_deref, map_map. reflexivity. }
  rewrite E. exact Hd.
Qed.

(** A reference kept by the deduplication is the last one of its
    identity. *)
Lemma uniqueRefs_last (store : list PNode) (i j : nat) (n m : PNode) :
  In i (uniqueRefs store) -> (i < j)%nat ->
  store !! i = Some n -> store !! j = Some m -> pubkey n <> pubkey m.
Proof.
  unfold uniqueRefs, ServerPnodes.map_of_pairs.
  set (pairs := imap (fun r item => (pubkey item, r)) store).
  intros Hin Hij Hi Hj. apply in_map_iff in Hin. destruct Hin as ([k r] & Hr & Hin).
  simpl in Hr. subst r.
  assert (Hd : List.NoDup (map fst (fold_left (fun m '(k, v) => record_set k v m)
                                      pairs []))).
  { apply fill_NoDup. constructor. }
  pose proof (record_get_entry _ _ _ Hd Hin) as Hg.
  rewrite fill_get in Hg. simpl in Hg.
  destruct (record_get k (rev pairs)) as [v|] eqn:E; [|discriminate].
  injection Hg as ->.
  destruct (record_get_rev_last _ _ _ E) as (front & back & Hp & Hn).
  assert (Hl : pairs !! List.length front = Some (k, i)).
  { rewrite Hp, lookup_app_r by lia. now rewrite Nat.sub_diag. }
  unfold pairs in Hl. apply list_lookup_imap_Some in Hl.
  destruct Hl as (y & Hy & Hki). injection Hki as -> ->.
  rewrite Hi in Hy. injection Hy as <-.
  intros Heq. apply Hn.
  assert (Hjp : pairs !! j = Some (pubkey m, j)).
  { unfold pairs. apply list_lookup_imap_Some. eauto. }
  rewrite Hp in Hjp. rewrite lookup_app_r in Hjp by lia.
  destruct (j - List.length front)%nat as [|d] eqn:Ed; [lia|].
  simpl in Hjp. rewrite Heq.
  change (pubkey m) with (fst (pubkey m, j)). apply in_map.
  apply list_elem_of_In. eapply list_elem_of_lookup_2. exact Hjp.
Qed.

(** Steps 3.5 to 5 of the ingestion, object by object. *)
Lemma rankAndRows_spec (now : Z) (store : list PNode) :
  let sortedNodes :=
    sort DerivedMetrics.byCreditsDesc (ServerPnodes.uniqueNodesOf store) in
  let rows := fst (rankAndRows now store) in
  let pnodes := snd (rankAndRows now store) in
  rows = mapi (fun node index => rowOf now (withRank (index + 1) node)) sortedNodes /\
  map pubkey pnodes = map pubkey store /\
  (forall row, In row rows -> exists node, In node pnodes /\ rowOf now node = row) /\
  (forall i j n m, (i < j)%nat -> store !! i = Some n -> store !! j = Some m ->
     pubkey n = pubkey m -> pnodes !! i = Some n).
Proof.
  cbv zeta. unfold rankAndRows. cbv zeta. cbn [fst snd].
  set (S := sort (fun a b => creditsAt store b - creditsAt store a) (uniqueRefs store)).
  set (sortedNodes := sort DerivedMetrics.byCreditsDesc
                        (ServerPnodes.uniqueNodesOf store)).
  pose proof (sorted_refs_deref store) as Hderef. fold S sortedNodes in Hderef.
  assert (HpermS : Permutation S (uniqueRefs store)) by apply sort_perm.
  assert (HndS : List.NoDup S).
  { eapply Permutation_NoDup; [symmetry; exact HpermS|apply uniqueRefs_NoDup]. }
  split; [|split; [|split]].
  - unfold mapi.
    rewrite <- (imap_mapi_from (fun node index => rowOf now (withRank (index + 1) node))).
    apply omap_by_place.
    + apply (f_equal (@List.length _)) in Hderef. now rewrite !length_map in Hderef.
    + intros k r v Hr Hv.
      rewrite (assignRanks_ranked S 0 store k r HndS Hr).
      assert (Hs : store !! r = Some v).
      { apply (f_equal (fun l => l !! k)) in Hderef.
        rewrite !map_lookup, Hr, Hv in Hderef. simpl in Hderef. congruence. }
      rewrite Hs. reflexivity.
  - apply assignRanks_pubkeys.
  - intros row Hrow. apply list_elem_of_In in Hrow.
    apply list_elem_of_omap in Hrow. destruct Hrow as (r & _ & Hr).
    destruct (assignRanks 0 S store !! r) as [node|] eqn:E; [|discriminate].
    injection Hr as <-. exists node. split; [|reflexivity].
    apply list_elem_of_In. eapply list_elem_of_lookup_2. exact E.
  - intros i j n m Hij Hi Hj Hpk. rewrite assignRanks_untouched; [exact Hi|].
    intros Hin. eapply Permutation_in in Hin; [|exact HpermS].
    exact (uniqueRefs_last store i j n m Hin Hij Hi Hj Hpk).
Qed.
End RankingStoreFacts.

Section IngestRun.
Import JS Types Ingest.

Lemma map_throwing_Forall {A B : Type} (f : A -> Z -> option B) (P : B -> Prop) :
  (forall x i y, f x i = Some y -> P y) ->
  forall l i ys, ServerPnodes.map_throwing f i l = Some ys -> List.Forall P ys.
Proof.
  intros Hf. induction l as [|x l IH]; simpl; intros i ys H.
  - injection H as <-. constructor.
  - destruct (f x i) as [y|] eqn:E; [|discriminate].
    destruct (ServerPnodes.map_throwing f (i + 1) l) as [ys'|] eqn:E'; [|discriminate].
    simpl in H. injection H as <-. constructor; [eapply Hf, E|eapply IH, E'].
Qed.

Lemma rows_of_a_store_not_empty (now : Z) (n : PNode) (store : list PNode) :
  (array_length (fst (rankAndRows now (n :: store))) >? 0) = true.
Proof.
  destruct (rankAndRows_spec now (n :: store)) as (-> & _).
  unfold array_length, mapi. rewrite mapi_from_length, sort_length.
  pose proof (uniqueNodesOf_not_nil n store) as Hne.
  destruct (ServerPnodes.uniqueNodesOf (n :: store)); [congruence|]. reflexivity.
Qed.

(** The calls of an ingestion that maps at least one pod, after the
    calls already logged. *)
Lemma ingest_run (e : Env) (pods : list ServerPnodes.RpcPod) (n : PNode)
    (store : list PNode) (log : list Event) :
  ServerPnodes.rpcPodsOf (env_rpc e) = Some pods ->
  mapPods e pods = Some (n :: store) ->
  ingestNodeData e log
    = let ips :=
        omap (fun ip => ip) (filter fetchable (map ServerPnodes.podIp pods)) in
      let rows := fst (rankAndRows (env_now e) (n :: store)) in
      let pnodes := snd (rankAndRows (env_now e) (n :: store)) in
      if env_upsertError e
      then (Throws,
            log ++ [EvFetchPodCredits; EvGetPods; EvGeoBatch ips; EvUpsert rows])
      else (Returns (Some pnodes),
            log ++ [EvFetchPodCredits; EvGetPods; EvGeoBatch ips; EvUpsert rows;
                    EvCount None; EvCount (Some online); EvCount (Some offline);
                    EvInsertStats (statsRowOf (env_now e) rows (env_dbTotalNodes e)
                                     (env_dbOnlineNodes e) (env_dbOfflineNodes e))]).
Proof.
  intros Hr Hm. unfold ingestNodeData, bind, emit, ret. cbv zeta.
  pose proof (rows_of_a_store_not_empty (env_now e) n store) as Hpos.
  destruct (env_rpc e) as [|l|l| |] eqn:Er; simpl in Hr; try discriminate;
    injection Hr as <-; try discriminate Hm;
    cbn -[array_length Z.gtb rankAndRows statsRowOf mapPods app]; rewrite Hm;
    destruct (rankAndRows (env_now e) (n :: store)) as [rows pnodes];
    cbn [fst snd] in Hpos |- *; rewrite Hpos; destruct (env_upsertError e);
    cbn -[statsRowOf app]; rewrite <- !app_assoc; cbn [app]; reflexivity.
Qed.

(** [getClusterNodes] without a usable snapshot hands on what the
    ingestion gives. *)
Lemma gate_without_snapshot (e : Env) :
  env_select e = SelectedError \/ env_select e = SelectedData None
  \/ env_select e = SelectedData (Some []) ->
  run (getClusterNodes e)
  = (match fst (ingestNodeData e [EvSelect]) with
     | Returns (Some nodes) => Returns nodes
     | Returns None => Returns []
     | Throws => Throws
     end, snd (ingestNodeData e [EvSelect])).
Proof.
  intros H. unfold run, getClusterNodes, bind, emit, ret. cbn [app].
  destruct H as [-> | [-> | ->]];
    destruct (ingestNodeData e [EvSelect]) as [r log']; reflexivity.
Qed.
End IngestRun.

(** X21. An ingestion that maps at least one pod and whose upsert
    succeeds ranks after sorting: the upserted rows carry pairwise
    distinct pubkeys, their credits never increase along the payload
    and their ranks read 1, 2, ... along it; every row is the row of an
    object of the returned array, which lists the objects in the order
    of the pod list. The calls are the two fetches, the geolocation
    batch, the upsert, three counting queries and the insertion of the
    statistics row. *)
Theorem ingest_ranks_after_sorting (e : Ingest.Env)
    (pods : list ServerPnodes.RpcPod) (n : Types.PNode) (store : list Types.PNode) :
  ServerPnodes.rpcPodsOf (Ingest.env_rpc e) = Some pods ->
  Ingest.mapPods e pods = Some (n :: store) ->
  Ingest.env_upsertError e = false ->
  exists ips rows stats pnodes,
    Ingest.run (Ingest.ingestNodeData e)
    = (Ingest.Returns (Some pnodes),
       [Ingest.EvFetchPodCredits; Ingest.EvGetPods; Ingest.EvGeoBatch ips;
        Ingest.EvUpsert rows; Ingest.EvCount None;
        Ingest.EvCount (Some Types.online); Ingest.EvCount (Some Types.offline);
        Ingest.EvInsertStats stats]) /\
    List.NoDup (map (fun row => Types.r_pubkey (Ingest.ir_columns row)) rows) /\
    map (fun row => Types.r_credits_rank (Ingest.ir_columns row)) rows
    = map (fun k => Some (Z.of_nat k)) (seq 1 (List.length rows)) /\
    StronglySorted (fun a b => b <= a)
      (map (fun row => JS.or_Z (Types.r_credits (Ingest.ir_columns row)) 0) rows) /\
    (forall k, In k (map (fun row => Types.r_pubkey (Ingest.ir_columns row)) rows)
               <-> In k (map Types.pubkey (n :: store))) /\
    map Types.pubkey pnodes = map Types.pubkey (n :: store) /\
    (forall row, In row rows ->
       exists node, In node pnodes /\ Ingest.rowOf (Ingest.env_now e) node = row).
Proof.
  intros Hr Hm Hu.
  pose proof (ingest_run e pods n store [] Hr Hm) as Hrun.
  rewrite Hu in Hrun. cbv zeta in Hrun. cbn [app] in Hrun.
  destruct (rankAndRows_spec (Ingest.env_now e) (n :: store))
    as (Hrows & Hpk & Hshared & _).
  destruct (uniqueNodesOf_spec (n :: store)) as (Hnd & Hkeys & _).
  set (sortedNodes := JS.sort DerivedMetrics.byCreditsDesc
                        (ServerPnodes.uniqueNodesOf (n :: store))) in *.
  assert (Hperm : Permutation sortedNodes (ServerPnodes.uniqueNodesOf (n :: store)))
    by apply sort_perm.
  exists (omap (fun ip => ip)
            (filter Ingest.fetchable (map ServerPnodes.podIp pods))),
    (fst (Ingest.rankAndRows (Ingest.env_now e) (n :: store))),
    (Ingest.statsRowOf (Ingest.env_now e)
       (fst (Ingest.rankAndRows (Ingest.env_now e) (n :: store)))
       (Ingest.env_dbTotalNodes e) (Ingest.env_dbOnlineNodes e)
       (Ingest.env_dbOfflineNodes e)),
    (snd (Ingest.rankAndRows (Ingest.env_now e) (n :: store))).
  split; [exact Hrun|].
  assert (Hp : map (fun row => Types.r_pubkey (Ingest.ir_columns row))
                 (fst (Ingest.rankAndRows (Ingest.env_now e) (n :: store)))
               = map Types.pubkey sortedNodes).
  { rewrite Hrows. unfold JS.mapi. rewrite mapi_from_map. simpl.
    apply mapi_from_const_index. }
  split; [|split; [|split; [|split; [|split]]]].
  - rewrite Hp. eapply Permutation_NoDup; [|exact Hnd].
    symmetry. now apply Permutation_map.
  - rewrite Hrows. unfold JS.mapi. rewrite mapi_from_length, mapi_from_map. simpl.
    rewrite (mapi_from_index_only (fun k => Some (k + 1))).
    rewrite <- seq_shift, map_map. apply map_ext. intros k. f_equal. lia.
  - rewrite Hrows. unfold JS.mapi. rewrite mapi_from_map. simpl.
    rewrite (mapi_from_const_index (fun x => JS.or_Z (Types.credits x) 0)).
    apply StronglySorted_map. apply (sort_desc Types.credits_or0).
  - intros k. rewrite Hp, <- Hkeys. split; intros H.
    + eapply Permutation_in; [|exact H]. now apply Permutation_map.
    + eapply Permutation_in; [|exact H]. symmetry. now apply Permutation_map.
  - exact Hpk.
  - exact Hshared.
Qed.

Lemma ingest_ranks_after_sorting_witness :
  exists ips rows stats pnodes,
    Ingest.run (Ingest.ingestNodeData (Cases.ingestEnv false))
    = (Ingest.Returns (Some pnodes),
       [Ingest.EvFetchPodCredits; Ingest.EvGetPods; Ingest.EvGeoBatch ips;
        Ingest.EvUpsert rows; Ingest.EvCount None;
        Ingest.EvCount (Some Types.online); Ingest.EvCount (Some Types.offline);
        Ingest.EvInsertStats stats]) /\
    map (fun row => Types.r_credits_rank (Ingest.ir_columns row)) rows
    = map (fun k => Some (Z.of_nat k)) (seq 1 (List.length rows)).
Proof.
  destruct (Ingest.mapPods (Cases.ingestEnv false)
              [Scenarios.barePod "X" 1700000000; Scenarios.barePod "Y" 1700000000;
               Scenarios.barePod "X" 1700000100]) as [[|n store]|] eqn:E;
    [discriminate E| |discriminate E].
  destruct (ingest_ranks_after_sorting (Cases.ingestEnv false) _ n store
              eq_refl E eq_refl)
    as (ips & rows & stats & pnodes & Hrun & _ & Hranks & _).
  exists ips, rows, stats, pnodes. exact (conj Hrun Hranks).
Defined.

Section IngestObjects.
Import JS Types Ingest.

Lemma ingest_node_shape now rpcNode creditData index geoData node :
  mapRpcNodeToPNode now rpcNode creditData index geoData = Some node ->
  pubkey node = Vocabulary.podIdentity rpcNode index /\
  creditsRank node = Some 0 /\
  status node <> degraded.
Proof.
  unfold mapRpcNodeToPNode. cbv zeta.
  destruct (negb _); [discriminate|]. intros [= <-]. cbn [pubkey creditsRank status].
  split; [reflexivity|]. split; [reflexivity|].
  destruct (_ <? 300); discriminate.
Qed.

Lemma mapPods_shape (e : Env) (pods : list ServerPnodes.RpcPod) (store : list PNode) :
  mapPods e pods = Some store ->
  map pubkey store = Vocabulary.podIdentities pods /\
  List.Forall (fun node => creditsRank node = Some 0 /\ status node <> degraded) store.
Proof.
  unfold mapPods. cbv zeta. intros H. split.
  - unfold Vocabulary.podIdentities, mapi.
    eapply map_throwing_pubkeys; [|exact H].
    intros x i node Hx. now apply ingest_node_shape in Hx.
  - eapply map_throwing_Forall; [|exact H].
    intros x i node Hx. now apply ingest_node_shape in Hx.
Qed.

(** Every identity of the store has a reference among the kept ones. *)
Lemma uniqueRefs_cover (store : list PNode) (n : PNode) :
  In n store ->
  exists r m, In r (uniqueRefs store) /\ store !! r = Some m /\ pubkey m = pubkey n.
Proof.
  intros Hin. destruct (uniqueNodesOf_spec store) as (_ & Hk & _).
  assert (Hp : In (pubkey n) (map pubkey (ServerPnodes.uniqueNodesOf store))).
  { apply Hk. now apply in_map. }
  apply in_map_iff in Hp. destruct Hp as (m & Hm & Hmin).
  apply list_elem_of_In, list_elem_of_lookup_1 in Hmin. destruct Hmin as [p Hp].
  pose proof (uniqueRefs_deref store) as Hd.
  apply (f_equal (fun l => l !! p)) in Hd. rewrite !map_lookup, Hp in Hd.
  destruct (uniqueRefs store !! p) as [r|] eqn:Er; [|discriminate].
  simpl in Hd. exists r, m. split; [|split; [congruence|exact Hm]].
  apply list_elem_of_In. eapply list_elem_of_lookup_2. exact Er.
Qed.
End IngestObjects.

(** X22. The array that an ingestion returns lists the very objects
    that were ranked, in the order of the pod list: an object whose
    identity occurs again later in the array was dropped by the
    deduplication and keeps the initial rank 0, and the last object of
    each identity carries a rank between 1 and the number of rows. *)
Theorem ingest_returns_the_ranked_objects (e : Ingest.Env)
    (pods : list ServerPnodes.RpcPod) (n : Types.PNode) (store : list Types.PNode) :
  ServerPnodes.rpcPodsOf (Ingest.env_rpc e) = Some pods ->
  Ingest.mapPods e pods = Some (n :: store) ->
  Ingest.env_upsertError e = false ->
  exists pnodes,
    fst (Ingest.run (Ingest.ingestNodeData e)) = Ingest.Returns (Some pnodes) /\
    map Types.pubkey pnodes = Vocabulary.podIdentities pods /\
    (forall i j a b, (i < j)%nat -> pnodes !! i = Some a -> pnodes !! j = Some b ->
       Types.pubkey a = Types.pubkey b -> Types.creditsRank a = Some 0) /\
    (forall j b, pnodes !! j = Some b ->
       (forall j' b', (j < j')%nat -> pnodes !! j' = Some b' ->
          Types.pubkey b' <> Types.pubkey b) ->
       exists k, Types.creditsRank b = Some k /\
                 1 <= k <= Utils.array_length
                            (fst (Ingest.rankAndRows (Ingest.env_now e) (n :: store)))).
Proof.
  intros Hr Hm Hu.
  pose proof (ingest_run e pods n store [] Hr Hm) as Hrun.
  rewrite Hu in Hrun. cbv zeta in Hrun. cbn [app] in Hrun.
  destruct (mapPods_shape e pods _ Hm) as [Hids Hshape].
  destruct (rankAndRows_spec (Ingest.env_now e) (n :: store))
    as (Hrows & Hpk & _ & Hdup).
  set (st := n :: store) in *.
  set (pnodes := snd (Ingest.rankAndRows (Ingest.env_now e) st)) in *.
  assert (Hsame : forall i a, pnodes !! i = Some a ->
                    exists m, st !! i = Some m /\ Types.pubkey m = Types.pubkey a).
  { intros i a Ha. apply (f_equal (fun l => l !! i)) in Hpk.
    rewrite !map_lookup, Ha in Hpk. simpl in Hpk.
    destruct (st !! i) as [m|]; [|discriminate]. exists m. split; [reflexivity|].
    simpl in Hpk. congruence. }
  exists pnodes. split; [unfold Ingest.run; now rewrite Hrun|].
  split; [now rewrite Hpk|]. split.
  - intros i j a b Hij Ha Hb Hab.
    destruct (Hsame i a Ha) as (m & Hmi & Hma).
    destruct (Hsame j b Hb) as (m' & Hmj & Hmb).
    assert (Hkeep : pnodes !! i = Some m).
    { apply (Hdup i j m m' Hij Hmi Hmj). congruence. }
    rewrite Ha in Hkeep. injection Hkeep as ->.
    rewrite List.Forall_forall in Hshape. apply Hshape.
    apply list_elem_of_In. eapply list_elem_of_lookup_2. exact Hmi.
  - intros j b Hb Hlast.
    destruct (Hsame j b Hb) as (m & Hmj & Hmb).
    assert (Hin : In m st).
    { apply list_elem_of_In. eapply list_elem_of_lookup_2. exact Hmj. }
    destruct (uniqueRefs_cover st m Hin) as (r & m' & Hr' & Hm' & Hpm).
    assert (Hrj : r = j).
    { destruct (Nat.lt_trichotomy r j) as [Hlt | [Heq | Hgt]]; [|exact Heq|].
      - exfalso. apply (uniqueRefs_last st r j m' m Hr' Hlt Hm' Hmj). exact Hpm.
      - exfalso.
        assert (Hlen : (r < List.length pnodes)%nat).
        { apply (f_equal (@List.length _)) in Hpk. rewrite !length_map in Hpk.
          rewrite Hpk. eapply lookup_lt_Some. exact Hm'. }
        destruct (lookup_lt_is_Some_2 pnodes r Hlen) as [b' Hb'].
        destruct (Hsame r b' Hb') as (m2 & Hm2 & Hpb').
        assert (E : Some m2 = Some m') by (rewrite <- Hm2; exact Hm').
        injection E as ->.
        apply (Hlast r b' Hgt Hb'). congruence. }
    subst r.
    set (S := JS.sort (fun a b => Ingest.creditsAt st b - Ingest.creditsAt st a)
                      (Ingest.uniqueRefs st)).
    assert (HinS : In j S).
    { eapply Permutation_in; [symmetry; apply sort_perm|exact Hr']. }
    apply list_elem_of_In, list_elem_of_lookup_1 in HinS. destruct HinS as [k Hk].
    assert (HndS : List.NoDup S).
    { eapply Permutation_NoDup; [symmetry; apply sort_perm|apply uniqueRefs_NoDup]. }
    pose proof (assignRanks_ranked S 0 st k j HndS Hk) as Hranked.
    assert (Hb2 : Some b = Ingest.withRank (0 + Z.of_nat k + 1) <$> Some m).
    { rewrite <- Hb, <- Hmj. exact Hranked. }
    simpl in Hb2. injection Hb2 as ->.
    exists (0 + Z.of_nat k + 1). split; [reflexivity|].
    assert (Hlen : List.length
                     (fst (Ingest.rankAndRows (Ingest.env_now e) st))
                   = List.length S).
    { rewrite Hrows. unfold JS.mapi. rewrite mapi_from_length.
      pose proof (sorted_refs_deref st) as Hd.
      apply (f_equal (@List.length _)) in Hd. rewrite !length_map in Hd.
      symmetry. exact Hd. }
    unfold Utils.array_length. rewrite Hlen.
    apply lookup_lt_Some in Hk. unfold Ingest.Ref in *. lia.
Qed.

Lemma ingest_returns_the_ranked_objects_witness :
  exists pnodes,
    fst (Ingest.run (Ingest.ingestNodeData (Cases.ingestEnv false)))
    = Ingest.Returns (Some pnodes) /\
    map Types.pubkey pnodes
    = Vocabulary.podIdentities
        [Scenarios.barePod "X" 1700000000; Scenarios.barePod "Y" 1700000000;
         Scenarios.barePod "X" 1700000100].
Proof.
  destruct (Ingest.mapPods (Cases.ingestEnv false)
              [Scenarios.barePod "X" 1700000000; Scenarios.barePod "Y" 1700000000;
               Scenarios.barePod "X" 1700000100]) as [[|n store]|] eqn:E;
    [discriminate E| |discriminate E].
  destruct (ingest_returns_the_ranked_objects (Cases.ingestEnv false) _ n store
              eq_refl E eq_refl) as (pnodes & Hrun & Hids & _).
  exists pnodes. exact (conj Hrun Hids).
Defined.

(** X23. When the upsert answers with an error, the ingestion throws
    it on after the upsert call: no counting query is made and no
    statistics row is written; and [getClusterNodes], which calls the
    ingestion outside any [try], throws as well when the table gave no
    snapshot. *)
Theorem ingest_upsert_error_is_thrown (e : Ingest.Env)
    (pods : list ServerPnodes.RpcPod) (n : Types.PNode) (store : list Types.PNode) :
  ServerPnodes.rpcPodsOf (Ingest.env_rpc e) = Some pods ->
  Ingest.mapPods e pods = Some (n :: store) ->
  Ingest.env_upsertError e = true ->
  exists ips rows,
    Ingest.run (Ingest.ingestNodeData e)
    = (Ingest.Throws,
       [Ingest.EvFetchPodCredits; Ingest.EvGetPods; Ingest.EvGeoBatch ips;
        Ingest.EvUpsert rows]) /\
    (Ingest.env_select e = Ingest.SelectedError
     \/ Ingest.env_select e = Ingest.SelectedData None
     \/ Ingest.env_select e = Ingest.SelectedData (Some []) ->
     Ingest.run (Ingest.getClusterNodes e)
     = (Ingest.Throws,
        [Ingest.EvSelect; Ingest.EvFetchPodCredits; Ingest.EvGetPods;
         Ingest.EvGeoBatch ips; Ingest.EvUpsert rows])).
Proof.
  intros Hr Hm Hu.
  pose proof (ingest_run e pods n store [] Hr Hm) as Hrun.
  pose proof (ingest_run e pods n store [Ingest.EvSelect] Hr Hm) as Hgate.
  rewrite Hu in Hrun, Hgate. cbv zeta in Hrun, Hgate. cbn [app] in Hrun, Hgate.
  exists (omap (fun ip => ip)
            (filter Ingest.fetchable (map ServerPnodes.podIp pods))),
    (fst (Ingest.rankAndRows (Ingest.env_now e) (n :: store))).
  split; [exact Hrun|]. intros Hsel.
  rewrite (gate_without_snapshot e Hsel), Hgate. reflexivity.
Qed.

Lemma ingest_upsert_error_is_thrown_witness :
  fst (Ingest.run (Ingest.getClusterNodes (Cases.ingestEnv true))) = Ingest.Throws.
Proof.
  destruct (Ingest.mapPods (Cases.ingestEnv true)
              [Scenarios.barePod "X" 1700000000; Scenarios.barePod "Y" 1700000000;
               Scenarios.barePod "X" 1700000100]) as [[|n store]|] eqn:E;
    [discriminate E| |discriminate E].
  destruct (ingest_upsert_error_is_thrown (Cases.ingestEnv true) _ n store
              eq_refl E eq_refl) as (ips & rows & _ & Hgate).
  rewrite (Hgate (or_intror (or_introl eq_refl))). reflexivity.
Defined.

Section IngestStats.
Import JS Types Ingest.

Lemma rows_by_status (rows : list IngestRow) :
  List.Forall (fun r => r_status (ir_columns r) <> degraded) rows ->
  rowsWithStatus online rows + rowsWithStatus offline rows = array_length rows /\
  0 <= rowsWithStatus online rows.
Proof.
  unfold rowsWithStatus, array_length. induction 1 as [|r rows Hr Hrows IH].
  - simpl. lia.
  - rewrite !filter_cons. cbn [List.length].
    destruct (r_status (ir_columns r)); simpl in *; try contradiction; lia.
Qed.

Lemma rows_never_degraded (e : Env) (pods : list ServerPnodes.RpcPod)
    (store : list PNode) :
  mapPods e pods = Some store ->
  List.Forall (fun r => r_status (ir_columns r) <> degraded)
              (fst (rankAndRows (env_now e) store)).
Proof.
  intros Hm. destruct (mapPods_shape e pods store Hm) as [_ Hshape].
  destruct (rankAndRows_spec (env_now e) store) as (-> & _).
  apply List.Forall_forall. intros row Hrow. unfold mapi in Hrow.
  apply mapi_from_In in Hrow. destruct Hrow as (node & k & Hin & _ & ->).
  simpl. eapply Permutation_in in Hin; [|apply sort_perm].
  destruct (uniqueNodesOf_spec store) as (_ & _ & Hlast).
  destruct (Hlast node Hin) as (front & back & Hs & _).
  rewrite List.Forall_forall in Hshape. apply Hshape.
  rewrite Hs. apply in_or_app. right. now left.
Qed.
End IngestStats.

(** X24. When the three counting queries of an ingestion give no
    count, the statistics row falls back on the payload: total_nodes
    is the number of rows, online_nodes and offline_nodes add up to it
    because this version never marks a node as degraded, and
    network_health is the online share in percent, between 0 and
    100. *)
Theorem ingest_statistics_fall_back_on_the_rows (e : Ingest.Env)
    (pods : list ServerPnodes.RpcPod) (n : Types.PNode) (store : list Types.PNode) :
  ServerPnodes.rpcPodsOf (Ingest.env_rpc e) = Some pods ->
  Ingest.mapPods e pods = Some (n :: store) ->
  Ingest.env_upsertError e = false ->
  Ingest.env_dbTotalNodes e = None ->
  Ingest.env_dbOnlineNodes e = None ->
  Ingest.env_dbOfflineNodes e = None ->
  exists rows stats,
    In (Ingest.EvUpsert rows) (snd (Ingest.run (Ingest.ingestNodeData e))) /\
    last (snd (Ingest.run (Ingest.ingestNodeData e)))
    = Some (Ingest.EvInsertStats stats) /\
    Ingest.total_nodes stats = Utils.array_length rows /\
    0 < Ingest.total_nodes stats /\
    Ingest.online_nodes stats + Ingest.offline_nodes stats = Ingest.total_nodes stats /\
    (Ingest.network_health stats
     == inject_Z (Ingest.online_nodes stats) / inject_Z (Ingest.total_nodes stats) * 100)%Q /\
    (0 <= Ingest.network_health stats)%Q /\ (Ingest.network_health stats <= 100)%Q.
Proof.
  intros Hr Hm Hu Ht Hon Hoff.
  pose proof (ingest_run e pods n store [] Hr Hm) as Hrun.
  rewrite Hu in Hrun. cbv zeta in Hrun. cbn [app] in Hrun.
  pose proof (rows_never_degraded e pods _ Hm) as Hnd.
  pose proof (rows_of_a_store_not_empty (Ingest.env_now e) n store) as Hpos.
  set (rows := fst (Ingest.rankAndRows (Ingest.env_now e) (n :: store))) in *.
  destruct (rows_by_status rows Hnd) as [Hsplit Hon0].
  rewrite Z.gtb_ltb in Hpos. apply Z.ltb_lt in Hpos.
  exists rows, (Ingest.statsRowOf (Ingest.env_now e) rows None None None).
  unfold Ingest.run. rewrite Hrun, Ht, Hon, Hoff. cbn [snd].
  split; [simpl; tauto|]. split; [reflexivity|].
  unfold Ingest.statsRowOf. cbv zeta.
  cbn [default Ingest.total_nodes Ingest.online_nodes Ingest.offline_nodes
       Ingest.network_health].
  split; [reflexivity|]. split; [exact Hpos|]. split; [exact Hsplit|].
  assert (E : (Utils.array_length rows >? 0) = true).
  { rewrite Z.gtb_ltb. now apply Z.ltb_lt. }
  rewrite E. split; [reflexivity|].
  assert (HposQ : (0 < inject_Z (Utils.array_length rows))%Q).
  { unfold Qlt, inject_Z. simpl. lia. }
  assert (Hle : Ingest.rowsWithStatus Types.online rows <= Utils.array_length rows).
  { pose proof (rows_by_status rows Hnd) as [H1 _].
    assert (0 <= Ingest.rowsWithStatus Types.offline rows).
    { unfold Ingest.rowsWithStatus, Utils.array_length. lia. }
    lia. }
  split.
  - apply Qmult_le_0_compat; [|discriminate].
    apply Qle_shift_div_l; [exact HposQ|]. rewrite Qmult_0_l.
    unfold Qle, inject_Z. cbn [Qnum Qden]. lia.
  - apply Qle_trans with (1 * 100)%Q; [|discriminate].
    apply Qmult_le_compat_r; [|discriminate].
    apply Qle_shift_div_r; [exact HposQ|]. rewrite Qmult_1_l.
    unfold Qle, inject_Z. cbn [Qnum Qden]. lia.
Qed.

Lemma ingest_statistics_fall_back_on_the_rows_witness :
  exists rows stats,
    In (Ingest.EvUpsert rows)
       (snd (Ingest.run (Ingest.ingestNodeData (Cases.ingestEnv false)))) /\
    last (snd (Ingest.run (Ingest.ingestNodeData (Cases.ingestEnv false))))
    = Some (Ingest.EvInsertStats stats) /\
    Ingest.online_nodes stats + Ingest.offline_nodes stats = Ingest.total_nodes stats.
Proof.
  destruct (Ingest.mapPods (Cases.ingestEnv false)
              [Scenarios.barePod "X" 1700000000; Scenarios.barePod "Y" 1700000000;
               Scenarios.barePod "X" 1700000100]) as [[|n store]|] eqn:E;
    [discriminate E| |discriminate E].
  destruct (ingest_statistics_fall_back_on_the_rows (Cases.ingestEnv false) _ n store
              eq_refl E eq_refl eq_refl eq_refl eq_refl)
    as (rows & stats & Hup & Hlast & _ & _ & Hsum & _).
  exists rows, stats. exact (conj Hup (conj Hlast Hsum)).
Defined.

(** ** The ledger-driven merge of features/pnodes/services *)

Section LedgerMergeFacts.
Import JS Types Features.

Lemma map_throwing_fails {A B : Type} (f : A -> Z -> option B) (P : A -> Prop) :
  (forall x k, f x k = None <-> P x) ->
  forall l i, ServerPnodes.map_throwing f i l = None <-> List.Exists P l.
Proof.
  intros Hf. induction l as [|x l IH]; simpl; intros i.
  - split; [discriminate|]. intros H. inversion H.
  - destruct (f x i) as [y|] eqn:E.
    + destruct (ServerPnodes.map_throwing f (i + 1) l) as [ys|] eqn:E'; simpl.
      * split; [discriminate|]. intros H. inversion H as [? ? Hx|? ? Hl]; subst.
        -- apply Hf with (k := i) in Hx. congruence.
        -- apply (IH (i + 1)) in Hl. congruence.
      * split; [|reflexivity]. intros _. apply List.Exists_cons_tl.
        now apply (IH (i + 1)).
    + split; [|reflexivity]. intros _. apply List.Exists_cons_hd.
      now apply (Hf x i).
Qed.

Lemma map_throwing_fields {A B C : Type} (f : A -> Z -> option B) (g : B -> C)
    (h : A -> Z -> C) :
  (forall x k y, f x k = Some y -> g y = h x k) ->
  forall l i ys, ServerPnodes.map_throwing f i l = Some ys ->
    map g ys = mapi_from h i l.
Proof.
  intros Hf. induction l as [|x l IH]; simpl; intros i ys H.
  - now injection H as <-.
  - destruct (f x i) as [y|] eqn:E; [|discriminate].
    destruct (ServerPnodes.map_throwing f (i + 1) l) as [ys'|] eqn:E'; [|discriminate].
    simpl in H. injection H as <-. simpl.
    now rewrite (Hf _ _ _ E), (IH _ _ E').
Qed.

Lemma mergePod_throws (i : MergeInput) (pc : PodCredit) (index : Z) :
  mergePod i pc index = None <->
  record_get (pod_id pc) (in_mergedData i) = None /\
  exists geo, in_geoBatch i !! generateDeterministicIP (pod_id pc) = Some geo /\
              geo_success geo = true.
Proof.
  unfold mergePod. cbv zeta.
  destruct (record_get (pod_id pc) (in_mergedData i)) as [r|] eqn:Er; simpl.
  - split; [|intros [H _]; discriminate].
    destruct (in_geoBatch i !! _) as [geo|]; [|discriminate].
    destruct (geo_success geo); discriminate.
  - destruct (in_geoBatch i !! generateDeterministicIP (pod_id pc)) as [geo|] eqn:Eg.
    + destruct (geo_success geo) eqn:Es.
      * split; [|reflexivity]. intros _. split; [reflexivity|]. eauto.
      * split; [discriminate|]. intros [_ (g & [= <-] & Hs)]. congruence.
    + split; [discriminate|]. intros [_ (g & Hg & _)]. discriminate.
Qed.

Lemma mergePod_fields (i : MergeInput) (pc : PodCredit) (index : Z) (node : PNode) :
  mergePod i pc index = Some node ->
  (creditsRank node, credits node) = (Some (index + 1), Some (pc_credits pc)).
Proof.
  unfold mergePod. cbv zeta.
  destruct (in_geoBatch i !! _) as [geo|].
  - destruct (geo_success geo).
    + destruct (record_get _ _); [|discriminate]. now intros [= <-].
    + now intros [= <-].
  - now intros [= <-].
Qed.
End LedgerMergeFacts.

(** X25. The ledger-driven merge of features/pnodes/services throws
    exactly when the ledger names an identity that the cluster map does
    not hold while the geolocation batch has a successful answer under
    the address synthesized for it: the location is then assigned to a
    missing entry. Otherwise it lists one node per ledger entry in
    ledger order, with the credits of the entry and the rank of its
    place, 1, 2, ..., without sorting. *)
Theorem ledger_merge_throws_on_a_located_stranger
    (i : Features.MergeInput) (pcs : list Types.PodCredit) :
  Features.in_podCredits i = Some {| Types.pods_credits := Some pcs |} ->
  (Features.mergeFallback i = None <->
   List.Exists
     (fun pc =>
        JS.record_get (Types.pod_id pc) (Features.in_mergedData i) = None /\
        exists geo,
          Features.in_geoBatch i !! Utils.generateDeterministicIP (Types.pod_id pc)
          = Some geo /\
          Features.geo_success geo = true) pcs) /\
  (forall merged, Features.mergeFallback i = Some merged ->
     map Types.pubkey merged = map Types.pod_id pcs /\
     map Types.credits merged = map (fun pc => Some (Types.pc_credits pc)) pcs /\
     map Types.creditsRank merged
     = map (fun k => Some (Z.of_nat k)) (seq 1 (List.length pcs))).
Proof.
  intros Hl. unfold Features.mergeFallback. rewrite Hl. split.
  - apply map_throwing_fails. intros pc k. apply mergePod_throws.
  - intros merged Hm.
    pose proof (map_throwing_fields (Features.mergePod i)
                  (fun n => (Types.creditsRank n, Types.credits n))
                  (fun pc k => (Some (k + 1), Some (Types.pc_credits pc)))
                  (mergePod_fields i) pcs 0 merged Hm) as Hf.
    split; [|split].
    + eapply map_throwing_pod_ids; [|exact Hm]. intros x k n. apply mergePod_pubkey.
    + transitivity (map snd (map (fun n => (Types.creditsRank n, Types.credits n))
                                 merged)); [now rewrite map_map|].
      rewrite Hf, mapi_from_map. simpl. apply mapi_from_const_index.
    + transitivity (map fst (map (fun n => (Types.creditsRank n, Types.credits n))
                                 merged)); [now rewrite map_map|].
      rewrite Hf, mapi_from_map. simpl.
      rewrite (mapi_from_index_only (fun k => Some (k + 1))).
      rewrite <- seq_shift, map_map. apply map_ext. intros k. f_equal. lia.
Qed.

Lemma ledger_merge_throws_on_a_located_stranger_witness :
  Features.mergeFallback Cases.strangerInput = None /\
  exists merged, Features.mergeFallback Scenarios.ledgerDriven = Some merged /\
                 map Types.creditsRank merged = [Some 1; Some 2].
Proof.
  split.
  - apply (proj1 (ledger_merge_throws_on_a_located_stranger Cases.strangerInput _
                    eq_refl)).
    apply List.Exists_cons_tl, List.Exists_cons_hd. split; [reflexivity|].
    eexists. split; reflexivity.
  - destruct (Features.mergeFallback Scenarios.ledgerDriven) as [merged|] eqn:E;
      [|discriminate E].
    exists merged. split; [reflexivity|].
    exact (proj2 (proj2 (proj2 (ledger_merge_throws_on_a_located_stranger
                                  Scenarios.ledgerDriven _ eq_refl) merged E))).
Defined.

(** ** Geolocation in batches *)

Section GeoBatchFacts.
Import JS Types GeoBatch Terms.

Lemma chunksFrom_spec (rounds : nat) (l : list string) :
  (List.length l <= rounds)%nat ->
  concat (chunksFrom rounds l) = l /\
  List.Forall (fun chunk => (1 <= List.length chunk <= 100)%nat) (chunksFrom rounds l).
Proof.
  revert l. induction rounds as [|rounds IH]; intros l Hl.
  - destruct l; [|simpl in Hl; lia]. split; [reflexivity|constructor].
  - destruct l as [|x l]; [split; [reflexivity|constructor]|].
    cbn [chunksFrom].
    destruct (IH (skipn 100 (x :: l))) as [Hc Hf].
    { rewrite length_skipn. simpl in *. lia. }
    split.
    + cbn [concat]. rewrite Hc. apply firstn_skipn.
    + constructor; [|exact Hf]. rewrite length_firstn. cbn [List.length]. lia.
Qed.

Lemma keep_settled cache (s : State) (item : GeoItem) :
  settled cache s -> settled cache (keep s item) /\ requests (keep s item) = requests s.
Proof.
  intros [Hr Hc]. unfold keep. destruct (usable item) as [q|]; [|now split].
  split; [|reflexivity]. split; cbn [results geoCache].
  - intros k g. destruct (decide (k = q)) as [->|Hne].
    + now rewrite !lookup_insert_eq.
    + rewrite !lookup_insert_ne by congruence. apply Hr.
  - intros k Hk. destruct (decide (k = q)) as [->|Hne].
    + rewrite lookup_insert_eq. eauto.
    + rewrite lookup_insert_ne by congruence. now apply Hc.
Qed.

Lemma keep_fold_settled cache (items : list GeoItem) (s : State) :
  settled cache s ->
  settled cache (fold_left keep items s) /\
  requests (fold_left keep items s) = requests s.
Proof.
  revert s. induction items as [|item items IH]; intros s Hs; simpl; [now split|].
  destruct (keep_settled cache s item Hs) as [Hs' Hr'].
  destruct (IH _ Hs') as [Hs'' Hr'']. split; [exact Hs''|congruence].
Qed.

Lemma postChunk_settled cache service (s : State) (chunk : list string) :
  settled cache s ->
  settled cache (postChunk service s chunk) /\
  requests (postChunk service s chunk) = requests s ++ [chunk].
Proof.
  intros Hs. unfold postChunk. cbv zeta.
  set (posted := {| geoCache := geoCache s; results := results s;
                    requests := requests s ++ [chunk] |}).
  assert (Hp : settled cache posted) by exact Hs.
  destruct (service _ chunk) as [| | |items]; try (now split).
  destruct (keep_fold_settled cache items posted Hp) as [H1 H2]. now split.
Qed.

Lemma postChunk_fold_settled cache service (chunks : list (list string)) (s : State) :
  settled cache s ->
  settled cache (fold_left (postChunk service) chunks s) /\
  requests (fold_left (postChunk service) chunks s) = requests s ++ chunks.
Proof.
  revert s. induction chunks as [|chunk chunks IH]; intros s Hs; simpl.
  - split; [exact Hs|now rewrite app_nil_r].
  - destruct (postChunk_settled cache service s chunk Hs) as [Hs' Hr'].
    destruct (IH _ Hs') as [Hs'' Hr'']. split; [exact Hs''|].
    rewrite Hr'', Hr', <- app_assoc. reflexivity.
Qed.

Lemma fromCache_fold cache (ips : list string) (s : State) :
  settled cache s ->
  let s' := fold_left fromCache ips s in
  settled cache s' /\ requests s' = requests s /\ geoCache s' = geoCache s /\
  (forall ip, In ip ips -> results s' !! ip = geoCache s !! ip).
Proof.
  revert s. induction ips as [|ip ips IH]; intros s Hs; cbv zeta; simpl.
  - split; [exact Hs|]. split; [reflexivity|]. split; [reflexivity|].
    intros ip [].
  - assert (Hs1 : settled cache (fromCache s ip) /\
                  requests (fromCache s ip) = requests s /\
                  geoCache (fromCache s ip) = geoCache s /\
                  results (fromCache s ip) !! ip = geoCache s !! ip).
    { unfold fromCache. destruct (geoCache s !! ip) as [g|] eqn:E.
      - split; [|split; [reflexivity|split; [reflexivity|]]].
        + destruct Hs as [Hr Hc]. split; cbn [results geoCache]; [|exact Hc].
          intros k g'. destruct (decide (k = ip)) as [->|Hne].
          * rewrite lookup_insert_eq. congruence.
          * rewrite lookup_insert_ne by congruence. apply Hr.
        + cbn [results]. now rewrite lookup_insert_eq.
      - split; [exact Hs|]. split; [reflexivity|]. split; [reflexivity|].
        destruct Hs as [Hr _]. destruct (results s !! ip) as [g|] eqn:Er; [|congruence].
        apply Hr in Er. congruence. }
    destruct Hs1 as (Hs' & Hr' & Hg' & Hip).
    destruct (IH _ Hs') as (Hs'' & Hr'' & Hg'' & Hall). cbv zeta in *.
    split; [exact Hs''|]. split; [congruence|]. split; [congruence|].
    intros ip' [<-|Hin].
    + destruct (in_dec string_dec ip ips) as [Hin|Hout].
      * rewrite (Hall ip Hin). now rewrite Hg'.
      * rewrite <- Hip. clear -Hout.
        generalize (fromCache s ip). induction ips as [|x ips IHi]; intros t.
        -- reflexivity.
        -- simpl. rewrite IHi by (intros H; apply Hout; now right).
           unfold fromCache. destruct (geoCache t !! x); [|reflexivity].
           cbn [results]. rewrite lookup_insert_ne; [reflexivity|].
           intros ->. apply Hout. now left.
    + rewrite (Hall ip' Hin). now rewrite Hg'.
Qed.
End GeoBatchFacts.

(** X26. [fetchBatchGeolocation] of the ingesting version posts the
    addresses that the cache does not hold, in their order, in requests
    of 1 to 100 addresses, and never posts a cached address; whatever
    the service answers, the record returned agrees with the cache at
    every requested address, holds cache entries only, and the cache
    loses no key. *)
Theorem geolocation_is_fetched_in_batches
    (service : nat -> list string -> GeoBatch.BatchAnswer)
    (cache : gmap string Types.GeolocationData) (ips : list string) :
  let s := GeoBatch.fetchBatchGeolocation service cache ips in
  concat (GeoBatch.requests s)
  = List.filter (fun ip => negb (bool_decide (is_Some (cache !! ip)))) ips /\
  List.Forall (fun chunk => (1 <= List.length chunk <= 100)%nat) (GeoBatch.requests s) /\
  (forall ip, In ip ips -> GeoBatch.results s !! ip = GeoBatch.geoCache s !! ip) /\
  (forall k g, GeoBatch.results s !! k = Some g -> GeoBatch.geoCache s !! k = Some g) /\
  (forall k, is_Some (cache !! k) -> is_Some (GeoBatch.geoCache s !! k)).
Proof.
  cbv zeta. unfold GeoBatch.fetchBatchGeolocation. cbv zeta.
  set (uncachedIps := List.filter _ ips).
  set (start := {| GeoBatch.geoCache := cache; GeoBatch.results := ∅;
                   GeoBatch.requests := [] |}).
  assert (Hstart : Terms.settled cache start).
  { split.
    - intros k g H. unfold start in H. cbn [GeoBatch.results] in H.
      rewrite lookup_empty in H. discriminate.
    - intros k H. exact H. }
  destruct (postChunk_fold_settled cache service (GeoBatch.chunksOf uncachedIps)
              start Hstart) as [Hposted Hreq].
  destruct (fromCache_fold cache ips _ Hposted) as (Hs & Hr & Hg & Hall).
  cbv zeta in Hs, Hr, Hg, Hall.
  destruct (chunksFrom_spec (List.length uncachedIps) uncachedIps (Nat.le_refl _))
    as [Hconcat Hsizes].
  rewrite Hr, Hreq. cbn [GeoBatch.requests app].
  split; [exact Hconcat|]. split; [exact Hsizes|]. split.
  - intros ip Hin. rewrite (Hall ip Hin), Hg. reflexivity.
  - exact Hs.
Qed.

(** ** The map of cluster nodes and vote accounts *)

Section MergedFacts.
Import JS Types FeaturesMerged.

Lemma cluster_phase (clusterNodes : list ClusterNode) (m : list (string * PartialNode)) :
  List.NoDup (map fst m) ->
  (forall k p, record_get k m = Some p ->
     pn_pubkey p = k /\ is_Some (pn_ip p) /\ pn_staking p = None /\ pn_location p = None) ->
  let m' := fold_left addClusterNode clusterNodes m in
  List.NoDup (map fst m') /\
  (forall k, In k (map fst m') <-> In k (map fst m) \/ In k (map cn_pubkey clusterNodes)) /\
  (forall k p, record_get k m' = Some p ->
     pn_pubkey p = k /\ is_Some (pn_ip p) /\ pn_staking p = None /\ pn_location p = None).
Proof.
  revert m. induction clusterNodes as [|node nodes IH]; intros m Hd He; cbv zeta.
  - simpl. split; [exact Hd|]. split; [intuition|exact He].
  - cbn [fold_left]. destruct (IH (addClusterNode m node)) as (Hd' & Hk' & He').
    + apply record_set_NoDup, Hd.
    + intros k p. unfold addClusterNode. cbv zeta. rewrite record_get_set.
      destruct (String.eqb k (cn_pubkey node)) eqn:E; [|apply He].
      apply String.eqb_eq in E. intros [= <-]. simpl. eauto.
    + split; [exact Hd'|]. split; [|exact He'].
      intros k. rewrite Hk'. unfold addClusterNode. cbv zeta.
      rewrite record_set_keys. simpl. intuition.
Qed.

Lemma record_get_keys {V : Type} (k : string) (m : list (string * V)) :
  is_Some (record_get k m) <-> In k (map fst m).
Proof.
  induction m as [|[k0 v0] m IH]; simpl.
  - split; [intros [x Hx]; discriminate|intros []].
  - destruct (String.eqb k k0) eqn:E.
    + apply String.eqb_eq in E. subst k0. split; [now left|eauto].
    + apply String.eqb_neq in E. rewrite IH. split; [now right|].
      intros [H|H]; [congruence|exact H].
Qed.

Lemma vote_phase (cluster : list string) (votes : list VoteAccount)
    (m : list (string * PartialNode)) (seen : list string) :
  List.NoDup (map fst m) ->
  (forall k, In k (map fst m) <-> In k cluster \/ In k seen) ->
  (forall k p, record_get k m = Some p ->
     pn_pubkey p = k /\ (is_Some (pn_ip p) <-> In k cluster) /\
     (is_Some (pn_staking p) <-> In k seen) /\ pn_location p = None) ->
  let m' := fold_left addVoteAccount votes m in
  List.NoDup (map fst m') /\
  (forall k, In k (map fst m') <->
     In k cluster \/ In k (seen ++ map va_nodePubkey votes)) /\
  (forall k p, record_get k m' = Some p ->
     pn_pubkey p = k /\ (is_Some (pn_ip p) <-> In k cluster) /\
     (is_Some (pn_staking p) <-> In k (seen ++ map va_nodePubkey votes)) /\
     pn_location p = None).
Proof.
  revert m seen. induction votes as [|va votes IH]; intros m seen Hd Hk He; cbv zeta.
  - simpl. split; [exact Hd|]. split.
    + intros k. rewrite app_nil_r. apply Hk.
    + intros k p H. rewrite app_nil_r. now apply He.
  - cbn [fold_left map].
    destruct (IH (addVoteAccount m va) (seen ++ [va_nodePubkey va])) as (Hd' & Hk' & He').
    + apply record_set_NoDup, Hd.
    + intros k. unfold addVoteAccount. cbv zeta. rewrite record_set_keys, Hk.
      rewrite in_app_iff. simpl. intuition.
    + intros k p. unfold addVoteAccount. cbv zeta. rewrite record_get_set.
      destruct (String.eqb k (va_nodePubkey va)) eqn:E.
      * apply String.eqb_eq in E. subst k. intros [= <-]. cbn [pn_pubkey pn_ip
          pn_staking pn_location].
        destruct (record_get (va_nodePubkey va) m) as [q|] eqn:Eq; simpl.
        -- destruct (He _ _ Eq) as (H1 & H2 & H3 & H4).
           split; [exact H1|]. split; [exact H2|]. split; [|exact H4].
           split; [intros _; apply in_or_app; right; now left|eauto].
        -- split; [reflexivity|]. split.
           ++ split; [intros [x Hx]; discriminate|].
              intros Hc. exfalso.
              assert (Hin : In (va_nodePubkey va) (map fst m)) by (apply Hk; now left).
              apply record_get_keys in Hin. rewrite Eq in Hin.
              destruct Hin as [x Hx]. discriminate.
           ++ split; [|reflexivity].
              split; [intros _; apply in_or_app; right; now left|eauto].
      * apply String.eqb_neq in E. intros Hp.
        destruct (He _ _ Hp) as (H1 & H2 & H3 & H4).
        split; [exact H1|]. split; [exact H2|]. split; [|exact H4].
        rewrite H3, in_app_iff. simpl. split; [now left|].
        intros [H|[H|[]]]; [exact H|congruence].
    + split; [exact Hd'|]. split.
      * intros k. rewrite Hk', <- app_assoc. reflexivity.
      * intros k p Hp. destruct (He' k p Hp) as (H1 & H2 & H3 & H4).
        rewrite <- app_assoc in H3. auto.
Qed.
End MergedFacts.

(** X27. The map that [getMergedNodeData] builds holds each identity
    once; its keys are the pubkeys of the cluster nodes and the node
    pubkeys of the vote accounts; an entry carries its key as pubkey,
    an address exactly when a cluster node has the key, staking figures
    exactly when a vote account has it, and no location. *)
Theorem merged_node_data_joins_cluster_and_votes
    (clusterNodes : list Features.ClusterNode)
    (voteAccounts : option FeaturesMerged.VoteAccountsResponse) :
  let m := FeaturesMerged.getMergedNodeData clusterNodes voteAccounts in
  let voters :=
    match voteAccounts with
    | Some votes =>
        map FeaturesMerged.va_nodePubkey
            (FeaturesMerged.va_current votes ++ FeaturesMerged.va_delinquent votes)
    | None => []
    end in
  List.NoDup (map fst m) /\
  (forall k, In k (map fst m) <->
     In k (map Features.cn_pubkey clusterNodes) \/ In k voters) /\
  (forall k p, JS.record_get k m = Some p ->
     Features.pn_pubkey p = k /\
     (is_Some (Features.pn_ip p) <-> In k (map Features.cn_pubkey clusterNodes)) /\
     (is_Some (Features.pn_staking p) <-> In k voters) /\
     Features.pn_location p = None).
Proof.
  cbv zeta. unfold FeaturesMerged.getMergedNodeData. cbv zeta.
  destruct (cluster_phase clusterNodes []) as (Hd & Hk & He).
  { constructor. }
  { intros k p H. discriminate. }
  cbv zeta in Hd, Hk, He.
  set (nodeMap := fold_left FeaturesMerged.addClusterNode clusterNodes []) in *.
  assert (Hk0 : forall k, In k (map fst nodeMap)
                          <-> In k (map Features.cn_pubkey clusterNodes) \/ In k []).
  { intros k. rewrite Hk. simpl. intuition. }
  assert (He0 : forall k p, JS.record_get k nodeMap = Some p ->
                  Features.pn_pubkey p = k /\
                  (is_Some (Features.pn_ip p)
                   <-> In k (map Features.cn_pubkey clusterNodes)) /\
                  (is_Some (Features.pn_staking p) <-> In k []) /\
                  Features.pn_location p = None).
  { intros k p Hp. destruct (He k p Hp) as (H1 & H2 & H3 & H4).
    split; [exact H1|]. split; [|split; [|exact H4]].
    - split; [|intros _; exact H2]. intros _.
      assert (Hs : is_Some (JS.record_get k nodeMap)) by eauto.
      apply record_get_keys, Hk in Hs. destruct Hs as [[]|Hs]. exact Hs.
    - rewrite H3. split; [intros [x Hx]; discriminate|intros []]. }
  destruct voteAccounts as [votes|].
  - exact (vote_phase (map Features.cn_pubkey clusterNodes)
             (FeaturesMerged.va_current votes ++ FeaturesMerged.va_delinquent votes)
             nodeMap [] Hd Hk0 He0).
  - split; [exact Hd|]. split; [exact Hk0|exact He0].
Qed.

(** ** The staking statistics route *)

Section StakingFacts.
Import JS Types StakingRoute.

Lemma or_Q_same (q : Q) : (or_Q (Some q) 0 == q)%Q.
Proof.
  unfold or_Q. destruct (Qeq_bool q 0) eqn:E; [|reflexivity].
  apply Qeq_bool_iff in E. now rewrite E.
Qed.

Lemma totals_bounds (nodes : list PNode) (t : Totals) :
  List.Forall (fun n => (0 <= activatedStake (staking n))%Q) nodes ->
  (0 <= activeStake t)%Q -> (activeStake t <= totalStake t)%Q ->
  let t' := fold_left addNode nodes t in
  (0 <= activeStake t')%Q /\ (activeStake t' <= totalStake t')%Q.
Proof.
  intros Hn. revert t. induction Hn as [|n nodes Hs Hn IH]; intros t H0 H1; cbv zeta.
  - simpl. now split.
  - cbn [fold_left]. apply IH; unfold addNode; cbv zeta; cbn [activeStake totalStake].
    + destruct (Status_eqb (status n) online); [|exact H0].
      rewrite or_Q_same. now apply Q_sum_nonneg.
    + destruct (Status_eqb (status n) online); rewrite !or_Q_same.
      * apply Qplus_le_compat; [exact H1|apply Qle_refl].
      * apply Qle_trans with (totalStake t + 0)%Q.
        -- rewrite Qplus_0_r. exact H1.
        -- apply Qplus_le_compat; [apply Qle_refl|exact Hs].
Qed.

Lemma totals_zero (nodes : list PNode) (t : Totals) :
  List.Forall (fun n => activatedStake (staking n) = 0%Q /\
                        delegatedStake (staking n) = 0%Q) nodes ->
  fold_left addNode nodes t
  = {| totalStake := fold_left (fun acc _ => (acc + 0)%Q) nodes (totalStake t);
       activeStake :=
         fold_left (fun acc n => if Status_eqb (status n) online
                                 then (acc + 0)%Q else acc) nodes (activeStake t);
       delegatorCount := fold_left (fun acc _ => (acc + 0)%Q) nodes (delegatorCount t) |}.
Proof.
  intros Hn. revert t. induction Hn as [|n nodes [Ha Hd] Hn IH]; intros t.
  - destruct t; reflexivity.
  - cbn [fold_left]. rewrite IH. unfold addNode. cbv zeta.
    cbn [totalStake activeStake delegatorCount]. rewrite Ha, Hd. reflexivity.
Qed.

Lemma fold_add_zero {A : Type} (l : list A) (q : Q) :
  (fold_left (fun acc _ => (acc + 0)%Q) l q == q)%Q.
Proof.
  revert q. induction l as [|x l IH]; intros q; simpl; [reflexivity|].
  rewrite IH. ring.
Qed.

Lemma fold_add_zero_if {A : Type} (P : A -> bool) (l : list A) (q : Q) :
  (fold_left (fun acc x => if P x then (acc + 0)%Q else acc) l q == q)%Q.
Proof.
  revert q. induction l as [|x l IH]; intros q; simpl; [reflexivity|].
  rewrite IH. destruct (P x); [ring|reflexivity].
Qed.

Lemma refreshed_nodes_hold_no_stake (e : ServerPnodes.Env) :
  List.Forall (fun n => activatedStake (staking n) = 0%Q /\
                        delegatedStake (staking n) = 0%Q)
              (fst (ServerPnodes.run (ServerPnodes.fetchFromRpcAndCache e))).
Proof.
  destruct (ServerPnodes.rpcPodsOf (ServerPnodes.env_rpc e)) as [rpcPods|] eqn:Er.
  - rewrite (fetch_result e rpcPods Er).
    destruct (ServerPnodes.mergeRpcPods e rpcPods) as [sorted|] eqn:Em; [|constructor].
    simpl. unfold ServerPnodes.mergeRpcPods in Em. cbv zeta in Em.
    destruct (ServerPnodes.map_throwing _ 0 rpcPods) as [mapped|] eqn:E; [|discriminate].
    simpl in Em. injection Em as <-.
    eapply Permutation_Forall; [symmetry; apply sort_perm|].
    eapply map_throwing_Forall; [|exact E].
    intros x i y. cbv beta. unfold ServerPnodes.mapRpcNodeToPNode. cbv zeta.
    destruct (ServerPnodes.rp_last_seen_timestamp x); [|discriminate].
    destruct (negb _); [discriminate|]. intros [= <-]. split; reflexivity.
  - unfold ServerPnodes.run, ServerPnodes.fetchFromRpcAndCache, ServerPnodes.bind,
      ServerPnodes.emit, ServerPnodes.ret. simpl. rewrite Er. constructor.
Qed.
End StakingFacts.

(** X28. The staking statistics route over nodes whose activated stake
    is not negative reports an active stake between 0 and the total
    stake and a stake utilization between 0 and 100; over the nodes of a
    refresh of server/api/pnodes.ts, which carry no stake, every stake
    figure is 0 and the guard makes the utilization 0, while the
    validator count is the number of nodes; an exception of
    [getClusterNodes] is answered with the status 500. *)
Theorem staking_route_bounds (nodes : list Types.PNode) (e : ServerPnodes.Env) :
  (List.Forall (fun n => (0 <= Types.activatedStake (Types.staking n))%Q) nodes ->
   let s := StakingRoute.summaryOf nodes in
   (0 <= StakingRoute.ss_activeStake s)%Q /\
   (StakingRoute.ss_activeStake s <= StakingRoute.ss_totalStake s)%Q /\
   (0 <= StakingRoute.ss_stakeUtilization s)%Q /\
   (StakingRoute.ss_stakeUtilization s <= 100)%Q) /\
  (let fresh := fst (ServerPnodes.run (ServerPnodes.fetchFromRpcAndCache e)) in
   let s := StakingRoute.summaryOf fresh in
   (StakingRoute.ss_totalStake s == 0)%Q /\ (StakingRoute.ss_activeStake s == 0)%Q /\
   (StakingRoute.ss_delegatorCount s == 0)%Q /\
   (StakingRoute.ss_avgStakePerNode s == 0)%Q /\
   StakingRoute.ss_stakeUtilization s = 0%Q /\
   StakingRoute.ss_validatorCount s = Utils.array_length fresh) /\
  fst (StakingRoute.GET Ingest.Throws) = 500.
Proof.
  split; [|split; [|reflexivity]].
  - intros Hn. cbv zeta. unfold StakingRoute.summaryOf. cbv zeta.
    cbn [StakingRoute.ss_activeStake StakingRoute.ss_totalStake
         StakingRoute.ss_stakeUtilization].
    destruct (totals_bounds nodes
                {| StakingRoute.totalStake := 0; StakingRoute.activeStake := 0;
                   StakingRoute.delegatorCount := 0 |} Hn) as [H0 H1];
      [discriminate|discriminate|].
    cbv zeta in H0, H1.
    set (t := fold_left StakingRoute.addNode nodes _) in *.
    split; [exact H0|]. split; [exact H1|].
    unfold JS.Qgtb. destruct (Qle_bool (StakingRoute.totalStake t) 0) eqn:E; simpl.
    + split; discriminate.
    + assert (Hpos : (0 < StakingRoute.totalStake t)%Q).
      { apply Qnot_le_lt. intros H. apply Qle_bool_iff in H. congruence. }
      split.
      * apply Qmult_le_0_compat; [|discriminate].
        apply Qle_shift_div_l; [exact Hpos|]. now rewrite Qmult_0_l.
      * apply Qle_trans with (1 * 100)%Q; [|discriminate].
        apply Qmult_le_compat_r; [|discriminate].
        apply Qle_shift_div_r; [exact Hpos|]. now rewrite Qmult_1_l.
  - cbv zeta. set (fresh := fst (ServerPnodes.run (ServerPnodes.fetchFromRpcAndCache e))).
    pose proof (refreshed_nodes_hold_no_stake e) as Hz. fold fresh in Hz.
    unfold StakingRoute.summaryOf. cbv zeta.
    rewrite (totals_zero fresh _ Hz).
    cbn [StakingRoute.ss_totalStake StakingRoute.ss_activeStake
         StakingRoute.ss_delegatorCount StakingRoute.ss_avgStakePerNode
         StakingRoute.ss_stakeUtilization StakingRoute.ss_validatorCount
         StakingRoute.totalStake StakingRoute.activeStake StakingRoute.delegatorCount].
    assert (Ht : (fold_left (fun acc (_ : Types.PNode) => acc + 0) fresh 0 == 0)%Q)
      by apply fold_add_zero.
    assert (Ha : (fold_left (fun acc n => if Types.Status_eqb (Types.status n) Types.online
                                          then acc + 0 else acc) fresh 0 == 0)%Q).
    { apply (fold_add_zero_if
               (fun n => Types.Status_eqb (Types.status n) Types.online)). }
    split; [exact Ht|]. split; [exact Ha|]. split; [exact Ht|]. split; [|split].
    + destruct (_ >? 0); [|reflexivity]. rewrite Ht. reflexivity.
    + unfold JS.Qgtb.
      assert (E : Qle_bool (fold_left (fun acc (_ : Types.PNode) => (acc + 0)%Q)
                                      fresh 0%Q) 0 = true).
      { apply Qle_bool_iff. rewrite Ht. apply Qle_refl. }
      rewrite E. reflexivity.
    + reflexivity.
Qed.

(** ** Credits of a refresh *)

(** X29. A refresh of server/api/pnodes.ts over pods that can all be
    dated returns one node per pod, sorted by non-increasing credits;
    the credits of a node are those of the last ledger entry under the
    pubkey that its pod reports, and 0 when the ledger has none or the
    pod reports no pubkey, also when the ledger holds an entry under the
    identity synthesized for that pod. *)
Theorem refresh_credits_follow_the_ledger
    (e : ServerPnodes.Env) (rpcPods : list ServerPnodes.RpcPod) :
  ServerPnodes.rpcPodsOf (ServerPnodes.env_rpc e) = Some rpcPods ->
  Forall (fun x => Vocabulary.usableTimestamp x = true) rpcPods ->
  let returned := fst (ServerPnodes.run (ServerPnodes.fetchFromRpcAndCache e)) in
  StronglySorted (fun a b => b <= a) (map Types.credits_or0 returned) /\
  exists mapped,
    Permutation returned mapped /\
    Forall2 (fun pod node =>
               Types.credits node
               = Some (Terms.ledgerCredit (ServerPnodes.env_podCredits e)
                         (ServerPnodes.rp_pubkey pod)))
            rpcPods mapped.
Proof.
  intros Hr Hall. cbv zeta. rewrite (fetch_result e rpcPods Hr).
  destruct (mergeRpcPods_defined e rpcPods Hall) as [sorted Hs]. rewrite Hs. simpl.
  unfold ServerPnodes.mergeRpcPods in Hs. cbv zeta in Hs.
  destruct (ServerPnodes.map_throwing _ 0 rpcPods) as [mapped|] eqn:E; [|discriminate].
  simpl in Hs. injection Hs as <-. split.
  - apply StronglySorted_map. apply (sort_desc Types.credits_or0).
  - exists mapped. split; [apply sort_perm|].
    eapply map_throwing_Forall2; [|exact E].
    intros x i y. cbv beta zeta. unfold ServerPnodes.mapRpcNodeToPNode. cbv zeta.
    destruct (ServerPnodes.rp_last_seen_timestamp x); [|discriminate].
    destruct (negb _); [discriminate|]. intros [= <-]. cbn [Types.credits].
    change (Some (JS.or_Z (Some (ServerPnodes.creditsFor
                                   (ServerPnodes.creditMapOf
                                      (ServerPnodes.env_podCredits e)) x)) 0)
            = Some (Terms.ledgerCredit (ServerPnodes.env_podCredits e)
                      (ServerPnodes.rp_pubkey x))).
    now rewrite or_Z_Some_0, creditsFor_ledger.
Qed.

Lemma refresh_credits_follow_the_ledger_witness :
  StronglySorted (fun a b => b <= a)
    (map Types.credits_or0
       (fst (ServerPnodes.run (ServerPnodes.fetchFromRpcAndCache Cases.repeatedEnv)))).
Proof.
  assert (H1 : ServerPnodes.rpcPodsOf (ServerPnodes.env_rpc Cases.repeatedEnv)
               = Some [Scenarios.barePod "X" 1700000000;
                       Scenarios.barePod "Y" 1700000000;
                       Scenarios.barePod "X" 1700000100]) by reflexivity.
  assert (H2 : Forall (fun x => Vocabulary.usableTimestamp x = true)
                 [Scenarios.barePod "X" 1700000000;
                  Scenarios.barePod "Y" 1700000000;
                  Scenarios.barePod "X" 1700000100]).
  { repeat constructor. }
  exact (proj1 (refresh_credits_follow_the_ledger Cases.repeatedEnv _ H1 H2)).
Defined.

(** ** Without a ledger *)

Section UnledgeredFacts.
Import JS Types PnodeApi.

Lemma sort_of_equals {A : Type} (cmp : A -> A -> Z) (l : list A) :
  (forall a b, In a l -> In b l -> cmp a b = 0) -> sort cmp l = l.
Proof.
  induction l as [|x l IH]; intros H; simpl; [reflexivity|].
  rewrite IH by (intros a b Ha Hb; apply H; now right).
  destruct l as [|y l]; [reflexivity|]. simpl.
  rewrite (H x y) by (simpl; auto). reflexivity.
Qed.
End UnledgeredFacts.

(** X30. Without a usable credits ledger, [getClusterNodes] of
    lib/pnode-api.ts answers with one node per cluster node, in the
    order of the RPC answer, none of them with credits or a rank;
    [getPeerRankings] then ranks the first 20 online nodes in that same
    order, the sort leaving nodes of equal credits in place. *)
Theorem unledgered_nodes_are_ranked_in_cluster_order (s : PnodeApi.Sources)
    (clusterData : list PnodeApi.ClusterNode) :
  Vocabulary.noCredits (PnodeApi.src_podCredits s) = true ->
  PnodeApi.src_clusterData s = PnodeApi.RpcArray clusterData ->
  let nodes := PnodeApi.getClusterNodes s in
  nodes = JS.mapi (fun node index =>
                     PnodeApi.transformClusterNodeData (PnodeApi.src_now s) node index)
                  clusterData /\
  List.Forall (fun n => Types.credits n = None /\ Types.creditsRank n = None) nodes /\
  map FurtherMetrics.pr_nodePubkey (FurtherMetrics.getPeerRankings s)
  = map Types.pubkey
        (firstn 20 (filter (fun n => Types.Status_eqb (Types.status n) Types.online)
                           nodes)).
Proof.
  intros Hn Hc. cbv zeta.
  assert (Hnodes : PnodeApi.getClusterNodes s
                   = JS.mapi (fun node index =>
                                PnodeApi.transformClusterNodeData (PnodeApi.src_now s)
                                  node index) clusterData).
  { unfold PnodeApi.getClusterNodes. cbv zeta. rewrite Hc.
    unfold Vocabulary.noCredits in Hn.
    destruct (PnodeApi.src_podCredits s) as [[[[|p ps]|]]|]; try reflexivity.
    discriminate. }
  assert (Hnone : List.Forall (fun n => Types.credits n = None /\
                                        Types.creditsRank n = None)
                              (PnodeApi.getClusterNodes s)).
  { rewrite Hnodes. apply List.Forall_forall. intros n Hin.
    unfold JS.mapi in Hin. apply mapi_from_In in Hin.
    destruct Hin as (x & k & _ & _ & ->). split; reflexivity. }
  split; [exact Hnodes|]. split; [exact Hnone|].
  unfold FurtherMetrics.getPeerRankings, FurtherMetrics.peerRankingsOf, JS.mapi.
  rewrite mapi_from_map. cbn [FurtherMetrics.pr_nodePubkey].
  rewrite mapi_from_const_index. f_equal. f_equal.
  apply sort_of_equals. intros a b Ha Hb.
  rewrite List.Forall_forall in Hnone.
  assert (Hz : forall n, In n (filter (fun n => Types.Status_eqb (Types.status n)
                                                  Types.online)
                                      (PnodeApi.getClusterNodes s)) ->
                 Types.credits_or0 n = 0).
  { intros n Hin. apply list_elem_of_In, list_elem_of_filter in Hin.
    destruct Hin as [_ Hin]. apply list_elem_of_In in Hin.
    destruct (Hnone n Hin) as [Hcr _]. unfold Types.credits_or0. now rewrite Hcr. }
  unfold DerivedMetrics.byCreditsDesc. rewrite (Hz a Ha), (Hz b Hb). reflexivity.
Qed.

Lemma unledgered_nodes_are_ranked_in_cluster_order_witness :
  map FurtherMetrics.pr_nodePubkey (FurtherMetrics.getPeerRankings Cases.clusterOnly)
  = map Types.pubkey
        (firstn 20 (filter (fun n => Types.Status_eqb (Types.status n) Types.online)
                           (PnodeApi.getClusterNodes Cases.clusterOnly))).
Proof.
  destruct (unledgered_nodes_are_ranked_in_cluster_order Cases.clusterOnly _
              eq_refl eq_refl) as (_ & _ & H).
  exact H.
Defined.

(** ** Worked examples of the further models *)

(** The ingestion of X, Y, X with the ledger X: 10, Y: 100 upserts Y
    with rank 1 and X with rank 2, and returns the three objects in pod
    order, the first X unranked. *)
Example ingest_of_a_repeated_identity :
  match Ingest.run (Ingest.ingestNodeData (Cases.ingestEnv false)) with
  | (Ingest.Returns (Some pnodes),
     [_; _; _; Ingest.EvUpsert rows; _; _; _; Ingest.EvInsertStats stats]) =>
      map Cases.rowSummary rows = [("Y", Some 100, Some 1); ("X", Some 10, Some 2)] /\
      map Types.creditsRank pnodes = [Some 0; Some 1; Some 2] /\
      map Types.id pnodes = ["pnode_X"; "pnode_Y"; "pnode_X"] /\
      (Ingest.total_nodes stats, Ingest.online_nodes stats, Ingest.offline_nodes stats)
      = (2, 2, 0)
  | _ => False
  end.
Proof. vm_compute. repeat split; reflexivity. Qed.

Example chunks_of_250_addresses :
  map (@List.length string) (GeoBatch.chunksOf (map (fun _ => "10.0.0.1") (seq 0 250)))
  = [100%nat; 100%nat; 50%nat].
Proof. vm_compute. reflexivity. Qed.

Example epoch_fallback_at_a_known_instant :
  let i := FurtherMetrics.getEpochInfo 1700000000000 None in
  (FurtherMetrics.epochStartTime i, FurtherMetrics.slotsCompleted i)
  = (1699833600000, 416000).
Proof. vm_compute. reflexivity. Qed.

Example epoch_from_the_middle_of_an_epoch :
  let i := FurtherMetrics.getEpochInfo 1700000000000
             (Some {| FurtherMetrics.ed_epoch := Some 300;
                      FurtherMetrics.ed_slotIndex := Some 216000;
                      FurtherMetrics.ed_slotsInEpoch := Some 432000;
                      FurtherMetrics.ed_absoluteSlot := None |}) in
  (FurtherMetrics.currentEpoch i, FurtherMetrics.epochStartTime i,
   FurtherMetrics.epochEndTime i, FurtherMetrics.slotsCompleted i,
   FurtherMetrics.blocksProduced i)
  = (300, 1699913600000, 1700086400000, 216000, 85000000).
Proof. vm_compute. reflexivity. Qed.

Example peer_ranking_without_a_ledger :
  map (fun p => (FurtherMetrics.pr_nodePubkey p, FurtherMetrics.pr_rank p))
      (FurtherMetrics.getPeerRankings Cases.clusterOnly)
  = [("W", 1)].
Proof. vm_compute. reflexivity. Qed.

Example peer_ranking_of_three_nodes :
  map (fun p => (FurtherMetrics.pr_nodePubkey p, FurtherMetrics.pr_rank p))
      (FurtherMetrics.getPeerRankings Scenarios.threeNodes)
  = [("A", 1)].
Proof. vm_compute. reflexivity. Qed.
